(* ===== verification/_CoqProject ===== *)
-Q . S2P
Prelude.v
Arch.v
BootInfo.v
Bitmap.v
Pmm.v
PmmSpec.v
Multiboot.v
MultibootSpec.v
Params.v
Vmm.v
PageTables.v
VmmSpec.v
AddressSpace.v
VmmWitness.v
Ports.v
Pic.v
Pit.v
Ring.v
Keyboard.v
KeyboardSpec.v
Vga.v
Serial.v
Raw.v
ConsoleLog.v
Gdt.v
Idt.v
Interrupts.v
Syscall.v
Cpuid.v
Fmt.v
Msr.v
Regs.v
Heap.v
Panic.v
Exceptions.v
Irqs.v
BootMemory.v
BootWitness.v
Report.v
SelftestPmm.v
HeapTest.v
HeapRoom.v
SelftestVmm.v
SelftestMemory.v
SelftestStatic.v
Selftest.v
SelftestRun.v
Kmain.v
Idle.v
