(* ===== verification/Prelude.v ===== *)
(** * Orin OS kernel (orink): verification development

    Orin's milestone-1 kernel is a single-core x86_64 kernel in Rust under
    kernel/src.  The boot stub enters [kernel_main] (kmain.rs) with the address of
    the loader's Multiboot2 information and of a parameter block; [kernel_main]
    brings up the consoles, checks the CPU, parses the boot information, builds the
    frame allocator, the page tables and the heap, installs the interrupt
    machinery and the keyboard driver, runs a self-test that gates the boot, prints
    a banner and echoes typed characters for ever.  This library models that
    program function by function and proves what makes it correct.

    ** How the code is modelled

    - A function that can reach a Rust panic returns a [Res] (this file): [Ret] or
      [Panic] with its reason.  Both cargo profiles switch overflow checks on, so
      [add64], [sub64], [mul64] panic on overflow, and indexing is checked; "never
      panics" is therefore always a theorem and never built in.
    - Machine integers are [Z] with their width written out; bytes and strings are
      lists of [Z] below 256.  Loops over ranges and lists are [for_range] and
      [for_list]; loops that wait for a device carry the source's own spin limit as
      fuel, so no fuel is invented.  The tag walk of the Multiboot2 parser has the
      structure's length as fuel, and parse_total shows it is never exhausted.
      Number formatting has 20 decimal and 16 hexadecimal digits, all a 64-bit
      value can have.
    - Statics and hardware are explicit state: physical memory is a finite map of
      64-bit words (Arch.v), the devices are the class [Bus] behind a log of port
      accesses (Ports.v), CR0, CR3, CR4 and EFER are fields.
    - Code outside the repository is a class with its documented laws: [X86Crate]
      (VirtAddr, PhysAddr), [GdtCrate] (descriptor table), [GlobalAlloc] (the heap
      allocator).  Each has an instance that the witnesses use.
    - The log is threaded through [kernel_main], the self-test, the exception and
      interrupt handlers and the idle loop.  The lines a driver or allocator writes about its
      own work (pmm, vmm, pic, pit, gdt, keyboard, the parser's notes) are not part
      of its state.

    ** Components and files (sources under kernel/src)

    - Memory.  arch.rs: Arch.v.  memory/pmm.rs: Bitmap.v (bit searches), Pmm.v
      (operations and the invariant [pmm_inv]), PmmSpec.v (specification as the set
      of free frames, ownership along traces, the interface [FrameSource]).
      memory/vmm.rs: Vmm.v (operations over any [FrameSource]), PageTables.v (the
      tree invariant), VmmSpec.v, AddressSpace.v (the whole address space),
      VmmWitness.v (a concrete machine).  memory/heap.rs: Heap.v, HeapTest.v, HeapRoom.v.
    - Boot protocol.  multiboot/info.rs and log.rs: BootInfo.v (data), Multiboot.v
      (parser), MultibootSpec.v (encoder and reference interpreter), Params.v
      (command line).
    - Devices and interrupts.  Ports.v; interrupts/pic.rs: Pic.v;
      interrupts/pit.rs: Pit.v; drivers/keyboard.rs: Ring.v (the scancode ring, with
      all interleavings of producer and consumer), Keyboard.v, KeyboardSpec.v;
      interrupts/gdt.rs: Gdt.v; interrupts/idt.rs: Idt.v (table, dispatch, interrupt
      handlers), Exceptions.v (exception handlers with their output) and Irqs.v
      (device interrupt handlers with their output and the locks they take);
      interrupts/mod.rs: Interrupts.v.
    - Consoles and diagnostics.  console/vga.rs: Vga.v; console/serial.rs:
      Serial.v; console/raw.rs: Raw.v; console/log.rs: ConsoleLog.v; panic.rs:
      Panic.v; cpu/regs.rs: Regs.v; number formatting: Fmt.v.
    - CPU and ABI.  cpu/cpuid.rs: Cpuid.v; cpu/msr.rs: Msr.v; syscall/mod.rs:
      Syscall.v.
    - Boot.  kmain.rs: BootMemory.v (reservations and memory bring-up),
      BootWitness.v (a concrete machine), Report.v (the records the boot writes and
      the banner), Kmain.v ([kernel_main]), Idle.v (the echo loop).  selftest.rs:
      SelftestPmm.v, SelftestVmm.v, SelftestStatic.v and Selftest.v (the tests),
      SelftestMemory.v (the memory tests after bring-up), SelftestRun.v
      ([run_all]).

    ** What the theorems show

    - Frames: along every sequence of allocator calls no frame has two owners, the
      counters count, [init] frees exactly the available frames, allocation returns
      a free frame or fails only when none is free, and each operation refines one
      on the set of free frames (PmmSpec).
    - Address space: [map_4k] makes exactly the requested range translate and
      refuses to remap (VmmSpec); [init] builds the documented layout, with every
      other higher-half address unmapped; on a CPU with NX, after hardening no
      present page is writable and executable (in the bits of the entries), and the
      audit decides that property exactly; without NX the audit always answers 0
      (AddressSpace, VmmSpec).
    - Boot memory: what the firmware, the image, the loader and the framebuffer own
      is never allocated; memory bring-up succeeds on every machine that keeps the
      boot stub's, the linker script's and the loader's promises (BootMemory).
    - Boot: such a machine, in a release build, with a running timer and a heap
      allocator that keeps the GlobalAlloc contract and has 32 KiB of room, reaches
      the idle loop with a green self-test; conversely whatever machine reaches it
      has the CPU features, the control registers and the page tables the kernel
      claims, and the banner it printed is true (Kmain, SelftestRun, HeapTest,
      HeapRoom).
    - Boot information: the parser is total on arbitrary bytes, refines a fold over
      the tag list and inverts the encoding; the command line switches NX off only
      as documented (Multiboot, MultibootSpec, Params).
    - Input: the ring is a FIFO queue under every interleaving; decoding follows the
      modifier history; every key round-trips; a typed key is echoed on both
      consoles (Ring, KeyboardSpec, Idle).
    - Interrupts: initialisation brings the 8259A automata to the intended state
      and fills the IDT (all vectors only as far as the x86_64 crate's macro does);
      no sequence of interrupts panics; an exception is reported and ends in the
      panic handler, whose report is complete unless the interrupted code holds a
      lock; a device interrupt hangs the kernel exactly if the interrupted code
      holds a lock its handler needs, and otherwise does what the dispatcher model
      says and acknowledges its line last (Interrupts, Idt, Exceptions, Irqs,
      Panic).
    - Consoles: the writers stay inside the screen for any input, records are
      filtered and routed as configured, text reads back (Vga, ConsoleLog, Raw).

    Theorems that record a divergence between code and documentation are kept
    beside the ones that hold (for instance Irqs.irq_stuck_iff,
    Panic.held_lock_hangs, Exceptions.exception_deadlocks,
    SelftestVmm.nx_off_fails_selftest).

    Interfaces: [FrameSource] between the frame allocator and the page tables,
    [Bus] between drivers and devices, [GlobalAlloc] and [HeapRoom] between the heap
    test and the allocator.  Clients are proved against the class; PmmSpec.v,
    VmmSpec.v, HeapTest.v and HeapRoom.v give the instances.

    ** Not modelled, and why

    The assembly boot stub and the linker script (their promises are the
    hypotheses [machine_ok], [boot_map], [sections_ok]); main.rs, lib.rs and the
    mod.rs files (entry shim, module lists, macros); cpu/mod.rs (single
    instructions); TLB flushes and memory ordering beyond the interleavings of
    Ring.v; the instruction-level effect of faults; build.rs and the host tools.
    [f64] formatting occurs once, in the banner, and is exact there below 2^53. *)

From stdpp Require Import base gmap sets list list_numbers strings numbers.
From Stdlib Require Import ZArith Lia.

Declare Scope orin_scope.
Delimit Scope orin_scope with orin.
#[local] Open Scope Z_scope.

(** ** Results of kernel code

    Every function of the kernel that can reach a Rust panic (an arithmetic
    overflow: both cargo profiles set [overflow-checks = true]; an index out
    of bounds; a failed [assert!]; an explicit [panic!]) returns a [Res]. *)

Inductive fault : Type :=
  | Overflow
  | OutOfBounds
  | DivByZero
  | OutOfFuel
  | PanicMsg (msg : string).

#[export] Instance fault_eq_dec : EqDecision fault.
Proof. solve_decision. Defined.

Inductive Res (A : Type) : Type :=
  | Ret (a : A)
  | Panic (f : fault).
Arguments Ret {A} a.
Arguments Panic {A} f.

#[export] Instance Res_ret : MRet Res := @Ret.
#[export] Instance Res_bind : MBind Res := fun A B f m =>
  match m with Ret a => f a | Panic e => Panic e end.
#[export] Instance Res_fmap : FMap Res := fun A B f m =>
  match m with Ret a => Ret (f a) | Panic e => Panic e end.

(** [assert!(b, msg)] *)
Definition rassert (b : bool) (msg : string) : Res unit :=
  if b then Ret tt else Panic (PanicMsg msg).

Lemma bind_Ret {A B} (m : Res A) (f : A → Res B) (b : B) :
  m ≫= f = Ret b ↔ ∃ a, m = Ret a ∧ f a = Ret b.
Proof. destruct m; cbn; naive_solver. Qed.

Lemma Ret_inj {A} (a b : A) : Ret a = Ret b → a = b.
Proof. by intros [=]. Qed.

Lemma Ret_bind {A B} (a : A) (f : A → Res B) : (x ← Ret a; f x) = f a.
Proof. reflexivity. Qed.

Lemma Res_ret_r {A} (x : Res A) : (a ← x; Ret a) = x.
Proof. by destruct x. Qed.

Lemma rassert_Ret b msg u : rassert b msg = Ret u ↔ b = true.
Proof. destruct b, u; cbn; naive_solver. Qed.

(** ** Machine integers

    A [u8], [u16], [u32], [u64] or [usize] (64 bits) is its value in [Z]. *)

Definition U64 : Z := 2 ^ 64.
Definition in_u (w x : Z) : bool := (0 <=? x) && (x <? 2 ^ w).

Definition add64 (a b : Z) : Res Z :=
  if a + b <? U64 then Ret (a + b) else Panic Overflow.
Definition sub64 (a b : Z) : Res Z :=
  if b <=? a then Ret (a - b) else Panic Overflow.
Definition mul64 (a b : Z) : Res Z :=
  if a * b <? U64 then Ret (a * b) else Panic Overflow.
Definition sat_add64 (a b : Z) : Z := Z.min (a + b) (U64 - 1).
Definition sat_mul64 (a b : Z) : Z := Z.min (a * b) (U64 - 1).
Definition wrap64 (a : Z) : Z := a mod U64.
(** [!x] on a [w]-bit integer *)
Definition bnot (w x : Z) : Z := Z.ldiff (Z.ones w) x.

Lemma U64_val : U64 = 18446744073709551616.
Proof. reflexivity. Qed.

Lemma add64_ok a b : a + b < U64 → add64 a b = Ret (a + b).
Proof. unfold add64. intros H. destruct (Z.ltb_spec (a + b) U64); [done|lia]. Qed.
Lemma sub64_ok a b : b ≤ a → sub64 a b = Ret (a - b).
Proof. unfold sub64. intros H. destruct (Z.leb_spec b a); [done|lia]. Qed.
Lemma mul64_ok a b : a * b < U64 → mul64 a b = Ret (a * b).
Proof. unfold mul64. intros H. destruct (Z.ltb_spec (a * b) U64); [done|lia]. Qed.
Lemma add64_Ret a b c : add64 a b = Ret c ↔ c = a + b ∧ a + b < U64.
Proof. unfold add64. destruct (Z.ltb_spec (a + b) U64); naive_solver lia. Qed.
Lemma sub64_Ret a b c : sub64 a b = Ret c ↔ c = a - b ∧ b ≤ a.
Proof. unfold sub64. destruct (Z.leb_spec b a); naive_solver lia. Qed.
Lemma mul64_Ret a b c : mul64 a b = Ret c ↔ c = a * b ∧ a * b < U64.
Proof. unfold mul64. destruct (Z.ltb_spec (a * b) U64); naive_solver lia. Qed.

(** ** Slices: indexing with Rust's bounds check *)

Definition lget {A} (l : list A) (i : Z) : Res A :=
  if 0 <=? i then
    match l !! Z.to_nat i with Some x => Ret x | None => Panic OutOfBounds end
  else Panic OutOfBounds.

Definition lset {A} (l : list A) (i : Z) (x : A) : Res (list A) :=
  if (0 <=? i) && (i <? Z.of_nat (length l))
  then Ret (<[Z.to_nat i := x]> l)
  else Panic OutOfBounds.

Lemma lget_Ret {A} (l : list A) i x :
  lget l i = Ret x ↔ 0 ≤ i ∧ l !! Z.to_nat i = Some x.
Proof.
  unfold lget. destruct (Z.leb_spec 0 i); [|naive_solver lia].
  destruct (l !! Z.to_nat i); naive_solver.
Qed.

Lemma lget_ok {A} (l : list A) i :
  0 ≤ i < Z.of_nat (length l) → ∃ x, lget l i = Ret x.
Proof.
  intros Hi. destruct (lookup_lt_is_Some_2 l (Z.to_nat i)) as [x Hx]; [lia|].
  exists x. apply lget_Ret. naive_solver lia.
Qed.

Lemma lset_Ret {A} (l l' : list A) i x :
  lset l i x = Ret l' ↔
  0 ≤ i < Z.of_nat (length l) ∧ l' = <[Z.to_nat i := x]> l.
Proof.
  unfold lset. destruct (Z.leb_spec 0 i), (Z.ltb_spec i (Z.of_nat (length l)));
    cbn; naive_solver lia.
Qed.

Lemma lset_ok {A} (l : list A) i x :
  0 ≤ i < Z.of_nat (length l) → lset l i x = Ret (<[Z.to_nat i := x]> l).
Proof. intros. by apply lset_Ret. Qed.

(** ** Loops: [for i in lo..hi { body }] over a mutable state *)

Fixpoint for_n {S} (n : nat) (i : Z) (s : S) (body : Z → S → Res S) : Res S :=
  match n with
  | O => Ret s
  | S n' => s' ← body i s; for_n n' (i + 1) s' body
  end.

Definition for_range {S} (lo hi : Z) (s : S) (body : Z → S → Res S) : Res S :=
  for_n (Z.to_nat (hi - lo)) lo s body.

Lemma for_range_empty {S} lo hi (s : S) body :
  hi ≤ lo → for_range lo hi s body = Ret s.
Proof. intros. unfold for_range. by replace (Z.to_nat (hi - lo)) with O by lia. Qed.

Lemma for_range_step {S} lo hi (s : S) body :
  lo < hi →
  for_range lo hi s body = (s' ← body lo s; for_range (lo + 1) hi s' body).
Proof.
  intros. unfold for_range.
  replace (Z.to_nat (hi - lo)) with (Datatypes.S (Z.to_nat (hi - (lo + 1)))) by lia.
  done.
Qed.

(** The loop rule: an invariant established before the loop and preserved by
    a body that never panics gives a loop that never panics. *)
Lemma for_range_inv {S} (P : Z → S → Prop) lo hi s body :
  lo ≤ hi →
  P lo s →
  (∀ i s, lo ≤ i < hi → P i s → ∃ s', body i s = Ret s' ∧ P (i + 1) s') →
  ∃ s', for_range lo hi s body = Ret s' ∧ P hi s'.
Proof.
  intros Hle. remember (Z.to_nat (hi - lo)) as n eqn:Hn.
  revert lo s Hle Hn. induction n as [|n IH]; intros lo s Hle Hn H0 Hstep.
  - exists s. rewrite for_range_empty by lia.
    by replace hi with lo by lia.
  - rewrite for_range_step by lia.
    destruct (Hstep lo s) as (s1 & -> & H1); [lia|done|]. cbn.
    apply IH; [lia|lia|done|]. intros i s2 Hi. apply Hstep. lia.
Qed.

(** The partial form: whatever state the loop returns satisfies the
    invariant. *)
Lemma for_range_inv_partial {S} (P : Z → S → Prop) lo hi s body s' :
  lo ≤ hi →
  P lo s →
  (∀ i s s', lo ≤ i < hi → P i s → body i s = Ret s' → P (i + 1) s') →
  for_range lo hi s body = Ret s' → P hi s'.
Proof.
  intros Hle. remember (Z.to_nat (hi - lo)) as n eqn:Hn.
  revert lo s Hle Hn. induction n as [|n IH]; intros lo s Hle Hn H0 Hstep.
  - rewrite for_range_empty by lia. intros [= <-]. by replace hi with lo by lia.
  - rewrite for_range_step by lia. intros (s1 & H1 & H2)%bind_Ret.
    apply (IH (lo + 1) s1); [lia|lia| |intros i s2 s3 Hi; apply Hstep; lia|done].
    by apply (Hstep lo s); [lia|..].
Qed.

(** ** Loops with an exit: [while]/[loop] with [break] or [return]

    The body maps a state to the next state ([inl]) or to the result of the
    loop ([inr]).  [OutOfFuel] is not a fault of the kernel: the total loop
    rule below shows that it is not reached when a measure decreases. *)

Fixpoint loop {S R} (fuel : nat) (s : S) (body : S → Res (S + R)) : Res R :=
  match fuel with
  | O => Panic OutOfFuel
  | S fuel' =>
      r ← body s;
      match r with inl s' => loop fuel' s' body | inr x => Ret x end
  end.

Lemma loop_total {S R} (P : S → Prop) (Q : R → Prop) (μ : S → nat) body fuel s :
  (∀ s, P s →
     (∃ x, body s = Ret (inr x) ∧ Q x) ∨
     (∃ s', body s = Ret (inl s') ∧ P s' ∧ (μ s' < μ s)%nat)) →
  P s → (μ s < fuel)%nat →
  ∃ x, loop fuel s body = Ret x ∧ Q x.
Proof.
  intros Hstep. revert s. induction fuel as [|fuel IH]; intros s HP Hf; [lia|].
  cbn. destruct (Hstep s HP) as [(x & -> & HQ)|(s' & -> & HP' & Hlt)]; cbn.
  - eauto.
  - apply IH; [done|lia].
Qed.

Arguments loop : simpl never.
Arguments for_range : simpl never.

(** ** Iteration over a slice: [for x in l { body }] *)

Fixpoint for_list {A S} (l : list A) (s : S) (body : A → S → Res S) : Res S :=
  match l with
  | [] => Ret s
  | x :: l' => s' ← body x s; for_list l' s' body
  end.

Lemma for_list_app {A S} (l1 l2 : list A) (s : S) body :
  for_list (l1 ++ l2) s body = (s' ← for_list l1 s body; for_list l2 s' body).
Proof.
  revert s. induction l1 as [|x l1 IH]; intros s; cbn; [done|].
  destruct (body x s); cbn; [apply IH|done].
Qed.

(** ** Bits *)

Lemma testbit_high w x i : 0 ≤ w → 0 ≤ x < 2 ^ w → w ≤ i → Z.testbit x i = false.
Proof.
  intros Hw Hx Hi. rewrite <- (Z.mod_small x (2 ^ w)) by lia.
  by apply Z.mod_pow2_bits_high.
Qed.

Lemma bits_bound w x :
  0 ≤ w → 0 ≤ x → (∀ i, w ≤ i → Z.testbit x i = false) → x < 2 ^ w.
Proof.
  intros Hw Hx Hb.
  assert (x = x mod 2 ^ w) as Heq.
  { apply Z.bits_inj'. intros i Hi. destruct (Z.lt_ge_cases i w).
    - by rewrite Z.mod_pow2_bits_low.
    - rewrite Z.mod_pow2_bits_high by lia. by apply Hb. }
  rewrite Heq. apply Z.mod_pos_bound. lia.
Qed.

Lemma lor_bound w x y :
  0 ≤ w → 0 ≤ x < 2 ^ w → 0 ≤ y < 2 ^ w → 0 ≤ Z.lor x y < 2 ^ w.
Proof.
  intros Hw Hx Hy. split; [apply Z.lor_nonneg; lia|].
  apply bits_bound; [done|apply Z.lor_nonneg; lia|]. intros i Hi.
  by rewrite Z.lor_spec, !(testbit_high w).
Qed.

Lemma ldiff_bound w x y :
  0 ≤ w → 0 ≤ x < 2 ^ w → 0 ≤ Z.ldiff x y < 2 ^ w.
Proof.
  intros Hw Hx. split; [apply Z.ldiff_nonneg; lia|].
  apply bits_bound; [done|apply Z.ldiff_nonneg; lia|]. intros i Hi.
  by rewrite Z.ldiff_spec, (testbit_high w).
Qed.

Lemma land_bound w x y :
  0 ≤ w → 0 ≤ x < 2 ^ w → 0 ≤ Z.land x y < 2 ^ w.
Proof.
  intros Hw Hx. split; [apply Z.land_nonneg; lia|].
  apply bits_bound; [done|apply Z.land_nonneg; lia|]. intros i Hi.
  by rewrite Z.land_spec, (testbit_high w).
Qed.

Lemma pow2_bound w k : 0 ≤ k < w → 0 ≤ Z.shiftl 1 k < 2 ^ w.
Proof.
  intros. rewrite Z.shiftl_1_l. split; [lia|]. apply Z.pow_lt_mono_r; lia.
Qed.

Lemma testbit_shiftl_1 k i : 0 ≤ k → Z.testbit (Z.shiftl 1 k) i = (k =? i).
Proof. intros. rewrite Z.shiftl_1_l. apply Z.pow2_bits_eqb. lia. Qed.

Lemma land_pow2_eqb x k :
  0 ≤ k → (Z.land x (Z.shiftl 1 k) =? 0) = negb (Z.testbit x k).
Proof.
  intros Hk. destruct (Z.testbit x k) eqn:E; cbn.
  - apply Z.eqb_neq. intros H0. apply (f_equal (fun z => Z.testbit z k)) in H0.
    rewrite Z.land_spec, testbit_shiftl_1, E, Z.eqb_refl, Z.bits_0 in H0; done.
  - apply Z.eqb_eq. apply Z.bits_inj'. intros i Hi.
    rewrite Z.land_spec, testbit_shiftl_1, Z.bits_0 by done.
    destruct (Z.eqb_spec k i) as [->|]; [by rewrite E|apply andb_false_r].
Qed.

Lemma land_pow2_ltb x k :
  0 ≤ k → negb (Z.land x (Z.shiftl 1 k) =? 0) = Z.testbit x k.
Proof. intros. rewrite land_pow2_eqb by done. apply negb_involutive. Qed.

Lemma aligned_testbit x k i :
  0 ≤ k → x mod 2 ^ k = 0 → i < k → Z.testbit x i = false.
Proof.
  intros Hk Hx Hi. destruct (Z.lt_ge_cases i 0); [by apply Z.testbit_neg_r|].
  rewrite <- (Z.mod_pow2_bits_low x k) by lia. by rewrite Hx, Z.bits_0.
Qed.

Lemma testbit_aligned x k :
  0 ≤ k → (∀ i, 0 ≤ i < k → Z.testbit x i = false) → x mod 2 ^ k = 0.
Proof.
  intros Hk H. apply Z.bits_inj'. intros i Hi. rewrite Z.bits_0.
  destruct (Z.lt_ge_cases i k).
  - rewrite Z.mod_pow2_bits_low by lia. apply H. lia.
  - apply Z.mod_pow2_bits_high. lia.
Qed.

Lemma bnot_spec w x i :
  0 ≤ w → Z.testbit (bnot w x) i = ((0 <=? i) && (i <? w) && negb (Z.testbit x i))%bool.
Proof.
  intros Hw. unfold bnot. rewrite Z.ldiff_spec.
  destruct (Z.leb_spec 0 i); cbn; [|by rewrite Z.testbit_neg_r].
  destruct (Z.ltb_spec i w).
  - by rewrite Z.ones_spec_low by lia.
  - by rewrite Z.ones_spec_high by lia.
Qed.

(** [x & !(2^k - 1)] rounds down to a multiple of [2^k]. *)
Lemma land_bnot_align k x :
  0 ≤ k ≤ 64 → 0 ≤ x < U64 → Z.land x (bnot 64 (Z.ones k)) = 2 ^ k * (x / 2 ^ k).
Proof.
  intros Hk Hx. replace (2 ^ k * (x / 2 ^ k)) with (Z.shiftl (Z.shiftr x k) k)
    by (rewrite Z.shiftl_mul_pow2, Z.shiftr_div_pow2 by lia; lia).
  apply Z.bits_inj'. intros i Hi. rewrite Z.land_spec, bnot_spec by lia.
  destruct (Z.lt_ge_cases i k).
  - rewrite Z.shiftl_spec_low, Z.ones_spec_low by lia. cbn. by rewrite !andb_false_r.
  - rewrite Z.shiftl_spec_high, Z.shiftr_spec, Z.ones_spec_high by lia.
    replace (i - k + k) with i by lia. destruct (Z.leb_spec 0 i); [|lia].
    destruct (Z.ltb_spec i 64); [by rewrite andb_true_r|].
    by rewrite (testbit_high 64) by (unfold U64 in Hx; lia).
Qed.

(** [u64::trailing_zeros] of a non-zero word *)
Fixpoint pos_tz (p : positive) : nat :=
  match p with
  | xO q => S (pos_tz q)
  | _ => O
  end.

Definition trailing_zeros (w : Z) : Z :=
  match w with
  | Zpos p => Z.of_nat (pos_tz p)
  | _ => 64
  end.

Lemma trailing_zeros_spec w :
  0 < w →
  0 ≤ trailing_zeros w ∧
  Z.testbit w (trailing_zeros w) = true ∧
  ∀ j, j < trailing_zeros w → Z.testbit w j = false.
Proof.
  destruct w as [|p|p]; [lia| |lia]. intros _.
  induction p as [p IH|p IH|]; cbn [trailing_zeros pos_tz] in *.
  - split_and!; [lia|done|]. intros. by apply Z.testbit_neg_r.
  - destruct IH as (H1 & H2 & H3). rewrite Nat2Z.inj_succ, Pos2Z.pos_xO.
    split_and!; [lia| |].
    + by rewrite Z.double_bits_succ.
    + intros j Hj. rewrite Z.double_bits. apply H3. lia.
  - split_and!; [lia|done|]. intros. by apply Z.testbit_neg_r.
Qed.

Lemma trailing_zeros_lt w n : 0 ≤ n → 0 < w < 2 ^ n → trailing_zeros w < n.
Proof.
  intros Hn Hw. destruct (trailing_zeros_spec w) as (H1 & H2 & _); [lia|].
  destruct (Z.lt_ge_cases (trailing_zeros w) n); [done|].
  by rewrite (testbit_high n) in H2 by lia.
Qed.

(** ** Automation *)

Create HintDb orin discriminated.
Create Rewrite HintDb zbits.
#[export] Hint Rewrite Z.land_spec Z.lor_spec Z.ldiff_spec Z.lxor_spec Z.bits_0 : zbits.

(** Decompose a monadic computation that is known to return. *)
Ltac res_inv :=
  repeat match goal with
  | H : _ ≫= _ = Ret _ |- _ =>
      let H1 := fresh "H" in
      apply bind_Ret in H; destruct H as (? & H1 & H)
  | H : rassert _ _ = Ret _ |- _ => apply rassert_Ret in H
  | H : add64 _ _ = Ret _ |- _ => apply add64_Ret in H; destruct H as [-> H]
  | H : sub64 _ _ = Ret _ |- _ => apply sub64_Ret in H; destruct H as [-> H]
  | H : mul64 _ _ = Ret _ |- _ => apply mul64_Ret in H; destruct H as [-> H]
  | H : Ret _ = Ret _ |- _ => injection H as H
  | H : Panic _ = Ret _ |- _ => discriminate H
  end.

(** Close [∃ r, Ret x = Ret r ∧ P r] where [P x] is immediate. *)
Ltac rdone := eexists; split; [reflexivity|done].

(** Arithmetic with division and modulo by constants. *)
Ltac zlia := Z.div_mod_to_equations; lia.

(** Reflect boolean comparisons on [Z]. *)
Ltac zbool :=
  repeat match goal with
  | H : context [?a <? ?b] |- _ => destruct (Z.ltb_spec a b)
  | H : context [?a <=? ?b] |- _ => destruct (Z.leb_spec a b)
  | H : context [?a =? ?b] |- _ => destruct (Z.eqb_spec a b)
  | |- context [?a <? ?b] => destruct (Z.ltb_spec a b)
  | |- context [?a <=? ?b] => destruct (Z.leb_spec a b)
  | |- context [?a =? ?b] => destruct (Z.eqb_spec a b)
  end; cbn [andb orb negb] in *.

(** ** Integer intervals as finite sets *)

Definition zrange (lo hi : Z) : gset Z := list_to_set (seqZ lo (hi - lo)).

Lemma elem_of_zrange i lo hi : i ∈ zrange lo hi ↔ lo ≤ i < hi.
Proof. unfold zrange. rewrite elem_of_list_to_set, elem_of_seqZ. lia. Qed.

Lemma zrange_empty lo hi : hi ≤ lo → zrange lo hi = ∅.
Proof. intros. apply set_eq. intros i. rewrite elem_of_zrange. set_solver by lia. Qed.

Lemma zrange_snoc lo hi : lo ≤ hi → zrange lo (hi + 1) = zrange lo hi ∪ {[hi]}.
Proof.
  intros. apply set_eq. intros i.
  rewrite elem_of_union, !elem_of_zrange, elem_of_singleton. lia.
Qed.

Lemma size_zrange lo hi : size (zrange lo hi) = Z.to_nat (hi - lo).
Proof.
  unfold zrange. rewrite size_list_to_set by apply NoDup_seqZ.
  apply length_seqZ.
Qed.
