(* ===== verification/Arch.v ===== *)
(** * Architecture constants and address translation (kernel/src/arch.rs)

    The constants of [arch.rs], the higher-half translation functions and the
    linker-filled [BootParams] block.  Physical memory is a map from 8-byte
    aligned physical addresses to 64-bit words; a word that is not in the map
    reads as 0, and theorems quantify over every map, so every initial content
    of memory is covered.  Code that dereferences [VirtAddr::new(pa)] (identity
    map) or [phys_to_virt(pa)] (boot alias) accesses the word at [pa].

    [VirtAddr] and [PhysAddr] belong to the [x86_64] crate, which is not part
    of the repository: their checked constructors are the operations of the
    class [X86Crate], with the crate's documented behaviour as laws. *)

From S2P Require Import Prelude.
From stdpp Require Import base gmap sets list strings numbers.
From Stdlib Require Import ZArith Lia.
#[local] Open Scope Z_scope.

(** ** Physical memory *)

Abbreviation phys := (gmap Z Z).

Definition ld64 (m : phys) (a : Z) : Z := default 0 (m !! a).
Definition st64 (m : phys) (a v : Z) : phys := <[a := v]> m.
Definition ld8 (m : phys) (a : Z) : Z :=
  Z.land (Z.shiftr (ld64 m (8 * (a / 8))) (8 * (a mod 8))) 255.

Lemma ld64_st64_eq m a v : ld64 (st64 m a v) a = v.
Proof. unfold ld64, st64. by rewrite lookup_insert_eq. Qed.
Lemma ld64_st64_ne m a b v : a ≠ b → ld64 (st64 m a v) b = ld64 m b.
Proof. intros. unfold ld64, st64. by rewrite lookup_insert_ne. Qed.

(** ** Constants *)

Definition KERNEL_VMA : Z := 0xFFFFFFFF80000000.
Definition KERNEL_SPACE_START : Z := KERNEL_VMA.
Definition PAGE_SIZE : Z := 4096.
Definition LARGE_PAGE_SIZE : Z := 2 * 1024 * 1024.
Definition HUGE_PAGE_SIZE : Z := 1024 * 1024 * 1024.
Definition BOOT_MAPPED_BYTES : Z := 2 * 1024 * 1024 * 1024.
Definition HEAP_VIRT_START : Z := 0xFFFFFFFF00000000.
Definition HEAP_SIZE : Z := 16 * 1024 * 1024.
Definition DIRECT_MAP_VIRT_START : Z := 0xFFFF800000000000.

(** ** The address types of the [x86_64] crate *)

(** Bits 48..63 are a sign extension of bit 47. *)
Definition canonical (v : Z) : bool :=
  (in_u 47 v || ((U64 - 2 ^ 47 <=? v) && (v <? U64)))%bool.

Class X86Crate : Type := {
  VirtAddr_new : Z → Res Z;
  PhysAddr_new : Z → Res Z;
  VirtAddr_new_ok v : canonical v = true → VirtAddr_new v = Ret v;
  VirtAddr_new_bad v : canonical v = false → ∃ f, VirtAddr_new v = Panic f;
  PhysAddr_new_ok p : in_u 52 p = true → PhysAddr_new p = Ret p;
  PhysAddr_new_bad p : in_u 52 p = false → ∃ f, PhysAddr_new p = Panic f;
}.

(** A concrete crate that satisfies the laws. *)
Definition checked_new (ok : Z → bool) (msg : string) (v : Z) : Res Z :=
  if ok v then Ret v else Panic (PanicMsg msg).

#[refine] Definition x86_ref : X86Crate := {|
  VirtAddr_new := checked_new canonical "address is not canonical";
  PhysAddr_new := checked_new (in_u 52) "physical address has high bits set";
|}.
Proof.
  all: unfold checked_new; intros v H; rewrite H; eauto.
Defined.

(** ** Address translation *)

Section Translation.
Context `{X : X86Crate}.

Definition virt_to_phys (va : Z) : Res (option Z) :=
  if va <? KERNEL_SPACE_START then Ret None
  else Some <$> PhysAddr_new (wrap64 (va - KERNEL_VMA)).

Definition phys_to_virt (pa : Z) : Res Z :=
  VirtAddr_new (wrap64 (pa + KERNEL_VMA)).

(** [debug] is [cfg!(debug_assertions)]. *)
Definition phys_as_ident (debug : bool) (pa : Z) : Res Z :=
  _ ← rassert (negb debug || (pa <? BOOT_MAPPED_BYTES)) "phys_as_ident outside the M1 identity map";
  VirtAddr_new pa.

Definition phys_is_boot_mapped (pa : Z) : bool := pa <? BOOT_MAPPED_BYTES.

Definition sym_to_virt (p : Z) : Res Z := VirtAddr_new p.

End Translation.

(** ** Boot parameters *)

Record BootParams : Type := mkBootParams {
  kernel_phys_start_ : Z;
  kernel_phys_end_ : Z;
  boot_bss_phys_start_ : Z;
  boot_bss_phys_end_ : Z;
  heap_phys_start_ : Z;
  heap_phys_end_ : Z;
}.

(** [BOOT_PARAMS_PHYS] holds the block's physical address, 0 until
    [set_boot_params] runs. *)
Definition set_boot_params (old phys : Z) : Z := phys.

Section BootParamsRead.
Context `{X : X86Crate}.

(** The block is read through the boot alias of [phys]. *)
Definition boot_params (m : phys) (BOOT_PARAMS_PHYS : Z) : Res BootParams :=
  let p := BOOT_PARAMS_PHYS in
  _ ← rassert (negb (p =? 0)) "boot_params called before boot.asm's parameter block was recorded";
  _ ← rassert (p mod 8 =? 0) "boot parameter block is not 8-byte aligned";
  pa ← PhysAddr_new p;
  _ ← phys_to_virt pa;
  Ret {| kernel_phys_start_ := ld64 m (p + 0x00);
         kernel_phys_end_ := ld64 m (p + 0x08);
         boot_bss_phys_start_ := ld64 m (p + 0x10);
         boot_bss_phys_end_ := ld64 m (p + 0x18);
         heap_phys_start_ := ld64 m (p + 0x20);
         heap_phys_end_ := ld64 m (p + 0x28) |}.

Definition kernel_phys_start (m : phys) (bp : Z) : Res Z :=
  kernel_phys_start_ <$> boot_params m bp.
Definition kernel_phys_end (m : phys) (bp : Z) : Res Z :=
  kernel_phys_end_ <$> boot_params m bp.
Definition boot_bss_phys_range (m : phys) (bp : Z) : Res (Z * Z) :=
  p ← boot_params m bp; Ret (boot_bss_phys_start_ p, boot_bss_phys_end_ p).
Definition heap_phys_range (m : phys) (bp : Z) : Res (Z * Z) :=
  p ← boot_params m bp; Ret (heap_phys_start_ p, heap_phys_end_ p).

End BootParamsRead.

(** ** Lemmas *)

Lemma canonical_iff v :
  canonical v = true ↔ 0 ≤ v < 2 ^ 47 ∨ U64 - 2 ^ 47 ≤ v < U64.
Proof. unfold canonical, in_u. zbool; naive_solver lia. Qed.

Lemma in_u_iff w x : in_u w x = true ↔ 0 ≤ x < 2 ^ w.
Proof. unfold in_u. zbool; naive_solver lia. Qed.

Section TranslationFacts.
Context `{X : X86Crate}.

Lemma VirtAddr_new_Ret v v' : VirtAddr_new v = Ret v' → v' = v ∧ canonical v = true.
Proof.
  intros H. destruct (canonical v) eqn:E.
  - rewrite VirtAddr_new_ok in H by done. naive_solver.
  - destruct (VirtAddr_new_bad v E) as [f Hf]. congruence.
Qed.

Lemma VirtAddr_new_low v : 0 ≤ v < 2 ^ 47 → VirtAddr_new v = Ret v.
Proof. intros. apply VirtAddr_new_ok, canonical_iff. lia. Qed.

Lemma PhysAddr_new_low p : 0 ≤ p < 2 ^ 52 → PhysAddr_new p = Ret p.
Proof. intros. apply PhysAddr_new_ok, in_u_iff. lia. Qed.

Lemma phys_to_virt_boot pa :
  0 ≤ pa < BOOT_MAPPED_BYTES → phys_to_virt pa = Ret (pa + KERNEL_VMA).
Proof.
  unfold BOOT_MAPPED_BYTES. intros Hpa. unfold phys_to_virt, wrap64.
  rewrite Z.mod_small by (unfold KERNEL_VMA, U64; lia).
  apply VirtAddr_new_ok, canonical_iff. unfold KERNEL_VMA, U64. lia.
Qed.

Lemma virt_to_phys_kernel va :
  KERNEL_VMA ≤ va < U64 → virt_to_phys va = Ret (Some (va - KERNEL_VMA)).
Proof.
  intros Hva. unfold virt_to_phys, KERNEL_SPACE_START. zbool; [lia|].
  unfold wrap64. rewrite Z.mod_small by (unfold KERNEL_VMA, U64 in *; lia).
  rewrite PhysAddr_new_low; [done|]. unfold KERNEL_VMA, U64 in *; lia.
Qed.

Lemma phys_to_virt_wraps pa :
  BOOT_MAPPED_BYTES ≤ pa < 2 ^ 47 → phys_to_virt pa = Ret (pa - BOOT_MAPPED_BYTES).
Proof.
  unfold BOOT_MAPPED_BYTES. intros Hpa. unfold phys_to_virt, wrap64.
  replace ((pa + KERNEL_VMA) mod U64) with (pa - 2 * 1024 * 1024 * 1024).
  - apply VirtAddr_new_low. lia.
  - apply (Z.mod_unique _ _ 1); unfold KERNEL_VMA, U64; lia.
Qed.

(** Arch_round_trip.  Translating a physical address up and back gives the address exactly when
    it lies in the 2 GiB boot mapping; above it the sum wraps into the low
    half, which [virt_to_phys] rejects. *)
Theorem phys_virt_round_trip (pa : Z) :
  0 ≤ pa < 2 ^ 47 →
  (v ← phys_to_virt pa; virt_to_phys v) =
    Ret (if pa <? BOOT_MAPPED_BYTES then Some pa else None).
Proof.
  intros Hpa. zbool.
  - rewrite phys_to_virt_boot by lia. cbn.
    rewrite virt_to_phys_kernel by (unfold KERNEL_VMA, BOOT_MAPPED_BYTES, U64 in *; lia).
    do 2 f_equal. lia.
  - rewrite phys_to_virt_wraps by lia. cbn. unfold virt_to_phys, KERNEL_SPACE_START.
    zbool; [done|]. unfold KERNEL_VMA, BOOT_MAPPED_BYTES in *. lia.
Qed.

End TranslationFacts.

Lemma phys_virt_round_trip_witness :
  (v ← @phys_to_virt x86_ref 0x12340000; @virt_to_phys x86_ref v)
    = Ret (Some 0x12340000).
Proof. apply (@phys_virt_round_trip x86_ref 0x12340000). lia. Defined.
