(* ===== verification/BootInfo.v ===== *)
(** * Data shared by the boot protocol code

    The types of kernel/src/multiboot/info.rs and kernel/src/log.rs that other
    modules consume: log levels and targets, the heap-free containers of
    [multiboot::info::heapless], and [BootInfo] itself.  A [&str] is the list of
    its bytes, each byte a number below 256. *)

From S2P Require Import Prelude.
From stdpp Require Import base list strings numbers.
From Stdlib Require Import ZArith Lia Ascii.
#[local] Open Scope Z_scope.

(** ** Strings as bytes *)

Abbreviation bytes := (list Z).

(** The bytes of an ASCII string literal of the source. *)
Definition lit (s : string) : bytes :=
  (fun a => Z.of_nat (nat_of_ascii a)) <$> String.list_ascii_of_string s.

Definition is_u8 (b : Z) : Prop := 0 ≤ b < 256.

(** ** Levels and targets (kernel/src/log.rs) *)

Inductive Level : Type := Trace | Debug | Info | Warn | Error | Critical | PanicLevel.
#[export] Instance Level_eq_dec : EqDecision Level.
Proof. solve_decision. Defined.

(** The [repr(u8)] discriminant, which the derived order compares. *)
Definition level_code (l : Level) : Z :=
  match l with
  | Trace => 0 | Debug => 1 | Info => 2 | Warn => 3
  | Error => 4 | Critical => 5 | PanicLevel => 6
  end.

Definition letter (l : Level) : string :=
  match l with
  | Trace => "T" | Debug => "D" | Info => "I" | Warn => "W"
  | Error => "E" | Critical => "C" | PanicLevel => "P"
  end.

Definition bytes_eqb (a b : bytes) : bool := bool_decide (a = b).

Definition Level_parse (s : bytes) : option Level :=
  if bytes_eqb s (lit "trace") then Some Trace
  else if bytes_eqb s (lit "debug") then Some Debug
  else if bytes_eqb s (lit "info") then Some Info
  else if bytes_eqb s (lit "warn") then Some Warn
  else if bytes_eqb s (lit "error") then Some Error
  else if (bytes_eqb s (lit "critical") || bytes_eqb s (lit "crit"))%bool then Some Critical
  else None.

Inductive Target : Type := Serial | Vga | Both.
#[export] Instance Target_eq_dec : EqDecision Target.
Proof. solve_decision. Defined.

Definition Target_parse (s : bytes) : option Target :=
  if bytes_eqb s (lit "serial") then Some Serial
  else if bytes_eqb s (lit "vga") then Some Vga
  else if bytes_eqb s (lit "both") then Some Both
  else None.

(** [Display for Target] *)
Definition Target_display (t : Target) : string :=
  match t with Serial => "serial" | Vga => "vga" | Both => "both" end.

(** ** Fixed-capacity containers ([multiboot::info::heapless]) *)

Definition STR_CAP : Z := 191.
Definition MMAP_CAP : Z := 64.

Module HVec.
(** [heapless::Vec<T>]: an array of [MMAP_CAP] cells and a length. *)
Record t (A : Type) : Type := mk { buf : list A; len : Z }.
Arguments mk {A} buf len.
Arguments buf {A} _.
Arguments len {A} _.

Definition new {A} (item : A) : t A := mk (replicate (Z.to_nat MMAP_CAP) item) 0.

(** [push]: [Err(v)] when the array is full. *)
Definition push {A} (self : t A) (v : A) : Res (t A * bool) :=
  if MMAP_CAP <=? self.(len) then Ret (self, false)
  else
    buf' ← lset self.(buf) self.(len) v;
    Ret (mk buf' (self.(len) + 1), true).

Definition as_slice {A} (self : t A) : list A := take (Z.to_nat self.(len)) self.(buf).
Definition is_empty {A} (self : t A) : bool := self.(len) =? 0.

Definition wf {A} (self : t A) : Prop :=
  length self.(buf) = Z.to_nat MMAP_CAP ∧ 0 ≤ self.(len) ≤ MMAP_CAP.

Lemma new_wf {A} (x : A) : wf (new x).
Proof. split; cbn; [by rewrite length_replicate|unfold MMAP_CAP; lia]. Qed.

Lemma length_as_slice {A} (self : t A) : wf self → Z.of_nat (length (as_slice self)) = self.(len).
Proof. intros [Hb Hl]. unfold as_slice. rewrite length_take. lia. Qed.

Lemma push_spec {A} (self : t A) v :
  wf self →
  if self.(len) <? MMAP_CAP
  then ∃ self', push self v = Ret (self', true) ∧ wf self' ∧
                as_slice self' = as_slice self ++ [v]
  else push self v = Ret (self, false).
Proof.
  intros [Hb Hl]. unfold push.
  destruct (Z.ltb_spec (len self) MMAP_CAP), (Z.leb_spec MMAP_CAP (len self)); try lia; [|done].
  rewrite lset_ok by lia. cbn. eexists. split; [done|]. unfold wf, as_slice. cbn [buf len].
  rewrite length_insert. split; [lia|].
  replace (Z.to_nat (len self + 1)) with (S (Z.to_nat (len self))) by lia.
  rewrite (take_S_r _ _ v) by (apply list_lookup_insert_eq; lia).
  by rewrite take_insert_ge.
Qed.
End HVec.

Module HStr.
(** [heapless::Str]: an array of [STR_CAP] bytes and a length. *)
Record t : Type := mk { buf : bytes; len : Z }.

Definition new : t := mk (replicate (Z.to_nat STR_CAP) 0) 0.
Definition is_empty (self : t) : bool := self.(len) =? 0.

(** The bytes [&self.buf[..self.len]] that [as_str] decodes. *)
Definition contents (self : t) : bytes := take (Z.to_nat self.(len)) self.(buf).

Definition wf (self : t) : Prop :=
  length self.(buf) = Z.to_nat STR_CAP ∧ 0 ≤ self.(len) ≤ STR_CAP.

(** [buf[len..len+n].copy_from_slice(enc)] *)
Definition append (self : t) (enc : bytes) : t :=
  mk (take (Z.to_nat self.(len)) self.(buf) ++ enc ++
      drop (Z.to_nat self.(len) + length enc) self.(buf))
     (self.(len) + Z.of_nat (length enc)).

Lemma append_spec self enc :
  wf self → self.(len) + Z.of_nat (length enc) ≤ STR_CAP →
  wf (append self enc) ∧ contents (append self enc) = contents self ++ enc.
Proof.
  intros [Hb Hl] Hc. unfold wf, append, contents. cbn [buf len].
  rewrite !length_app, length_take, length_drop. split; [lia|].
  rewrite app_assoc, take_app_length'; [done|].
  rewrite length_app, length_take. lia.
Qed.
End HStr.

(** ** Memory map and boot information *)

Record MmapEntry : Type := mkMmap { base : Z; length_ : Z; mem_type : Z }.
#[export] Instance MmapEntry_eq_dec : EqDecision MmapEntry.
Proof. solve_decision. Defined.

Definition PLACEHOLDER_MMAP : MmapEntry := mkMmap 0 0 0.

(** Every field of an entry fits its machine type. *)
Definition mmap_wf (e : MmapEntry) : Prop :=
  0 ≤ e.(base) < 2 ^ 64 ∧ 0 ≤ e.(length_) < 2 ^ 64 ∧ 0 ≤ e.(mem_type) < 2 ^ 32.

Record FramebufferInfo : Type := mkFb {
  fb_address : Z; fb_pitch : Z; fb_width : Z; fb_height : Z;
  fb_bpp : Z; fb_type : Z; fb_size : Z }.

Definition fbtype_INDEXED : Z := 0.
Definition fbtype_RGB : Z := 1.
Definition fbtype_EGA_TEXT : Z := 2.

Record BootInfo : Type := mkBootInfo {
  total_size : Z;
  cmdline : option HStr.t;
  loader_name : option HStr.t;
  mmap : HVec.t MmapEntry;
  framebuffer : option FramebufferInfo;
  acpi_rsdp : option Z;
  acpi_version : Z;
  load_base_addr : option Z;
  tag_count : Z;
  phys_addr : Z;
}.

Inductive ParseError : Type :=
  | TooShort | SizeMismatch | TagOverrun | TagUndersize | NoMemoryMap | BadMmapEntrySize.
#[export] Instance ParseError_eq_dec : EqDecision ParseError.
Proof. solve_decision. Defined.

Definition ParseError_as_str (e : ParseError) : string :=
  match e with
  | TooShort => "information structure shorter than its header"
  | SizeMismatch => "declared total_size exceeds the buffer"
  | TagOverrun => "tag extends past the end of the structure"
  | TagUndersize => "tag size smaller than its 8-byte header"
  | NoMemoryMap => "no usable memory map (tag 6); refusing to guess RAM"
  | BadMmapEntrySize => "memory map entry_size smaller than one entry"
  end.

Inductive PanicAction : Type := Halt | Reboot | Triple.
#[export] Instance PanicAction_eq_dec : EqDecision PanicAction.
Proof. solve_decision. Defined.
