(* ===== verification/Bitmap.v ===== *)
(** * The frame bitmap (kernel/src/memory/pmm.rs, pure helpers)

    One bit per 4 KiB frame, 64 bits per word; a set bit is a free frame.  The
    bitmap is the list of its words, indexed with Rust's bounds check.  The
    lemmas describe every helper through [is_free], the bit of one frame, and
    [free_set], the finite set of free frames. *)

From S2P Require Import Prelude.
From stdpp Require Import base gmap sets list list_numbers numbers.
From Stdlib Require Import ZArith Lia.
#[local] Open Scope Z_scope.

Abbreviation words := (list Z).

(** ** The helpers *)

Definition bit_set (map : words) (idx : Z) : Res words :=
  w ← lget map (idx / 64);
  lset map (idx / 64) (Z.lor w (Z.shiftl 1 (idx mod 64))).

Definition bit_clear (map : words) (idx : Z) : Res words :=
  w ← lget map (idx / 64);
  lset map (idx / 64) (Z.land w (bnot 64 (Z.shiftl 1 (idx mod 64)))).

Definition bit_test (map : words) (idx : Z) : Res bool :=
  w ← lget map (idx / 64);
  Ret (negb (Z.land w (Z.shiftl 1 (idx mod 64)) =? 0)).

(** One iteration of the word loop of [next_free]. *)
Definition next_free_body (map : words) (limit idx : Z) : Res (Z + option Z) :=
  if idx <? limit then
    let widx := idx / 64 in
    w ← lget map widx;
    if negb (w =? 0) then
      base ← mul64 widx 64;
      i ← add64 base (trailing_zeros w);
      Ret (inr (Some i))
    else
      idx' ← add64 idx 64;
      Ret (inl idx')
  else Ret (inr None).

Definition next_free (map : words) (from limit : Z) : Res (option Z) :=
  if limit <=? from then Ret None
  else
    let word := from / 64 in
    let bit := from mod 64 in
    w0 ← lget map word;
    let w := Z.shiftr w0 bit in
    if negb (w =? 0) then
      base ← mul64 word 64;
      b ← add64 base bit;
      i ← add64 b (trailing_zeros w);
      Ret (Some i)
    else
      idx ← mul64 (word + 1) 64;
      loop (S (Z.to_nat (limit - idx))) idx (next_free_body map limit).

(** The inner loop of [next_free_run]: is every frame [start + i],
    [1 <= i < count], free? *)
Definition run_ok_body (map : words) (start count i : Z) : Res (Z + bool) :=
  if i <? count then
    j ← add64 start i;
    b ← bit_test map j;
    if (b : bool) then Ret (inl (i + 1)) else Ret (inr false)
  else Ret (inr true).

Definition next_free_run_body (map : words) (limit count align start : Z)
    : Res (Z + option Z) :=
  e ← add64 start count;
  if e <=? limit then
    b ← bit_test map start;
    if negb (b : bool) then
      start' ← mul64 (start / align + 1) align;
      Ret (inl start')
    else
      ok ← loop (S (Z.to_nat count)) 1 (run_ok_body map start count);
      if (ok : bool) then Ret (inr (Some start))
      else
        start' ← mul64 (start / align + 1) align;
        Ret (inl start')
  else Ret (inr None).

Definition next_free_run (map : words) (from limit count align : Z) : Res (option Z) :=
  if count =? 0 then Ret (Some from)
  else
    let align := Z.max align 1 in
    s ← add64 from align;
    s ← sub64 s 1;
    start ← mul64 (s / align) align;
    loop (S (S (Z.to_nat (limit - start)))) start (next_free_run_body map limit count align).

(** ** Well-formed bitmaps and their bits *)

Definition bm_wf (map : words) : Prop := Forall (fun w => 0 ≤ w < U64) map.
Definition nbits (map : words) : Z := 64 * Z.of_nat (length map).
Definition word_at (map : words) (k : Z) : Z := default 0 (map !! Z.to_nat k).
Definition is_free (map : words) (i : Z) : bool := Z.testbit (word_at map (i / 64)) (i mod 64).
Definition free_set (map : words) : gset Z :=
  filter (fun i => is_free map i = true) (zrange 0 (nbits map)).

Lemma elem_of_free_set map i :
  i ∈ free_set map ↔ 0 ≤ i < nbits map ∧ is_free map i = true.
Proof. unfold free_set. rewrite elem_of_filter, elem_of_zrange. tauto. Qed.

Lemma lget_word map i :
  0 ≤ i < nbits map → lget map (i / 64) = Ret (word_at map (i / 64)).
Proof.
  unfold nbits. intros Hi. destruct (lget_ok map (i / 64)) as [w Hw]; [zlia|].
  rewrite Hw. apply lget_Ret in Hw as [_ Hw]. unfold word_at. by rewrite Hw.
Qed.

Lemma word_at_bound map k : bm_wf map → 0 ≤ word_at map k < 2 ^ 64.
Proof.
  intros Hwf. unfold word_at. destruct (map !! Z.to_nat k) as [w|] eqn:E; cbn; [|lia].
  exact (Forall_lookup_1 _ _ _ _ Hwf E).
Qed.

Lemma bit_test_ok map i :
  0 ≤ i < nbits map → bit_test map i = Ret (is_free map i).
Proof.
  intros Hi. unfold bit_test. rewrite lget_word by done. cbn.
  rewrite land_pow2_ltb by zlia. done.
Qed.

Lemma word_at_insert map k k' w :
  0 ≤ k < Z.of_nat (length map) → 0 ≤ k' →
  word_at (<[Z.to_nat k := w]> map) k' = if k =? k' then w else word_at map k'.
Proof.
  intros Hk Hk'. unfold word_at. zbool.
  - subst. by rewrite list_lookup_insert_eq by lia.
  - rewrite list_lookup_insert_ne; [done|lia].
Qed.

(** Replacing one word: the shape shared by [bit_set] and [bit_clear]. *)
Lemma update_word map i f :
  bm_wf map → 0 ≤ i < nbits map →
  (∀ w, 0 ≤ w < 2 ^ 64 → 0 ≤ f w < 2 ^ 64) →
  ∃ map', (w ← lget map (i / 64); lset map (i / 64) (f w)) = Ret map' ∧
    bm_wf map' ∧ length map' = length map ∧
    ∀ j, 0 ≤ j → word_at map' (j / 64) =
      if i / 64 =? j / 64 then f (word_at map (i / 64)) else word_at map (j / 64).
Proof.
  intros Hwf Hi Hf. rewrite lget_word by done. cbn. unfold nbits in Hi.
  rewrite lset_ok by zlia. eexists. split; [done|].
  split; [|split].
  - apply Forall_insert; [done|]. apply Hf, word_at_bound, Hwf.
  - apply length_insert.
  - intros j Hj. apply word_at_insert; zlia.
Qed.

Lemma div_mod_64_eq i j : i / 64 = j / 64 → (i mod 64 =? j mod 64) = (i =? j).
Proof. intros. zbool; zlia. Qed.
Lemma div_mod_64_ne i j : i / 64 ≠ j / 64 → (i =? j) = false.
Proof. intros H. apply Z.eqb_neq. congruence. Qed.

Lemma bit_set_ok map i :
  bm_wf map → 0 ≤ i < nbits map →
  ∃ map', bit_set map i = Ret map' ∧ bm_wf map' ∧ length map' = length map ∧
    ∀ j, 0 ≤ j → is_free map' j = ((i =? j) || is_free map j)%bool.
Proof.
  intros Hwf Hi.
  destruct (update_word map i (fun w => Z.lor w (Z.shiftl 1 (i mod 64))))
    as (map' & Hm & Hwf' & Hlen & Hw); [done..| |].
  { intros w Hbw. apply lor_bound; [lia|done|]. apply pow2_bound. zlia. }
  exists map'. split_and!; [exact Hm|done..|]. intros j Hj. unfold is_free. rewrite Hw by done.
  destruct (Z.eqb_spec (i / 64) (j / 64)) as [Heq|Hne].
  - rewrite Heq, Z.lor_spec, testbit_shiftl_1, div_mod_64_eq by (done || zlia).
    apply orb_comm.
  - by rewrite div_mod_64_ne.
Qed.

Lemma bit_clear_ok map i :
  bm_wf map → 0 ≤ i < nbits map →
  ∃ map', bit_clear map i = Ret map' ∧ bm_wf map' ∧ length map' = length map ∧
    ∀ j, 0 ≤ j → is_free map' j = (negb (i =? j) && is_free map j)%bool.
Proof.
  intros Hwf Hi.
  destruct (update_word map i (fun w => Z.land w (bnot 64 (Z.shiftl 1 (i mod 64)))))
    as (map' & Hm & Hwf' & Hlen & Hw); [done..| |].
  { intros w Hbw. by apply land_bound. }
  exists map'. split_and!; [exact Hm|done..|]. intros j Hj. unfold is_free. rewrite Hw by done.
  destruct (Z.eqb_spec (i / 64) (j / 64)) as [Heq|Hne].
  - rewrite Heq, Z.land_spec, bnot_spec, testbit_shiftl_1, div_mod_64_eq by (done || zlia).
    replace (0 <=? j mod 64) with true by (symmetry; apply Z.leb_le; zlia).
    replace (j mod 64 <? 64) with true by (symmetry; apply Z.ltb_lt; zlia).
    cbn. apply andb_comm.
  - by rewrite div_mod_64_ne.
Qed.

Lemma nbits_length map map' : length map' = length map → nbits map' = nbits map.
Proof. unfold nbits. by intros ->. Qed.

Lemma bit_set_free_set map i :
  bm_wf map → 0 ≤ i < nbits map →
  ∃ map', bit_set map i = Ret map' ∧ bm_wf map' ∧ length map' = length map ∧
    free_set map' = {[i]} ∪ free_set map.
Proof.
  intros Hwf Hi. destruct (bit_set_ok map i) as (map' & H & Hwf' & Hlen & Hb); [done..|].
  exists map'. split_and!; [done..|]. apply set_eq. intros j.
  rewrite elem_of_union, elem_of_singleton, !elem_of_free_set, (nbits_length map map') by done.
  split.
  - intros [Hj Hf]. rewrite Hb in Hf by lia.
    apply orb_true_iff in Hf as [->%Z.eqb_eq|]; auto.
  - intros [->|[Hj Hf]]; (split; [done|]); rewrite Hb by lia.
    + by rewrite Z.eqb_refl.
    + by rewrite Hf, orb_true_r.
Qed.

Lemma bit_clear_free_set map i :
  bm_wf map → 0 ≤ i < nbits map →
  ∃ map', bit_clear map i = Ret map' ∧ bm_wf map' ∧ length map' = length map ∧
    free_set map' = free_set map ∖ {[i]}.
Proof.
  intros Hwf Hi. destruct (bit_clear_ok map i) as (map' & H & Hwf' & Hlen & Hb); [done..|].
  exists map'. split_and!; [done..|]. apply set_eq. intros j.
  rewrite elem_of_difference, elem_of_singleton, !elem_of_free_set, (nbits_length map map') by done.
  split.
  - intros [Hj Hf]. rewrite Hb in Hf by lia.
    apply andb_true_iff in Hf as [Hne%negb_true_iff%Z.eqb_neq Hf]. auto.
  - intros [[Hj Hf] Hne]. split; [done|]. rewrite Hb, Hf by lia.
    by rewrite (proj2 (Z.eqb_neq i j)) by congruence.
Qed.

Lemma is_free_elem map i : 0 ≤ i < nbits map → is_free map i = bool_decide (i ∈ free_set map).
Proof.
  intros Hi. destruct (is_free map i) eqn:E; symmetry.
  - apply bool_decide_eq_true. by apply elem_of_free_set.
  - apply bool_decide_eq_false. rewrite elem_of_free_set. intros [_ ?]. congruence.
Qed.

(** ** [next_free]: the lowest free frame at or after [from] *)

(** What a search that starts at [from] promises. *)
Definition search_ok (map : words) (from limit : Z) (r : option Z) : Prop :=
  match r with
  | Some i => from ≤ i < 64 * ((limit + 63) / 64) ∧ is_free map i = true ∧
              ∀ j, from ≤ j < i → is_free map j = false
  | None => ∀ j, from ≤ j < limit → is_free map j = false
  end.

(** The bits of a word from its first set bit. *)
Lemma first_bit_free map k b i :
  0 ≤ b < 64 → 0 < Z.shiftr (word_at map k) b → 0 ≤ k →
  i = 64 * k + b + trailing_zeros (Z.shiftr (word_at map k) b) →
  bm_wf map →
  64 * k + b ≤ i < 64 * k + 64 ∧ is_free map i = true ∧
  ∀ j, 64 * k + b ≤ j < i → is_free map j = false.
Proof.
  intros Hb Hpos Hk -> Hwf.
  destruct (trailing_zeros_spec _ Hpos) as (Ht0 & Ht1 & Htlt).
  set (t := trailing_zeros _) in *.
  rewrite Z.shiftr_spec in Ht1 by lia.
  assert (t + b < 64).
  { destruct (Z.lt_ge_cases (t + b) 64); [done|].
    by rewrite (testbit_high 64) in Ht1 by (lia || by apply word_at_bound). }
  assert (∀ j, 64 * k + b ≤ j ≤ 64 * k + b + t →
    is_free map j = Z.testbit (Z.shiftr (word_at map k) b) (j - 64 * k - b)) as Hfree.
  { intros j Hj. rewrite Z.shiftr_spec by lia. unfold is_free.
    by replace (j / 64) with k by zlia;
      replace (j mod 64) with (j - 64 * k - b + b) by zlia. }
  split; [lia|]. split.
  - rewrite Hfree, Z.shiftr_spec by lia.
    by replace (64 * k + b + t - 64 * k - b + b) with (t + b) by lia.
  - intros j Hj. rewrite Hfree by lia. apply Htlt. lia.
Qed.

Lemma zero_bits_free map k b j :
  0 ≤ b < 64 → Z.shiftr (word_at map k) b = 0 → 64 * k + b ≤ j < 64 * k + 64 →
  is_free map j = false.
Proof.
  intros Hb H0 Hj. unfold is_free.
  replace (j / 64) with k by zlia.
  replace (j mod 64) with ((j mod 64 - b) + b) by lia.
  rewrite <- Z.shiftr_spec by zlia. rewrite H0. apply Z.bits_0.
Qed.

Lemma shiftr_nonneg_pos w b : 0 ≤ w → negb (Z.shiftr w b =? 0) = true → 0 < Z.shiftr w b.
Proof.
  intros Hw Hne%negb_true_iff%Z.eqb_neq.
  pose proof (proj2 (Z.shiftr_nonneg w b) Hw). lia.
Qed.

Lemma next_free_body_spec map from limit idx :
  bm_wf map → 0 ≤ from → limit ≤ nbits map → nbits map < 2 ^ 62 →
  from ≤ idx ∧ idx mod 64 = 0 ∧ (∀ j, from ≤ j < idx → is_free map j = false) →
  (∃ r, next_free_body map limit idx = Ret (inr r) ∧ search_ok map from limit r) ∨
  (∃ idx', next_free_body map limit idx = Ret (inl idx') ∧
     (from ≤ idx' ∧ idx' mod 64 = 0 ∧ (∀ j, from ≤ j < idx' → is_free map j = false)) ∧
     (Z.to_nat (limit - idx') < Z.to_nat (limit - idx))%nat).
Proof.
  intros Hwf Hf Hl Hn (Hle & Hal & Hprev). unfold next_free_body.
  destruct (Z.ltb_spec idx limit).
  2:{ left. exists None. split; [done|]. intros j Hj. apply Hprev. lia. }
  rewrite lget_word by lia. cbn.
  set (k := idx / 64). assert (idx = 64 * k + 0) as Hidx by (unfold k; zlia).
  pose proof (word_at_bound map k Hwf) as Hb.
  rewrite <- (Z.shiftr_0_r (word_at map k)).
  destruct (negb _) eqn:E.
  - apply shiftr_nonneg_pos in E; [|lia].
    edestruct (first_bit_free map k 0) as (H1 & H2 & H3); [lia|done|zlia|done|done|].
    unfold nbits in *.
    rewrite mul64_ok by (rewrite U64_val; lia). cbn.
    rewrite add64_ok by (rewrite U64_val; lia). cbn.
    left. eexists. split; [done|]. cbn. rewrite Z.mul_comm, <- (Z.add_0_r (64 * k)).
    split; [|split].
    + assert (limit ≤ 64 * ((limit + 63) / 64)) by zlia. 
      assert (64 * k + 64 ≤ 64 * ((limit + 63) / 64)) by zlia. lia.
    + done.
    + intros j Hj. destruct (Z.lt_ge_cases j idx); [apply Hprev; lia|apply H3; lia].
  - apply negb_false_iff, Z.eqb_eq in E. right.
    rewrite add64_ok by (unfold nbits in *; rewrite U64_val; lia). cbn.
    eexists. split; [done|]. split_and!; [lia|zlia| |lia].
    intros j Hj. destruct (Z.lt_ge_cases j idx); [apply Hprev; lia|].
    apply (zero_bits_free map k 0); [lia|done|lia].
Qed.

Lemma next_free_spec map from limit :
  bm_wf map → 0 ≤ from → limit ≤ nbits map → nbits map < 2 ^ 62 →
  ∃ r, next_free map from limit = Ret r ∧ search_ok map from limit r.
Proof.
  intros Hwf Hf Hl Hn. unfold next_free.
  destruct (Z.leb_spec limit from).
  { exists None. split; [done|]. intros j Hj. lia. }
  rewrite lget_word by lia. cbn. set (k := from / 64). set (b := from mod 64).
  assert (from = 64 * k + b) as Hfrom by (unfold k, b; zlia).
  assert (0 ≤ b < 64) by (unfold b; zlia). assert (0 ≤ k) by (unfold k; zlia).
  pose proof (word_at_bound map k Hwf) as Hb. unfold nbits in *.
  destruct (negb _) eqn:E.
  - apply shiftr_nonneg_pos in E; [|lia].
    edestruct (first_bit_free map k b) as (Hi1 & Hi2 & Hi3); [lia|done|lia|done|done|].
    rewrite mul64_ok by (rewrite U64_val; lia). cbn.
    rewrite add64_ok by (rewrite U64_val; lia). cbn.
    rewrite add64_ok by (rewrite U64_val; lia). cbn.
    eexists. split; [done|]. cbn. rewrite (Z.mul_comm k 64), Hfrom.
    split; [zlia|]. split; [done|]. intros j Hj. apply Hi3. lia.
  - apply negb_false_iff, Z.eqb_eq in E.
    rewrite mul64_ok by (rewrite U64_val; lia). cbn.
    apply (loop_total
      (fun idx => from ≤ idx ∧ idx mod 64 = 0 ∧ ∀ j, from ≤ j < idx → is_free map j = false)
      (search_ok map from limit) (fun idx => Z.to_nat (limit - idx))).
    + intros idx Hinv. by apply next_free_body_spec.
    + split_and!; [lia|zlia|]. intros j Hj. apply (zero_bits_free map k b); [lia|done|lia].
    + lia.
Qed.

(** ** [next_free_run]: the lowest aligned run of free frames *)

Definition run_free (map : words) (s count : Z) : Prop :=
  ∀ k, 0 ≤ k < count → is_free map (s + k) = true.

Definition run_search_ok (map : words) (from limit count align : Z) (r : option Z) : Prop :=
  match r with
  | Some s => from ≤ s ∧ s mod align = 0 ∧ s + count ≤ limit ∧ run_free map s count ∧
              ∀ s', from ≤ s' < s → s' mod align = 0 → ¬ run_free map s' count
  | None => ∀ s', from ≤ s' → s' mod align = 0 → s' + count ≤ limit → ¬ run_free map s' count
  end.

Lemma run_ok_spec map start count :
  0 ≤ start → 1 ≤ count → start + count ≤ nbits map → nbits map < 2 ^ 62 →
  is_free map start = true →
  ∃ ok, loop (S (Z.to_nat count)) 1 (run_ok_body map start count) = Ret ok ∧
        (ok = true ↔ run_free map start count).
Proof.
  intros Hs Hc Hle Hn Hfree.
  apply (loop_total (fun i => 1 ≤ i ≤ count ∧ run_free map start i) _
           (fun i => Z.to_nat (count - i))).
  - intros i [Hi Hrun]. unfold run_ok_body. destruct (Z.ltb_spec i count).
    + rewrite add64_ok by (rewrite U64_val; lia). cbn.
      rewrite bit_test_ok by lia. cbn. destruct (is_free map (start + i)) eqn:E.
      * right. eexists. split; [done|]. split; [split; [lia|]|lia].
        intros k Hk. destruct (Z.eq_dec k i) as [->|]; [done|apply Hrun; lia].
      * left. eexists. split; [done|]. split; [done|]. intros H1. exfalso.
        rewrite (H1 i) in E by lia. done.
    + left. exists true. split; [done|]. split; [|done]. intros _ k Hk. apply Hrun. lia.
  - split; [lia|]. intros k Hk. replace (start + k) with start by lia. done.
  - lia.
Qed.

Lemma next_aligned s a s' :
  0 < a → s mod a = 0 → s' mod a = 0 → s < s' → s + a ≤ s'.
Proof.
  intros Ha Hs Hs' Hlt.
  apply Z.mod_divide in Hs as [q ->]; [|lia]. apply Z.mod_divide in Hs' as [q' ->]; [|lia].
  apply Z.mul_lt_mono_pos_r in Hlt; [|done].
  replace (q * a + a) with ((q + 1) * a) by ring. apply Z.mul_le_mono_nonneg_r; lia.
Qed.

Lemma step_aligned s a : 0 < a → s mod a = 0 → (s / a + 1) * a = s + a.
Proof. intros Ha Hs. pose proof (Z.div_mod s a). lia. Qed.

(** The invariant of the outer loop: no aligned run starts before [start]. *)
Definition run_inv (map : words) (from limit count align start : Z) : Prop :=
  from ≤ start ≤ limit + align ∧ start mod align = 0 ∧
  ∀ s', from ≤ s' < start → s' mod align = 0 → ¬ run_free map s' count.

Lemma run_inv_step map from limit count align start :
  0 < align → run_inv map from limit count align start → start < limit →
  ¬ run_free map start count → run_inv map from limit count align (start + align).
Proof.
  intros Ha (Hs & Hal & Hprev) Hlt Hno. split; [lia|]. split.
  - rewrite <- Z.add_mod_idemp_r, Z.mod_same, Z.add_0_r by lia. done.
  - intros s' Hs' Hal'. destruct (Z.lt_total s' start) as [|[->|Hgt]]; [apply Hprev; [lia|done]|done|].
    pose proof (next_aligned start align s'). lia.
Qed.

Lemma next_free_run_body_spec map from limit count align start :
  0 ≤ from → limit ≤ nbits map → nbits map < 2 ^ 62 →
  1 ≤ count < 2 ^ 62 → 0 < align < 2 ^ 62 →
  run_inv map from limit count align start →
  (∃ r, next_free_run_body map limit count align start = Ret (inr r) ∧
        run_search_ok map from limit count align r) ∨
  (∃ start', next_free_run_body map limit count align start = Ret (inl start') ∧
     run_inv map from limit count align start' ∧
     (Z.to_nat (limit - start') < Z.to_nat (limit - start))%nat).
Proof.
  intros Hf Hl Hn Hc Ha Hinv. pose proof Hinv as (Hs & Hal & Hprev).
  unfold next_free_run_body. rewrite add64_ok by (rewrite U64_val; lia). cbn.
  destruct (Z.leb_spec (start + count) limit).
  2:{ left. exists None. split; [done|]. intros s' Hs' Hal' Hle.
      apply Hprev; [lia|done]. }
  rewrite bit_test_ok by lia. cbn.
  assert (∃ start', mul64 (start / align + 1) align = Ret start' ∧ start' = start + align)
    as (start' & Hm & ->).
  { eexists. split; [|done]. rewrite <- (step_aligned start align) by (lia || done).
    apply mul64_ok. rewrite step_aligned by (lia || done). rewrite U64_val. lia. }
  assert (¬ run_free map start count →
    run_inv map from limit count align (start + align) ∧
    (Z.to_nat (limit - (start + align)) < Z.to_nat (limit - start))%nat) as Hnext.
  { intros Hno. split; [apply run_inv_step; (done || lia)|lia]. }
  destruct (is_free map start) eqn:E; cbn.
  - destruct (run_ok_spec map start count) as (ok & -> & Hok); [lia..|done|]. cbn.
    destruct ok.
    + left. eexists. split; [done|]. cbn. naive_solver.
    + right. rewrite Hm. cbn. eexists. split; [done|]. apply Hnext. intros Hr.
      apply Hok in Hr. done.
  - right. rewrite Hm. cbn. eexists. split; [done|]. apply Hnext. intros Hr.
    specialize (Hr 0). rewrite Z.add_0_r in Hr. rewrite Hr in E by lia. done.
Qed.

Lemma next_free_run_spec map from limit count align :
  0 ≤ from ≤ limit → limit ≤ nbits map → nbits map < 2 ^ 62 →
  1 ≤ count < 2 ^ 62 → 0 ≤ align < 2 ^ 62 →
  ∃ r, next_free_run map from limit count align = Ret r ∧
       run_search_ok map from limit count (Z.max align 1) r.
Proof.
  intros Hf Hl Hn Hc Ha. unfold next_free_run.
  destruct (Z.eqb_spec count 0); [lia|]. set (a := Z.max align 1).
  assert (0 < a < 2 ^ 62) as Ha' by lia.
  rewrite add64_ok by (rewrite U64_val; lia). cbn. rewrite sub64_ok by lia. cbn.
  set (q := (from + a - 1) / a).
  assert (from ≤ q * a < from + a) as Hq.
  { unfold q. pose proof (Z.div_mod (from + a - 1) a). pose proof (Z.mod_pos_bound (from + a - 1) a). nia. }
  rewrite mul64_ok by (rewrite U64_val; lia). cbn.
  apply (loop_total (run_inv map from limit count a) (run_search_ok map from limit count a)
           (fun s => Z.to_nat (limit - s))).
  - intros s Hs. apply next_free_run_body_spec; (done || lia).
  - split; [lia|]. split; [apply Z.mod_mul; lia|]. intros s' Hs' Hal. exfalso.
    assert (s' + a ≤ q * a); [|lia].
    apply next_aligned; [lia|done|apply Z.mod_mul; lia|lia].
  - lia.
Qed.

(** [next_free] never panics on a bitmap that covers [limit]; it returns
    the least free index at or above [from], and [None] only if no index in
    [[from, limit)] is free. *)
Theorem next_free_least map from limit :
  bm_wf map → 0 ≤ from → limit ≤ nbits map → nbits map < 2 ^ 62 →
  ∃ r, next_free map from limit = Ret r ∧
    match r with
    | Some i => from ≤ i < 64 * ((limit + 63) / 64) ∧ is_free map i = true ∧
                ∀ j, from ≤ j < i → is_free map j = false
    | None => ∀ j, from ≤ j < limit → is_free map j = false
    end.
Proof. apply next_free_spec. Qed.

Lemma next_free_least_witness :
  ∃ r, next_free [0; 0x50] 3 128 = Ret r ∧ search_ok [0; 0x50] 3 128 r ∧ r = Some 68.
Proof.
  destruct (next_free_least [0; 0x50] 3 128) as (r & Hr & Hok).
  - repeat constructor; by vm_compute.
  - lia.
  - by vm_compute.
  - by vm_compute.
  - exists r. split; [exact Hr|]. split; [exact Hok|]. revert Hr. vm_compute. congruence.
Defined.

(** [next_free_run] returns the least aligned start of [count] free
    frames inside [[from, limit)], and [None] only if there is none; the search
    terminates and never indexes outside the bitmap. *)
Theorem next_free_run_least map from limit count align :
  0 ≤ from ≤ limit → limit ≤ nbits map → nbits map < 2 ^ 62 →
  1 ≤ count < 2 ^ 62 → 0 ≤ align < 2 ^ 62 →
  ∃ r, next_free_run map from limit count align = Ret r ∧
    match r with
    | Some s => from ≤ s ∧ s mod Z.max align 1 = 0 ∧ s + count ≤ limit ∧ run_free map s count ∧
                ∀ s', from ≤ s' < s → s' mod Z.max align 1 = 0 → ¬ run_free map s' count
    | None => ∀ s', from ≤ s' → s' mod Z.max align 1 = 0 → s' + count ≤ limit →
                    ¬ run_free map s' count
    end.
Proof. apply next_free_run_spec. Qed.

Lemma next_free_run_least_witness :
  ∃ r, next_free_run [0xF6] 0 64 2 2 = Ret r ∧ run_search_ok [0xF6] 0 64 2 2 r ∧ r = Some 4.
Proof.
  destruct (next_free_run_least [0xF6] 0 64 2 2) as (r & Hr & Hok);
    [lia|by vm_compute|by vm_compute|lia|lia|].
  exists r. split; [exact Hr|]. split; [exact Hok|]. revert Hr. vm_compute. congruence.
Defined.
