(* ===== verification/Pmm.v ===== *)
(** * Physical frame allocator (kernel/src/memory/pmm.rs)

    [PmmInner] and the [CURSOR] static are explicit state.  The abstract state
    of the allocator is the finite set of free frames, [frames]; the counters
    are tied to it by the invariant [pmm_inv].  [debug] stands for
    [cfg!(debug_assertions)]: in a debug build [deallocate] reads and writes a
    canary word in the frame through the identity map. *)

From S2P Require Import Prelude Arch BootInfo Bitmap.
From stdpp Require Import base gmap sets list list_numbers strings numbers.
From Stdlib Require Import ZArith Lia.
#[local] Open Scope Z_scope.

(** ** Constants *)

Definition FRAME_SIZE : Z := 4096.
Definition MAX_PHYS : Z := BOOT_MAPPED_BYTES.
Definition MAX_FRAMES : Z := MAX_PHYS / FRAME_SIZE.
Definition BITMAP_WORDS : Z := MAX_FRAMES / 64.

Definition memtype_AVAILABLE : Z := 1.
Definition memtype_ACPI_RECLAIMABLE : Z := 2.
Definition memtype_ACPI_NVS : Z := 3.
Definition memtype_BAD_RAM : Z := 4.
Definition memtype_BOOTLOADER_RECLAIMABLE : Z := 5.

Definition FREE_CANARY : Z := 0x4F52494E46524545.

(** ** State *)

Record PmmInner : Type := mkPmm {
  bitmap : words;
  total_frames : Z;
  free_frames : Z;
  reserved_frames : Z;
  bad_frames : Z;
  unmapped_bytes : Z;
  initialised : bool;
}.

(** [PmmInner::new] *)
Definition PmmInner_new : PmmInner :=
  {| bitmap := replicate (Z.to_nat BITMAP_WORDS) 0; total_frames := 0; free_frames := 0;
     reserved_frames := 0; bad_frames := 0; unmapped_bytes := 0; initialised := false |}.

(** The statics [PMM] and [CURSOR]. *)
Record Pmm : Type := { PMM : PmmInner; CURSOR : Z }.

Definition set_bitmap (p : PmmInner) (b : words) (free : Z) : PmmInner :=
  {| bitmap := b; total_frames := p.(total_frames); free_frames := free;
     reserved_frames := p.(reserved_frames); bad_frames := p.(bad_frames);
     unmapped_bytes := p.(unmapped_bytes); initialised := p.(initialised) |}.
Definition set_reserved (p : PmmInner) (r : Z) : PmmInner :=
  {| bitmap := p.(bitmap); total_frames := p.(total_frames); free_frames := p.(free_frames);
     reserved_frames := r; bad_frames := p.(bad_frames);
     unmapped_bytes := p.(unmapped_bytes); initialised := p.(initialised) |}.
Definition set_bad (p : PmmInner) (b : Z) : PmmInner :=
  {| bitmap := p.(bitmap); total_frames := p.(total_frames); free_frames := p.(free_frames);
     reserved_frames := p.(reserved_frames); bad_frames := b;
     unmapped_bytes := p.(unmapped_bytes); initialised := p.(initialised) |}.
Definition set_unmapped (p : PmmInner) (u : Z) : PmmInner :=
  {| bitmap := p.(bitmap); total_frames := p.(total_frames); free_frames := p.(free_frames);
     reserved_frames := p.(reserved_frames); bad_frames := p.(bad_frames);
     unmapped_bytes := u; initialised := p.(initialised) |}.
Definition set_ready (p : PmmInner) : PmmInner :=
  {| bitmap := p.(bitmap); total_frames := p.(free_frames); free_frames := p.(free_frames);
     reserved_frames := p.(reserved_frames); bad_frames := p.(bad_frames);
     unmapped_bytes := p.(unmapped_bytes); initialised := true |}.

(** [Stats] and [stats] *)
Record Stats : Type := mkStats {
  s_total_frames : Z; s_free_frames : Z; s_reserved_frames : Z; s_bad_frames : Z;
  s_unmapped_bytes : Z; s_frame_size : Z; s_max_phys : Z }.

Definition stats (s : Pmm) : Stats :=
  let p := s.(PMM) in
  {| s_total_frames := p.(total_frames); s_free_frames := p.(free_frames);
     s_reserved_frames := p.(reserved_frames); s_bad_frames := p.(bad_frames);
     s_unmapped_bytes := p.(unmapped_bytes); s_frame_size := FRAME_SIZE; s_max_phys := MAX_PHYS |}.

Definition is_initialised (s : Pmm) : bool := s.(PMM).(initialised).

(** ** [PmmInner::free_range] and [PmmInner::reserve_range] *)

Definition free_range_body (idx : Z) (p : PmmInner) : Res PmmInner :=
  b ← bit_test p.(bitmap) idx;
  if negb (b : bool) then
    map ← bit_set p.(bitmap) idx;
    f ← add64 p.(free_frames) 1;
    Ret (set_bitmap p map f)
  else Ret p.

(** Rounds inward: only frames that lie in the range entirely become free. *)
Definition free_range (p : PmmInner) (start end_ : Z) : Res PmmInner :=
  if end_ <=? start then Ret p
  else
    let end_ := Z.min end_ MAX_PHYS in
    s ← add64 start FRAME_SIZE;
    s ← sub64 s 1;
    let first := s / FRAME_SIZE in
    let last := end_ / FRAME_SIZE in
    for_range first (Z.min last MAX_FRAMES) p free_range_body.

Definition reserve_range_body (idx : Z) (p : PmmInner) : Res PmmInner :=
  b ← bit_test p.(bitmap) idx;
  if (b : bool) then
    map ← bit_clear p.(bitmap) idx;
    f ← sub64 p.(free_frames) 1;
    r ← add64 p.(reserved_frames) 1;
    Ret (set_reserved (set_bitmap p map f) r)
  else Ret p.

(** Rounds outward: a partially covered frame is reserved. *)
Definition reserve_range_inner (p : PmmInner) (start end_ : Z) : Res PmmInner :=
  if end_ <=? start then Ret p
  else
    let first := start / FRAME_SIZE in
    e ← add64 end_ FRAME_SIZE;
    e ← sub64 e 1;
    let last := e / FRAME_SIZE in
    for_range first (Z.min last MAX_FRAMES) p reserve_range_body.

(** The public [reserve_range]. *)
Definition reserve_range (s : Pmm) (start end_ : Z) : Res Pmm :=
  p ← reserve_range_inner s.(PMM) start end_;
  Ret {| PMM := p; CURSOR := s.(CURSOR) |}.

(** ** [init] *)

Definition init_entry (e : MmapEntry) (p : PmmInner) : Res PmmInner :=
  let base := e.(base) in
  let len := e.(length_) in
  if e.(mem_type) =? memtype_AVAILABLE then
    let hi := sat_add64 base len in
    if MAX_PHYS <=? base then
      u ← add64 p.(unmapped_bytes) len;
      Ret (set_unmapped p u)
    else
      let clipped_hi := Z.min hi MAX_PHYS in
      p ← (if MAX_PHYS <? hi then
             u ← add64 p.(unmapped_bytes) (hi - MAX_PHYS);
             Ret (set_unmapped p u)
           else Ret p);
      free_range p base clipped_hi
  else if e.(mem_type) =? memtype_BAD_RAM then
    b ← add64 p.(bad_frames) (len / FRAME_SIZE);
    Ret (set_bad p b)
  else Ret p.

Definition init (s : Pmm) (info : BootInfo) : Res Pmm :=
  if s.(PMM).(initialised) then Panic (PanicMsg "pmm::init called twice")
  else
    p ← for_list (HVec.as_slice info.(mmap)) s.(PMM) init_entry;
    Ret {| PMM := set_ready p; CURSOR := s.(CURSOR) |}.

(** ** [PmmInner::allocate] *)

Definition find_frames (map : words) (from limit count align : Z) : Res (option Z) :=
  if count =? 1 then next_free map from limit
  else next_free_run map from limit count align.

Definition clear_run (map : words) (start count : Z) : Res words :=
  for_range 0 count map (fun i m => j ← add64 start i; bit_clear m j).

Definition allocate (s : Pmm) (count align : Z) : Res (option Z * Pmm) :=
  let p := s.(PMM) in
  if negb p.(initialised) then Panic (PanicMsg "pmm: allocation before pmm::init()")
  else
    let from := Z.min s.(CURSOR) MAX_FRAMES in
    first ← find_frames p.(bitmap) from MAX_FRAMES count align;
    start ← match first with
            | Some x => Ret (Some x)
            | None => if 0 <? from then find_frames p.(bitmap) 0 from count align else Ret None
            end;
    match start with
    | None => Ret (None, s)
    | Some start =>
        map ← clear_run p.(bitmap) start count;
        f ← sub64 p.(free_frames) count;
        c ← add64 start count;
        Ret (Some start, {| PMM := set_bitmap p map f; CURSOR := c |})
    end.

Section WithCrate.
Context `{X : X86Crate}.
Context (debug : bool).

Definition frame_from_index (idx : Z) : Res Z :=
  a ← mul64 idx FRAME_SIZE;
  PhysAddr_new a.

Definition allocate_contiguous (s : Pmm) (count align_frames : Z) : Res (option Z * Pmm) :=
  '(r, s') ← allocate s count align_frames;
  match r with
  | None => Ret (None, s')
  | Some idx => pa ← frame_from_index idx; Ret (Some pa, s')
  end.

Definition allocate_frame (s : Pmm) : Res (option Z * Pmm) := allocate_contiguous s 1 1.

(** ** [PmmInner::deallocate] *)

Definition canary_ok (m : phys) (pa : Z) : Res bool :=
  if negb debug then Ret true
  else
    let idx := pa / FRAME_SIZE in
    if MAX_FRAMES <=? idx then Ret true
    else
      p ← PhysAddr_new pa;
      if negb (phys_is_boot_mapped p) then Ret true
      else
        va ← phys_as_ident debug p;
        Ret (negb (ld64 m va =? FREE_CANARY)).

Definition deallocate_frame (s : Pmm) (m : phys) (pa : Z) : Res (Pmm * phys) :=
  let p := s.(PMM) in
  let idx := pa / FRAME_SIZE in
  if MAX_FRAMES <=? idx then Panic (PanicMsg "pmm: deallocate is outside the managed range")
  else
    b ← bit_test p.(bitmap) idx;
    if (b : bool) then Panic (PanicMsg "pmm: double free of frame")
    else
      ok ← canary_ok m pa;
      if negb (ok : bool)
      then Panic (PanicMsg "pmm: frame was modified after free (canary overwritten)")
      else
        map ← bit_set p.(bitmap) idx;
        f ← add64 p.(free_frames) 1;
        let s' := {| PMM := set_bitmap p map f; CURSOR := s.(CURSOR) |} in
        if debug then
          pa' ← PhysAddr_new pa;
          va ← phys_as_ident debug pa';
          Ret (s', st64 m va FREE_CANARY)
        else Ret (s', m).

End WithCrate.

(** ** The invariant *)

(** The abstract state: the set of free frames. *)
Definition frames (p : PmmInner) : gset Z := free_set p.(bitmap).

Record pmm_inv (p : PmmInner) : Prop := {
  inv_wf : bm_wf p.(bitmap);
  inv_len : length p.(bitmap) = Z.to_nat BITMAP_WORDS;
  inv_count : p.(free_frames) = Z.of_nat (size (frames p));
}.

Lemma MAX_FRAMES_val : MAX_FRAMES = 524288.
Proof. reflexivity. Qed.

Lemma inv_nbits p : pmm_inv p → nbits p.(bitmap) = MAX_FRAMES.
Proof. intros H. unfold nbits. rewrite (inv_len _ H). reflexivity. Qed.

Lemma frames_range p i : pmm_inv p → i ∈ frames p → 0 ≤ i < MAX_FRAMES.
Proof. intros Hp Hi. apply elem_of_free_set in Hi as [Hi _]. by rewrite inv_nbits in Hi. Qed.

Lemma frames_subset p : pmm_inv p → frames p ⊆ zrange 0 MAX_FRAMES.
Proof. intros Hp i Hi. apply elem_of_zrange. by apply (frames_range p). Qed.

Lemma frames_size_bound p : pmm_inv p → Z.of_nat (size (frames p)) ≤ MAX_FRAMES.
Proof.
  intros Hp. pose proof (subseteq_size _ _ (frames_subset p Hp)) as H.
  rewrite size_zrange in H. rewrite MAX_FRAMES_val in *. lia.
Qed.

Lemma size_add (X : gset Z) i : i ∉ X → Z.of_nat (size ({[i]} ∪ X)) = Z.of_nat (size X) + 1.
Proof. intros. rewrite size_union by set_solver. rewrite size_singleton. lia. Qed.

Lemma size_remove (X : gset Z) i : i ∈ X → Z.of_nat (size (X ∖ {[i]})) = Z.of_nat (size X) - 1.
Proof.
  intros Hi. assert (X = {[i]} ∪ X ∖ {[i]}) as Heq.
  { apply set_eq. intros j. destruct (decide (j = i)); set_solver. }
  rewrite Heq at 2. rewrite size_add by set_solver. lia.
Qed.

Lemma pmm_test p i :
  pmm_inv p → 0 ≤ i < MAX_FRAMES →
  bit_test p.(bitmap) i = Ret (bool_decide (i ∈ frames p)).
Proof.
  intros Hp Hi. rewrite <- (inv_nbits p) in Hi by done.
  rewrite bit_test_ok by done. by rewrite is_free_elem.
Qed.

(** Marking frame [i] free or used, with the matching counter, keeps the
    invariant. *)
Lemma pmm_mark_free p i :
  pmm_inv p → 0 ≤ i < MAX_FRAMES → i ∉ frames p →
  ∃ map, bit_set p.(bitmap) i = Ret map ∧ add64 p.(free_frames) 1 = Ret (p.(free_frames) + 1) ∧
    pmm_inv (set_bitmap p map (p.(free_frames) + 1)) ∧
    frames (set_bitmap p map (p.(free_frames) + 1)) = {[i]} ∪ frames p.
Proof.
  intros Hp Hi Hn.
  destruct (bit_set_free_set p.(bitmap) i) as (map & H & Hwf & Hlen & Hfs).
  { apply Hp. } { by rewrite inv_nbits. }
  exists map. pose proof (frames_size_bound p Hp). rewrite MAX_FRAMES_val in *.
  split; [done|]. split.
  { apply add64_ok. rewrite (inv_count _ Hp), U64_val. lia. }
  split; [|done]. split; cbn.
  - done.
  - rewrite Hlen. apply Hp.
  - unfold frames. cbn. rewrite Hfs, size_add by done. by rewrite (inv_count _ Hp).
Qed.

Lemma pmm_mark_used p i :
  pmm_inv p → 0 ≤ i < MAX_FRAMES → i ∈ frames p →
  ∃ map, bit_clear p.(bitmap) i = Ret map ∧ sub64 p.(free_frames) 1 = Ret (p.(free_frames) - 1) ∧
    pmm_inv (set_bitmap p map (p.(free_frames) - 1)) ∧
    frames (set_bitmap p map (p.(free_frames) - 1)) = frames p ∖ {[i]}.
Proof.
  intros Hp Hi Hn.
  destruct (bit_clear_free_set p.(bitmap) i) as (map & H & Hwf & Hlen & Hfs).
  { apply Hp. } { by rewrite inv_nbits. }
  exists map. pose proof (size_remove (frames p) i Hn) as Hsz.
  split; [done|]. split.
  { apply sub64_ok. rewrite (inv_count _ Hp). lia. }
  split; [|done]. split; cbn.
  - done.
  - rewrite Hlen. apply Hp.
  - unfold frames at 1. cbn. rewrite Hfs. unfold frames in Hsz. rewrite Hsz.
    by rewrite (inv_count _ Hp).
Qed.

(** The fields that the range operations never touch. *)
Definition same_rest (p p' : PmmInner) : Prop :=
  p'.(total_frames) = p.(total_frames) ∧ p'.(bad_frames) = p.(bad_frames) ∧
  p'.(unmapped_bytes) = p.(unmapped_bytes) ∧ p'.(initialised) = p.(initialised).

#[export] Instance same_rest_preorder : PreOrder same_rest.
Proof. split; unfold same_rest; [done|]. intros p q r. naive_solver congruence. Qed.

(** The frames that lie entirely in the byte range [[start, end_)], and the
    frames that meet it. *)
Definition inner_frames (start end_ : Z) : gset Z :=
  zrange ((start + FRAME_SIZE - 1) / FRAME_SIZE) (Z.min end_ MAX_PHYS / FRAME_SIZE).
Definition outer_frames (start end_ : Z) : gset Z :=
  if end_ <=? start then ∅
  else zrange (start / FRAME_SIZE) ((end_ + FRAME_SIZE - 1) / FRAME_SIZE).

Lemma elem_of_inner_frames i start end_ :
  i ∈ inner_frames start end_ ↔
  start ≤ i * FRAME_SIZE ∧ (i + 1) * FRAME_SIZE ≤ Z.min end_ MAX_PHYS.
Proof.
  unfold inner_frames. rewrite elem_of_zrange. unfold FRAME_SIZE, MAX_PHYS, BOOT_MAPPED_BYTES. zlia.
Qed.

Lemma elem_of_outer_frames i start end_ :
  i ∈ outer_frames start end_ ↔
  ∃ a, start ≤ a < end_ ∧ a / FRAME_SIZE = i.
Proof.
  unfold outer_frames. destruct (Z.leb_spec end_ start).
  - split; [set_solver|]. intros (a & Ha & _). lia.
  - rewrite elem_of_zrange. unfold FRAME_SIZE. split.
    + intros Hi. destruct (Z.le_ge_cases start (i * 4096)).
      * exists (i * 4096). split; [zlia|zlia].
      * exists start. split; [lia|zlia].
    + intros (a & Ha & <-). zlia.
Qed.

(** ** Range operations refine set union and difference *)

Lemma free_range_body_ok idx p :
  pmm_inv p → 0 ≤ idx < MAX_FRAMES →
  ∃ p', free_range_body idx p = Ret p' ∧ pmm_inv p' ∧ frames p' = {[idx]} ∪ frames p ∧
        same_rest p p' ∧ p'.(reserved_frames) = p.(reserved_frames).
Proof.
  intros Hp Hi. unfold free_range_body. rewrite pmm_test by done. cbn.
  case_bool_decide as Hin; cbn.
  - exists p. split_and!; [done|done|set_solver|done|done].
  - destruct (pmm_mark_free p idx) as (map & -> & Hadd & Hp' & Hf); [done..|]. cbn.
    rewrite Hadd. cbn. eexists. split; [done|]. done.
Qed.

Lemma free_range_ok p start end_ :
  pmm_inv p → 0 ≤ start → start + FRAME_SIZE < U64 →
  ∃ p', free_range p start end_ = Ret p' ∧ pmm_inv p' ∧
        frames p' = frames p ∪ inner_frames start end_ ∧ same_rest p p' ∧
        p'.(reserved_frames) = p.(reserved_frames).
Proof.
  intros Hp Hs Hov. unfold free_range, inner_frames.
  destruct (Z.leb_spec end_ start).
  { exists p. rewrite zrange_empty.
    - split_and!; [done|done|set_solver|done|done].
    - unfold FRAME_SIZE, MAX_PHYS, BOOT_MAPPED_BYTES. zlia. }
  rewrite add64_ok by done. cbn. rewrite sub64_ok by (unfold FRAME_SIZE; lia). cbn.
  set (first := (start + FRAME_SIZE - 1) / FRAME_SIZE).
  set (last := Z.min end_ MAX_PHYS / FRAME_SIZE).
  replace (Z.min last MAX_FRAMES) with last.
  2:{ unfold last, MAX_FRAMES, FRAME_SIZE, MAX_PHYS, BOOT_MAPPED_BYTES. zlia. }
  assert (0 ≤ first) by (unfold first, FRAME_SIZE; zlia).
  assert (last ≤ MAX_FRAMES) by (unfold last, MAX_FRAMES, FRAME_SIZE, MAX_PHYS, BOOT_MAPPED_BYTES; zlia).
  destruct (Z.le_gt_cases first last).
  2:{ rewrite for_range_empty by lia. exists p. rewrite zrange_empty by lia.
      split_and!; [done|done|set_solver|done|done]. }
  destruct (for_range_inv
    (fun i q => pmm_inv q ∧ frames q = frames p ∪ zrange first i ∧ same_rest p q ∧
                q.(reserved_frames) = p.(reserved_frames))
    first last p free_range_body) as (p' & Hr & Hp'); [done| | |eauto].
  - rewrite zrange_empty by lia. split_and!; [done|set_solver|done|done].
  - intros i q Hi (Hq & Hfq & Hrest & Hres).
    destruct (free_range_body_ok i q) as (q' & -> & Hq' & Hf' & Hr' & Hres'); [done|lia|].
    eexists. split; [done|]. split_and!; [done| |by etrans|congruence].
    rewrite Hf', Hfq, zrange_snoc by lia. set_solver.
Qed.

Lemma reserve_body_ok idx p :
  pmm_inv p → 0 ≤ idx < MAX_FRAMES → p.(reserved_frames) + 1 < U64 →
  ∃ p', reserve_range_body idx p = Ret p' ∧ pmm_inv p' ∧ frames p' = frames p ∖ {[idx]} ∧
        same_rest p p' ∧
        p'.(reserved_frames) + p'.(free_frames) = p.(reserved_frames) + p.(free_frames) ∧
        p.(reserved_frames) ≤ p'.(reserved_frames) ≤ p.(reserved_frames) + 1.
Proof.
  intros Hp Hi Hov. unfold reserve_range_body. rewrite pmm_test by done. cbn.
  case_bool_decide as Hin; cbn.
  - destruct (pmm_mark_used p idx) as (map & -> & Hsub & Hp' & Hf); [done..|]. cbn.
    rewrite Hsub. cbn. rewrite add64_ok by lia. cbn. eexists. split; [done|].
    split_and!; [|done|done|cbn; lia..].
    destruct Hp'. by split.
  - exists p. split_and!; [done|done|set_solver|done|lia..].
Qed.

Lemma reserve_range_ok p start end_ :
  pmm_inv p → 0 ≤ start → end_ + FRAME_SIZE < U64 →
  0 ≤ p.(reserved_frames) → p.(reserved_frames) + MAX_FRAMES < U64 →
  ∃ p', reserve_range_inner p start end_ = Ret p' ∧ pmm_inv p' ∧
        frames p' = frames p ∖ outer_frames start end_ ∧ same_rest p p' ∧
        p'.(reserved_frames) + p'.(free_frames) = p.(reserved_frames) + p.(free_frames).
Proof.
  intros Hp Hs Hov Hr0 Hr1. unfold reserve_range_inner, outer_frames.
  destruct (Z.leb_spec end_ start).
  { exists p. split_and!; [done|done|set_solver|done|done]. }
  rewrite add64_ok by done. cbn. rewrite sub64_ok by (unfold FRAME_SIZE; lia). cbn.
  set (first := start / FRAME_SIZE).
  set (last := (end_ + FRAME_SIZE - 1) / FRAME_SIZE).
  assert (0 ≤ first ≤ last) by (unfold first, last, FRAME_SIZE; zlia).
  assert (frames p ∖ zrange first last = frames p ∖ zrange first (Z.min last MAX_FRAMES)) as ->.
  { apply set_eq. intros i. rewrite !elem_of_difference, !elem_of_zrange.
    pose proof (frames_range p i Hp). naive_solver lia. }
  destruct (Z.le_gt_cases first (Z.min last MAX_FRAMES)).
  2:{ rewrite for_range_empty by lia. exists p. rewrite zrange_empty by lia.
      split_and!; [done|done|set_solver|done|done]. }
  destruct (for_range_inv
    (fun i q => pmm_inv q ∧ frames q = frames p ∖ zrange first i ∧ same_rest p q ∧
                q.(reserved_frames) + q.(free_frames) = p.(reserved_frames) + p.(free_frames) ∧
                p.(reserved_frames) ≤ q.(reserved_frames) ≤ p.(reserved_frames) + (i - first))
    first (Z.min last MAX_FRAMES) p reserve_range_body) as (p' & Hr & Hp'); [done| | |].
  - rewrite zrange_empty by lia. split_and!; [done|set_solver|done|lia..].
  - intros i q Hi (Hq & Hfq & Hrest & Hres & Hb).
    destruct (reserve_body_ok i q) as (q' & -> & Hq' & Hf' & Hr' & Hres' & Hb'); [done|lia|lia|].
    eexists. split; [done|]. split_and!; [done| |by etrans|lia..].
    rewrite Hf', Hfq, zrange_snoc by lia. set_solver.
  - exists p'. naive_solver.
Qed.

(** Reserving panics when the end of the range is in the last page of the
    64-bit space: rounding it outward overflows. *)
Lemma reserve_range_overflow p start end_ :
  start < end_ → U64 ≤ end_ + FRAME_SIZE →
  reserve_range_inner p start end_ = Panic Overflow.
Proof.
  intros Hlt Hov. unfold reserve_range_inner. zbool; [lia|].
  unfold add64. zbool; [lia|]. done.
Qed.

(** ** [init] *)

(** The frames an entry of the firmware map contributes. *)
Definition avail_frames (e : MmapEntry) : gset Z :=
  if e.(mem_type) =? memtype_AVAILABLE
  then inner_frames e.(base) (sat_add64 e.(base) e.(length_))
  else ∅.

Definition all_avail (l : list MmapEntry) : gset Z := ⋃ (avail_frames <$> l).

Definition total_len (l : list MmapEntry) : Z := foldr (fun e n => e.(length_) + n) 0 l.

Lemma total_len_nonneg l : Forall mmap_wf l → 0 ≤ total_len l.
Proof. unfold total_len. induction 1 as [|e l (_ & ? & _) _ IH]; cbn; lia. Qed.

(** The bound that keeps the byte and bad-frame counters from overflowing. *)
Definition counters_fit (p : PmmInner) (n : Z) : Prop :=
  0 ≤ p.(unmapped_bytes) ∧ 0 ≤ p.(bad_frames) ∧
  p.(unmapped_bytes) + n < U64 ∧ FRAME_SIZE * p.(bad_frames) + n < U64.

Lemma pmm_inv_ext p q : bitmap q = bitmap p → free_frames q = free_frames p → pmm_inv p → pmm_inv q.
Proof.
  intros Hb Hf []. split; [by rewrite Hb|by rewrite Hb|].
  unfold frames. by rewrite Hb, Hf.
Qed.

Lemma inner_frames_above start end_ : MAX_PHYS ≤ start → inner_frames start end_ = ∅.
Proof.
  intros. unfold inner_frames. apply zrange_empty.
  unfold FRAME_SIZE, MAX_PHYS, BOOT_MAPPED_BYTES in *. zlia.
Qed.

Lemma inner_frames_clip start end_ : inner_frames start (Z.min end_ MAX_PHYS) = inner_frames start end_.
Proof. unfold inner_frames. f_equal. f_equal. lia. Qed.

Lemma init_entry_ok e p n :
  pmm_inv p → mmap_wf e → 0 ≤ n → counters_fit p (e.(length_) + n) →
  ∃ p', init_entry e p = Ret p' ∧ pmm_inv p' ∧ frames p' = frames p ∪ avail_frames e ∧
        counters_fit p' n ∧ p'.(initialised) = p.(initialised) ∧
        p'.(reserved_frames) = p.(reserved_frames).
Proof.
  intros Hp (Hb & Hl & Ht) Hn (Hu0 & Hd0 & Hu & Hd). unfold init_entry, avail_frames.
  destruct (Z.eqb_spec e.(mem_type) memtype_AVAILABLE).
  - destruct (Z.leb_spec MAX_PHYS e.(base)).
    + rewrite add64_ok by lia. cbn. rewrite inner_frames_above by done. eexists. split; [done|].
      split_and!; [by apply (pmm_inv_ext p)|set_solver|split_and!; cbn; lia|done..].
    + assert (∃ q, (if MAX_PHYS <? sat_add64 e.(base) e.(length_) then
          u ← add64 p.(unmapped_bytes) (sat_add64 e.(base) e.(length_) - MAX_PHYS); Ret (set_unmapped p u)
        else Ret p) = Ret q ∧ pmm_inv q ∧ frames q = frames p ∧ counters_fit q n ∧
        q.(initialised) = p.(initialised) ∧ q.(reserved_frames) = p.(reserved_frames))
        as (q & -> & Hq & Hfq & Hcq & Hiq & Hrq).
      { unfold MAX_PHYS, BOOT_MAPPED_BYTES in *.
        destruct (Z.ltb_spec (2 * 1024 * 1024 * 1024) (sat_add64 e.(base) e.(length_))) as [Hs|Hs].
        - unfold sat_add64 in *. rewrite add64_ok by lia. cbn. eexists. split; [done|].
          split_and!; [by apply (pmm_inv_ext p)|done|split_and!; cbn; lia|done..].
        - exists p. split_and!; [done|done|done|split_and!; lia|done..]. }
      cbn. destruct (free_range_ok q e.(base) (Z.min (sat_add64 e.(base) e.(length_)) MAX_PHYS))
        as (p' & -> & Hp' & Hf' & (_ & Hbad & Hun & Hini) & Hrr); [done|lia| |].
      { unfold FRAME_SIZE, MAX_PHYS, BOOT_MAPPED_BYTES in *. rewrite U64_val. lia. }
      rewrite inner_frames_clip in Hf'. destruct Hcq as (?&?&?&?).
      exists p'. split_and!; [done|done|by rewrite Hf', Hfq|split_and!; lia|congruence..].
  - destruct (Z.eqb_spec e.(mem_type) memtype_BAD_RAM).
    + assert (0 ≤ e.(length_) / FRAME_SIZE ∧ FRAME_SIZE * (e.(length_) / FRAME_SIZE) ≤ e.(length_)) by (unfold FRAME_SIZE; zlia).
      unfold counters_fit, FRAME_SIZE in *. rewrite add64_ok by lia. cbn. eexists. split; [done|].
      split_and!; [by apply (pmm_inv_ext p)|set_solver|cbn; lia..|done|done].
    + exists p. split_and!; [done|done|set_solver|split_and!; lia|done..].
Qed.

Lemma init_loop_ok l p :
  pmm_inv p → Forall mmap_wf l → counters_fit p (total_len l) →
  ∃ p', for_list l p init_entry = Ret p' ∧ pmm_inv p' ∧ frames p' = frames p ∪ all_avail l ∧
        p'.(initialised) = p.(initialised) ∧ p'.(reserved_frames) = p.(reserved_frames) ∧
        counters_fit p' 0.
Proof.
  revert p. induction l as [|e l IH]; intros p Hp Hl Hc; cbn.
  { exists p. split_and!; [done|done|set_solver|done..]. }
  inversion_clear Hl as [|?? He Hl'].
  destruct (init_entry_ok e p (total_len l)) as (p1 & -> & Hp1 & Hf1 & Hc1 & Hi1 & Hr1);
    [done|done|by apply total_len_nonneg|done|]. cbn.
  destruct (IH p1) as (p2 & -> & Hp2 & Hf2 & Hi2 & Hr2 & Hc2); [done..|].
  exists p2. split_and!; [done|done| |congruence|congruence|done]. rewrite Hf2, Hf1. unfold all_avail. cbn. set_solver.
Qed.

Lemma PmmInner_new_frames : frames PmmInner_new = ∅.
Proof.
  apply set_eq. intros i. unfold frames. rewrite elem_of_free_set. unfold is_free, word_at.
  cbn [PmmInner_new bitmap]. split; [|by intros ?%not_elem_of_empty]. intros [Hi Hb]. exfalso.
  destruct (replicate _ 0 !! _) as [w|] eqn:E; cbn in Hb; [|by rewrite Z.bits_0 in Hb].
  apply lookup_replicate in E as [-> _]. by rewrite Z.bits_0 in Hb.
Qed.

Lemma PmmInner_new_inv : pmm_inv PmmInner_new.
Proof.
  split.
  - apply Forall_replicate. rewrite U64_val. lia.
  - apply length_replicate.
  - rewrite PmmInner_new_frames. done.
Qed.

(** ** [allocate] *)

(** [run] of [count] frames at [s], as a set. *)
Abbreviation run s count := (zrange s (s + count)).

Lemma clear_run_ok p s n :
  pmm_inv p → 0 ≤ n → run s n ⊆ frames p →
  ∃ map, clear_run p.(bitmap) s n = Ret map ∧
    pmm_inv (set_bitmap p map (p.(free_frames) - n)) ∧
    frames (set_bitmap p map (p.(free_frames) - n)) = frames p ∖ run s n.
Proof.
  intros Hp Hn Hrun. unfold clear_run.
  assert (∀ k, 0 ≤ k < n → s + k ∈ frames p) as Hk.
  { intros k Hk. apply Hrun, elem_of_zrange. lia. }
  apply (for_range_inv (fun i m => pmm_inv (set_bitmap p m (p.(free_frames) - i)) ∧
           frames (set_bitmap p m (p.(free_frames) - i)) = frames p ∖ run s i)).
  - done.
  - split; [apply (pmm_inv_ext p); cbn; (done || lia)|]. rewrite zrange_empty by lia. set_solver.
  - intros i m Hi [Hq Hf]. set (q := set_bitmap p m _) in *.
    pose proof (frames_range p (s + i) Hp (Hk i Hi)) as Hb. rewrite MAX_FRAMES_val in Hb.
    rewrite add64_ok by (rewrite U64_val; lia). cbn.
    destruct (pmm_mark_used q (s + i)) as (m' & Hm & _ & Hq' & Hf').
    + done.
    + rewrite MAX_FRAMES_val. lia.
    + rewrite Hf, elem_of_difference, elem_of_zrange. split; [by apply Hk|lia].
    + exists m'. split; [exact Hm|].
      replace (p.(free_frames) - (i + 1)) with (q.(free_frames) - 1) by (cbn; lia).
      change (set_bitmap p m' (q.(free_frames) - 1)) with (set_bitmap q m' (q.(free_frames) - 1)).
      split; [done|]. rewrite Hf', Hf.
      replace (s + (i + 1)) with (s + i + 1) by lia. rewrite zrange_snoc by lia. set_solver.
Qed.

Lemma run_free_subset p s count :
  pmm_inv p → 0 ≤ s → s + count ≤ MAX_FRAMES →
  run_free p.(bitmap) s count ↔ run s count ⊆ frames p.
Proof.
  intros Hp Hs Hle. split.
  - intros Hr i Hi%elem_of_zrange. apply elem_of_free_set. rewrite inv_nbits by done.
    split; [lia|]. specialize (Hr (i - s)). replace (s + (i - s)) with i in Hr by lia. apply Hr. lia.
  - intros Hr k Hk. assert (s + k ∈ frames p) as Hin.
    { apply Hr, elem_of_zrange. lia. }
    by apply elem_of_free_set in Hin as [_ ?].
Qed.

(** A search over [[from, limit)] finds a run of free frames, or there is
    none that starts and ends inside. *)
Definition found_ok (p : PmmInner) (from limit count align : Z) (r : option Z) : Prop :=
  match r with
  | Some s => 0 ≤ s ∧ s + count ≤ MAX_FRAMES ∧ run s count ⊆ frames p ∧
              (count ≠ 1 → s mod Z.max align 1 = 0)
  | None => ∀ s, from ≤ s → s + count ≤ limit → (count ≠ 1 → s mod Z.max align 1 = 0) →
                 ¬ run s count ⊆ frames p
  end.

Lemma find_frames_ok p from limit count align :
  pmm_inv p → 0 ≤ from ≤ limit → limit ≤ MAX_FRAMES → 1 ≤ count < 2 ^ 62 → 0 ≤ align < 2 ^ 62 →
  ∃ r, find_frames p.(bitmap) from limit count align = Ret r ∧ found_ok p from limit count align r.
Proof.
  intros Hp Hf Hl Hc Ha. unfold find_frames.
  pose proof (inv_nbits p Hp) as Hnb. rewrite MAX_FRAMES_val in *.
  destruct (Z.eqb_spec count 1) as [->|Hne].
  - destruct (next_free_spec p.(bitmap) from limit) as (r & -> & Hr); [apply Hp|lia..|].
    exists r. split; [done|]. destruct r as [i|]; cbn in *.
    + destruct Hr as (Hi & Hfree & _). rewrite MAX_FRAMES_val. split_and!; [lia|zlia| |lia].
      apply run_free_subset; [done|lia|rewrite MAX_FRAMES_val; zlia|].
      intros k Hk. by replace (i + k) with i by lia.
    + intros s Hs Hle _ Hsub. assert (s ∈ frames p) as Hin.
      { apply Hsub, elem_of_zrange. lia. }
      apply elem_of_free_set in Hin as [_ Hin]. rewrite Hr in Hin by lia. done.
  - destruct (next_free_run_spec p.(bitmap) from limit count align) as (r & -> & Hr); [lia..|].
    exists r. split; [done|]. destruct r as [i|]; cbn in *.
    + destruct Hr as (Hi & Hal & Hle & Hrun & _). rewrite MAX_FRAMES_val.
      split_and!; [lia|lia| |done]. apply run_free_subset; [done|lia|rewrite MAX_FRAMES_val; lia|done].
    + intros s Hs Hle Hal Hsub. apply (Hr s); [done|by apply Hal|done|].
      apply run_free_subset; [done|lia|rewrite MAX_FRAMES_val; lia|done].
Qed.

(** What a call to [allocate] does to the abstract state. *)
Definition alloc_ok (s : Pmm) (count align : Z) (r : option Z) (s' : Pmm) : Prop :=
  match r with
  | Some i => 0 ≤ i ∧ i + count ≤ MAX_FRAMES ∧ run i count ⊆ frames s.(PMM) ∧
      (count ≠ 1 → i mod Z.max align 1 = 0) ∧
      frames s'.(PMM) = frames s.(PMM) ∖ run i count ∧
      s'.(CURSOR) = i + count ∧ same_rest s.(PMM) s'.(PMM) ∧
      s'.(PMM).(reserved_frames) = s.(PMM).(reserved_frames)
  | None => s' = s ∧
      (∀ i, 0 ≤ i → i + count ≤ MAX_FRAMES → (count ≠ 1 → i mod Z.max align 1 = 0) →
         Z.min s.(CURSOR) MAX_FRAMES ≤ i ∨ i + count ≤ Z.min s.(CURSOR) MAX_FRAMES →
         ¬ run i count ⊆ frames s.(PMM))
  end.

Lemma allocate_ok s count align :
  pmm_inv s.(PMM) → s.(PMM).(initialised) = true → 0 ≤ s.(CURSOR) →
  1 ≤ count < 2 ^ 62 → 0 ≤ align < 2 ^ 62 →
  ∃ r s', allocate s count align = Ret (r, s') ∧ pmm_inv s'.(PMM) ∧ 0 ≤ s'.(CURSOR) ∧
          alloc_ok s count align r s'.
Proof.
  intros Hp Hini Hcur Hc Ha. unfold allocate. rewrite Hini. cbn.
  set (from := Z.min s.(CURSOR) MAX_FRAMES).
  assert (0 ≤ from ≤ MAX_FRAMES) as Hfrom by (unfold from; rewrite MAX_FRAMES_val; lia).
  destruct (find_frames_ok s.(PMM) from MAX_FRAMES count align) as (r1 & -> & Hr1); [done|lia..|]. cbn.
  assert (∃ r, match r1 with
     | Some x => Ret (Some x)
     | None => if 0 <? from then find_frames s.(PMM).(bitmap) 0 from count align else Ret None
     end = Ret r ∧
     match r with
     | Some _ => found_ok s.(PMM) 0 MAX_FRAMES count align r
     | None => found_ok s.(PMM) from MAX_FRAMES count align None ∧
               found_ok s.(PMM) 0 from count align None
     end) as (r & -> & Hr).
  { destruct r1 as [x|]; [by eexists|]. destruct (Z.ltb_spec 0 from).
    - destruct (find_frames_ok s.(PMM) 0 from count align) as (r & -> & Hr); [done|lia..|].
      exists r. split; [done|]. destruct r; done.
    - exists None. split; [done|]. split; [done|]. intros i Hi Hle. lia. }
  cbn. destruct r as [i|].
  - destruct Hr as (Hi & Hle & Hrun & Hal).
    destruct (clear_run_ok s.(PMM) i count) as (m & -> & Hp' & Hf'); [done|lia|done|]. cbn.
    assert (0 ≤ s.(PMM).(free_frames) - count).
    { pose proof (inv_count _ Hp') as Hcnt. cbn in Hcnt. lia. }
    rewrite sub64_ok by lia. cbn. rewrite MAX_FRAMES_val in Hle.
    rewrite add64_ok by (rewrite U64_val; lia). cbn.
    eexists _, _. split; [done|]. cbn. rewrite MAX_FRAMES_val.
    split_and!; [done|lia|lia|lia|done|done|done|done|done|done].
  - eexists _, _. split; [done|]. split; [done|]. split; [done|]. cbn. split; [done|].
    destruct Hr as [Hr1' Hr2]. cbn in Hr1', Hr2. intros i Hi Hle Hal [Hge|Hlt].
    + apply Hr1'; (done || lia).
    + apply Hr2; (done || lia).
Qed.

(** A single-frame request fails only when no frame is free. *)
Lemma alloc_one_none s align s' :
  pmm_inv s.(PMM) → alloc_ok s 1 align None s' → frames s.(PMM) = ∅.
Proof.
  intros Hp [_ Hno]. apply set_eq. intros i. split; [|by intros ?%not_elem_of_empty]. intros Hi.
  pose proof (frames_range _ _ Hp Hi) as Hb. exfalso. apply (Hno i); [lia..| |].
  - destruct (Z.le_gt_cases (Z.min s.(CURSOR) MAX_FRAMES) i); [left|right]; lia.
  - intros j Hj%elem_of_zrange. by replace j with i by lia.
Qed.
