(* ===== verification/PmmSpec.v ===== *)
(** * What the frame allocator promises

    The theorems about kernel/src/memory/pmm.rs: the bitmap searches return the
    least solution, [init] frees exactly the frames the firmware map makes
    available, every operation refines an operation on the set of free frames,
    and along any sequence of calls no frame has two owners.  The class
    [FrameSource] is what the page-table code relies on. *)

From S2P Require Import Prelude Arch BootInfo Bitmap Pmm.
From stdpp Require Import base gmap sets list list_numbers strings numbers.
From Stdlib Require Import ZArith Lia.
#[local] Open Scope Z_scope.

(** ** The abstract allocator

    What a client sees of the allocator is the set of free frame numbers. *)
Definition pmm_free (s : Pmm) : gset Z := frames s.(PMM).

(** ** Shared facts *)

Lemma frame_from_index_ok `{X : X86Crate} i :
  0 ≤ i < MAX_FRAMES → frame_from_index i = Ret (i * FRAME_SIZE).
Proof.
  rewrite MAX_FRAMES_val. intros Hi. unfold frame_from_index, FRAME_SIZE.
  rewrite mul64_ok by (rewrite U64_val; lia). cbn. apply PhysAddr_new_low. lia.
Qed.

(** [allocate_contiguous] is [allocate] with the frame number turned into an
    address. *)
Lemma allocate_contiguous_ok `{X : X86Crate} s count align :
  pmm_inv s.(PMM) → s.(PMM).(initialised) = true → 0 ≤ s.(CURSOR) →
  1 ≤ count < 2 ^ 62 → 0 ≤ align < 2 ^ 62 →
  ∃ r s', allocate_contiguous s count align = Ret ((fun i => i * FRAME_SIZE) <$> r, s') ∧
          pmm_inv s'.(PMM) ∧ 0 ≤ s'.(CURSOR) ∧ alloc_ok s count align r s'.
Proof.
  intros Hp Hi Hc Hn Ha. unfold allocate_contiguous.
  destruct (allocate_ok s count align) as (r & s' & -> & Hp' & Hc' & Hok); [done..|]. cbn.
  exists r, s'. split; [|done]. destruct r as [i|]; [|done].
  destruct Hok as (Hi0 & Hle & _). rewrite frame_from_index_ok by lia. done.
Qed.

Lemma frame_of_addr i : (i * FRAME_SIZE) / FRAME_SIZE = i.
Proof. unfold FRAME_SIZE. apply Z.div_mul. lia. Qed.

Lemma pa_range pa : 0 ≤ pa → pa < MAX_PHYS → 0 ≤ pa / FRAME_SIZE < MAX_FRAMES.
Proof. rewrite MAX_FRAMES_val. unfold MAX_PHYS, FRAME_SIZE, BOOT_MAPPED_BYTES. zlia. Qed.

Lemma ident_ok `{X : X86Crate} debug pa :
  0 ≤ pa → pa < MAX_PHYS → PhysAddr_new pa = Ret pa ∧ phys_as_ident debug pa = Ret pa.
Proof.
  unfold MAX_PHYS. intros Hpa Hlt. split.
  - apply PhysAddr_new_low. unfold BOOT_MAPPED_BYTES in *. lia.
  - unfold phys_as_ident. destruct (Z.ltb_spec pa BOOT_MAPPED_BYTES); [|lia].
    rewrite orb_true_r. cbn. apply VirtAddr_new_low. unfold BOOT_MAPPED_BYTES in *. lia.
Qed.

Lemma canary_ok_spec `{X : X86Crate} debug m pa :
  0 ≤ pa → pa < MAX_PHYS →
  canary_ok debug m pa = Ret (negb (debug && (ld64 m pa =? FREE_CANARY))).
Proof.
  intros Hpa Hlt. unfold canary_ok. destruct debug; [|done]. cbn.
  pose proof (pa_range pa Hpa Hlt). destruct (Z.leb_spec MAX_FRAMES (pa / FRAME_SIZE)); [lia|].
  destruct (ident_ok true pa Hpa Hlt) as [-> Hid]. cbn. unfold phys_is_boot_mapped.
  unfold MAX_PHYS in Hlt. destruct (Z.ltb_spec pa BOOT_MAPPED_BYTES); [|lia]. cbn. by rewrite Hid.
Qed.

(** A frame that still holds the canary is refused. *)
Lemma deallocate_canary `{X : X86Crate} s m pa :
  pmm_inv s.(PMM) → 0 ≤ pa → pa < MAX_PHYS → pa / FRAME_SIZE ∉ frames s.(PMM) →
  ld64 m pa = FREE_CANARY →
  deallocate_frame true s m pa =
    Panic (PanicMsg "pmm: frame was modified after free (canary overwritten)").
Proof.
  intros Hp Hpa Hlt Hn Hc. unfold deallocate_frame. pose proof (pa_range pa Hpa Hlt).
  destruct (Z.leb_spec MAX_FRAMES (pa / FRAME_SIZE)); [lia|].
  rewrite pmm_test by done. rewrite bool_decide_eq_false_2 by done.
  rewrite canary_ok_spec by done. by rewrite Hc.
Qed.

(** The successful path of [deallocate]. *)
Lemma deallocate_ok `{X : X86Crate} debug s m pa :
  pmm_inv s.(PMM) → 0 ≤ pa < MAX_PHYS → pa / FRAME_SIZE ∉ frames s.(PMM) →
  (debug = true → ld64 m pa ≠ FREE_CANARY) →
  ∃ p', deallocate_frame debug s m pa =
          Ret ({| PMM := p'; CURSOR := s.(CURSOR) |},
               if debug then st64 m pa FREE_CANARY else m) ∧
        pmm_inv p' ∧ frames p' = {[pa / FRAME_SIZE]} ∪ frames s.(PMM) ∧ same_rest s.(PMM) p' ∧
        p'.(reserved_frames) = s.(PMM).(reserved_frames).
Proof.
  intros Hp Hpa Hn Hcan. unfold deallocate_frame. pose proof (pa_range pa ltac:(lia) ltac:(lia)) as Hi.
  destruct (Z.leb_spec MAX_FRAMES (pa / FRAME_SIZE)); [lia|].
  rewrite pmm_test by done. rewrite bool_decide_eq_false_2 by done.
  destruct (pmm_mark_free s.(PMM) (pa / FRAME_SIZE)) as (map & Hset & Hadd & Hp' & Hf); [done..|].
  rewrite canary_ok_spec by lia.
  replace (debug && (ld64 m pa =? FREE_CANARY))%bool with false.
  2:{ destruct debug; [|done]. symmetry. apply Z.eqb_neq. by apply Hcan. }
  cbn. rewrite Hset. cbn. rewrite Hadd. cbn. eexists. split; [|split; [exact Hp'|by split]].
  destruct debug; [|done].
  destruct (ident_ok true pa) as [-> Hid]; [lia|lia|]. cbn. by rewrite Hid.
Qed.

(** ** A concrete allocator for the witnesses: frames 1 and 2 are free *)

Definition demo_entry : MmapEntry := mkMmap 0x1000 0x2000 memtype_AVAILABLE.
Definition demo_mmap : HVec.t MmapEntry :=
  HVec.mk (demo_entry :: replicate 63 PLACEHOLDER_MMAP) 1.
Definition demo_info : BootInfo :=
  {| total_size := 0; cmdline := None; loader_name := None; mmap := demo_mmap;
     framebuffer := None; acpi_rsdp := None; acpi_version := 0; load_base_addr := None;
     tag_count := 1; phys_addr := 0 |}.
Definition Pmm_new : Pmm := {| PMM := PmmInner_new; CURSOR := 0 |}.
Definition demo_pmm : Pmm :=
  match init Pmm_new demo_info with Ret s => s | Panic _ => Pmm_new end.

Lemma init_new_ok info :
  Forall mmap_wf (HVec.as_slice info.(mmap)) → total_len (HVec.as_slice info.(mmap)) < U64 →
  ∃ s, init Pmm_new info = Ret s ∧ pmm_inv s.(PMM) ∧ s.(CURSOR) = 0 ∧
       s.(PMM).(initialised) = true ∧
       s.(PMM).(total_frames) = s.(PMM).(free_frames) ∧ s.(PMM).(reserved_frames) = 0 ∧
       frames s.(PMM) = all_avail (HVec.as_slice info.(mmap)).
Proof.
  intros Hwf Hlen. unfold init.
  destruct (init_loop_ok (HVec.as_slice info.(mmap)) PmmInner_new)
    as (p & Hl & Hp & Hf & Hi & Hres & _); [apply PmmInner_new_inv|done| |].
  { pose proof (total_len_nonneg _ Hwf). unfold counters_fit; cbn [PmmInner_new unmapped_bytes bad_frames]; lia. }
  change (initialised (PMM Pmm_new)) with false. cbn [PMM Pmm_new]. rewrite Hl. cbn [mbind Res_bind].
  eexists. split; [reflexivity|]. cbn [PMM CURSOR]. rewrite PmmInner_new_frames in Hf.
  split; [by apply (pmm_inv_ext p)|]. do 3 (split; [reflexivity|]). split; [done|].
  change (frames (set_ready p)) with (frames p). rewrite Hf. apply union_empty_l_L.
Qed.

(** The bytes of bad memory [init] counts are bytes of the memory map. *)
Lemma init_bad_bound info s :
  Forall mmap_wf (HVec.as_slice info.(mmap)) → total_len (HVec.as_slice info.(mmap)) < U64 →
  init Pmm_new info = Ret s → 0 ≤ s.(PMM).(bad_frames) ∧ FRAME_SIZE * s.(PMM).(bad_frames) < U64.
Proof.
  intros Hwf Hlen. unfold init.
  destruct (init_loop_ok (HVec.as_slice info.(mmap)) PmmInner_new)
    as (p & Hl & _ & _ & _ & _ & (_ & Hb & _ & Hc)); [apply PmmInner_new_inv|done| |].
  { pose proof (total_len_nonneg _ Hwf). unfold counters_fit; cbn [PmmInner_new unmapped_bytes bad_frames]; lia. }
  change (initialised (PMM Pmm_new)) with false. cbn [PMM Pmm_new]. rewrite Hl. cbn [mbind Res_bind].
  intros [= <-]. cbn [PMM set_ready bad_frames]. lia.
Qed.

Lemma demo_wf : Forall mmap_wf (HVec.as_slice demo_info.(mmap)).
Proof. apply Forall_singleton. by vm_compute. Qed.
Lemma demo_len : total_len (HVec.as_slice demo_info.(mmap)) < U64.
Proof. by vm_compute. Qed.

Lemma demo_pmm_ok :
  pmm_inv demo_pmm.(PMM) ∧ demo_pmm.(CURSOR) = 0 ∧ demo_pmm.(PMM).(initialised) = true ∧
  frames demo_pmm.(PMM) = {[1; 2]}.
Proof.
  destruct (init_new_ok demo_info demo_wf demo_len) as (s & Hs & Hp & Hc & Hi & _ & _ & Hf).
  unfold demo_pmm. rewrite Hs. split_and!; [done..|]. rewrite Hf. reflexivity.
Qed.

Lemma demo_pmm_free : pmm_free demo_pmm = {[1; 2]}.
Proof. apply demo_pmm_ok. Qed.

(** ** [init] *)

Lemma elem_of_all_avail i l :
  i ∈ all_avail l ↔
  ∃ e, e ∈ l ∧ e.(mem_type) = memtype_AVAILABLE ∧ e.(base) ≤ i * FRAME_SIZE ∧
       (i + 1) * FRAME_SIZE ≤ Z.min (sat_add64 e.(base) e.(length_)) MAX_PHYS.
Proof.
  unfold all_avail. rewrite elem_of_union_list. split.
  - intros (Y & HY & Hi). apply list_elem_of_fmap in HY as (e & -> & He). exists e.
    unfold avail_frames in Hi. destruct (Z.eqb_spec (mem_type e) memtype_AVAILABLE);
      [|by apply not_elem_of_empty in Hi]. by apply elem_of_inner_frames in Hi.
  - intros (e & He & Ht & Hi). exists (avail_frames e). split; [by apply list_elem_of_fmap_2|].
    unfold avail_frames. rewrite Ht. by apply elem_of_inner_frames.
Qed.

(** C19: started from the boot-time allocator, [init] succeeds on every
    well-formed memory map whose lengths do not overflow a [u64]; afterwards
    frame [i] is free exactly when one AVAILABLE entry contains all of its
    bytes and it lies below 2 GiB, the counters agree with the bitmap, and a
    second [init] panics. *)
Theorem init_frees_exactly_available info :
  Forall mmap_wf (HVec.as_slice info.(mmap)) → total_len (HVec.as_slice info.(mmap)) < U64 →
  ∃ s, init Pmm_new info = Ret s ∧ pmm_inv s.(PMM) ∧
       (∀ i, i ∈ frames s.(PMM) ↔
          ∃ e, e ∈ HVec.as_slice info.(mmap) ∧ e.(mem_type) = memtype_AVAILABLE ∧
               e.(base) ≤ i * FRAME_SIZE ∧
               (i + 1) * FRAME_SIZE ≤ Z.min (sat_add64 e.(base) e.(length_)) MAX_PHYS) ∧
       s_total_frames (stats s) = Z.of_nat (size (frames s.(PMM))) ∧
       s_free_frames (stats s) = Z.of_nat (size (frames s.(PMM))) ∧
       init s info = Panic (PanicMsg "pmm::init called twice").
Proof.
  intros Hwf Hlen. destruct (init_new_ok info Hwf Hlen) as (s & Hs & Hp & Hc & Hi & Ht & _ & Hf).
  exists s. split; [done|]. split; [done|]. split; [|split; [|split]].
  - intros i. rewrite Hf. apply elem_of_all_avail.
  - cbn [stats s_total_frames]. rewrite Ht. apply Hp.
  - apply Hp.
  - unfold init. by rewrite Hi.
Qed.

Lemma init_frees_exactly_available_witness :
  ∃ s, init Pmm_new demo_info = Ret s ∧ 2 ∈ frames s.(PMM) ∧ s_total_frames (stats s) = 2.
Proof.
  destruct (init_frees_exactly_available demo_info) as (s & Hs & _ & Hf & Ht & _).
  - exact demo_wf.
  - exact demo_len.
  - exists s. split; [exact Hs|]. split.
    + apply Hf. exists demo_entry. split; [by apply list_elem_of_singleton|]. by vm_compute.
    + rewrite Ht. pose proof demo_pmm_ok as (_ & _ & _ & Hd). unfold demo_pmm in Hd.
      rewrite Hs in Hd. rewrite Hd. by vm_compute.
Defined.

(** ** [reserve_range] *)

Lemma reserve_body_used idx p :
  pmm_inv p → 0 ≤ idx < MAX_FRAMES → idx ∉ frames p → reserve_range_body idx p = Ret p.
Proof.
  intros Hp Hi Hn. unfold reserve_range_body. rewrite pmm_test by done.
  by rewrite bool_decide_eq_false_2.
Qed.

Lemma reserve_again p start end_ :
  pmm_inv p → 0 ≤ start → end_ + FRAME_SIZE < U64 → frames p ## outer_frames start end_ →
  reserve_range_inner p start end_ = Ret p.
Proof.
  intros Hp Hs Hov Hd. unfold reserve_range_inner. unfold outer_frames in Hd.
  destruct (Z.leb_spec end_ start); [done|].
  rewrite add64_ok by done. cbn. rewrite sub64_ok by (unfold FRAME_SIZE; lia). cbn.
  set (first := start / FRAME_SIZE) in *. set (last := (end_ + FRAME_SIZE - 1) / FRAME_SIZE) in *.
  assert (0 ≤ first) by (unfold first, FRAME_SIZE; zlia).
  destruct (Z.le_gt_cases first (Z.min last MAX_FRAMES)); [|by rewrite for_range_empty by lia].
  destruct (for_range_inv (fun _ q => q = p) first (Z.min last MAX_FRAMES) p reserve_range_body)
    as (p' & Hr & ->); [done|done| |done].
  intros i q Hi ->. exists p. split; [|done]. apply reserve_body_used; [done|lia|].
  intros Hin. apply (Hd i Hin). apply elem_of_zrange. lia.
Qed.

(** C20: [reserve_range] removes from the free set exactly the frames that
    meet the byte range, moves each of them from the free to the reserved
    counter, is idempotent, and panics (overflow) when rounding the end
    outward leaves the 64-bit space. *)
Theorem reserve_range_refines s start end_ :
  pmm_inv s.(PMM) → 0 ≤ start → 0 ≤ s.(PMM).(reserved_frames) →
  s.(PMM).(reserved_frames) + MAX_FRAMES < U64 →
  if (end_ <=? start) || (end_ + FRAME_SIZE <? U64) then
    ∃ s', reserve_range s start end_ = Ret s' ∧ pmm_inv s'.(PMM) ∧
      (∀ i, i ∈ pmm_free s' ↔
         i ∈ pmm_free s ∧ ¬ (∃ a, start ≤ a < end_ ∧ a / FRAME_SIZE = i)) ∧
      s_reserved_frames (stats s') - s_reserved_frames (stats s) =
        s_free_frames (stats s) - s_free_frames (stats s') ∧
      reserve_range s' start end_ = Ret s'
  else reserve_range s start end_ = Panic Overflow.
Proof.
  unfold pmm_free.
  intros Hp Hs Hr0 Hr1. unfold reserve_range.
  destruct (Z.leb_spec end_ start) as [Hle|Hlt]; cbn [orb].
  - unfold reserve_range_inner. destruct (Z.leb_spec end_ start); [|lia]. cbn.
    eexists. split; [reflexivity|]. cbn. destruct (Z.leb_spec end_ start); [|lia]. cbn.
    split_and!; [done| |lia|done]. intros i. split; [|naive_solver].
    intros Hi. split; [done|]. intros (a & Ha & _). lia.
  - destruct (Z.ltb_spec (end_ + FRAME_SIZE) U64) as [Hov|Hov].
    2:{ by rewrite reserve_range_overflow. }
    destruct (reserve_range_ok s.(PMM) start end_) as (p' & -> & Hp' & Hf & _ & Hcnt); [done..|].
    cbn. eexists. split; [reflexivity|]. cbn. split_and!; [done| |lia|].
    + intros i. by rewrite Hf, elem_of_difference, elem_of_outer_frames.
    + rewrite reserve_again; [done..|]. rewrite Hf. set_solver.
Qed.

Lemma reserve_range_refines_witness :
  ∃ s', reserve_range demo_pmm 0x1FFF 0x2001 = Ret s' ∧ (1 ∉ frames s'.(PMM)) ∧ (2 ∉ frames s'.(PMM)).
Proof.
  pose proof demo_pmm_ok as (Hp & _ & _ & _).
  destruct (reserve_range_refines demo_pmm 0x1FFF 0x2001) as (s' & Hs & _ & Hf & _);
    [exact Hp|lia|by vm_compute|by vm_compute|].
  exists s'. split; [exact Hs|]. split; intros Hin%Hf; destruct Hin as [_ Hno]; apply Hno.
  - exists 0x1FFF. by vm_compute.
  - exists 0x2000. by vm_compute.
Defined.

(** ** Allocation *)

Section Allocation.
Context `{X : X86Crate}.

Lemma zrange_singleton i : run i 1 = {[i]}.
Proof. apply set_eq. intros j. rewrite elem_of_zrange, elem_of_singleton. lia. Qed.

Lemma allocate_frame_ok s :
  pmm_inv s.(PMM) → s.(PMM).(initialised) = true → 0 ≤ s.(CURSOR) →
  ∃ r s', allocate_frame s = Ret (r, s') ∧ pmm_inv s'.(PMM) ∧
          s'.(PMM).(initialised) = true ∧ 0 ≤ s'.(CURSOR) ∧
    match r with
    | Some pa => ∃ i, pa = i * FRAME_SIZE ∧ i ∈ frames s.(PMM) ∧
                      frames s'.(PMM) = frames s.(PMM) ∖ {[i]}
    | None => frames s.(PMM) = ∅ ∧ s' = s
    end.
Proof.
  intros Hp Hi Hc. unfold allocate_frame.
  destruct (allocate_contiguous_ok s 1 1) as (r & s' & -> & Hp' & Hc' & Hok); [done|done|done|lia..|].
  exists ((fun i => i * FRAME_SIZE) <$> r), s'. split; [done|]. split; [done|].
  destruct r as [i|]; cbn.
  - destruct Hok as (_ & _ & Hrun & _ & Hf & _ & (_ & _ & _ & Hi') & _).
    rewrite zrange_singleton in *. split_and!; [congruence|done|].
    exists i. split_and!; [done|set_solver|done].
  - pose proof (alloc_one_none s 1 s' Hp Hok). destruct Hok as [-> _]. done.
Qed.

(** C17: [allocate_frame] on an initialised allocator returns the address of a
    frame that was free and is no longer, leaves every other frame as it was
    and lowers the free count by one; it returns [None], and changes nothing,
    exactly when no frame is free, wherever the cursor is.  It never panics: it
    does not look at the content of the frame, so the canary of a debug build,
    which the documentation says trips on the next allocation, plays no part. *)
Theorem allocate_frame_correct s :
  pmm_inv s.(PMM) → s.(PMM).(initialised) = true → 0 ≤ s.(CURSOR) →
  (pmm_free s = ∅ ∧ allocate_frame s = Ret (None, s)) ∨
  (∃ i s', allocate_frame s = Ret (Some (i * FRAME_SIZE), s') ∧ pmm_inv s'.(PMM) ∧
     i ∈ pmm_free s ∧ pmm_free s' = pmm_free s ∖ {[i]} ∧
     s_free_frames (stats s') = s_free_frames (stats s) - 1).
Proof.
  unfold pmm_free.
  intros Hp Hi Hc. destruct (allocate_frame_ok s Hp Hi Hc) as ([pa|] & s' & Ha & Hp' & _ & _ & Hr).
  - right. destruct Hr as (i & -> & Hin & Hf). exists i, s'. split_and!; [done..|].
    cbn. rewrite (inv_count _ Hp), (inv_count _ Hp'), Hf. by apply size_remove.
  - left. destruct Hr as [He ->]. done.
Qed.

(** [allocate_contiguous] with a positive count returns an aligned run of
    frames that were all free, takes exactly that run and moves the cursor past
    it; when it returns [None] nothing changes and no aligned free run lies
    entirely on one side of the cursor. *)
Theorem allocate_contiguous_correct s count align :
  pmm_inv s.(PMM) → s.(PMM).(initialised) = true → 0 ≤ s.(CURSOR) →
  2 ≤ count < 2 ^ 62 → 0 ≤ align < 2 ^ 62 →
  (∃ i s', allocate_contiguous s count align = Ret (Some (i * FRAME_SIZE), s') ∧
     pmm_inv s'.(PMM) ∧ i mod Z.max align 1 = 0 ∧
     zrange i (i + count) ⊆ pmm_free s ∧
     pmm_free s' = pmm_free s ∖ zrange i (i + count) ∧
     s'.(CURSOR) = i + count) ∨
  (allocate_contiguous s count align = Ret (None, s) ∧
     ∀ i, 0 ≤ i → i + count ≤ MAX_FRAMES → i mod Z.max align 1 = 0 →
          zrange i (i + count) ⊆ pmm_free s → i < s.(CURSOR) < i + count).
Proof.
  unfold pmm_free.
  intros Hp Hi Hc Hn Ha.
  destruct (allocate_contiguous_ok s count align) as ([i|] & s' & He & Hp' & _ & Hok);
    [done|done|done|lia|done| |].
  - left. destruct Hok as (Hi0 & Hle & Hrun & Hal & Hf & Hcur & _ & _).
    exists i, s'. split_and!; [done|done|apply Hal; lia|done..].
  - right. destruct Hok as [-> Hno]. split; [done|]. intros i Hi0 Hle Hal Hrun.
    destruct (decide (i < s.(CURSOR) < i + count)); [done|].
    exfalso. apply (Hno i); [done..| |done]. lia.
Qed.

(** The wrap-around of a multi-frame request searches each side of the
    cursor separately, so when the only free frames are a run that the cursor
    cuts in two the request fails although the run is long enough. *)
Theorem allocate_misses_straddling_run s count i :
  pmm_inv s.(PMM) → s.(PMM).(initialised) = true → 2 ≤ count < 2 ^ 62 →
  frames s.(PMM) = zrange i (i + count) → i < s.(CURSOR) < i + count →
  allocate_contiguous s count 1 = Ret (None, s).
Proof.
  intros Hp Hi Hn Hf Hc.
  assert (∀ x, i ≤ x < i + count → 0 ≤ x < MAX_FRAMES) as Hrange.
  { intros x Hx. apply (frames_range s.(PMM)); [done|]. rewrite Hf. by apply elem_of_zrange. }
  pose proof (Hrange i ltac:(lia)) as Hi0. pose proof (Hrange (i + count - 1) ltac:(lia)) as Hi1.
  assert (∀ from limit r, 0 ≤ from ≤ limit → limit ≤ MAX_FRAMES →
    (i < from ∨ limit < i + count) → find_frames s.(PMM).(bitmap) from limit count 1 = Ret r →
    r = None) as Hnone.
  { intros from limit r Hfrom Hlim Hout. unfold find_frames.
    destruct (Z.eqb_spec count 1); [lia|]. rewrite MAX_FRAMES_val in *.
    destruct (next_free_run_spec s.(PMM).(bitmap) from limit count 1) as (r' & -> & Hr');
      [lia|rewrite inv_nbits, MAX_FRAMES_val by done; lia
       |rewrite inv_nbits, MAX_FRAMES_val by done; lia|lia|lia|].
    intros [= ->]. destruct r as [x|]; [exfalso|done].
    destruct Hr' as (Hfx & _ & Hlx & Hrun & _).
    apply (run_free_subset s.(PMM)) in Hrun; [|done|lia|rewrite MAX_FRAMES_val; lia].
    rewrite Hf in Hrun.
    pose proof (Hrun x ltac:(apply elem_of_zrange; lia)) as H0%elem_of_zrange.
    pose proof (Hrun (x + count - 1) ltac:(apply elem_of_zrange; lia)) as H1%elem_of_zrange. lia. }
  unfold allocate_contiguous, allocate. rewrite Hi. cbn.
  replace (Z.min s.(CURSOR) MAX_FRAMES) with s.(CURSOR) by lia.
  destruct (find_frames_ok s.(PMM) s.(CURSOR) MAX_FRAMES count 1) as (r1 & E1 & _);
    [done|lia|lia|lia|lia|]. rewrite E1. cbn.
  rewrite (Hnone s.(CURSOR) MAX_FRAMES r1 ltac:(lia) ltac:(lia) ltac:(lia) E1).
  destruct (Z.ltb_spec 0 s.(CURSOR)); [|lia].
  destruct (find_frames_ok s.(PMM) 0 s.(CURSOR) count 1) as (r2 & E2 & _);
    [done|lia|lia|lia|lia|]. rewrite E2. cbn.
  by rewrite (Hnone 0 s.(CURSOR) r2 ltac:(lia) ltac:(lia) ltac:(lia) E2).
Qed.

(** ** Deallocation *)


(** Giving back the frame [allocate_frame] just returned restores the
    free set and the free count, in a release build whatever was written to
    the frame. *)
Theorem alloc_free_round_trip s m pa s1 :
  pmm_inv s.(PMM) → s.(PMM).(initialised) = true → 0 ≤ s.(CURSOR) →
  allocate_frame s = Ret (Some pa, s1) →
  ∃ s2, deallocate_frame false s1 m pa = Ret (s2, m) ∧ pmm_inv s2.(PMM) ∧
        pmm_free s2 = pmm_free s ∧ stats s2 = stats s.
Proof.
  unfold pmm_free.
  intros Hp Hi Hc Ha. unfold allocate_frame in Ha.
  destruct (allocate_contiguous_ok s 1 1) as (r & s' & E & Hp' & Hc' & Hok); [done|done|done|lia..|].
  rewrite E in Ha. injection Ha as Hr ->.
  destruct r as [i|]; [|done]. injection Hr as <-.
  destruct Hok as (Hi0 & Hle & Hrun & _ & Hf & Hcur & Hrest & Hres).
  rewrite zrange_singleton in *. rewrite MAX_FRAMES_val in Hle.
  destruct (deallocate_ok false s1 m (i * FRAME_SIZE)) as (p' & -> & Hp2 & Hf2 & Hrest2 & Hres2);
    [done|unfold FRAME_SIZE, MAX_PHYS, BOOT_MAPPED_BYTES; lia
     |rewrite frame_of_addr, Hf; set_solver|done|].
  eexists. split; [done|]. cbn. split; [done|].
  assert (frames p' = frames s.(PMM)) as Heq.
  { rewrite Hf2, frame_of_addr, Hf. apply set_eq. intros j. destruct (decide (j = i)); set_solver. }
  split; [done|]. unfold stats. cbn. destruct Hrest as (?&?&?&?), Hrest2 as (?&?&?&?).
  f_equal; try congruence.
  by rewrite (inv_count _ Hp), (inv_count _ Hp2), Heq.
Qed.
(** In a debug build the canary a free leaves behind stays in the frame
    when it is allocated again, and [canary_ok] rejects exactly that word: an
    owner that frees the frame without having written its first word panics
    with a use-after-free report. *)
Theorem canary_false_positive s m pa s1 m1 s2 :
  pmm_inv s.(PMM) → pmm_inv s2.(PMM) → 0 ≤ pa →
  deallocate_frame true s m pa = Ret (s1, m1) → pa / FRAME_SIZE ∉ frames s2.(PMM) →
  deallocate_frame true s2 m1 pa =
    Panic (PanicMsg "pmm: frame was modified after free (canary overwritten)").
Proof.
  intros Hp Hp2 Hpa Hd Hn.
  assert (pa < MAX_PHYS ∧ m1 = st64 m pa FREE_CANARY) as [Hlt ->].
  { destruct (Z.lt_ge_cases pa MAX_PHYS) as [Hlt|Hge].
    - split; [done|]. pose proof (pa_range pa Hpa Hlt) as Hi.
      unfold deallocate_frame in Hd. destruct (Z.leb_spec MAX_FRAMES (pa / FRAME_SIZE)); [done|].
      res_inv. destruct (x : bool); [done|]. res_inv. destruct (negb _); [done|]. res_inv.
      destruct (ident_ok true pa Hpa Hlt) as [Hpn Hid]. rewrite Hpn in *. simplify_eq.
      rewrite Hid in *. by simplify_eq.
    - unfold deallocate_frame in Hd. destruct (Z.leb_spec MAX_FRAMES (pa / FRAME_SIZE)) as [|Hb]; [done|].
      exfalso. rewrite MAX_FRAMES_val in Hb. unfold MAX_PHYS, FRAME_SIZE, BOOT_MAPPED_BYTES in *. zlia. }
  apply deallocate_canary; [done|done|done|done|apply ld64_st64_eq].
Qed.

End Allocation.

(** ** Witnesses *)

Lemma allocate_frame_correct_witness :
  ∃ i s', @allocate_frame x86_ref demo_pmm = Ret (Some (i * FRAME_SIZE), s') ∧
          i ∈ pmm_free demo_pmm.
Proof.
  pose proof demo_pmm_ok as (Hp & Hc & Hi & Hf).
  destruct (@allocate_frame_correct x86_ref demo_pmm Hp Hi) as [[He _]|(i & s' & Ha & _ & Hin & _)].
  - rewrite Hc. lia.
  - exfalso. assert (1 ∈ (∅ : gset Z)) as H1; [|by apply not_elem_of_empty in H1].
    rewrite <- He, demo_pmm_free. by vm_compute.
  - exists i, s'. split; [exact Ha|exact Hin].
Defined.

Lemma allocate_contiguous_correct_witness :
  ∃ r s', @allocate_contiguous x86_ref demo_pmm 2 1 = Ret (r, s').
Proof.
  pose proof demo_pmm_ok as (Hp & Hc & Hi & Hf).
  destruct (@allocate_contiguous_correct x86_ref demo_pmm 2 1 Hp Hi)
    as [(i & s' & Ha & _)|[Ha _]]; [rewrite Hc; lia|lia|lia|eauto|eauto].
Defined.

Definition demo_cut : Pmm := {| PMM := demo_pmm.(PMM); CURSOR := 2 |}.

Lemma allocate_misses_straddling_run_witness :
  @allocate_contiguous x86_ref demo_cut 2 1 = Ret (None, demo_cut).
Proof.
  pose proof demo_pmm_ok as (Hp & Hc & Hi & Hf).
  apply (@allocate_misses_straddling_run x86_ref demo_cut 2 1); unfold demo_cut; cbn [PMM CURSOR];
    [exact Hp|exact Hi|lia|rewrite Hf; reflexivity|lia].
Defined.


Lemma alloc_free_round_trip_witness :
  ∃ pa s1 s2, @allocate_frame x86_ref demo_pmm = Ret (Some pa, s1) ∧
    @deallocate_frame x86_ref false s1 ∅ pa = Ret (s2, ∅) ∧ stats s2 = stats demo_pmm.
Proof.
  pose proof demo_pmm_ok as (Hp & Hc & Hi & Hf).
  destruct (@allocate_frame_ok x86_ref demo_pmm Hp Hi) as ([pa|] & s1 & Ha & Hr).
  - rewrite Hc. lia.
  - destruct (@alloc_free_round_trip x86_ref demo_pmm ∅ pa s1 Hp Hi) as (s2 & Hd & _ & _ & Hs);
      [rewrite Hc; lia|exact Ha|].
    exists pa, s1, s2. split; [exact Ha|]. split; [exact Hd|exact Hs].
  - exfalso. destruct Hr as (_ & _ & _ & He & _).
    assert (1 ∈ (∅ : gset Z)) as H1; [|by apply not_elem_of_empty in H1].
    rewrite <- He, Hf. by vm_compute.
Defined.

Lemma canary_false_positive_witness :
  ∃ s1 m1, @deallocate_frame x86_ref true demo_pmm ∅ 0x5000 = Ret (s1, m1) ∧
    @deallocate_frame x86_ref true demo_pmm m1 0x5000 =
      Panic (PanicMsg "pmm: frame was modified after free (canary overwritten)").
Proof.
  pose proof demo_pmm_ok as (Hp & _ & _ & Hf).
  assert (0x5000 / FRAME_SIZE ∉ frames demo_pmm.(PMM)) as Hn by (rewrite Hf; by vm_compute).
  destruct (@deallocate_ok x86_ref true demo_pmm ∅ 0x5000) as (p' & Hd & _);
    [exact Hp|unfold MAX_PHYS, BOOT_MAPPED_BYTES; lia|exact Hn|intros _; vm_compute; discriminate|].
  eexists _, _. split; [exact Hd|].
  eapply (@canary_false_positive x86_ref demo_pmm ∅ 0x5000); [exact Hp|exact Hp|lia|exact Hd|exact Hn].
Defined.

(** ** The interface to the page-table code

    A source of frames: a state, the set of frames that are free in it, and an
    allocation that hands out one of them. *)

Class FrameSource (S : Type) : Type := {
  fs_alloc : S → Res (option Z * S);
  fs_free : S → gset Z;
  fs_inv : S → Prop;
  fs_range s i : fs_inv s → i ∈ fs_free s → 0 ≤ i < MAX_FRAMES;
  fs_alloc_ok s : fs_inv s →
    ∃ r s', fs_alloc s = Ret (r, s') ∧ fs_inv s' ∧
      match r with
      | Some pa => ∃ i, pa = i * FRAME_SIZE ∧ i ∈ fs_free s ∧ fs_free s' = fs_free s ∖ {[i]}
      | None => fs_free s = ∅ ∧ s' = s
      end;
}.

#[export, refine] Instance pmm_frame_source `{X : X86Crate} : FrameSource Pmm := {|
  fs_alloc := allocate_frame;
  fs_free := pmm_free;
  fs_inv s := pmm_inv s.(PMM) ∧ s.(PMM).(initialised) = true ∧ 0 ≤ s.(CURSOR);
|}.
Proof.
  - intros s i (Hp & _ & _). by apply frames_range.
  - intros s (Hp & Hi & Hc).
    destruct (allocate_frame_ok s Hp Hi Hc) as (r & s' & Ha & Hp' & Hi' & Hc' & Hr).
    exists r, s'. done.
Defined.

(** ** Sequences of calls *)

Module Trace.
Section Trace.
Context `{X : X86Crate}.
Context (debug : bool).

(** The allocator, memory, the frames that callers hold, and the frames that
    were reserved while nobody held them. *)
Record sys : Type := mkSys {
  pmm : Pmm; mem : phys; owned : gset Z; withheld : gset Z }.

(** A caller may allocate, free a frame it holds, reserve a range, and write
    memory. *)
Inductive step : sys → sys → Prop :=
  | step_alloc s m o w count align pa s' :
      1 ≤ count < 2 ^ 62 → 0 ≤ align < 2 ^ 62 →
      allocate_contiguous s count align = Ret (Some pa, s') →
      step (mkSys s m o w) (mkSys s' m (o ∪ run (pa / FRAME_SIZE) count) w)
  | step_alloc_none s m o w count align s' :
      1 ≤ count < 2 ^ 62 → 0 ≤ align < 2 ^ 62 →
      allocate_contiguous s count align = Ret (None, s') →
      step (mkSys s m o w) (mkSys s' m o w)
  | step_free s m o w pa s' m' :
      0 ≤ pa → pa / FRAME_SIZE ∈ o →
      deallocate_frame debug s m pa = Ret (s', m') →
      step (mkSys s m o w) (mkSys s' m' (o ∖ {[pa / FRAME_SIZE]}) w)
  | step_reserve s m o w start end_ s' :
      0 ≤ start → end_ + FRAME_SIZE < U64 →
      reserve_range s start end_ = Ret s' →
      step (mkSys s m o w) (mkSys s' m o (w ∪ outer_frames start end_ ∖ o))
  | step_write s m o w m' :
      step (mkSys s m o w) (mkSys s m' o w).

(** [avail] is what the firmware map made available. *)
Record ok (avail : gset Z) (x : sys) : Prop := {
  ok_inv : pmm_inv x.(pmm).(PMM);
  ok_init : x.(pmm).(PMM).(initialised) = true;
  ok_cursor : 0 ≤ x.(pmm).(CURSOR);
  ok_resv : 0 ≤ x.(pmm).(PMM).(reserved_frames);
  ok_total : x.(pmm).(PMM).(reserved_frames) + x.(pmm).(PMM).(free_frames) +
             Z.of_nat (size x.(owned)) ≤ MAX_FRAMES;
  ok_owned : x.(owned) ## frames x.(pmm).(PMM);
  ok_withheld : x.(withheld) ## x.(owned) ∪ frames x.(pmm).(PMM);
  ok_avail : x.(owned) ∪ frames x.(pmm).(PMM) ⊆ avail;
}.

(** A run that was allocated was free. *)
Lemma alloc_inv s count align r s' :
  pmm_inv s.(PMM) → s.(PMM).(initialised) = true → 0 ≤ s.(CURSOR) →
  1 ≤ count < 2 ^ 62 → 0 ≤ align < 2 ^ 62 →
  allocate_contiguous s count align = Ret (r, s') →
  pmm_inv s'.(PMM) ∧ 0 ≤ s'.(CURSOR) ∧
  match r with
  | Some pa => run (pa / FRAME_SIZE) count ⊆ frames s.(PMM) ∧
      frames s'.(PMM) = frames s.(PMM) ∖ run (pa / FRAME_SIZE) count ∧
      s'.(PMM).(initialised) = true ∧ s'.(PMM).(reserved_frames) = s.(PMM).(reserved_frames)
  | None => s' = s
  end.
Proof.
  intros Hp Hi Hc Hn Ha He.
  destruct (allocate_contiguous_ok s count align) as (r' & s1 & E & Hp' & Hc' & Hok); [done..|].
  rewrite E in He. injection He as Hr ->. split; [done|]. split; [done|].
  destruct r' as [i|]; cbn in Hr; subst r; [|by destruct Hok].
  destruct Hok as (_ & _ & Hrun & _ & Hf & _ & (_ & _ & _ & Hi') & Hres).
  rewrite frame_of_addr. split_and!; [done..|congruence|done].
Qed.

Lemma size_diff_run (A : gset Z) i count :
  0 ≤ count → run i count ⊆ A → Z.of_nat (size (A ∖ run i count)) = Z.of_nat (size A) - count.
Proof.
  intros Hc Hs. rewrite size_difference by done. pose proof (subseteq_size _ _ Hs) as Hle.
  rewrite size_zrange in *. lia.
Qed.

Lemma size_union_run (A : gset Z) i count :
  0 ≤ count → A ## run i count → Z.of_nat (size (A ∪ run i count)) = Z.of_nat (size A) + count.
Proof. intros Hc Hd. rewrite size_union by done. rewrite size_zrange. lia. Qed.

Lemma take_free (o w A R avail : gset Z) :
  o ## A → w ## o ∪ A → o ∪ A ⊆ avail → R ⊆ A →
  o ## R ∧ o ∪ R ## A ∖ R ∧ w ## (o ∪ R) ∪ A ∖ R ∧ (o ∪ R) ∪ A ∖ R ⊆ avail.
Proof. intros. split_and!; set_solver. Qed.

Lemma step_alloc_preserves avail s m o w count align pa s' :
  ok avail (mkSys s m o w) → 1 ≤ count < 2 ^ 62 → 0 ≤ align < 2 ^ 62 →
  allocate_contiguous s count align = Ret (Some pa, s') →
  ok avail (mkSys s' m (o ∪ run (pa / FRAME_SIZE) count) w).
Proof.
  intros [Hp Hi Hc Hr Ht Ho Hw Hav] Hn Ha He. cbn in *.
  destruct (alloc_inv s count align (Some pa) s') as (Hp' & Hc' & Hrun & Hf & Hi' & Hres); [done..|].
  destruct (take_free o w (frames s.(PMM)) (run (pa / FRAME_SIZE) count) avail)
    as (Hd & Ho' & Hw' & Hav'); [done..|]. rewrite <- Hf in Ho', Hw', Hav'.
  split; cbn; [done|done|done|lia| |done..].
  rewrite size_union_run by (lia || done). rewrite Hres.
  rewrite (inv_count _ Hp) in Ht. rewrite (inv_count _ Hp'), Hf.
  rewrite size_diff_run by (lia || done). lia.
Qed.

Lemma step_free_preserves avail s m o w pa s' m' :
  ok avail (mkSys s m o w) → 0 ≤ pa → pa / FRAME_SIZE ∈ o →
  deallocate_frame debug s m pa = Ret (s', m') →
  ok avail (mkSys s' m' (o ∖ {[pa / FRAME_SIZE]}) w).
Proof.
  intros [Hp Hi Hc Hr Ht Ho Hw Hav] Hpa Hin He. cbn in *.
  assert (pa / FRAME_SIZE ∉ frames s.(PMM)) as Hn by set_solver.
  assert (pa < MAX_PHYS) as Hlt.
  { unfold deallocate_frame in He. destruct (Z.leb_spec MAX_FRAMES (pa / FRAME_SIZE)) as [|Hb]; [done|].
    rewrite MAX_FRAMES_val in Hb. unfold MAX_PHYS, FRAME_SIZE, BOOT_MAPPED_BYTES in *. zlia. }
  assert (debug = true → ld64 m pa ≠ FREE_CANARY) as Hcan.
  { intros Hdbg Heq. rewrite Hdbg in He. by rewrite deallocate_canary in He. }
  destruct (deallocate_ok debug s m pa) as (p' & E & Hp' & Hf & (_ & _ & _ & Hi') & Hres);
    [done|lia|done|done|].
  rewrite E in He. injection He as <- <-.
  split; cbn; [done|congruence|done|lia| |rewrite Hf; set_solver..].
  rewrite size_remove by done. rewrite Hres.
  rewrite (inv_count _ Hp) in Ht. rewrite (inv_count _ Hp'), Hf, size_add by done. lia.
Qed.

Lemma step_reserve_preserves avail s m o w start end_ s' :
  ok avail (mkSys s m o w) → 0 ≤ start → end_ + FRAME_SIZE < U64 →
  reserve_range s start end_ = Ret s' →
  ok avail (mkSys s' m o (w ∪ outer_frames start end_ ∖ o)).
Proof.
  intros [Hp Hi Hc Hr Ht Ho Hw Hav] Hs Hov He. cbn in *. unfold reserve_range in He.
  pose proof (inv_count _ Hp) as Hcnt.
  destruct (reserve_range_ok s.(PMM) start end_) as (p' & E & Hp' & Hf & (_ & _ & _ & Hi') & Hsum);
    [done|done|done|done|rewrite MAX_FRAMES_val in *; rewrite U64_val; lia|].
  rewrite E in He. injection He as <-.
  assert (s.(PMM).(reserved_frames) ≤ p'.(reserved_frames)).
  { pose proof (inv_count _ Hp') as Hcnt'. rewrite Hf in Hcnt'.
    assert (size (frames s.(PMM) ∖ outer_frames start end_) ≤ size (frames s.(PMM)))%nat
      by (apply subseteq_size; set_solver). lia. }
  split; cbn; [done|congruence|done|lia|lia|rewrite Hf; set_solver..].
Qed.

Lemma step_preserves avail x y : ok avail x → step x y → ok avail y.
Proof.
  intros Hok Hst. destruct Hst.
  - by eapply step_alloc_preserves.
  - destruct Hok as [Hp Hi Hc Hr Ht Ho Hw Hav]. cbn in *.
    destruct (alloc_inv s count align None s') as (_ & _ & ->); [done..|]. by split.
  - by eapply step_free_preserves.
  - by eapply step_reserve_preserves.
  - by destruct Hok.
Qed.

Lemma reachable_ok avail x y : ok avail x → rtc step x y → ok avail y.
Proof. intros Hok. induction 1; [done|]. eauto using step_preserves. Qed.

Lemma init_sys_ok info s m :
  Forall mmap_wf (HVec.as_slice info.(mmap)) → total_len (HVec.as_slice info.(mmap)) < U64 →
  init Pmm_new info = Ret s →
  ok (all_avail (HVec.as_slice info.(mmap))) (mkSys s m ∅ ∅).
Proof.
  intros Hwf Hlen Hs. destruct (init_new_ok info Hwf Hlen) as (s' & E & Hp & Hc & Hi & _ & Hr & Hf).
  rewrite E in Hs. injection Hs as ->. pose proof (frames_size_bound _ Hp) as Hb.
  split; cbn [pmm mem owned withheld]; [done|done|lia|lia| |set_solver..].
  rewrite (inv_count _ Hp), size_empty. lia.
Qed.

(** C1: along every sequence of allocations, frees of held frames, range
    reservations and memory writes after [init], no frame is both held and
    free, a reserved frame is neither held nor free again, every frame handed
    out comes from the firmware's AVAILABLE memory, and the next allocation
    never returns a frame that is held or reserved. *)
Theorem no_double_ownership info s m x :
  Forall mmap_wf (HVec.as_slice info.(mmap)) → total_len (HVec.as_slice info.(mmap)) < U64 →
  init Pmm_new info = Ret s → rtc step (mkSys s m ∅ ∅) x →
  x.(owned) ## frames x.(pmm).(PMM) ∧
  x.(withheld) ## x.(owned) ∪ frames x.(pmm).(PMM) ∧
  x.(owned) ∪ frames x.(pmm).(PMM) ⊆ all_avail (HVec.as_slice info.(mmap)) ∧
  (∀ count align pa s', 1 ≤ count < 2 ^ 62 → 0 ≤ align < 2 ^ 62 →
     allocate_contiguous x.(pmm) count align = Ret (Some pa, s') →
     run (pa / FRAME_SIZE) count ## x.(owned) ∪ x.(withheld)).
Proof.
  intros Hwf Hlen Hs Hst. pose proof (init_sys_ok info s m Hwf Hlen Hs) as H0.
  pose proof (reachable_ok _ _ _ H0 Hst) as [Hp Hi Hc Hr Ht Ho Hw Hav].
  split_and!; [done..|]. intros count align pa s' Hn Ha He.
  destruct (alloc_inv x.(pmm) count align (Some pa) s') as (_ & _ & Hrun & _); [done..|]. set_solver.
Qed.

End Trace.

Lemma no_double_ownership_witness :
  ∃ pa s1, rtc (@step x86_ref true) (mkSys demo_pmm ∅ ∅ ∅)
                 (mkSys s1 ∅ (∅ ∪ run (pa / FRAME_SIZE) 1) ∅) ∧
    (∅ ∪ run (pa / FRAME_SIZE) 1) ## frames s1.(PMM).
Proof.
  pose proof demo_pmm_ok as (Hp & Hc & Hi & Hf).
  destruct (@allocate_frame_ok x86_ref demo_pmm Hp Hi) as ([pa|] & s1 & Ha & Hr);
    [rewrite Hc; lia| |].
  - assert (rtc (@step x86_ref true) (mkSys demo_pmm ∅ ∅ ∅)
              (mkSys s1 ∅ (∅ ∪ run (pa / FRAME_SIZE) 1) ∅)) as Hst.
    { apply rtc_once. apply (step_alloc true _ _ _ _ 1 1 pa s1); [lia..|exact Ha]. }
    exists pa, s1. split; [exact Hst|].
    destruct (init_new_ok demo_info demo_wf demo_len) as (s & Hs & _).
    assert (s = demo_pmm) as -> by (unfold demo_pmm; by rewrite Hs).
    destruct (@no_double_ownership x86_ref true demo_info demo_pmm ∅ _ demo_wf demo_len Hs Hst) as [Hd _].
    exact Hd.
  - exfalso. destruct Hr as (_ & _ & _ & He & _).
    assert (1 ∈ (∅ : gset Z)) as H1; [|by apply not_elem_of_empty in H1].
    rewrite <- He, Hf. by vm_compute.
Defined.

End Trace.
