(* ===== verification/Multiboot.v ===== *)
(** * Multiboot2 information structure (kernel/src/multiboot/info.rs)

    The parser of the structure the boot loader leaves in memory.  [parse] works
    on a byte slice; offsets are [usize] values with the overflow checks of the
    build, and a slice out of range is a panic, so that "the parser never
    panics" is a theorem about the model and not built into it.  [read_from]
    forms the slice from physical memory.  Log lines are not modelled. *)

From S2P Require Import Prelude Arch BootInfo.
From stdpp Require Import base gmap sets list strings numbers.
From Stdlib Require Import ZArith Lia.
#[local] Open Scope Z_scope.

(** ** Constants *)

Definition BOOT_MAGIC : Z := 0x36D76289.

Definition tag_END : Z := 0.
Definition tag_CMDLINE : Z := 1.
Definition tag_BOOT_LOADER_NAME : Z := 2.
Definition tag_MMAP : Z := 6.
Definition tag_FRAMEBUFFER : Z := 8.
Definition tag_ACPI_OLD : Z := 13.
Definition tag_ACPI_NEW : Z := 14.
Definition tag_LOAD_BASE_ADDR : Z := 20.
Definition tag_ALIGN : Z := 8.
Definition tag_HEADER_LEN : Z := 8.

(** ** UTF-8 ([core::str])

    [utf8_chunks] splits a byte string into the encodings of its characters,
    and fails where [core::str::from_utf8] does (overlong forms, surrogates,
    values above U+10FFFF, stray or missing continuation bytes). *)

Definition cont (b : Z) : bool := (0x80 <=? b) && (b <=? 0xBF).
Definition byte_in (lo hi b : Z) : bool := (lo <=? b) && (b <=? hi).

(** The encoding of one character at the head of the string. *)
Definition utf8_head (s : bytes) : option (bytes * bytes) :=
  match s with
  | a :: s1 =>
      if byte_in 0 0x7F a then Some ([a], s1)
      else match s1 with
      | b :: s2 =>
          if byte_in 0xC2 0xDF a && cont b then Some ([a; b], s2)
          else match s2 with
          | c :: s3 =>
              if ((byte_in 0xE0 0xE0 a && byte_in 0xA0 0xBF b) ||
                  (byte_in 0xE1 0xEC a && cont b) ||
                  (byte_in 0xED 0xED a && byte_in 0x80 0x9F b) ||
                  (byte_in 0xEE 0xEF a && cont b)) && cont c
              then Some ([a; b; c], s3)
              else match s3 with
              | d :: s4 =>
                  if ((byte_in 0xF0 0xF0 a && byte_in 0x90 0xBF b) ||
                      (byte_in 0xF1 0xF3 a && cont b) ||
                      (byte_in 0xF4 0xF4 a && byte_in 0x80 0x8F b)) && cont c && cont d
                  then Some ([a; b; c; d], s4)
                  else None
              | [] => None
              end
          | [] => None
          end
      | [] => None
      end
  | [] => None
  end.

Fixpoint utf8_fuel (n : nat) (s : bytes) : option (list bytes) :=
  match s, n with
  | [], _ => Some []
  | _, O => None
  | _, S n' =>
      '(ch, s') ← utf8_head s;
      cs ← utf8_fuel n' s';
      Some (ch :: cs)
  end.

Definition utf8_chunks (s : bytes) : option (list bytes) := utf8_fuel (length s) s.

(** [core::str::from_utf8(b).is_ok()] *)
Definition is_utf8 (s : bytes) : bool := bool_decide (is_Some (utf8_chunks s)).

(** [s.chars()], each character as its encoding; [s] is a [&str]. *)
Definition chars (s : bytes) : list bytes := default [] (utf8_chunks s).

(** ** [heapless::Str] *)

Fixpoint push_chars (self : HStr.t) (cs : list bytes) : HStr.t :=
  match cs with
  | [] => self
  | enc :: cs' =>
      if STR_CAP <? self.(HStr.len) + Z.of_nat (length enc) then self
      else push_chars (HStr.append self enc) cs'
  end.

Definition push_str (self : HStr.t) (s : bytes) : HStr.t := push_chars self (chars s).

Definition as_str (self : HStr.t) : bytes :=
  if is_utf8 (HStr.contents self) then HStr.contents self else lit "<invalid utf-8>".

(** ** Little-endian field readers *)

(** [b.get(lo..hi)] and [&b[lo..hi]] *)
Definition get_range (b : bytes) (lo hi : Z) : option bytes :=
  if (lo <=? hi) && (hi <=? Z.of_nat (length b))
  then Some (take (Z.to_nat (hi - lo)) (drop (Z.to_nat lo) b)) else None.

Definition slice (b : bytes) (lo hi : Z) : Res bytes :=
  match get_range b lo hi with Some s => Ret s | None => Panic OutOfBounds end.

Fixpoint from_le_bytes (s : bytes) : Z :=
  match s with
  | [] => 0
  | x :: s' => x + 256 * from_le_bytes s'
  end.

Definition uint_at (n : Z) (b : bytes) (off : Z) : Res (option Z) :=
  hi ← add64 off n;
  Ret (from_le_bytes <$> get_range b off hi).

Definition u16_at : bytes → Z → Res (option Z) := uint_at 2.
Definition u32_at : bytes → Z → Res (option Z) := uint_at 4.
Definition u64_at : bytes → Z → Res (option Z) := uint_at 8.

(** ** String tags *)

Definition bytes_to_str (b : bytes) : bytes := if is_utf8 b then b else lit "<non-utf8>".

(** [s.find('\0')] then [&s[..i]] *)
Fixpoint trim_nul (s : bytes) : bytes :=
  match s with
  | [] => []
  | x :: s' => if x =? 0 then [] else x :: trim_nul s'
  end.

Definition str_tag (body : bytes) : HStr.t :=
  push_str HStr.new (trim_nul (bytes_to_str body)).

(** ** Updates of [BootInfo] *)

Definition set_cmdline (i : BootInfo) (s : HStr.t) : BootInfo :=
  {| total_size := i.(total_size); cmdline := Some s; loader_name := i.(loader_name);
     mmap := i.(mmap); framebuffer := i.(framebuffer); acpi_rsdp := i.(acpi_rsdp);
     acpi_version := i.(acpi_version); load_base_addr := i.(load_base_addr);
     tag_count := i.(tag_count); phys_addr := i.(phys_addr) |}.
Definition set_loader_name (i : BootInfo) (s : HStr.t) : BootInfo :=
  {| total_size := i.(total_size); cmdline := i.(cmdline); loader_name := Some s;
     mmap := i.(mmap); framebuffer := i.(framebuffer); acpi_rsdp := i.(acpi_rsdp);
     acpi_version := i.(acpi_version); load_base_addr := i.(load_base_addr);
     tag_count := i.(tag_count); phys_addr := i.(phys_addr) |}.
Definition set_mmap (i : BootInfo) (v : HVec.t MmapEntry) : BootInfo :=
  {| total_size := i.(total_size); cmdline := i.(cmdline); loader_name := i.(loader_name);
     mmap := v; framebuffer := i.(framebuffer); acpi_rsdp := i.(acpi_rsdp);
     acpi_version := i.(acpi_version); load_base_addr := i.(load_base_addr);
     tag_count := i.(tag_count); phys_addr := i.(phys_addr) |}.
Definition set_framebuffer (i : BootInfo) (f : option FramebufferInfo) : BootInfo :=
  {| total_size := i.(total_size); cmdline := i.(cmdline); loader_name := i.(loader_name);
     mmap := i.(mmap); framebuffer := f; acpi_rsdp := i.(acpi_rsdp);
     acpi_version := i.(acpi_version); load_base_addr := i.(load_base_addr);
     tag_count := i.(tag_count); phys_addr := i.(phys_addr) |}.
Definition set_rsdp (i : BootInfo) (a : option Z) (version : Z) : BootInfo :=
  {| total_size := i.(total_size); cmdline := i.(cmdline); loader_name := i.(loader_name);
     mmap := i.(mmap); framebuffer := i.(framebuffer); acpi_rsdp := a;
     acpi_version := version; load_base_addr := i.(load_base_addr);
     tag_count := i.(tag_count); phys_addr := i.(phys_addr) |}.
Definition set_load_base (i : BootInfo) (a : option Z) : BootInfo :=
  {| total_size := i.(total_size); cmdline := i.(cmdline); loader_name := i.(loader_name);
     mmap := i.(mmap); framebuffer := i.(framebuffer); acpi_rsdp := i.(acpi_rsdp);
     acpi_version := i.(acpi_version); load_base_addr := a;
     tag_count := i.(tag_count); phys_addr := i.(phys_addr) |}.
Definition set_tag_count (i : BootInfo) (n : Z) : BootInfo :=
  {| total_size := i.(total_size); cmdline := i.(cmdline); loader_name := i.(loader_name);
     mmap := i.(mmap); framebuffer := i.(framebuffer); acpi_rsdp := i.(acpi_rsdp);
     acpi_version := i.(acpi_version); load_base_addr := i.(load_base_addr);
     tag_count := n; phys_addr := i.(phys_addr) |}.
Definition set_phys_addr (i : BootInfo) (a : Z) : BootInfo :=
  {| total_size := i.(total_size); cmdline := i.(cmdline); loader_name := i.(loader_name);
     mmap := i.(mmap); framebuffer := i.(framebuffer); acpi_rsdp := i.(acpi_rsdp);
     acpi_version := i.(acpi_version); load_base_addr := i.(load_base_addr);
     tag_count := i.(tag_count); phys_addr := a |}.

(** ** [parse_mmap] and [parse_framebuffer]

    A [Result<T, ParseError>] is a [ParseError + T]. *)

Definition parse_mmap_body (body : bytes) (entry_size : Z) (st : Z * HVec.t MmapEntry)
  : Res (Z * HVec.t MmapEntry + HVec.t MmapEntry) :=
  let '(eoff, v) := st in
  top ← add64 eoff 24;
  if Z.of_nat (length body) <? top then Ret (inr v)
  else
    ob ← u64_at body eoff;
    match ob with None => Ret (inr v) | Some base =>
      o8 ← add64 eoff 8;
      ol ← u64_at body o8;
      match ol with None => Ret (inr v) | Some len =>
        o16 ← add64 eoff 16;
        ot ← u32_at body o16;
        match ot with None => Ret (inr v) | Some ty =>
          '(v', ok) ← HVec.push v (mkMmap base len ty);
          if (ok : bool) then e' ← add64 eoff entry_size; Ret (inl (e', v'))
          else Ret (inr v')
        end
      end
    end.

Definition parse_mmap (body : bytes) (v : HVec.t MmapEntry) : Res (ParseError + HVec.t MmapEntry) :=
  oe ← u32_at body 0;
  match oe with None => Ret (inl BadMmapEntrySize) | Some entry_size =>
    ov ← u32_at body 4;
    match ov with None => Ret (inl BadMmapEntrySize) | Some _ =>
      if entry_size <? 24 then Ret (inl BadMmapEntrySize)
      else
        v' ← loop (S (length body)) (8, v) (parse_mmap_body body entry_size);
        Ret (inr v')
    end
  end.

Definition parse_framebuffer (body : bytes) : Res (option FramebufferInfo) :=
  address ← u64_at body 0;
  pitch ← u32_at body 8;
  width ← u32_at body 12;
  height ← u32_at body 16;
  Ret (a ← address; p ← pitch; w ← width; h ← height;
       bpp ← body !! 20%nat; ty ← body !! 21%nat;
       Some {| fb_address := a; fb_pitch := p; fb_width := w; fb_height := h;
               fb_bpp := bpp; fb_type := ty; fb_size := sat_mul64 p (Z.max h 1) |}).

(** ** [parse] *)

(** The [match ty] of the tag walk: [off] is the tag's offset, [body] its
    contents. *)
Definition handle_tag (ty off : Z) (body : bytes) (st : BootInfo * bool)
  : Res (ParseError + BootInfo * bool) :=
  let '(info, saw_mmap) := st in
  let blen := Z.of_nat (length body) in
  if ty =? tag_CMDLINE then Ret (inr (set_cmdline info (str_tag body), saw_mmap))
  else if ty =? tag_BOOT_LOADER_NAME then Ret (inr (set_loader_name info (str_tag body), saw_mmap))
  else if ty =? tag_MMAP then
    r ← parse_mmap body info.(mmap);
    match r with
    | inl e => Ret (inl e)
    | inr v => Ret (inr (set_mmap info v, true))
    end
  else if (ty =? tag_FRAMEBUFFER) && (24 <=? blen) then
    match info.(framebuffer) with
    | None => f ← parse_framebuffer body; Ret (inr (set_framebuffer info f, saw_mmap))
    | Some _ => Ret (inr st)
    end
  else if (ty =? tag_ACPI_OLD) && (20 <=? blen) then
    match info.(acpi_rsdp) with
    | None => a ← add64 off tag_HEADER_LEN; Ret (inr (set_rsdp info (Some a) 1, saw_mmap))
    | Some _ => Ret (inr st)
    end
  else if (ty =? tag_ACPI_NEW) && (36 <=? blen) then
    match info.(acpi_rsdp) with
    | None => a ← add64 off tag_HEADER_LEN; Ret (inr (set_rsdp info (Some a) 2, saw_mmap))
    | Some _ => Ret (inr st)
    end
  else if ty =? tag_LOAD_BASE_ADDR then
    a ← u32_at body 0; Ret (inr (set_load_base info a, saw_mmap))
  else Ret (inr st).

(** [info.tag_count += 1] on a [u32] *)
Definition bump_count (info : BootInfo) : Res BootInfo :=
  if info.(tag_count) + 1 <? 2 ^ 32 then Ret (set_tag_count info (info.(tag_count) + 1))
  else Panic Overflow.

(** One iteration of the tag walk. *)
Definition walk_body (bytes_ : bytes) (total : Z) (st : Z * (BootInfo * bool))
  : Res (Z * (BootInfo * bool) + (ParseError + BootInfo * bool)) :=
  let '(off, (info, saw_mmap)) := st in
  top ← add64 off tag_HEADER_LEN;
  if total <? top then Ret (inr (inr (info, saw_mmap)))
  else
    oty ← u16_at bytes_ off;
    match oty with None => Ret (inr (inr (info, saw_mmap))) | Some ty =>
      o4 ← add64 off 4;
      osz ← u32_at bytes_ o4;
      match osz with None => Ret (inr (inr (info, saw_mmap))) | Some size =>
        if ty =? tag_END then Ret (inr (inr (info, saw_mmap)))
        else if size <? tag_HEADER_LEN then Ret (inr (inl TagUndersize))
        else if U64 <=? off + size then Ret (inr (inl TagOverrun))
        else
          let end_ := off + size in
          if total <? end_ then Ret (inr (inl TagOverrun))
          else
            body ← slice bytes_ top end_;
            info ← bump_count info;
            r ← handle_tag ty off body (info, saw_mmap);
            match r with
            | inl e => Ret (inr (inl e))
            | inr st' =>
                e7 ← add64 end_ (tag_ALIGN - 1);
                Ret (inl (Z.land e7 (bnot 64 (tag_ALIGN - 1)), st'))
            end
      end
    end.

Definition BootInfo_empty (total : Z) : BootInfo :=
  {| total_size := total; cmdline := None; loader_name := None; mmap := HVec.new PLACEHOLDER_MMAP;
     framebuffer := None; acpi_rsdp := None; acpi_version := 0; load_base_addr := None;
     tag_count := 0; phys_addr := 0 |}.

(** The checks after the walk. *)
Definition finish (r : ParseError + BootInfo * bool) : ParseError + BootInfo :=
  match r with
  | inl e => inl e
  | inr (info, saw_mmap) =>
      if negb saw_mmap || HVec.is_empty info.(mmap) then inl NoMemoryMap else inr info
  end.

Definition parse (bytes_ : bytes) : Res (ParseError + BootInfo) :=
  ot ← u32_at bytes_ 0;
  match ot with
  | None => Ret (inl TooShort)
  | Some total =>
      if total <? tag_HEADER_LEN then Ret (inl TooShort)
      else if Z.of_nat (length bytes_) <? total then Ret (inl SizeMismatch)
      else
        r ← loop (S (length bytes_)) (tag_HEADER_LEN, (BootInfo_empty total, false))
                 (walk_body bytes_ total);
        Ret (finish r)
  end.

(** ** [read_from] *)

(** [span] bytes of memory starting at [pa]. *)
Definition mem_bytes (m : phys) (pa : Z) (n : nat) : bytes :=
  (fun k => ld8 m (pa + Z.of_nat k)) <$> seq 0 n.

Section ReadFrom.
Context `{X : X86Crate}.

Definition read_from (m : phys) (pa : Z) : Res (ParseError + BootInfo) :=
  if (pa =? 0) || (BOOT_MAPPED_BYTES <=? pa) then Ret (inl TooShort)
  else
    p ← PhysAddr_new pa;
    _ ← phys_to_virt p;
    let t := from_le_bytes (mem_bytes m pa 4) in
    let span := Z.min (sat_add64 t PAGE_SIZE) (64 * 1024) in
    if t <? tag_HEADER_LEN then Ret (inl TooShort)
    else
      r ← parse (mem_bytes m pa (Z.to_nat span));
      match r with
      | inl e => Ret (inl e)
      | inr info =>
          let info := set_phys_addr info pa in
          match info.(acpi_rsdp) with
          | None => Ret (inr info)
          | Some off =>
              a ← add64 pa off;
              Ret (inr (set_rsdp info (Some a) info.(acpi_version)))
          end
      end.

End ReadFrom.

(** ** UTF-8 lemmas *)

(** [ch] is the encoding of one character: it is read off the front of any
    string that starts with it. *)
Definition is_char (ch : bytes) : Prop := ∀ r, utf8_head (ch ++ r) = Some (ch, r).

Lemma utf8_head_spec s ch s' : utf8_head s = Some (ch, s') → s = ch ++ s' ∧ is_char ch ∧ ch ≠ [].
Proof.
  unfold utf8_head, is_char. intros H.
  repeat (case_match; try discriminate); injection H as <- <-;
    (split; [done|split; [|done]]); intros r; cbn;
    repeat match goal with
    | H : ?b = true |- context [?b] => rewrite H
    | H : ?b = false |- context [?b] => rewrite H
    end; done.
Qed.

Lemma utf8_fuel_spec n s cs :
  utf8_fuel n s = Some cs → s = concat cs ∧ Forall is_char cs.
Proof.
  revert s cs. induction n as [|n IH]; intros [|a s] cs H; cbn [utf8_fuel] in H; try (by simplify_eq).
  apply bind_Some in H as ([ch s'] & E & H). apply bind_Some in H as (cs' & E2 & [= <-]).
  apply utf8_head_spec in E as (-> & Hc & _). apply IH in E2 as [-> Hcs]. by split; [|constructor].
Qed.

Lemma is_char_nonempty ch : is_char ch → ch ≠ [].
Proof. intros H ->. specialize (H []). done. Qed.

Lemma utf8_fuel_concat n cs :
  Forall is_char cs → (length (concat cs) ≤ n)%nat → utf8_fuel n (concat cs) = Some cs.
Proof.
  intros Hcs. revert n. induction Hcs as [|ch cs Hch Hcs IH]; intros n Hn; [by destruct n|].
  cbn in *. rewrite length_app in Hn. pose proof (is_char_nonempty _ Hch).
  destruct ch as [|a ch]; [done|]. destruct n as [|n]; [cbn in Hn; lia|].
  cbn [app utf8_fuel]. rewrite (app_comm_cons ch _ a), Hch. cbn. rewrite IH; [done|].
  cbn in Hn. lia.
Qed.

Lemma utf8_chunks_concat cs : Forall is_char cs → utf8_chunks (concat cs) = Some cs.
Proof. intros. by apply utf8_fuel_concat. Qed.

Lemma is_utf8_iff s : is_utf8 s = true ↔ ∃ cs, s = concat cs ∧ Forall is_char cs.
Proof.
  unfold is_utf8. rewrite bool_decide_eq_true. split.
  - intros [cs H]. exists cs. by apply utf8_fuel_spec in H.
  - intros (cs & -> & H). rewrite utf8_chunks_concat by done. eauto.
Qed.

Lemma chars_concat cs : Forall is_char cs → chars (concat cs) = cs.
Proof. intros. unfold chars. by rewrite utf8_chunks_concat. Qed.

Lemma is_utf8_app s t : is_utf8 s = true → is_utf8 t = true → is_utf8 (s ++ t) = true.
Proof.
  rewrite !is_utf8_iff. intros (cs & -> & Hc) (ds & -> & Hd). exists (cs ++ ds).
  by rewrite concat_app, Forall_app.
Qed.

Lemma chars_is_char s : Forall is_char (chars s).
Proof.
  unfold chars. destruct (utf8_chunks s) as [cs|] eqn:E; [|constructor].
  by apply utf8_fuel_spec in E as [_ ?].
Qed.

(** A NUL byte is always a character of its own. *)
Lemma is_char_nul ch : is_char ch → 0 ∈ ch → ch = [0].
Proof.
  intros H Hin. specialize (H []). rewrite app_nil_r in H. unfold utf8_head in H.
  repeat (case_match; try discriminate); simplify_eq;
    unfold byte_in, cont in *; set_unfold in Hin; destruct_or!; subst; try done; exfalso; lia.
Qed.

Lemma trim_nul_app_nul s t : 0 ∉ s → trim_nul (s ++ 0 :: t) = s.
Proof.
  induction s as [|x s IH]; intros H; cbn; [done|]. apply not_elem_of_cons in H as [H1 H2].
  destruct (Z.eqb_spec x 0); [done|]. by rewrite IH.
Qed.

Lemma trim_nul_id s : 0 ∉ s → trim_nul s = s.
Proof.
  induction s as [|x s IH]; intros H; cbn; [done|]. apply not_elem_of_cons in H as [H1 H2].
  destruct (Z.eqb_spec x 0); [done|]. by rewrite IH.
Qed.

Lemma trim_nul_app_no s t : 0 ∉ s → trim_nul (s ++ t) = s ++ trim_nul t.
Proof.
  induction s as [|x s IH]; intros H; cbn; [done|]. apply not_elem_of_cons in H as [H1 H2].
  destruct (Z.eqb_spec x 0); [done|]. by rewrite IH.
Qed.

(** Cutting a [&str] at its first NUL gives a [&str]. *)
Lemma trim_nul_utf8 s : is_utf8 s = true → is_utf8 (trim_nul s) = true.
Proof.
  rewrite !is_utf8_iff. intros (cs & -> & Hcs).
  induction Hcs as [|ch cs Hch Hcs (ds & Hds & Hd)]; [by exists []|]. cbn.
  destruct (decide (0 ∈ ch)) as [Hin|Hn].
  - apply is_char_nul in Hin as ->; [|done]. exists []. done.
  - rewrite trim_nul_app_no by done. exists (ch :: ds). cbn. rewrite Hds. by split; [|constructor].
Qed.

(** ** [heapless::Str] lemmas *)

Definition str_ok (s : HStr.t) : Prop := HStr.wf s ∧ is_utf8 (HStr.contents s) = true.

Lemma HStr_new_ok : str_ok HStr.new.
Proof. split; [split; cbn; [done|unfold STR_CAP; lia]|done]. Qed.

(** [push_str] appends a prefix of the characters: all of them if they fit,
    and otherwise as many as fit whole. *)
Lemma push_chars_spec self cs :
  str_ok self → Forall is_char cs →
  ∃ cs1 cs2, cs = cs1 ++ cs2 ∧ str_ok (push_chars self cs) ∧
    HStr.contents (push_chars self cs) = HStr.contents self ++ concat cs1 ∧
    match cs2 with
    | [] => True
    | ch :: _ => STR_CAP < Z.of_nat (length (HStr.contents self ++ concat cs1 ++ ch))
    end.
Proof.
  intros Hs Hcs. revert self Hs. induction Hcs as [|ch cs Hch Hcs IH]; intros self Hs; cbn.
  { exists [], []. cbn. rewrite app_nil_r. split_and!; done. }
  assert (self.(HStr.len) = Z.of_nat (length (HStr.contents self))) as Hlen.
  { destruct Hs as [[Hb Hl] _]. unfold HStr.contents. rewrite length_take. lia. }
  destruct (Z.ltb_spec STR_CAP (self.(HStr.len) + Z.of_nat (length ch))) as [Hgt|Hle].
  { exists [], (ch :: cs). cbn. rewrite app_nil_r, length_app. split_and!; [done|done|done|lia]. }
  destruct (HStr.append_spec self ch) as [Hwf Hcont]; [apply Hs|done|].
  destruct (IH (HStr.append self ch)) as (cs1 & cs2 & -> & Hok & Hc & Hrest).
  { split; [done|]. rewrite Hcont. apply is_utf8_app; [apply Hs|].
    apply is_utf8_iff. exists [ch]. cbn. rewrite app_nil_r. by split; [|constructor]. }
  exists (ch :: cs1), cs2. split; [done|]. split; [done|]. cbn.
  rewrite Hc, Hcont, <- app_assoc. split; [done|]. destruct cs2; [done|].
  rewrite Hcont, <- !app_assoc in Hrest. by rewrite <- app_assoc.
Qed.

Lemma push_str_ok self s : str_ok self → str_ok (push_str self s).
Proof.
  intros H. destruct (push_chars_spec self (chars s) H (chars_is_char s)) as (? & ? & _ & Hok & _). done.
Qed.

(** A string that fits is appended in full. *)
Lemma push_str_fits self s :
  str_ok self → is_utf8 s = true →
  Z.of_nat (length (HStr.contents self)) + Z.of_nat (length s) ≤ STR_CAP →
  HStr.contents (push_str self s) = HStr.contents self ++ s.
Proof.
  intros H (cs & -> & Hcs)%is_utf8_iff Hfit. unfold push_str. rewrite chars_concat by done.
  destruct (push_chars_spec self cs H Hcs) as (cs1 & cs2 & -> & _ & Hc & Hrest). rewrite Hc.
  destruct cs2 as [|ch cs2]; [by rewrite app_nil_r|]. exfalso.
  rewrite concat_app in Hfit. cbn in Hfit. rewrite !length_app in *. lia.
Qed.

Lemma str_tag_ok body : str_ok (str_tag body).
Proof. apply push_str_ok, HStr_new_ok. Qed.

(** ** Field readers *)

Lemma from_le_bytes_bound s : Forall is_u8 s → 0 ≤ from_le_bytes s < 2 ^ (8 * Z.of_nat (length s)).
Proof.
  induction 1 as [|x s Hx Hs IH]; cbn [from_le_bytes length]; [by cbn|].
  replace (8 * Z.of_nat (S (length s))) with (8 + 8 * Z.of_nat (length s)) by lia.
  rewrite Z.pow_add_r by lia. unfold is_u8 in Hx. lia.
Qed.

Lemma get_range_Some b lo hi s :
  0 ≤ lo → get_range b lo hi = Some s →
  lo ≤ hi ≤ Z.of_nat (length b) ∧ s = take (Z.to_nat (hi - lo)) (drop (Z.to_nat lo) b) ∧
  Z.of_nat (length s) = hi - lo.
Proof.
  intros Hlo. unfold get_range.
  destruct (Z.leb_spec lo hi), (Z.leb_spec hi (Z.of_nat (length b))); cbn; try done.
  intros [= <-]. rewrite length_take, length_drop. split_and!; [lia|lia|done|lia].
Qed.

Lemma get_range_u8 b lo hi s : Forall is_u8 b → get_range b lo hi = Some s → Forall is_u8 s.
Proof.
  intros Hb. unfold get_range. destruct (_ && _)%bool; [|done]. intros [= <-].
  by apply Forall_take, Forall_drop.
Qed.

Lemma get_range_in b lo hi :
  0 ≤ lo ≤ hi → hi ≤ Z.of_nat (length b) → is_Some (get_range b lo hi).
Proof.
  intros. unfold get_range.
  destruct (Z.leb_spec lo hi), (Z.leb_spec hi (Z.of_nat (length b))); (done || lia).
Qed.

(** A reader inside the slice succeeds; its value fits the field. *)
Lemma uint_at_ok n b off :
  Forall is_u8 b → 0 ≤ off → 0 ≤ n → off + n < U64 →
  ∃ r, uint_at n b off = Ret r ∧
    (off + n ≤ Z.of_nat (length b) → is_Some r) ∧
    (∀ v, r = Some v → 0 ≤ v < 2 ^ (8 * n)).
Proof.
  intros Hb Ho Hn Hov. unfold uint_at. rewrite add64_ok by done. cbn.
  eexists. split; [done|]. split.
  - intros Hle. apply fmap_is_Some, get_range_in; lia.
  - intros v (s & Hs & ->)%fmap_Some. pose proof (get_range_u8 _ _ _ _ Hb Hs) as Hu.
    apply get_range_Some in Hs as (_ & _ & Hlen); [|done].
    pose proof (from_le_bytes_bound s Hu) as Hbd.
    by replace (Z.of_nat (length s)) with n in Hbd by lia.
Qed.

(** Rounding up to the tag alignment. *)
Lemma align_up e : 0 ≤ e < U64 → Z.land e (bnot 64 (tag_ALIGN - 1)) = 8 * (e / 8).
Proof. apply (land_bnot_align 3). lia. Qed.

(** ** The parser is total *)

Definition mmap_ok (v : HVec.t MmapEntry) : Prop :=
  HVec.wf v ∧ Forall mmap_wf (HVec.as_slice v).

Lemma push_mmap_ok v e :
  mmap_ok v → mmap_wf e → ∃ v' ok, HVec.push v e = Ret (v', ok) ∧ mmap_ok v'.
Proof.
  intros [Hwf Hall] He. pose proof (HVec.push_spec v e Hwf) as H.
  destruct (HVec.len v <? MMAP_CAP).
  - destruct H as (v' & H & Hwf' & Hs). exists v', true. split; [done|]. split; [done|].
    rewrite Hs. apply Forall_app. by split; [|constructor].
  - exists v, false. by split; [|split].
Qed.

Lemma parse_mmap_body_ok body entry_size eoff v :
  Forall is_u8 body → Z.of_nat (length body) < 2 ^ 62 → 24 ≤ entry_size < 2 ^ 32 →
  0 ≤ eoff < 2 ^ 63 → mmap_ok v →
  ∃ r, parse_mmap_body body entry_size (eoff, v) = Ret r ∧
    match r with
    | inr v' => mmap_ok v'
    | inl (eoff', v') => eoff' = eoff + entry_size ∧ mmap_ok v' ∧ eoff + 24 ≤ Z.of_nat (length body)
    end.
Proof.
  intros Hb Hlen He Ho Hv. unfold parse_mmap_body, u64_at, u32_at.
  rewrite (add64_ok eoff 24) by (rewrite U64_val; lia). cbn.
  destruct (Z.ltb_spec (Z.of_nat (length body)) (eoff + 24)) as [|Hin]; [eauto|].
  destruct (uint_at_ok 8 body eoff) as (r1 & E1 & S1 & B1); [done|lia|lia|rewrite U64_val; lia|].
  rewrite E1. cbn. destruct (S1 ltac:(lia)) as [base ->].
  rewrite (add64_ok eoff 8) by (rewrite U64_val; lia). cbn.
  destruct (uint_at_ok 8 body (eoff + 8)) as (r2 & E2 & S2 & B2); [done|lia|lia|rewrite U64_val; lia|].
  rewrite E2. cbn. destruct (S2 ltac:(lia)) as [len ->].
  rewrite (add64_ok eoff 16) by (rewrite U64_val; lia). cbn.
  destruct (uint_at_ok 4 body (eoff + 16)) as (r3 & E3 & S3 & B3); [done|lia|lia|rewrite U64_val; lia|].
  rewrite E3. cbn. destruct (S3 ltac:(lia)) as [ty ->].
  destruct (push_mmap_ok v (mkMmap base len ty)) as (v' & ok & -> & Hv'); [done| |].
  { split_and!; cbn; [apply (B1 base eq_refl)|apply (B1 base eq_refl)|apply (B2 len eq_refl)
      |apply (B2 len eq_refl)|apply (B3 ty eq_refl)|apply (B3 ty eq_refl)]. }
  cbn. destruct ok; [|eauto].
  rewrite (add64_ok eoff entry_size) by (rewrite U64_val; lia). cbn.
  eexists. split; [reflexivity|]. done.
Qed.

Lemma parse_mmap_ok body v :
  Forall is_u8 body → Z.of_nat (length body) < 2 ^ 62 → mmap_ok v →
  ∃ r, parse_mmap body v = Ret r ∧ match r with inr v' => mmap_ok v' | inl e => e = BadMmapEntrySize end.
Proof.
  intros Hb Hlen Hv. unfold parse_mmap, u32_at.
  destruct (uint_at_ok 4 body 0) as (r1 & -> & _ & B1); [done|lia|lia|rewrite U64_val; lia|]. cbn.
  destruct r1 as [es|]; [|rdone].
  destruct (uint_at_ok 4 body 4) as (r2 & -> & _ & _); [done|lia|lia|rewrite U64_val; lia|]. cbn.
  destruct r2; [|rdone]. destruct (Z.ltb_spec es 24); [rdone|].
  pose proof (B1 es eq_refl) as Hes. change (8 * 4) with 32 in Hes.
  destruct (loop_total (fun '(eoff, v) => 8 ≤ eoff < 2 ^ 63 ∧ mmap_ok v) mmap_ok
    (fun '(eoff, _) => Z.to_nat (Z.of_nat (length body) - eoff))
    (parse_mmap_body body es) (S (length body)) (8, v)) as (v' & -> & Hv').
  - intros [eoff w] [Ho Hw].
    destruct (parse_mmap_body_ok body es eoff w) as ([[e' v']|v'] & E & Hr); [done|done|lia|lia|done| |].
    + right. destruct Hr as (-> & Hv' & Hin). eexists. split; [done|]. split; [split; [lia|done]|lia].
    + left. eauto.
  - split; [lia|done].
  - lia.
  - cbn. rdone.
Qed.

Lemma parse_framebuffer_ok body :
  Forall is_u8 body → ∃ f, parse_framebuffer body = Ret f.
Proof.
  intros Hb. unfold parse_framebuffer, u64_at, u32_at.
  destruct (uint_at_ok 8 body 0) as (r1 & -> & _); [done|lia|lia|rewrite U64_val; lia|]. cbn.
  destruct (uint_at_ok 4 body 8) as (r2 & -> & _); [done|lia|lia|rewrite U64_val; lia|]. cbn.
  destruct (uint_at_ok 4 body 12) as (r3 & -> & _); [done|lia|lia|rewrite U64_val; lia|]. cbn.
  destruct (uint_at_ok 4 body 16) as (r4 & -> & _); [done|lia|lia|rewrite U64_val; lia|]. cbn.
  eauto.
Qed.

(** The bytes of an RSDP of that ACPI version. *)
Definition rsdp_len (version : Z) : Z := if version =? 1 then 20 else 36.

(** What [parse] guarantees of the structure it returns, whose declared size
    is [total]: the RSDP, all of it, lies in the structure after the two headers. *)
Record info_ok (total : Z) (info : BootInfo) : Prop := {
  io_total : info.(total_size) = total;
  io_mmap : mmap_ok info.(mmap);
  io_cmdline s : info.(cmdline) = Some s → str_ok s;
  io_loader s : info.(loader_name) = Some s → str_ok s;
  io_rsdp a : info.(acpi_rsdp) = Some a →
    16 ≤ a ∧ a mod 8 = 0 ∧ (info.(acpi_version) = 1 ∨ info.(acpi_version) = 2) ∧ a + rsdp_len info.(acpi_version) ≤ total;
  io_version : info.(acpi_version) = 0 ↔ info.(acpi_rsdp) = None;
  io_base a : info.(load_base_addr) = Some a → 0 ≤ a < 2 ^ 32;
  io_phys : info.(phys_addr) = 0;
}.

Lemma handle_tag_ok total ty off body info saw :
  Forall is_u8 body → Z.of_nat (length body) < 2 ^ 62 → 8 ≤ off < 2 ^ 62 → off mod 8 = 0 →
  off + 8 + Z.of_nat (length body) ≤ total → info_ok total info →
  ∃ r, handle_tag ty off body (info, saw) = Ret r ∧
    match r with
    | inr (info', saw') => info_ok total info' ∧ info'.(tag_count) = info.(tag_count)
    | inl e => e = BadMmapEntrySize
    end.
Proof.
  intros Hb Hlen Hoff Hal Hoff' Hsame. pose proof Hsame as [Ht Hm Hc Hl Hr Hv Hba Hp].
  unfold handle_tag.
  destruct (ty =? tag_CMDLINE).
  { eexists. split; [done|]. split; [|done]. split; cbn; try done. intros s [= <-]. apply str_tag_ok. }
  destruct (ty =? tag_BOOT_LOADER_NAME).
  { eexists. split; [done|]. split; [|done]. split; cbn; try done. intros s [= <-]. apply str_tag_ok. }
  destruct (ty =? tag_MMAP).
  { destruct (parse_mmap_ok body info.(mmap)) as (r & -> & Hr2); [done..|]. cbn.
    destruct r as [e|v]; [rdone|]. eexists. split; [done|]. split; [|done]. by split. }
  destruct (Z.leb_spec 24 (Z.of_nat (length body))), (Z.leb_spec 20 (Z.of_nat (length body))),
    (Z.leb_spec 36 (Z.of_nat (length body))), (ty =? tag_FRAMEBUFFER), (ty =? tag_ACPI_OLD),
    (ty =? tag_ACPI_NEW); try lia; cbn [andb];
  try (destruct (framebuffer info);
       [rdone|destruct (parse_framebuffer_ok body) as [f ->]; [done|];
        cbn; eexists; split; [done|]; split; [by split|done]]);
  try (destruct (acpi_rsdp info) as [a|] eqn:Ea;
       [rdone|rewrite add64_ok by (unfold tag_HEADER_LEN; rewrite U64_val; lia); cbn;
        eexists; split; [done|]; split; [|done]; split; cbn; try done;
        intros a [= <-]; unfold tag_HEADER_LEN, rsdp_len; cbn [Z.eqb Pos.eqb]; split_and!; (zlia || lia || auto)]);
  (destruct (ty =? tag_LOAD_BASE_ADDR); [|rdone];
   destruct (uint_at_ok 4 body 0) as (r1 & E1 & _ & B1); [done|lia|lia|rewrite U64_val; lia|];
   unfold u32_at; rewrite E1; cbn; eexists; split; [done|]; split; [|done]; split; cbn; try done).
Qed.

(** The invariant of the tag walk at offset [off]. *)
Definition walk_ok (total : Z) (st : Z * (BootInfo * bool)) : Prop :=
  let '(off, (info, _)) := st in
  8 ≤ off ≤ total + 7 ∧ off mod 8 = 0 ∧ info_ok total info ∧
  0 ≤ info.(tag_count) ∧ 8 * (info.(tag_count) + 1) ≤ off.

Definition walk_result (total : Z) (r : ParseError + BootInfo * bool) : Prop :=
  match r with
  | inr (info, _) => info_ok total info ∧ 8 * (info.(tag_count) + 1) ≤ total + 7
  | inl e => e = TagUndersize ∨ e = TagOverrun ∨ e = BadMmapEntrySize
  end.

Lemma walk_body_ok b total st :
  Forall is_u8 b → total ≤ Z.of_nat (length b) → 8 ≤ total < 2 ^ 32 → Z.of_nat (length b) < 2 ^ 62 →
  walk_ok total st →
  ∃ r, walk_body b total st = Ret r ∧
    match r with
    | inl st' => walk_ok total st' ∧ st.1 + 8 ≤ st'.1 ∧ st.1 + 8 ≤ total
    | inr x => walk_result total x
    end.
Proof.
  intros Hb Htot Ht32 Hlen Hst. destruct st as [off [info saw]].
  destruct Hst as (Hoff & Hal & Hio & Hc0 & Hc). cbn [fst].
  assert (walk_result total (inr (info, saw))) as Hdone.
  { split; [done|lia]. }
  unfold walk_body, u16_at, u32_at, tag_HEADER_LEN, tag_ALIGN in *.
  rewrite (add64_ok off 8) by (rewrite U64_val; lia). cbn [mbind Res_bind].
  destruct (Z.ltb_spec total (off + 8)) as [|Hin]; [rdone|].
  destruct (uint_at_ok 2 b off) as (r1 & -> & S1 & _); [done|lia|lia|rewrite U64_val; lia|].
  destruct (S1 ltac:(lia)) as [ty ->]. cbn [mbind Res_bind].
  rewrite (add64_ok off 4) by (rewrite U64_val; lia). cbn [mbind Res_bind].
  destruct (uint_at_ok 4 b (off + 4)) as (r2 & -> & S2 & B2); [done|lia|lia|rewrite U64_val; lia|].
  destruct (S2 ltac:(lia)) as [size ->]. cbn [mbind Res_bind].
  pose proof (B2 size eq_refl) as Hsz. change (8 * 4) with 32 in Hsz.
  destruct (ty =? tag_END); [rdone|].
  destruct (Z.ltb_spec size 8); [eexists; split; [reflexivity|cbn; auto]|].
  destruct (Z.leb_spec U64 (off + size)); [eexists; split; [reflexivity|cbn; auto]|].
  destruct (Z.ltb_spec total (off + size)); [eexists; split; [reflexivity|cbn; auto]|].
  destruct (get_range_in b (off + 8) (off + size)) as [body Ebody]; [lia|lia|].
  unfold slice. rewrite Ebody. cbn [mbind Res_bind].
  pose proof (get_range_u8 _ _ _ _ Hb Ebody) as Hbody.
  apply get_range_Some in Ebody as (_ & _ & Hbl); [|lia].
  unfold bump_count. destruct (Z.ltb_spec (tag_count info + 1) (2 ^ 32)); [|lia]. cbn [mbind Res_bind].
  destruct (handle_tag_ok total ty off body (set_tag_count info (tag_count info + 1)) saw)
    as (r & -> & Hr); [done|lia|lia|done|lia|by destruct Hio; split|].
  cbn [mbind Res_bind]. destruct r as [e|[info' saw']].
  { eexists. split; [reflexivity|]. cbn. auto. }
  rewrite (add64_ok (off + size)) by (rewrite U64_val; lia). cbn [mbind Res_bind].
  change (8 - 1) with 7. change 7 with (tag_ALIGN - 1) at 2. rewrite align_up by (rewrite U64_val; lia).
  eexists. split; [reflexivity|]. destruct Hr as [Hio' Hcnt]. cbn [set_tag_count tag_count] in Hcnt.
  cbn [fst walk_ok]. rewrite Hcnt. split_and!; [zlia|zlia|zlia|done|lia|zlia|zlia|lia].
Qed.

Lemma walk_total b total info :
  Forall is_u8 b → total ≤ Z.of_nat (length b) → 8 ≤ total < 2 ^ 32 → Z.of_nat (length b) < 2 ^ 62 →
  walk_ok total (tag_HEADER_LEN, (info, false)) →
  ∃ r, loop (S (length b)) (tag_HEADER_LEN, (info, false)) (walk_body b total) = Ret r ∧
       walk_result total r.
Proof.
  intros Hb Htot Ht32 Hlen H0.
  apply (loop_total (walk_ok total) (walk_result total) (fun st => Z.to_nat (total - st.1)));
    [|done|cbn; unfold tag_HEADER_LEN; lia].
  intros st Hst. destruct (walk_body_ok b total st) as ([st'|x] & E & Hr); [done..| |].
  - right. exists st'. split; [done|]. split; [apply Hr|]. lia.
  - left. exists x. done.
Qed.

Lemma empty_walk_ok total :
  8 ≤ total → walk_ok total (tag_HEADER_LEN, (BootInfo_empty total, false)).
Proof.
  intros. unfold walk_ok, tag_HEADER_LEN. cbn [tag_count BootInfo_empty].
  split_and!; [lia|lia|done| |lia|lia].
  split; cbn; done.
Qed.

(** The size the structure declares in its first four bytes. *)
Definition declared_total (b : bytes) : Z := from_le_bytes (take 4 b).

Lemma u32_at_0 b :
  u32_at b 0 = Ret (if 4 <=? Z.of_nat (length b) then Some (declared_total b) else None).
Proof.
  unfold u32_at, uint_at. rewrite add64_ok by (rewrite U64_val; lia).
  change (0 + 4) with 4. cbn [mbind Res_bind]. unfold get_range. cbn [Z.leb Z.compare andb].
  by destruct (Z.leb_spec 4 (Z.of_nat (length b))).
Qed.

Lemma parse_ok b :
  Forall is_u8 b → Z.of_nat (length b) < 2 ^ 62 →
  let n := Z.of_nat (length b) in
  ∃ r, parse b = Ret r ∧
    (r = inl TooShort ↔ n < 4 ∨ declared_total b < 8) ∧
    (r = inl SizeMismatch ↔ 4 ≤ n ∧ 8 ≤ declared_total b ∧ n < declared_total b) ∧
    (∀ info, r = inr info →
       info_ok (declared_total b) info ∧
       1 ≤ info.(mmap).(HVec.len) ≤ MMAP_CAP ∧
       8 * info.(tag_count) ≤ declared_total b).
Proof.
  intros Hb Hlen n. unfold parse. rewrite u32_at_0. cbn [mbind Res_bind]. fold n.
  destruct (Z.leb_spec 4 n) as [H4|H4].
  2:{ eexists. split; [reflexivity|]. split_and!; [intuition lia|intuition (lia || done)|done]. }
  unfold tag_HEADER_LEN. destruct (Z.ltb_spec (declared_total b) 8) as [H8|H8].
  { eexists. split; [reflexivity|]. split_and!; [intuition lia|intuition (lia || done)|done]. }
  destruct (Z.ltb_spec n (declared_total b)) as [Hn|Hn].
  { eexists. split; [reflexivity|]. split_and!; [intuition (lia || done)|intuition lia|done]. }
  assert (0 ≤ declared_total b < 2 ^ 32) as Hdt.
  { pose proof (from_le_bytes_bound (take 4 b) (Forall_take _ _ _ Hb)) as Hd.
    rewrite length_take in Hd. replace (8 * Z.of_nat (4 `min` length b)) with 32 in Hd by lia. done. }
  destruct (walk_total b (declared_total b) (BootInfo_empty (declared_total b))) as (r & E & Hr);
    [done|lia|lia|done|by apply empty_walk_ok|].
  unfold tag_HEADER_LEN in E. rewrite E. cbn [mbind Res_bind]. eexists. split; [reflexivity|].
  destruct r as [e|[info saw]]; cbn [finish].
  - split; [|split; [|done]].
    + split; [intros [= ->]; cbn in Hr; naive_solver|intros; exfalso; lia].
    + split; [intros [= ->]; cbn in Hr; naive_solver|intros; exfalso; lia].
  - destruct Hr as [Hio Hc]. unfold HVec.is_empty.
    destruct (negb saw || (HVec.len (mmap info) =? 0))%bool eqn:Ef.
    { split; [|split; [|done]]; (split; [done|intros; exfalso; lia]). }
    split; [split; [done|intros; exfalso; lia]|]. split; [split; [done|intros; exfalso; lia]|].
    intros info' [= <-]. split; [done|].
    apply orb_false_iff in Ef as [_ Ez%Z.eqb_neq].
    destruct Hio as [_ [[_ Hl] _] _ _ _ _ _ _]. lia.
Qed.

(** C11: [parse] terminates without a panic on every byte slice.  It reports
    [TooShort] and [SizeMismatch] exactly when the header says so; what it
    returns otherwise has a non-empty memory map of at most 64 entries whose
    fields fit their types, string fields that are valid UTF-8 within their
    capacity, an RSDP whose 20 bytes (version 1) or 36 bytes (version 2) all lie
    inside the declared size, at an aligned offset past the first tag header, and
    a tag count that matches the space the tags need.  The slice is any list of
    bytes of a length below 2^62. *)
Theorem parse_total b :
  Forall is_u8 b → Z.of_nat (length b) < 2 ^ 62 →
  let n := Z.of_nat (length b) in
  ∃ r, parse b = Ret r ∧
    (r = inl TooShort ↔ n < 4 ∨ declared_total b < 8) ∧
    (r = inl SizeMismatch ↔ 4 ≤ n ∧ 8 ≤ declared_total b ∧ n < declared_total b) ∧
    (∀ info, r = inr info →
       info_ok (declared_total b) info ∧
       1 ≤ info.(mmap).(HVec.len) ≤ MMAP_CAP ∧
       8 * info.(tag_count) ≤ declared_total b).
Proof. apply parse_ok. Qed.

Definition demo_struct : bytes :=
  [56; 0; 0; 0; 0; 0; 0; 0;
   6; 0; 0; 0; 40; 0; 0; 0; 24; 0; 0; 0; 0; 0; 0; 0;
   0; 0; 16; 0; 0; 0; 0; 0; 0; 0; 0; 8; 0; 0; 0; 0; 1; 0; 0; 0; 0; 0; 0; 0;
   0; 0; 0; 0; 8; 0; 0; 0].

Lemma parse_total_witness :
  ∃ info, parse demo_struct = Ret (inr info) ∧ HVec.as_slice info.(mmap) = [mkMmap 0x100000 0x8000000 1]
          ∧ 1 ≤ info.(mmap).(HVec.len) ≤ MMAP_CAP.
Proof.
  destruct (parse_total demo_struct) as (r & Hr & _ & _ & Hok).
  - repeat constructor; by vm_compute.
  - by vm_compute.
  - assert (∃ info, r = inr info ∧ HVec.as_slice info.(mmap) = [mkMmap 0x100000 0x8000000 1])
      as (info & -> & Hm).
    { revert Hr. vm_compute. intros [= <-]. eexists. split; reflexivity. }
    exists info. split; [exact Hr|]. split; [exact Hm|]. apply (Hok info eq_refl).
Defined.

(** ** [read_from] *)

Lemma ld8_u8 m a : is_u8 (ld8 m a).
Proof.
  unfold is_u8, ld8. change 255 with (Z.ones 8). rewrite Z.land_ones by lia.
  apply Z.mod_pos_bound. lia.
Qed.

Lemma mem_bytes_u8 m pa n : Forall is_u8 (mem_bytes m pa n).
Proof. apply Forall_fmap, Forall_forall. intros k _. apply ld8_u8. Qed.

Lemma length_mem_bytes m pa n : length (mem_bytes m pa n) = n.
Proof. unfold mem_bytes. by rewrite length_fmap, length_seq. Qed.

Lemma take_mem_bytes m pa k n : (k ≤ n)%nat → take k (mem_bytes m pa n) = mem_bytes m pa k.
Proof.
  intros. unfold mem_bytes. rewrite <- fmap_take. f_equal.
  replace n with (k + (n - k))%nat by lia. rewrite seq_app, take_app_length'; [done|].
  symmetry. apply length_seq.
Qed.

Section ReadFromFacts.
Context `{X : X86Crate}.

(** [read_from] returns on every address and every memory content.  An
    address outside the boot mapping is refused; a structure it accepts
    declares at most 64 KiB, and the RSDP address it reports is absolute and
    lies inside the structure. *)
Theorem read_from_total m pa :
  0 ≤ pa < U64 →
  ∃ r, read_from m pa = Ret r ∧
    (pa = 0 ∨ BOOT_MAPPED_BYTES ≤ pa → r = inl TooShort) ∧
    (∀ info, r = inr info →
       info.(phys_addr) = pa ∧ 8 ≤ info.(total_size) ≤ 65536 ∧ mmap_ok info.(mmap) ∧
       ∀ a, info.(acpi_rsdp) = Some a → pa + 16 ≤ a ∧ a + rsdp_len info.(acpi_version) ≤ pa + info.(total_size)).
Proof.
  intros Hpa. unfold read_from.
  destruct (Z.eqb_spec pa 0); cbn [orb]; [rdone|].
  destruct (Z.leb_spec BOOT_MAPPED_BYTES pa) as [|Hlt]; [rdone|].
  rewrite PhysAddr_new_low by (unfold BOOT_MAPPED_BYTES in *; lia). cbn [mbind Res_bind].
  rewrite phys_to_virt_boot by lia. cbn [mbind Res_bind].
  set (t := from_le_bytes (mem_bytes m pa 4)).
  assert (0 ≤ t < 2 ^ 32) as Ht.
  { pose proof (from_le_bytes_bound _ (mem_bytes_u8 m pa 4)) as H.
    rewrite length_mem_bytes in H. exact H. }
  unfold tag_HEADER_LEN. destruct (Z.ltb_spec t 8) as [H8|H8].
  { eexists. split; [reflexivity|]. split; [lia|done]. }
  unfold sat_add64, PAGE_SIZE. rewrite (Z.min_l (t + 4096)) by (rewrite U64_val; lia).
  set (span := Z.min (t + 4096) (64 * 1024)). assert (8 ≤ span ≤ 65536) as Hs by lia.
  pose proof (length_mem_bytes m pa (Z.to_nat span)) as Hlen.
  destruct (parse_ok (mem_bytes m pa (Z.to_nat span))) as (r & -> & _ & Hmis & Hok);
    [apply mem_bytes_u8|lia|].
  unfold declared_total in *. rewrite take_mem_bytes in * by lia. fold t in Hmis, Hok.
  cbn [mbind Res_bind]. destruct r as [e|info].
  { eexists. split; [reflexivity|]. split; [lia|done]. }
  destruct (Hok info eq_refl) as ([Hto Hm _ _ Hr _ _ _] & _ & _).
  assert (t ≤ 65536) as Ht64.
  { destruct (Z.le_gt_cases t 65536); [done|].
    assert (inr info = inl SizeMismatch) as H0; [|done]. apply Hmis. lia. }
  cbn [set_phys_addr acpi_rsdp]. destruct (acpi_rsdp info) as [a|] eqn:Ea.
  - destruct (Hr a eq_refl) as (Ha & _ & _ & Hla). unfold BOOT_MAPPED_BYTES in *.
    assert (20 ≤ rsdp_len (acpi_version info)) by (unfold rsdp_len; destruct (_ =? _); lia).
    rewrite add64_ok by (rewrite U64_val; lia). cbn [mbind Res_bind].
    eexists. split; [reflexivity|]. split; [lia|]. intros i [= <-].
    cbn [set_rsdp set_phys_addr phys_addr total_size mmap acpi_rsdp acpi_version].
    split; [done|]. split; [lia|]. split; [done|]. intros a' [= <-]. lia.
  - eexists. split; [reflexivity|]. split; [lia|]. intros i [= <-].
    cbn [set_phys_addr phys_addr total_size mmap acpi_rsdp].
    split; [done|]. split; [lia|]. split; [done|]. congruence.
Qed.

End ReadFromFacts.

Lemma read_from_total_witness :
  ∃ r, @read_from x86_ref ∅ 0x10000 = Ret r ∧ r = inl TooShort.
Proof.
  destruct (@read_from_total x86_ref ∅ 0x10000) as (r & Hr & _).
  - by vm_compute.
  - exists r. split; [exact Hr|]. revert Hr. vm_compute. congruence.
Defined.
