(* ===== verification/MultibootSpec.v ===== *)
(** * The Multiboot2 parser inverts the encoding

    An encoder for information structures (header, a list of tags padded to
    eight bytes, the end tag) and the interpreter [walk_ref] that folds the
    tag handler over the list.  [parse] on the encoding of a tag list, followed
    by arbitrary further bytes, is that interpreter; for a structure with a
    command line and a memory map the fields come back as they were encoded. *)

From S2P Require Import Prelude Arch BootInfo Multiboot.
From stdpp Require Import base gmap sets list strings numbers.
From Stdlib Require Import ZArith Lia.
#[local] Open Scope Z_scope.

(** ** The encoder *)

Fixpoint le_bytes (n : nat) (v : Z) : bytes :=
  match n with
  | O => []
  | S n' => v mod 256 :: le_bytes n' (v / 256)
  end.

Abbreviation zlen l := (Z.of_nat (length l)).

(** A tag is its type and its body. *)
Abbreviation tag := (Z * list Z)%type.

Definition pad8 (n : Z) : nat := Z.to_nat (8 * ((n + 7) / 8) - n).

Definition enc_tag (t : tag) : bytes :=
  le_bytes 2 t.1 ++ [0; 0] ++ le_bytes 4 (8 + zlen t.2) ++ t.2 ++ replicate (pad8 (8 + zlen t.2)) 0.

Definition enc_end : bytes := le_bytes 2 tag_END ++ [0; 0] ++ le_bytes 4 8.

Definition enc_tags (ts : list tag) : bytes := concat (enc_tag <$> ts) ++ enc_end.

Definition enc_info (ts : list tag) : bytes :=
  le_bytes 4 (8 + zlen (enc_tags ts)) ++ [0; 0; 0; 0] ++ enc_tags ts.

(** The reference interpreter of a tag list. *)
Fixpoint walk_ref (off : Z) (ts : list tag) (st : BootInfo * bool)
  : Res (ParseError + BootInfo * bool) :=
  match ts with
  | [] => Ret (inr st)
  | t :: ts' =>
      info ← bump_count st.1;
      r ← handle_tag t.1 off t.2 (info, st.2);
      match r with
      | inl e => Ret (inl e)
      | inr st' => walk_ref (off + zlen (enc_tag t)) ts' st'
      end
  end.

Definition tag_ok (t : tag) : Prop :=
  0 < t.1 < 2 ^ 16 ∧ 8 + zlen t.2 < 2 ^ 32.

(** ** Encoding lemmas *)

Lemma length_le_bytes n v : length (le_bytes n v) = n.
Proof. revert v. induction n as [|n IH]; intros v; cbn; [done|]. by rewrite IH. Qed.

Lemma from_le_bytes_le n v :
  0 ≤ v < 2 ^ (8 * Z.of_nat n) → from_le_bytes (le_bytes n v) = v.
Proof.
  revert v. induction n as [|n IH]; intros v Hv; cbn [le_bytes from_le_bytes].
  - change (2 ^ (8 * Z.of_nat 0)) with 1 in Hv. lia.
  - rewrite IH; [zlia|]. replace (8 * Z.of_nat (S n)) with (8 + 8 * Z.of_nat n) in Hv by lia.
    rewrite Z.pow_add_r in Hv by lia. change (2 ^ 8) with 256 in Hv. zlia.
Qed.

(** Reading a field that sits between [pre] and [post]. *)
Lemma get_range_mid (pre mid post : bytes) lo hi :
  lo = zlen pre → hi = zlen pre + zlen mid →
  get_range (pre ++ mid ++ post) lo hi = Some mid.
Proof.
  intros -> ->. unfold get_range. rewrite !length_app.
  destruct (Z.leb_spec (zlen pre) (zlen pre + zlen mid)); [|lia].
  destruct (Z.leb_spec (zlen pre + zlen mid) (Z.of_nat (length pre + (length mid + length post)))); [|lia].
  cbn. f_equal. rewrite Nat2Z.id, drop_app_length.
  replace (Z.to_nat (zlen pre + zlen mid - zlen pre)) with (length mid) by lia.
  by rewrite take_app_length.
Qed.

Lemma uint_at_mid (n : nat) pre v post off :
  off = zlen pre → 0 ≤ v < 2 ^ (8 * Z.of_nat n) → zlen pre + Z.of_nat n < U64 →
  uint_at (Z.of_nat n) (pre ++ le_bytes n v ++ post) off = Ret (Some v).
Proof.
  intros -> Hv Hov. unfold uint_at. rewrite add64_ok by done. cbn [mbind Res_bind].
  rewrite get_range_mid; [|done|by rewrite length_le_bytes]. cbn.
  by rewrite from_le_bytes_le.
Qed.

Lemma length_enc_tag t : zlen (enc_tag t) = 8 * ((8 + zlen t.2 + 7) / 8).
Proof.
  unfold enc_tag, pad8. rewrite !length_app, !length_le_bytes, length_replicate. cbn [length].
  zlia.
Qed.

Lemma loop_step {S R} n (s s' : S) (body : S → Res (S + R)) :
  body s = Ret (inl s') → loop (Datatypes.S n) s body = loop n s' body.
Proof. intros H. unfold loop at 1. rewrite H. done. Qed.

Lemma loop_exit {S R} n (s : S) (x : R) (body : S → Res (S + R)) :
  body s = Ret (inr x) → loop (Datatypes.S n) s body = Ret x.
Proof. intros H. unfold loop. by rewrite H. Qed.

(** One iteration of the walk on an encoded tag. *)
Lemma walk_body_tag pre t post total st off :
  tag_ok t → off = zlen pre → off mod 8 = 0 → 8 ≤ off → off + zlen (enc_tag t) ≤ total →
  total < 2 ^ 32 →
  walk_body (pre ++ enc_tag t ++ post) total (off, st) =
    (info ← bump_count st.1;
     r ← handle_tag t.1 off t.2 (info, st.2);
     match r with
     | inl e => Ret (inr (inl e))
     | inr st' => Ret (inl (off + zlen (enc_tag t), st'))
     end).
Proof.
  intros [Hty Hlen] Hoff Hal H8 Htot H32. destruct st as [info saw].
  pose proof (length_enc_tag t) as Hl. cbn [fst snd].
  assert (off + 8 + zlen t.2 ≤ total) as Hin by zlia.
  unfold walk_body, u16_at, u32_at, tag_HEADER_LEN.
  rewrite (add64_ok off 8) by (rewrite U64_val; lia). cbn [mbind Res_bind].
  destruct (Z.ltb_spec total (off + 8)); [lia|].
  assert (uint_at 2 (pre ++ enc_tag t ++ post) off = Ret (Some t.1)) as ->.
  { unfold enc_tag. rewrite <- !app_assoc.
    apply (uint_at_mid 2 pre); [done|cbn; lia|rewrite U64_val; lia]. }
  cbn [mbind Res_bind]. rewrite (add64_ok off 4) by (rewrite U64_val; lia). cbn [mbind Res_bind].
  assert (uint_at 4 (pre ++ enc_tag t ++ post) (off + 4) = Ret (Some (8 + zlen t.2))) as ->.
  { unfold enc_tag. rewrite <- !app_assoc.
    rewrite (app_assoc pre), (app_assoc (pre ++ _)).
    apply (uint_at_mid 4); rewrite ?length_app, ?length_le_bytes; cbn; rewrite ?U64_val; lia. }
  cbn [mbind Res_bind]. unfold tag_END. destruct (Z.eqb_spec t.1 0); [lia|].
  destruct (Z.ltb_spec (8 + zlen t.2) 8); [lia|].
  destruct (Z.leb_spec U64 (off + (8 + zlen t.2))); [rewrite U64_val in *; lia|].
  destruct (Z.ltb_spec total (off + (8 + zlen t.2))); [lia|].
  unfold slice.
  assert (get_range (pre ++ enc_tag t ++ post) (off + 8) (off + (8 + zlen t.2)) = Some t.2) as ->.
  { unfold enc_tag. rewrite <- !app_assoc.
    rewrite (app_assoc pre), (app_assoc (pre ++ _)), (app_assoc ((pre ++ _) ++ _)).
    apply get_range_mid; rewrite !length_app, !length_le_bytes; cbn; lia. }
  cbn [mbind Res_bind]. destruct (bump_count info) as [info'|]; [cbn [mbind Res_bind]|done].
  destruct (handle_tag t.1 off t.2 (info', saw)) as [[e|st']|]; [done| |done]. cbn [mbind Res_bind].
  rewrite add64_ok by (unfold tag_ALIGN; rewrite U64_val; lia). cbn [mbind Res_bind].
  rewrite align_up by (unfold tag_ALIGN; rewrite U64_val; lia). unfold tag_ALIGN.
  do 3 f_equal. rewrite Hl. zlia.
Qed.

Lemma walk_body_end pre post total st off :
  off = zlen pre → off + 8 ≤ total → total < 2 ^ 32 →
  walk_body (pre ++ enc_end ++ post) total (off, st) = Ret (inr (inr st)).
Proof.
  intros Hoff Htot H32. destruct st as [info saw].
  unfold walk_body, u16_at, u32_at, tag_HEADER_LEN.
  rewrite (add64_ok off 8) by (rewrite U64_val; lia). cbn [mbind Res_bind].
  destruct (Z.ltb_spec total (off + 8)); [lia|].
  assert (uint_at 2 (pre ++ enc_end ++ post) off = Ret (Some tag_END)) as ->.
  { unfold enc_end. rewrite <- !app_assoc.
    apply (uint_at_mid 2 pre); [done|unfold tag_END; cbn; lia|rewrite U64_val; lia]. }
  cbn [mbind Res_bind]. rewrite (add64_ok off 4) by (rewrite U64_val; lia). cbn [mbind Res_bind].
  assert (uint_at 4 (pre ++ enc_end ++ post) (off + 4) = Ret (Some 8)) as ->.
  { unfold enc_end. rewrite <- !app_assoc.
    rewrite (app_assoc pre), (app_assoc (pre ++ _)).
    apply (uint_at_mid 4); rewrite ?length_app, ?length_le_bytes; cbn; rewrite ?U64_val; lia. }
  cbn [mbind Res_bind]. done.
Qed.

(** The walk over the encoding is the interpreter. *)
Lemma walk_enc ts pre post total st fuel off :
  Forall tag_ok ts → off = zlen pre → off mod 8 = 0 → 8 ≤ off →
  total = off + zlen (enc_tags ts) → total < 2 ^ 32 → (length ts < fuel)%nat →
  loop fuel (off, st) (walk_body (pre ++ enc_tags ts ++ post) total) = walk_ref off ts st.
Proof.
  intros Hts. revert pre st fuel off. induction Hts as [|t ts Ht Hts IH];
    intros pre st fuel off Hoff Hal H8 Htot H32 Hf; (destruct fuel as [|fuel]; [lia|]).
  - apply loop_exit. apply walk_body_end; [done| |done]. unfold enc_tags in Htot. cbn in Htot. lia.
  - unfold enc_tags in *. cbn [fmap list_fmap concat] in *.
    rewrite <- !app_assoc in *. rewrite !length_app in Htot.
    pose proof (walk_body_tag pre t ((concat (enc_tag <$> ts) ++ enc_end) ++ post) total st off
      Ht Hoff Hal H8 ltac:(lia) H32) as Hstep. rewrite <- !app_assoc in Hstep.
    cbn [walk_ref]. destruct (bump_count st.1) as [info'|f] eqn:Eb; cbn [mbind Res_bind] in *.
    2:{ unfold loop. by rewrite Hstep. }
    destruct (handle_tag t.1 off t.2 (info', st.2)) as [[e|st']|f] eqn:Eh; cbn [mbind Res_bind] in *.
    + by apply loop_exit.
    + erewrite loop_step by exact Hstep.
      specialize (IH (pre ++ enc_tag t) st' fuel (off + zlen (enc_tag t))).
      rewrite <- !app_assoc in IH. pose proof (length_enc_tag t) as Hl.
      apply IH; [rewrite length_app; lia|rewrite Hl; zlia|lia|rewrite length_app; lia|done|cbn in Hf; lia].
    + unfold loop. by rewrite Hstep.
Qed.

Lemma length_enc_tags_ge ts : (length ts ≤ length (enc_tags ts))%nat.
Proof.
  unfold enc_tags. rewrite length_app. induction ts as [|t ts IH]; [cbn; lia|].
  cbn [fmap list_fmap concat length]. rewrite length_app. pose proof (length_enc_tag t). pose proof (Nat2Z.is_nonneg (length t.2)).
  assert (1 ≤ zlen (enc_tag t)) by zlia. lia.
Qed.

(** [parse] on an encoded structure. *)
Lemma parse_enc ts junk :
  Forall tag_ok ts → 8 + zlen (enc_tags ts) < 2 ^ 32 →
  parse (enc_info ts ++ junk) =
    (r ← walk_ref 8 ts (BootInfo_empty (8 + zlen (enc_tags ts)), false); Ret (finish r)).
Proof.
  intros Hts Htot. set (total := 8 + zlen (enc_tags ts)) in *.
  assert (u32_at (enc_info ts ++ junk) 0 = Ret (Some total)) as Hu.
  { unfold enc_info. rewrite <- !app_assoc.
    apply (uint_at_mid 4 []); [done|cbn; unfold total; lia|rewrite U64_val; cbn; lia]. }
  unfold parse. rewrite Hu. cbn [mbind Res_bind].
  assert (zlen (enc_info ts ++ junk) = total + zlen junk) as Hlen.
  { unfold enc_info, total. rewrite !length_app, length_le_bytes. cbn [length]. lia. }
  unfold tag_HEADER_LEN. destruct (Z.ltb_spec total 8); [lia|].
  destruct (Z.ltb_spec (zlen (enc_info ts ++ junk)) total); [lia|].
  pose proof (length_enc_tags_ge ts) as Hge.
  rewrite <- (walk_enc ts (le_bytes 4 total ++ [0; 0; 0; 0]) junk total _
               (S (length (enc_info ts ++ junk))) 8);
    [|done|rewrite length_app, length_le_bytes; done|done|lia|done|done|lia].
  unfold enc_info. by rewrite <- !app_assoc.
Qed.

(** C10: [parse] on the encoding of a tag list, whatever bytes follow the
    declared total size, is the interpreter of tag lists followed by the check
    for a memory map: the walk finds every tag, at its right offset, with
    exactly its body, and reads nothing past the declared size. *)
Theorem parse_refines_tag_list ts junk :
  Forall tag_ok ts → 8 + zlen (enc_tags ts) < 2 ^ 32 →
  parse (enc_info ts ++ junk) =
    (r ← walk_ref 8 ts (BootInfo_empty (8 + zlen (enc_tags ts)), false); Ret (finish r)).
Proof. apply parse_enc. Qed.

Lemma parse_refines_tag_list_witness :
  parse (enc_info [(tag_LOAD_BASE_ADDR, [0; 0; 16; 0])] ++ [255; 255]) = Ret (inl NoMemoryMap).
Proof.
  rewrite (parse_refines_tag_list [(tag_LOAD_BASE_ADDR, [0; 0; 16; 0])] [255; 255]).
  - reflexivity.
  - repeat constructor; by vm_compute.
  - by vm_compute.
Defined.

(** ** The memory map *)

Definition enc_entry (e : MmapEntry) : bytes :=
  le_bytes 8 e.(base) ++ le_bytes 8 e.(length_) ++ le_bytes 4 e.(mem_type) ++ le_bytes 4 0.

Definition enc_mmap (es : list MmapEntry) : bytes :=
  le_bytes 4 24 ++ le_bytes 4 0 ++ concat (enc_entry <$> es).

Lemma length_enc_entry e : length (enc_entry e) = 24%nat.
Proof. unfold enc_entry. by rewrite !length_app, !length_le_bytes. Qed.

Lemma length_enc_entries es : length (concat (enc_entry <$> es)) = (24 * length es)%nat.
Proof.
  induction es as [|e es IH]; [done|]. cbn [fmap list_fmap concat length].
  rewrite length_app, length_enc_entry. lia.
Qed.

Lemma parse_mmap_body_entry pre e post eoff v :
  mmap_wf e → HVec.wf v → eoff = zlen pre → zlen (pre ++ enc_entry e ++ post) < 2 ^ 62 →
  parse_mmap_body (pre ++ enc_entry e ++ post) 24 (eoff, v) =
    ('(v', ok) ← HVec.push v e; Ret (if (ok : bool) then inl (eoff + 24, v') else inr v')).
Proof.
  intros (Hb & Hl & Ht) Hwf Hoff Hlen. unfold parse_mmap_body, u64_at, u32_at.
  assert (eoff + 24 + zlen post < 2 ^ 62) as Hn.
  { rewrite !length_app, length_enc_entry in Hlen. lia. }
  rewrite (add64_ok eoff 24) by (rewrite U64_val; lia). cbn [mbind Res_bind].
  destruct (Z.ltb_spec (zlen (pre ++ enc_entry e ++ post)) (eoff + 24)) as [Hlt|_].
  { rewrite !length_app, length_enc_entry in Hlt. lia. }
  assert (uint_at 8 (pre ++ enc_entry e ++ post) eoff = Ret (Some e.(base))) as ->.
  { unfold enc_entry. rewrite <- !app_assoc.
    apply (uint_at_mid 8 pre); [done|cbn; lia|rewrite U64_val; lia]. }
  cbn [mbind Res_bind]. rewrite (add64_ok eoff 8) by (rewrite U64_val; lia). cbn [mbind Res_bind].
  assert (uint_at 8 (pre ++ enc_entry e ++ post) (eoff + 8) = Ret (Some e.(length_))) as ->.
  { unfold enc_entry. rewrite <- !app_assoc, (app_assoc pre).
    apply (uint_at_mid 8); rewrite ?length_app, ?length_le_bytes; cbn; rewrite ?U64_val; lia. }
  cbn [mbind Res_bind]. rewrite (add64_ok eoff 16) by (rewrite U64_val; lia). cbn [mbind Res_bind].
  assert (uint_at 4 (pre ++ enc_entry e ++ post) (eoff + 16) = Ret (Some e.(mem_type))) as ->.
  { unfold enc_entry. rewrite <- !app_assoc, (app_assoc pre), (app_assoc (pre ++ _)).
    apply (uint_at_mid 4); rewrite ?length_app, ?length_le_bytes; cbn; rewrite ?U64_val; lia. }
  cbn [mbind Res_bind]. replace (mkMmap e.(base) e.(length_) e.(mem_type)) with e by (by destruct e).
  destruct (HVec.push v e) as [[v' []]|]; cbn [mbind Res_bind]; done.
Qed.

Lemma parse_mmap_loop es pre eoff v fuel :
  Forall mmap_wf es → HVec.wf v → eoff = zlen pre → zlen (pre ++ concat (enc_entry <$> es)) < 2 ^ 62 →
  (length es < fuel)%nat →
  ∃ v', loop fuel (eoff, v) (parse_mmap_body (pre ++ concat (enc_entry <$> es)) 24) = Ret v' ∧
        HVec.wf v' ∧
        HVec.as_slice v' = take (Z.to_nat MMAP_CAP) (HVec.as_slice v ++ es).
Proof.
  intros Hes. revert pre eoff v fuel. induction Hes as [|e es He Hes IH];
    intros pre eoff v fuel Hwf Hoff Hlen Hf; (destruct fuel as [|fuel]; [lia|]).
  - exists v. cbn [fmap list_fmap concat] in *. rewrite app_nil_r in *. split; [|split; [done|]].
    + apply loop_exit. unfold parse_mmap_body. rewrite (add64_ok eoff 24) by (rewrite U64_val; lia).
      cbn [mbind Res_bind]. destruct (Z.ltb_spec (zlen pre) (eoff + 24)); [done|lia].
    + pose proof (HVec.length_as_slice v Hwf). destruct Hwf as [_ ?]. rewrite app_nil_r, take_ge; [done|lia].
  - cbn [fmap list_fmap concat] in *.
    pose proof (parse_mmap_body_entry pre e (concat (enc_entry <$> es)) eoff v He Hwf Hoff Hlen) as Hstep.
    pose proof (HVec.push_spec v e Hwf) as Hpush. pose proof (HVec.length_as_slice v Hwf) as Hls.
    destruct (Z.ltb_spec (HVec.len v) MMAP_CAP).
    + destruct Hpush as (v1 & Hp & Hwf1 & Hs1). rewrite Hp in Hstep. cbn [mbind Res_bind] in Hstep.
      erewrite loop_step by exact Hstep.
      destruct (IH (pre ++ enc_entry e) (eoff + 24) v1 fuel) as (v' & Hl & Hwf' & Hs').
      * done.
      * rewrite length_app, length_enc_entry. lia.
      * by rewrite <- app_assoc.
      * cbn in Hf. lia.
      * exists v'. rewrite <- app_assoc in Hl. split; [done|]. split; [done|].
        by rewrite Hs', Hs1, <- app_assoc.
    + rewrite Hpush in Hstep. cbn [mbind Res_bind] in Hstep. exists v.
      split; [by apply loop_exit|]. split; [done|].
      rewrite take_app_le by (destruct Hwf; lia). rewrite take_ge; [done|]. destruct Hwf. lia.
Qed.

(** [parse_mmap] on an encoded map appends its entries, up to the capacity. *)
Lemma parse_mmap_enc es v :
  Forall mmap_wf es → HVec.wf v → zlen (enc_mmap es) < 2 ^ 62 →
  ∃ v', parse_mmap (enc_mmap es) v = Ret (inr v') ∧ HVec.wf v' ∧
        HVec.as_slice v' = take (Z.to_nat MMAP_CAP) (HVec.as_slice v ++ es).
Proof.
  intros Hes Hwf Hlen. unfold parse_mmap, u32_at.
  assert (uint_at 4 (enc_mmap es) 0 = Ret (Some 24)) as ->.
  { apply (uint_at_mid 4 []); [done|cbn; lia|rewrite U64_val; cbn; lia]. }
  cbn [mbind Res_bind].
  assert (uint_at 4 (enc_mmap es) 4 = Ret (Some 0)) as ->.
  { apply (uint_at_mid 4 (le_bytes 4 24)); [done|cbn; lia|rewrite U64_val; cbn; lia]. }
  cbn [mbind Res_bind]. change (24 <? 24) with false. cbn iota.
  unfold enc_mmap in *. rewrite app_assoc in *.
  destruct (parse_mmap_loop es (le_bytes 4 24 ++ le_bytes 4 0) 8 v
              (S (length ((le_bytes 4 24 ++ le_bytes 4 0) ++ concat (enc_entry <$> es)))))
    as (v' & -> & Hv'); [done|done|done|done| |].
  - rewrite length_app, length_enc_entries. lia.
  - cbn [mbind Res_bind]. eauto.
Qed.

(** C26: a structure that carries the command line [cmd] (valid UTF-8 of at
    most 191 bytes without NUL) and the firmware memory map [es] parses to
    exactly that command line and the first 64 entries of that map, whatever
    bytes follow it. *)
Theorem parse_round_trip cmd es junk :
  is_utf8 cmd = true → 0 ∉ cmd → zlen cmd ≤ STR_CAP →
  es ≠ [] → Forall mmap_wf es → zlen es < 2 ^ 20 →
  ∃ info s,
    parse (enc_info [(tag_CMDLINE, cmd ++ [0]); (tag_MMAP, enc_mmap es)] ++ junk) = Ret (inr info) ∧
    info.(cmdline) = Some s ∧ as_str s = cmd ∧
    HVec.as_slice info.(mmap) = take (Z.to_nat MMAP_CAP) es ∧ info.(tag_count) = 2.
Proof.
  intros Hcmd Hnul Hcap Hne Hes Hn. unfold STR_CAP in Hcap.
  set (ts := [(tag_CMDLINE, cmd ++ [0]); (tag_MMAP, enc_mmap es)]).
  assert (zlen (enc_mmap es) = 8 + 24 * zlen es) as Hml.
  { unfold enc_mmap. rewrite !length_app, !length_le_bytes, length_enc_entries. lia. }
  assert (Forall tag_ok ts) as Hts.
  { repeat constructor; unfold tag_CMDLINE, tag_MMAP; cbn [fst snd]; rewrite ?length_app; cbn [length]; lia. }
  assert (8 + zlen (enc_tags ts) < 2 ^ 32) as Htot.
  { unfold ts, enc_tags. cbn [fmap list_fmap concat]. rewrite app_nil_r, !length_app.
    pose proof (length_enc_tag (tag_CMDLINE, cmd ++ [0])) as H1.
    pose proof (length_enc_tag (tag_MMAP, enc_mmap es)) as H2. cbn [snd] in *.
    rewrite length_app in H1. cbn [length] in H1. change (length enc_end) with 8%nat. zlia. }
  rewrite parse_enc by done. generalize (8 + zlen (enc_tags ts)). intros total.
  unfold ts. cbn [walk_ref fst snd].
  change (bump_count (BootInfo_empty total)) with (Ret (set_tag_count (BootInfo_empty total) 1)).
  cbn [mbind Res_bind].
  set (i1 := set_tag_count _ 1). 
  change (handle_tag tag_CMDLINE 8 (cmd ++ [0]) (i1, false))
    with (Ret (inr (A := ParseError) (set_cmdline i1 (str_tag (cmd ++ [0])), false))).
  set (i2 := set_cmdline i1 _). cbn [mbind Res_bind fst snd].
  change (bump_count i2) with (Ret (set_tag_count i2 2)). cbn [mbind Res_bind].
  unfold handle_tag. change (tag_MMAP =? tag_CMDLINE) with false.
  change (tag_MMAP =? tag_BOOT_LOADER_NAME) with false. rewrite Z.eqb_refl. cbn iota.
  destruct (parse_mmap_enc es (HVec.new PLACEHOLDER_MMAP)) as (v & Hv & Hwf & Hs);
    [done|apply HVec.new_wf|lia|].
  change (HVec.as_slice (HVec.new PLACEHOLDER_MMAP)) with (@nil MmapEntry) in Hs.
  change (mmap (set_tag_count i2 2)) with (HVec.new PLACEHOLDER_MMAP). rewrite Hv.
  cbn [mbind Res_bind finish negb orb mmap set_mmap].
  assert (HVec.is_empty v = false) as ->.
  { pose proof (HVec.length_as_slice v Hwf) as Hl. rewrite Hs, length_take in Hl. unfold HVec.is_empty.
    destruct es as [|e es]; [done|]. cbn [length app] in Hl. apply Z.eqb_neq.
    change (Z.to_nat MMAP_CAP) with 64%nat in Hl. lia. }
  eexists _, (str_tag (cmd ++ [0])). split; [reflexivity|]. split; [reflexivity|].
  split; [|split; [exact Hs|reflexivity]].
  assert (HStr.contents (str_tag (cmd ++ [0])) = cmd) as Hc.
  { unfold str_tag, bytes_to_str. rewrite is_utf8_app by done. rewrite trim_nul_app_nul by done.
    rewrite push_str_fits; [done|apply HStr_new_ok|done|].
    change (length (HStr.contents HStr.new)) with 0%nat. unfold STR_CAP. lia. }
  unfold as_str. by rewrite Hc, Hcmd.
Qed.

Lemma parse_round_trip_witness :
  ∃ info s,
    parse (enc_info [(tag_CMDLINE, lit "orin.nx=off" ++ [0]);
                     (tag_MMAP, enc_mmap [mkMmap 0 0x9FC00 1; mkMmap 0x100000 0x7EE0000 1])] ++ [7])
      = Ret (inr info) ∧
    info.(cmdline) = Some s ∧ as_str s = lit "orin.nx=off" ∧
    HVec.as_slice info.(mmap) = [mkMmap 0 0x9FC00 1; mkMmap 0x100000 0x7EE0000 1].
Proof.
  destruct (parse_round_trip (lit "orin.nx=off") [mkMmap 0 0x9FC00 1; mkMmap 0x100000 0x7EE0000 1] [7])
    as (info & s & Hp & Hc & Hs & Hm & _).
  - by vm_compute.
  - vm_compute. intros H. repeat (apply elem_of_cons in H as [H|H]; [done|]). by apply elem_of_nil in H.
  - by vm_compute.
  - done.
  - repeat constructor; by vm_compute.
  - by vm_compute.
  - exists info, s. split; [exact Hp|]. split; [exact Hc|]. split; [exact Hs|exact Hm].
Defined.
