(* ===== verification/Params.v ===== *)
(** * Boot command line (kernel/src/multiboot/info.rs, [parse_params])

    The tokeniser, the parameter table and the list of unrecognised tokens.
    Strings are byte lists; the standard-library string operations the source
    uses ([split_ascii_whitespace], [strip_prefix], [split_once],
    [u64::from_str]) are defined here on bytes. *)

From S2P Require Import Prelude Arch BootInfo Multiboot.
From stdpp Require Import base gmap sets list strings numbers.
From Stdlib Require Import ZArith Lia.
#[local] Open Scope Z_scope.

(** ** Standard-library string operations *)

Definition is_ascii_whitespace (b : Z) : bool :=
  (b =? 0x20) || (b =? 0x09) || (b =? 0x0A) || (b =? 0x0C) || (b =? 0x0D).

(** The current word is accumulated in reverse. *)
Fixpoint words_of (cur s : bytes) : list bytes :=
  match s with
  | [] => if decide (cur = []) then [] else [rev cur]
  | b :: s' =>
      if is_ascii_whitespace b
      then (if decide (cur = []) then [] else [rev cur]) ++ words_of [] s'
      else words_of (b :: cur) s'
  end.
Definition split_ascii_whitespace (s : bytes) : list bytes := words_of [] s.

Fixpoint strip_prefix (p s : bytes) : option bytes :=
  match p, s with
  | [], _ => Some s
  | x :: p', y :: s' => if x =? y then strip_prefix p' s' else None
  | _ :: _, [] => None
  end.

Fixpoint split_once (c : Z) (s : bytes) : option (bytes * bytes) :=
  match s with
  | [] => None
  | x :: s' => if x =? c then Some ([], s') else '(a, b) ← split_once c s'; Some (x :: a, b)
  end.

(** [u64::from_str] in base 10. *)
Definition digit (b : Z) : option Z := if byte_in 48 57 b then Some (b - 48) else None.

Fixpoint digits_val (acc : Z) (s : bytes) : option Z :=
  match s with
  | [] => Some acc
  | b :: s' =>
      d ← digit b;
      if 10 * acc + d <? U64 then digits_val (10 * acc + d) s' else None
  end.

Definition parse_u64 (s : bytes) : option Z :=
  match s with
  | [] => None
  | b :: s' =>
      if b =? 43 then match s' with [] => None | _ => digits_val 0 s' end
      else digits_val 0 s
  end.

(** ** [BootParams] *)

Record BootParams : Type := mkParams {
  log : option Level;
  console : option Target;
  selftest : bool;
  panic_action : PanicAction;
  single : bool;
  mem_limit_mib : option Z;
  nx : bool;
  unknown : HStr.t;
}.

(** [Default for BootParams] *)
Definition BootParams_default : BootParams :=
  {| log := None; console := None; selftest := true; panic_action := Halt; single := false;
     mem_limit_mib := None; nx := true; unknown := HStr.new |}.

Definition append_unknown (buf : HStr.t) (tok : bytes) : HStr.t :=
  push_str (if HStr.is_empty buf then buf else push_str buf (lit " ")) tok.

Definition with_log (p : BootParams) (l : option Level) : BootParams :=
  {| log := l; console := p.(console); selftest := p.(selftest); panic_action := p.(panic_action);
     single := p.(single); mem_limit_mib := p.(mem_limit_mib); nx := p.(nx); unknown := p.(unknown) |}.
Definition with_console (p : BootParams) (t : option Target) : BootParams :=
  {| log := p.(log); console := t; selftest := p.(selftest); panic_action := p.(panic_action);
     single := p.(single); mem_limit_mib := p.(mem_limit_mib); nx := p.(nx); unknown := p.(unknown) |}.
Definition with_selftest (p : BootParams) (b : bool) : BootParams :=
  {| log := p.(log); console := p.(console); selftest := b; panic_action := p.(panic_action);
     single := p.(single); mem_limit_mib := p.(mem_limit_mib); nx := p.(nx); unknown := p.(unknown) |}.
Definition with_panic (p : BootParams) (a : PanicAction) : BootParams :=
  {| log := p.(log); console := p.(console); selftest := p.(selftest); panic_action := a;
     single := p.(single); mem_limit_mib := p.(mem_limit_mib); nx := p.(nx); unknown := p.(unknown) |}.
Definition with_single (p : BootParams) : BootParams :=
  {| log := p.(log); console := p.(console); selftest := p.(selftest); panic_action := p.(panic_action);
     single := true; mem_limit_mib := p.(mem_limit_mib); nx := p.(nx); unknown := p.(unknown) |}.
Definition with_memlimit (p : BootParams) (v : option Z) : BootParams :=
  {| log := p.(log); console := p.(console); selftest := p.(selftest); panic_action := p.(panic_action);
     single := p.(single); mem_limit_mib := v; nx := p.(nx); unknown := p.(unknown) |}.
Definition with_nx (p : BootParams) (b : bool) : BootParams :=
  {| log := p.(log); console := p.(console); selftest := p.(selftest); panic_action := p.(panic_action);
     single := p.(single); mem_limit_mib := p.(mem_limit_mib); nx := b; unknown := p.(unknown) |}.
Definition with_unknown (p : BootParams) (u : HStr.t) : BootParams :=
  {| log := p.(log); console := p.(console); selftest := p.(selftest); panic_action := p.(panic_action);
     single := p.(single); mem_limit_mib := p.(mem_limit_mib); nx := p.(nx); unknown := u |}.

(** ** [parse_params] *)

(** The body of the loop over the tokens. *)
Definition param_step (p : BootParams) (tok : bytes) : BootParams :=
  match strip_prefix (lit "orin.") tok with
  | None => p
  | Some rest =>
      let '(key, val) := default (rest, []) (split_once 61 rest) in
      let bad := with_unknown p (append_unknown p.(unknown) tok) in
      if bytes_eqb key (lit "log") then
        match Level_parse val with Some l => with_log p (Some l) | None => bad end
      else if bytes_eqb key (lit "console") then
        match Target_parse val with Some t => with_console p (Some t) | None => bad end
      else if bytes_eqb key (lit "selftest") then
        with_selftest p (negb (bytes_eqb val (lit "off")))
      else if bytes_eqb key (lit "panic") then
        with_panic p (if bytes_eqb val (lit "reboot") then Reboot
                      else if bytes_eqb val (lit "triple") then Triple else Halt)
      else if bytes_eqb key (lit "single") then with_single p
      else if bytes_eqb key (lit "memlimit") then
        match parse_u64 val with Some v => with_memlimit p (Some v) | None => bad end
      else if bytes_eqb key (lit "nx") then with_nx p (negb (bytes_eqb val (lit "off")))
      else bad
  end.

Definition parse_params (cmdline : bytes) : BootParams :=
  fold_left param_step (split_ascii_whitespace cmdline) BootParams_default.

(** ** Tokens *)

Lemma words_of_word cur w : Forall (fun b => is_ascii_whitespace b = false) w →
  words_of cur w = if decide (rev cur ++ w = []) then [] else [rev cur ++ w].
Proof.
  intros Hw. revert cur. induction Hw as [|b w Hb Hw IH]; intros cur; cbn [words_of].
  - rewrite app_nil_r. destruct cur as [|x cur]; [done|]. cbn [rev].
    repeat case_decide; try done. by apply app_nil in H0 as [_ ?].
  - rewrite Hb, IH. cbn [rev]. by rewrite <- app_assoc.
Qed.

(** A command line without whitespace is one token. *)
Lemma split_word w :
  w ≠ [] → Forall (fun b => is_ascii_whitespace b = false) w → split_ascii_whitespace w = [w].
Proof.
  intros Hne Hw. unfold split_ascii_whitespace. rewrite words_of_word by done. cbn.
  by case_decide.
Qed.

Lemma words_of_no_ws cur s w :
  Forall (fun b => is_ascii_whitespace b = false) cur → w ∈ words_of cur s →
  w ≠ [] ∧ Forall (fun b => is_ascii_whitespace b = false) w.
Proof.
  revert cur. induction s as [|b s IH]; intros cur Hcur Hw; cbn [words_of] in Hw.
  - case_decide as Hc; [by apply not_elem_of_nil in Hw|]. apply list_elem_of_singleton in Hw as ->.
    split; [|by apply Forall_rev]. intros H%(f_equal (@rev Z)). by rewrite rev_involutive in H.
  - destruct (is_ascii_whitespace b) eqn:Eb.
    + apply elem_of_app in Hw as [Hw|Hw]; [|by apply (IH [])].
      case_decide as Hc; [by apply not_elem_of_nil in Hw|]. apply list_elem_of_singleton in Hw as ->.
      split; [|by apply Forall_rev]. intros H%(f_equal (@rev Z)). by rewrite rev_involutive in H.
    + apply (IH (b :: cur)); [by constructor|done].
Qed.

Lemma strip_prefix_Some p s r : strip_prefix p s = Some r ↔ s = p ++ r.
Proof.
  revert s. induction p as [|x p IH]; intros [|y s]; cbn; try (naive_solver congruence).
  destruct (Z.eqb_spec x y) as [->|]; [rewrite IH|]; naive_solver congruence.
Qed.

Lemma split_once_Some c s a b : split_once c s = Some (a, b) → s = a ++ c :: b.
Proof.
  revert a. induction s as [|x s IH]; intros a H; cbn in H; [done|].
  destruct (Z.eqb_spec x c) as [->|]; [by injection H as <- <-|].
  apply bind_Some in H as ([a' b'] & E & [= <- ->]). by rewrite (IH a' E).
Qed.

Lemma bytes_eqb_true a b : bytes_eqb a b = true ↔ a = b.
Proof. apply bool_decide_eq_true. Qed.

(** ** Decimal numbers *)

Fixpoint dec_fuel (fuel : nat) (n : Z) : bytes :=
  match fuel with
  | O => []
  | S f => if n <? 10 then [48 + n] else dec_fuel f (n / 10) ++ [48 + n mod 10]
  end.
(** The decimal digits of [n]. *)
Definition dec (n : Z) : bytes := dec_fuel (S (Z.to_nat n)) n.

Lemma digits_val_app acc s t :
  digits_val acc (s ++ t) = (a ← digits_val acc s; digits_val a t).
Proof.
  revert acc. induction s as [|b s IH]; intros acc; cbn; [done|].
  destruct (digit b) as [d|]; cbn; [|done]. destruct (_ <? _); [apply IH|done].
Qed.

Lemma digits_val_digit acc d :
  0 ≤ d < 10 → digits_val acc [48 + d] = if 10 * acc + d <? U64 then Some (10 * acc + d) else None.
Proof.
  intros Hd. cbn. unfold digit, byte_in.
  destruct (Z.leb_spec 48 (48 + d)), (Z.leb_spec (48 + d) 57); try lia. cbn.
  by replace (10 * acc + (48 + d - 48)) with (10 * acc + d) by lia.
Qed.

Lemma digits_val_dec_fuel f n :
  0 ≤ n → n < Z.of_nat f →
  digits_val 0 (dec_fuel f n) = if n <? U64 then Some n else None.
Proof.
  revert n. induction f as [|f IH]; intros n Hn Hf; [lia|]. cbn [dec_fuel].
  destruct (Z.ltb_spec n 10).
  - rewrite digits_val_digit by lia. by replace (10 * 0 + n) with n by lia.
  - rewrite digits_val_app, IH by zlia. destruct (Z.ltb_spec (n / 10) U64); cbn [mbind option_bind].
    + rewrite digits_val_digit by zlia. by replace (10 * (n / 10) + n mod 10) with n by zlia.
    + destruct (Z.ltb_spec n U64); [zlia|done].
Qed.

Lemma dec_head f n : 0 ≤ n → n < Z.of_nat f → ∃ b s, dec_fuel f n = b :: s ∧ 48 ≤ b ≤ 57.
Proof.
  revert n. induction f as [|f IH]; intros n Hn Hf; [lia|]. cbn [dec_fuel].
  destruct (Z.ltb_spec n 10); [by exists (48 + n), []; split; [done|lia]|].
  destruct (IH (n / 10)) as (b & s & -> & Hb); [zlia|zlia|]. by exists b, (s ++ [48 + n mod 10]).
Qed.

Lemma dec_fuel_digits f n : 0 ≤ n → Forall (fun b => 48 ≤ b ≤ 57) (dec_fuel f n).
Proof.
  revert n. induction f as [|f IH]; intros n Hn; cbn [dec_fuel]; [constructor|].
  destruct (Z.ltb_spec n 10); [by repeat constructor; lia|].
  apply Forall_app. split; [apply IH; zlia|]. repeat constructor; zlia.
Qed.

Lemma parse_u64_dec n : 0 ≤ n → parse_u64 (dec n) = if n <? U64 then Some n else None.
Proof.
  intros Hn. destruct (dec_head (S (Z.to_nat n)) n) as (b & s & E & Hb); [done|lia|].
  unfold dec, parse_u64. rewrite E. destruct (Z.eqb_spec b 43); [lia|]. rewrite <- E.
  apply digits_val_dec_fuel; lia.
Qed.

(** ** Tokens of a [&str] are [&str]s *)

Lemma is_char_ws ch b : is_char ch → b ∈ ch → is_ascii_whitespace b = true → ch = [b].
Proof.
  intros H Hin Hb. specialize (H []). rewrite app_nil_r in H. unfold utf8_head in H.
  repeat (case_match; try discriminate); simplify_eq;
    unfold byte_in, cont, is_ascii_whitespace in *; set_unfold in Hin; destruct_or!; subst;
    try done; exfalso; lia.
Qed.

Lemma is_char_length ch : is_char ch → (length ch ≤ 4)%nat.
Proof.
  intros H. specialize (H []). rewrite app_nil_r in H. unfold utf8_head in H.
  repeat (case_match; try discriminate); simplify_eq; cbn; lia.
Qed.

Lemma concat_singletons (l : bytes) : concat ((fun b => [b]) <$> l) = l.
Proof. induction l as [|b l IH]; [done|]. cbn. f_equal. exact IH. Qed.

Lemma words_of_skip cur ch s :
  Forall (fun b => is_ascii_whitespace b = false) ch →
  words_of cur (ch ++ s) = words_of (rev ch ++ cur) s.
Proof.
  intros Hch. revert cur. induction Hch as [|b ch Hb Hch IH]; intros cur; cbn; [done|].
  rewrite Hb, IH. by rewrite <- app_assoc.
Qed.

Lemma words_of_utf8 cs ds :
  Forall is_char cs → Forall is_char ds →
  Forall (fun w => is_utf8 w = true) (words_of (rev (concat ds)) (concat cs)).
Proof.
  intros Hcs. revert ds. induction Hcs as [|ch cs Hch Hcs IH]; intros ds Hds; cbn [concat words_of].
  - case_decide; constructor; [|constructor]. rewrite rev_involutive. apply is_utf8_iff. eauto.
  - destruct (decide (Exists (fun b => is_ascii_whitespace b = true) ch)) as [He|Hn].
    + apply Exists_exists in He as (b & Hin%list_elem_of_In & Hb). rewrite (is_char_ws ch b Hch Hin Hb).
      cbn [app words_of]. rewrite Hb. apply Forall_app. split; [|by apply (IH [])].
      case_decide; constructor; [|constructor]. rewrite rev_involutive. apply is_utf8_iff. eauto.
    + apply not_Exists_Forall in Hn; [|intros ?; apply _].
      rewrite words_of_skip.
      2:{ eapply Forall_impl; [|exact Hn]. intros b Hb. by apply not_true_is_false. }
      rewrite <- rev_app_distr. specialize (IH (ds ++ [ch])). rewrite concat_app in IH.
      cbn in IH. rewrite app_nil_r in IH. apply IH. apply Forall_app. by split; [|constructor].
Qed.

Lemma tokens_utf8 c : is_utf8 c = true → Forall (fun w => is_utf8 w = true) (split_ascii_whitespace c).
Proof. intros (cs & -> & Hcs)%is_utf8_iff. by apply (words_of_utf8 cs []). Qed.

(** ** What a token does *)

Definition key_of (tok : bytes) : option bytes :=
  rest ← strip_prefix (lit "orin.") tok; Some (default (rest, []) (split_once 61 rest)).1.

(** The tokens that [parse_params] reports: an [orin.] token with a key that
    is not in the table, or a [log], [console] or [memlimit] value that does
    not parse. *)
Definition unknown_token (tok : bytes) : bool :=
  match strip_prefix (lit "orin.") tok with
  | None => false
  | Some rest =>
      let '(key, val) := default (rest, []) (split_once 61 rest) in
      if bytes_eqb key (lit "log") then bool_decide (Level_parse val = None)
      else if bytes_eqb key (lit "console") then bool_decide (Target_parse val = None)
      else if bytes_eqb key (lit "memlimit") then bool_decide (parse_u64 val = None)
      else negb (bytes_eqb key (lit "selftest") || bytes_eqb key (lit "panic") ||
                 bytes_eqb key (lit "single") || bytes_eqb key (lit "nx"))
  end.

Lemma param_step_unknown p tok :
  (param_step p tok).(unknown) =
    if unknown_token tok then append_unknown p.(unknown) tok else p.(unknown).
Proof.
  unfold param_step, unknown_token. destruct (strip_prefix _ tok) as [rest|]; [|done].
  destruct (default _ _) as [key val].
  destruct (bytes_eqb key (lit "log")) eqn:E1; [by destruct (Level_parse val)|].
  destruct (bytes_eqb key (lit "console")) eqn:E2; [by destruct (Target_parse val)|].
  destruct (bytes_eqb key (lit "selftest")) eqn:E3.
  { apply bytes_eqb_true in E3 as ->. done. }
  destruct (bytes_eqb key (lit "panic")) eqn:E4.
  { apply bytes_eqb_true in E4 as ->. done. }
  destruct (bytes_eqb key (lit "single")) eqn:E5.
  { apply bytes_eqb_true in E5 as ->. done. }
  destruct (bytes_eqb key (lit "memlimit")) eqn:E6; [by destruct (parse_u64 val)|].
  by destruct (bytes_eqb key (lit "nx")).
Qed.

Definition NX_OFF : bytes := lit "orin.nx=off".

Lemma param_step_nx p tok :
  (param_step p tok).(nx) =
    if bool_decide (key_of tok = Some (lit "nx")) then negb (bytes_eqb tok NX_OFF) else p.(nx).
Proof.
  unfold param_step, key_of. destruct (strip_prefix _ tok) as [rest|] eqn:Es; cbn [mbind option_bind].
  2:{ by rewrite bool_decide_eq_false_2. }
  apply strip_prefix_Some in Es as ->.
  destruct (default (rest, []) (split_once 61 rest)) as [key val] eqn:Ek. cbn [fst].
  destruct (bool_decide (Some key = Some (lit "nx"))) eqn:Eb.
  - apply bool_decide_eq_true in Eb. injection Eb as ->.
    change (bytes_eqb (lit "nx") (lit "log")) with false.
    change (bytes_eqb (lit "nx") (lit "console")) with false.
    change (bytes_eqb (lit "nx") (lit "selftest")) with false.
    change (bytes_eqb (lit "nx") (lit "panic")) with false.
    change (bytes_eqb (lit "nx") (lit "single")) with false.
    change (bytes_eqb (lit "nx") (lit "memlimit")) with false.
    change (bytes_eqb (lit "nx") (lit "nx")) with true. cbn [nx with_nx]. f_equal.
    destruct (split_once 61 rest) as [[a b]|] eqn:E1; cbn in Ek; [injection Ek as -> ->|injection Ek as -> <-].
    + apply split_once_Some in E1 as ->. unfold bytes_eqb. apply bool_decide_ext.
      split; [by intros ->|]. unfold NX_OFF. intros H. by injection H.
    + done.
  - apply bool_decide_eq_false in Eb.
    assert (bytes_eqb key (lit "nx") = false) as Hnx.
    { apply bool_decide_eq_false. congruence. }
    rewrite Hnx. repeat case_match; done.
Qed.

(** C32: NX enforcement is off after parsing exactly when some token is
    literally [orin.nx=off] and no later token sets [orin.nx] again.  In
    particular a misspelt value leaves it on. *)
Theorem nx_disabled_iff c :
  (parse_params c).(nx) = false ↔
  ∃ t1 t2, split_ascii_whitespace c = t1 ++ NX_OFF :: t2 ∧
           Forall (fun t => key_of t ≠ Some (lit "nx")) t2.
Proof.
  unfold parse_params. generalize (split_ascii_whitespace c). intros ts.
  induction ts as [|t ts IH] using rev_ind.
  { split; [done|]. intros (t1 & t2 & H & _). by destruct t1. }
  rewrite fold_left_app. cbn [fold_left]. rewrite param_step_nx.
  case_bool_decide as Hk.
  - rewrite negb_false_iff, bytes_eqb_true. split.
    + intros ->. exists ts, []. done.
    + intros (t1 & t2 & H & Hf). destruct t2 as [|x t2 _] using rev_ind.
      * by apply app_inj_tail in H as [_ ->].
      * rewrite app_comm_cons, app_assoc in H. apply app_inj_tail in H as [_ ->].
        apply Forall_app in Hf as [_ Hx]. by apply (Forall_singleton (fun t => key_of t ≠ Some (lit "nx")) x) in Hx.
  - rewrite IH. split.
    + intros (t1 & t2 & -> & Hf). exists t1, (t2 ++ [t]). rewrite <- app_assoc. split; [done|].
      apply Forall_app. by split; [|constructor].
    + intros (t1 & t2 & H & Hf). destruct t2 as [|x t2 _] using rev_ind.
      * apply app_inj_tail in H as [_ ->]. by destruct Hk.
      * rewrite app_comm_cons, app_assoc in H. apply app_inj_tail in H as [-> ->].
        apply Forall_app in Hf as [Hf _]. eauto.
Qed.

(** ** The list of unrecognised tokens *)

Abbreviation zlen l := (Z.of_nat (length l)).

Fixpoint join (ts : list bytes) : bytes :=
  match ts with
  | [] => []
  | [t] => t
  | t :: ts' => t ++ lit " " ++ join ts'
  end.

Lemma join_snoc ts t : ts ≠ [] → join (ts ++ [t]) = join ts ++ lit " " ++ t.
Proof.
  induction ts as [|x ts IH]; intros Hne; [done|]. destruct ts as [|y ts]; [done|].
  change (join ((x :: y :: ts) ++ [t])) with (x ++ lit " " ++ join ((y :: ts) ++ [t])).
  rewrite IH by done. change (join (x :: y :: ts)) with (x ++ lit " " ++ join (y :: ts)).
  by rewrite <- !app_assoc.
Qed.

Lemma join_empty ts : Forall (fun t => t ≠ []) ts → join ts = [] → ts = [].
Proof.
  intros Hts H. destruct ts as [|t [|y ts]]; [done| |]; inversion_clear Hts; cbn in H; [done|].
  by apply app_nil in H as [? _].
Qed.

Lemma is_empty_contents s : str_ok s → HStr.is_empty s = bool_decide (HStr.contents s = []).
Proof.
  intros [[Hb Hl] _]. unfold HStr.is_empty, HStr.contents.
  destruct (Z.eqb_spec (HStr.len s) 0) as [->|Hne]; [done|].
  symmetry. apply bool_decide_eq_false. intros H%(f_equal length).
  rewrite length_take in H. cbn in H. unfold STR_CAP in *. lia.
Qed.

Lemma append_unknown_ok s tok : str_ok s → str_ok (append_unknown s tok).
Proof. intros H. unfold append_unknown. apply push_str_ok. case_match; [done|]. by apply push_str_ok. Qed.

(** The tokens [parse_params] does not understand are reported: if they
    fit the 191-byte buffer, it holds exactly the unrecognised [orin.] tokens
    of the command line, in order and separated by single blanks. *)
Theorem params_unknown_reported c :
  is_utf8 c = true →
  let us := filter (fun t => unknown_token t = true) (split_ascii_whitespace c) in
  Z.of_nat (length (join us)) ≤ STR_CAP →
  as_str (parse_params c).(unknown) = join us.
Proof.
  intros Hc. cbn zeta. unfold parse_params.
  pose proof (tokens_utf8 c Hc) as Hu.
  assert (Forall (fun t => t ≠ []) (split_ascii_whitespace c)) as Hne.
  { apply Forall_forall. intros w Hw%list_elem_of_In.
    destruct (words_of_no_ws [] c w) as [? _]; done. }
  revert Hu Hne. generalize (split_ascii_whitespace c). intros ts Hu Hne Hfit.
  assert (str_ok (fold_left param_step ts BootParams_default).(unknown) ∧
    HStr.contents (fold_left param_step ts BootParams_default).(unknown) =
      join (filter (fun t => unknown_token t = true) ts)) as [Hok Hcont].
  2:{ unfold as_str. destruct Hok as [_ ->]. exact Hcont. }
  revert Hfit. induction ts as [|t ts IH] using rev_ind; intros Hfit.
  { split; [apply HStr_new_ok|done]. }
  apply Forall_app in Hu as [Hu Ht], Hne as [Hne _]. apply Forall_inv in Ht.
  rewrite fold_left_app. cbn [fold_left]. rewrite param_step_unknown.
  set (us := filter (fun t => unknown_token t = true) ts) in *.
  assert (Forall (fun t => t ≠ []) us) as Hus.
  { apply Forall_forall. intros w Hw%list_elem_of_In. apply list_elem_of_filter in Hw as [_ Hw].
    by apply (proj1 (Forall_forall _ _) Hne), list_elem_of_In. }
  rewrite list.filter_app in Hfit |- *. fold us in Hfit |- *. destruct (unknown_token t) eqn:Eu.
  2:{ rewrite filter_cons_False in Hfit |- * by congruence. cbn [filter list_filter] in *.
      rewrite app_nil_r in *. by apply IH. }
  rewrite filter_cons_True in Hfit |- * by done. cbn [filter list_filter] in *.
  clearbody us.
  assert (zlen (join us) + (if decide (us = []) then 0 else 1) + zlen t ≤ STR_CAP) as Hl.
  { destruct (decide (us = [])) as [->|]; [cbn in *; lia|].
    rewrite join_snoc, !length_app in Hfit by done. cbn [length lit] in Hfit. cbn in Hfit. lia. }
  destruct (IH Hu Hne) as [Hok Hc']; [case_decide; lia|].
  split; [by apply append_unknown_ok|]. unfold append_unknown.
  rewrite is_empty_contents by done. rewrite Hc'. case_bool_decide as Hj.
  - apply join_empty in Hj as ->; [|done]. cbn [join app].
    rewrite push_str_fits; rewrite ?Hc'; [done|done|done|].
    destruct (decide ([] = [])); [|done]. exact Hl.
  - destruct (decide (us = [])) as [Hus0|Hus0]; [by rewrite Hus0 in Hj|].
    assert (HStr.contents (push_str (fold_left param_step ts BootParams_default).(unknown) (lit " "))
            = join us ++ lit " ") as Hsp.
    { rewrite push_str_fits; rewrite ?Hc'; [done|done|done|]. cbn. lia. }
    rewrite push_str_fits; rewrite ?Hsp; [|by apply push_str_ok|done|rewrite length_app; cbn; lia].
    by rewrite join_snoc, <- app_assoc.
Qed.

Lemma params_unknown_reported_witness :
  as_str (parse_params (lit "quiet orin.nxx=off orin.log=loud orin.single")).(unknown) =
    lit "orin.nxx=off orin.log=loud".
Proof.
  rewrite (params_unknown_reported (lit "quiet orin.nxx=off orin.log=loud orin.single"));
    by vm_compute.
Defined.

Lemma nx_typo_not_reported :
  (parse_params (lit "orin.nx=offf")).(nx) = true ∧
  HStr.is_empty (parse_params (lit "orin.nx=offf")).(unknown) = true.
Proof. by vm_compute. Qed.

(** [orin.memlimit=N] with [N] in decimal sets the limit to [N] when it
    fits a [u64]; otherwise the limit stays unset and the token is reported. *)
Theorem memlimit_round_trip n :
  0 ≤ n →
  let p := parse_params (lit "orin.memlimit=" ++ dec n) in
  p.(mem_limit_mib) = (if n <? U64 then Some n else None) ∧
  HStr.is_empty p.(unknown) = (n <? U64) ∧ p.(nx) = true ∧ p.(selftest) = true.
Proof.
  intros Hn. cbn zeta.
  assert (Forall (fun b => is_ascii_whitespace b = false) (lit "orin.memlimit=" ++ dec n)) as Hw.
  { apply Forall_app. split; [by repeat constructor|].
    eapply Forall_impl; [|by apply dec_fuel_digits]. unfold is_ascii_whitespace. cbn. intros b Hb. lia. }
  unfold parse_params. rewrite split_word by (done || by intros ?%app_nil).
  change (lit "orin.memlimit=" ++ dec n) with (lit "orin." ++ lit "memlimit=" ++ dec n).
  cbn [fold_left]. unfold param_step.
  rewrite (proj2 (strip_prefix_Some (lit "orin.") _ (lit "memlimit=" ++ dec n)) eq_refl).
  change (split_once 61 (lit "memlimit=" ++ dec n)) with (Some (lit "memlimit", dec n)).
  cbn [default id from_option].
  change (bytes_eqb (lit "memlimit") (lit "log")) with false.
  change (bytes_eqb (lit "memlimit") (lit "console")) with false.
  change (bytes_eqb (lit "memlimit") (lit "selftest")) with false.
  change (bytes_eqb (lit "memlimit") (lit "panic")) with false.
  change (bytes_eqb (lit "memlimit") (lit "single")) with false.
  change (bytes_eqb (lit "memlimit") (lit "memlimit")) with true. cbn iota.
  rewrite parse_u64_dec by done. destruct (n <? U64); [done|].
  split; [done|]. split; [|done]. cbn [with_unknown unknown BootParams_default].
  unfold append_unknown. change (HStr.is_empty HStr.new) with true. cbn iota.
  rewrite is_empty_contents by (apply push_str_ok, HStr_new_ok). apply bool_decide_eq_false.
  assert (is_utf8 (lit "orin." ++ lit "memlimit=" ++ dec n) = true) as (cs & Hcs & Hch)%is_utf8_iff.
  { rewrite app_assoc. apply is_utf8_app; [done|]. apply is_utf8_iff. exists ((fun b => [b]) <$> dec n).
    split; [by rewrite concat_singletons|]. apply Forall_fmap.
    eapply Forall_impl; [|by apply dec_fuel_digits]. cbn. intros b Hb r. cbn. unfold byte_in.
    destruct (Z.leb_spec 0 b), (Z.leb_spec b 127); (done || lia). }
  unfold push_str. rewrite Hcs, chars_concat by done.
  destruct (push_chars_spec HStr.new cs HStr_new_ok Hch) as (cs1 & cs2 & -> & _ & -> & Hrest).
  change (HStr.contents HStr.new) with (@nil Z). destruct cs1 as [|ch cs1]; cbn [app concat].
  - destruct cs2 as [|ch cs2]; [by apply (f_equal length) in Hcs|].
    inversion_clear Hch as [|? ? Hc _]. exfalso. change (HStr.contents HStr.new) with (@nil Z) in Hrest.
    pose proof (is_char_length ch Hc). unfold STR_CAP in Hrest. cbn in Hrest. lia.
  - inversion_clear Hch as [|? ? Hc _]. intros [H0 _]%app_nil. by apply is_char_nonempty in Hc.
Qed.

Lemma memlimit_round_trip_witness :
  (parse_params (lit "orin.memlimit=" ++ dec 512)).(mem_limit_mib) = Some 512.
Proof. apply (memlimit_round_trip 512). lia. Defined.
