(* ===== verification/Vmm.v ===== *)
(** * Kernel page tables (kernel/src/memory/vmm.rs)

    Page tables are words of physical memory: the entry [i] of the table at
    [t] is the word at [t + 8 * i].  The state [Vmm] holds memory, the statics
    [NX_AVAILABLE], [PT_POOL] and [KERNEL_PML4], the CR3 register and the state
    of the frame source, which is any instance of [FrameSource] (the physical
    allocator is one).  Tables are reached through the identity map, as
    [table_at] does; [debug] stands for [cfg!(debug_assertions)].  The linker
    symbols the module reads are the record [LinkerSyms]. *)

From S2P Require Import Prelude Arch BootInfo Bitmap Pmm PmmSpec.
From stdpp Require Import base gmap sets list list_numbers strings numbers.
From Stdlib Require Import ZArith Lia.
#[local] Open Scope Z_scope.

(** ** Flags and permission profiles *)

Definition PRESENT : Z := Z.shiftl 1 0.
Definition WRITABLE : Z := Z.shiftl 1 1.
Definition USER : Z := Z.shiftl 1 2.
Definition WRITE_THROUGH : Z := Z.shiftl 1 3.
Definition NO_CACHE : Z := Z.shiftl 1 4.
Definition ACCESSED : Z := Z.shiftl 1 5.
Definition DIRTY : Z := Z.shiftl 1 6.
Definition HUGE_PAGE : Z := Z.shiftl 1 7.
Definition GLOBAL : Z := Z.shiftl 1 8.
Definition NO_EXECUTE : Z := Z.shiftl 1 63.
Definition RO_X : Z := Z.lor PRESENT GLOBAL.
Definition RO_NX : Z := Z.lor (Z.lor PRESENT GLOBAL) NO_EXECUTE.
Definition RW_NX : Z := Z.lor (Z.lor (Z.lor PRESENT WRITABLE) GLOBAL) NO_EXECUTE.
Definition DEVICE : Z :=
  Z.lor (Z.lor (Z.lor (Z.lor PRESENT WRITABLE) NO_CACHE) WRITE_THROUGH) NO_EXECUTE.

Inductive Perm : Type := TextRoX | RoData | DataRwNx | Device | BootIdentity.
#[export] Instance Perm_eq_dec : EqDecision Perm.
Proof. solve_decision. Defined.

Definition bits (p : Perm) : Z :=
  match p with
  | TextRoX => Z.lor PRESENT GLOBAL
  | RoData => Z.lor (Z.lor PRESENT GLOBAL) NO_EXECUTE
  | DataRwNx => Z.lor (Z.lor (Z.lor PRESENT WRITABLE) GLOBAL) NO_EXECUTE
  | Device => DEVICE
  | BootIdentity => Z.lor (Z.lor (Z.lor PRESENT WRITABLE) NO_CACHE) NO_EXECUTE
  end.

Definition describe (p : Perm) : string :=
  match p with
  | TextRoX => "R-X"
  | RoData => "R--"
  | DataRwNx => "RW-"
  | Device => "RW- device (NX, no-cache)"
  | BootIdentity => "RW- boot identity (NX, no-cache)"
  end.

Definition effective (nx : bool) (perm : Perm) : Z :=
  if nx then bits perm else Z.land (bits perm) (bnot 64 NO_EXECUTE).

(** ** Entries and indices *)

Definition entry_addr (e : Z) : Z := Z.land e 0x000FFFFFFFFFF000.
Definition is_present (e : Z) : bool := negb (Z.land e PRESENT =? 0).
Definition is_huge (e : Z) : bool := negb (Z.land e HUGE_PAGE =? 0).

Record Indices : Type := mkIndices {
  i_pml4 : Z; i_pdpt : Z; i_pd : Z; i_pt : Z; i_offset : Z }.

Definition indices (v : Z) : Indices :=
  {| i_pml4 := Z.land (Z.shiftr v 39) 0x1FF;
     i_pdpt := Z.land (Z.shiftr v 30) 0x1FF;
     i_pd := Z.land (Z.shiftr v 21) 0x1FF;
     i_pt := Z.land (Z.shiftr v 12) 0x1FF;
     i_offset := Z.land v 0xFFF |}.

Definition is_wx (nx : bool) (e : Z) : bool :=
  let w := negb (Z.land e WRITABLE =? 0) in
  let x := if nx then Z.land e NO_EXECUTE =? 0 else false in
  w && x.

(** ** State *)

Record PtPool : Type := mkPool { allocated : Z; pool_frames : list Z }.
Definition PtPool_new : PtPool := mkPool 0 (replicate 64 0).

Record Vmm (S : Type) : Type := mkVmm {
  NX_AVAILABLE : bool;
  PT_POOL : PtPool;
  KERNEL_PML4 : Z;
  CR3 : Z;
  mem : phys;
  src : S;
}.
Arguments mkVmm {S} _ _ _ _ _ _.
Arguments NX_AVAILABLE {S} _.
Arguments PT_POOL {S} _.
Arguments KERNEL_PML4 {S} _.
Arguments CR3 {S} _.
Arguments mem {S} _.
Arguments src {S} _.

(** The linker-script symbols, as addresses. *)
Record LinkerSyms : Type := mkSyms {
  text_start : Z; text_end : Z; rodata_start : Z; rodata_end : Z;
  data_start : Z; data_end : Z; bss_start : Z; bss_end : Z; virt_end : Z }.

Record VmmInfo : Type := mkVmmInfo {
  kernel_pml4_phys : Z; boot_pml4_phys : Z; text_va : Z;
  text_content : Z; text_mapped : Z; rodata_content : Z; rodata_mapped : Z;
  data_content : Z; data_mapped : Z; bss_content : Z; bss_mapped : Z;
  heap_va : Z; heap_size : Z; pt_frames : Z; identity_bytes : Z }.

Section Vmm.
Context {S : Type} `{FS : FrameSource S} `{X : X86Crate}.
Context (debug : bool).

Abbreviation V := (Vmm S).

Definition set_mem (s : V) (m : phys) : V :=
  mkVmm s.(NX_AVAILABLE) s.(PT_POOL) s.(KERNEL_PML4) s.(CR3) m s.(src).

Definition set_nx_available (s : V) (v : bool) : V :=
  mkVmm v s.(PT_POOL) s.(KERNEL_PML4) s.(CR3) s.(mem) s.(src).
Definition nx_available (s : V) : bool := s.(NX_AVAILABLE).
Definition kernel_pml4 (s : V) : Z := s.(KERNEL_PML4).
Definition pt_frames_allocated (s : V) : Z := s.(PT_POOL).(allocated).

(** [write_bytes(p, 0, PAGE_SIZE)]: the first [n] words from [pa] *)
Fixpoint zero_words (m : phys) (pa : Z) (n : nat) : phys :=
  match n with
  | O => m
  | Datatypes.S n' => st64 (zero_words m pa n') (pa + 8 * Z.of_nat n') 0
  end.

(** [PtPool::alloc] *)
Definition PtPool_alloc (s : V) : Res (option Z * V) :=
  '(r, src') ← fs_alloc s.(src);
  match r with
  | None => Ret (None, mkVmm s.(NX_AVAILABLE) s.(PT_POOL) s.(KERNEL_PML4) s.(CR3) s.(mem) src')
  | Some pa =>
      let pool := s.(PT_POOL) in
      fr ← (if pool.(allocated) <? Z.of_nat (length pool.(pool_frames))
            then lset pool.(pool_frames) pool.(allocated) pa
            else Ret pool.(pool_frames));
      n ← add64 pool.(allocated) 1;
      va ← VirtAddr_new pa;
      Ret (Some pa, mkVmm s.(NX_AVAILABLE) (mkPool n fr) s.(KERNEL_PML4) s.(CR3)
                          (zero_words s.(mem) va 512) src')
  end.

Definition table_at (pa : Z) : Res Z :=
  _ ← rassert (negb debug || ((pa <? BOOT_MAPPED_BYTES) && (pa mod PAGE_SIZE =? 0)))
        "table_at: not a boot-mapped, page-aligned PT frame";
  VirtAddr_new pa.

Definition boot_alias (pa : Z) : Res Z :=
  _ ← rassert (negb debug || (pa <? BOOT_MAPPED_BYTES)) "boot_alias is outside the 2 GiB boot mapping";
  phys_to_virt pa.

Definition boot_root_table (s : V) : Z := s.(CR3).

(** [*table.add(i)] *)
Definition entry (s : V) (table i : Z) : Z := ld64 s.(mem) (table + 8 * i).

Definition descend (s : V) (table index : Z) : Res (option Z * V) :=
  let e := entry s table index in
  if is_present e then
    pa ← PhysAddr_new (entry_addr e);
    Ret (Some pa, s)
  else
    '(r, s') ← PtPool_alloc s;
    match r with
    | None => Ret (None, s')
    | Some new_pa =>
        let f := Z.lor PRESENT WRITABLE in
        Ret (Some new_pa, set_mem s' (st64 s'.(mem) (table + 8 * index) (Z.lor new_pa f)))
    end.

(** [let Some(x) = r else { panic!(msg) }] *)
Definition expect {A} (r : option A) (msg : string) : Res A :=
  match r with Some x => Ret x | None => Panic (PanicMsg msg) end.

(** ** [map_4k] *)

Definition map_4k_body (va pa f root : Z) (i : Z) (s : V) : Res V :=
  off ← mul64 i PAGE_SIZE;
  v ← add64 va off;
  v ← VirtAddr_new v;
  p ← add64 pa off;
  let idx := indices v in
  pml4 ← table_at root;
  '(r, s) ← descend s pml4 idx.(i_pml4);
  pdpt_pa ← expect r "map_4k: out of page-table frames at PDPT level";
  pdpt ← table_at pdpt_pa;
  '(r, s) ← descend s pdpt idx.(i_pdpt);
  pd_pa ← expect r "map_4k: out of page-table frames at PD level";
  pd ← table_at pd_pa;
  '(r, s) ← descend s pd idx.(i_pd);
  pt_pa ← expect r "map_4k: out of page-table frames at PT level";
  pt ← table_at pt_pa;
  let old := entry s pt idx.(i_pt) in
  if is_present old && negb (entry_addr old =? p)
  then Panic (PanicMsg "map_4k: already maps, refusing to remap")
  else Ret (set_mem s (st64 s.(mem) (pt + 8 * idx.(i_pt)) (Z.lor p f))).

Definition map_4k (s : V) (va pa size : Z) (perm : Perm) : Res V :=
  _ ← rassert (va mod PAGE_SIZE =? 0) "map_4k: unaligned va";
  _ ← rassert (pa mod PAGE_SIZE =? 0) "map_4k: unaligned pa";
  _ ← rassert (size mod PAGE_SIZE =? 0) "map_4k: unaligned size";
  let root := kernel_pml4 s in
  _ ← rassert (negb (root =? 0)) "map_4k before vmm::init";
  let f := effective (nx_available s) perm in
  let pages := size / PAGE_SIZE in
  for_range 0 pages s (map_4k_body va pa f root).

(** ** [map_2m] *)

Definition map_2m_body (va pa f root : Z) (i : Z) (s : V) : Res V :=
  off ← mul64 i LARGE_PAGE_SIZE;
  v ← add64 va off;
  p ← add64 pa off;
  v ← VirtAddr_new v;
  let idx := indices v in
  pml4 ← table_at root;
  '(r, s) ← descend s pml4 idx.(i_pml4);
  pdpt_pa ← expect r "map_2m: out of page-table frames at PDPT level";
  pdpt ← table_at pdpt_pa;
  '(r, s) ← descend s pdpt idx.(i_pdpt);
  pd_pa ← expect r "map_2m: out of page-table frames at PD level";
  pd ← table_at pd_pa;
  Ret (set_mem s (st64 s.(mem) (pd + 8 * idx.(i_pd)) (Z.lor p f))).

Definition map_2m (s : V) (va pa size : Z) (perm : Perm) : Res V :=
  _ ← rassert (va mod LARGE_PAGE_SIZE =? 0) "map_2m: unaligned va";
  _ ← rassert (pa mod LARGE_PAGE_SIZE =? 0) "map_2m: unaligned pa";
  _ ← rassert (size mod LARGE_PAGE_SIZE =? 0) "map_2m: unaligned size";
  let root := kernel_pml4 s in
  _ ← rassert (negb (root =? 0)) "map_2m before vmm::init";
  let f := Z.lor (effective (nx_available s) perm) HUGE_PAGE in
  let count := size / LARGE_PAGE_SIZE in
  for_range 0 count s (map_2m_body va pa f root).

(** ** [init] *)

Definition phys_of (va : Z) : Res Z :=
  v ← VirtAddr_new va;
  r ← virt_to_phys v;
  expect r "vmm: address is not in the kernel half".

Definition align_down_2m (v : Z) : Z := Z.land v (bnot 64 (LARGE_PAGE_SIZE - 1)).
Definition align_up_2m (v : Z) : Res Z :=
  a ← add64 v LARGE_PAGE_SIZE;
  b ← sub64 a 1;
  Ret (align_down_2m b).

(** The checks on the section addresses. *)
Definition check_sections (k : LinkerSyms) : Res unit :=
  _ ← rassert (align_down_2m k.(text_start) =? k.(text_start))
        "vmm: .text start is not 2 MiB aligned";
  _ ← rassert ((k.(text_end) <=? k.(rodata_start)) && (k.(rodata_start) <=? k.(data_start)) &&
               (k.(data_start) <=? k.(bss_start)))
        "vmm: kernel sections are not in ascending address order";
  rassert (negb (align_down_2m k.(rodata_start) =? align_down_2m k.(text_start)) &&
           negb (align_down_2m k.(data_start) =? align_down_2m k.(rodata_start)) &&
           negb (align_down_2m k.(bss_start) =? align_down_2m k.(data_start)))
    "vmm: two kernel sections share a 2 MiB region".

(** [(start_va, length, permission)] of the four image regions. *)
Definition image_regions (k : LinkerSyms) : Res (list (Z * Z * Perm)) :=
  text ← sub64 (align_down_2m k.(rodata_start)) k.(text_start);
  ro ← sub64 (align_down_2m k.(data_start)) k.(rodata_start);
  data ← sub64 (align_down_2m k.(bss_start)) k.(data_start);
  top ← align_up_2m k.(virt_end);
  bss ← sub64 top k.(bss_start);
  Ret [(k.(text_start), text, TextRoX); (k.(rodata_start), ro, RoData);
       (k.(data_start), data, DataRwNx); (k.(bss_start), bss, DataRwNx)].

(** Mapped bytes per section: text, rodata, data, bss. *)
Abbreviation lens := (Z * Z * Z * Z)%type.

Definition count_region (k : LinkerSyms) (start len : Z) (perm : Perm) (l : lens) : Res lens :=
  let '(t, r, d, b) := l in
  match perm with
  | TextRoX => t ← add64 t len; Ret (t, r, d, b)
  | RoData => r ← add64 r len; Ret (t, r, d, b)
  | DataRwNx =>
      if start =? k.(data_start) then d ← add64 d len; Ret (t, r, d, b)
      else b ← add64 b len; Ret (t, r, d, b)
  | Device | BootIdentity => Ret l
  end.

Definition map_region (k : LinkerSyms) (r : Z * Z * Perm) (st : V * lens) : Res (V * lens) :=
  let '(start, len, perm) := r in
  let '(s, l) := st in
  if len =? 0 then Ret st
  else
    va ← VirtAddr_new start;
    pa ← phys_of start;
    s ← map_4k s va pa len perm;
    l ← count_region k start len perm l;
    Ret (s, l).

Definition set_roots (s : V) (pml4 cr3 : Z) (m : phys) : V :=
  mkVmm s.(NX_AVAILABLE) s.(PT_POOL) pml4 cr3 m s.(src).

(** [bp] is the physical address of the boot-parameter block. *)
Definition init (k : LinkerSyms) (bp : Z) (s : V) : Res (VmmInfo * V) :=
  let boot_pml4_pa := boot_root_table s in
  _ ← rassert (boot_pml4_pa <? BOOT_MAPPED_BYTES) "boot page tables are outside the boot mapping";
  '(r, s) ← PtPool_alloc s;
  new_pml4 ← expect r "vmm::init: no frame for the kernel PML4";
  boot ← table_at boot_pml4_pa;
  dst ← table_at new_pml4;
  let s := set_roots s new_pml4 s.(CR3) (st64 s.(mem) (dst + 8 * 0) (entry s boot 0)) in
  _ ← check_sections k;
  regions ← image_regions k;
  '(s, (text_len, rodata_len, data_len, bss_len)) ←
    for_list regions (s, (0, 0, 0, 0)) (map_region k);
  '(heap_pa_start, heap_pa_end) ← heap_phys_range s.(mem) bp;
  heap_len ← sub64 heap_pa_end heap_pa_start;
  _ ← rassert (heap_pa_end <=? BOOT_MAPPED_BYTES)
        "heap backing store is outside the M1 boot mapping";
  hva ← VirtAddr_new HEAP_VIRT_START;
  hpa ← PhysAddr_new heap_pa_start;
  s ← map_4k s hva hpa heap_len DataRwNx;
  vga_pa ← PhysAddr_new 0xB8000;
  vga_va ← phys_to_virt vga_pa;
  s ← map_4k s vga_va vga_pa PAGE_SIZE Device;
  let s := set_roots s s.(KERNEL_PML4) new_pml4 s.(mem) in
  tc ← sub64 k.(text_end) k.(text_start);
  rc ← sub64 k.(rodata_end) k.(rodata_start);
  dc ← sub64 k.(data_end) k.(data_start);
  bc ← sub64 k.(bss_end) k.(bss_start);
  Ret ({| kernel_pml4_phys := new_pml4; boot_pml4_phys := boot_pml4_pa; text_va := k.(text_start);
          text_content := tc; text_mapped := text_len; rodata_content := rc;
          rodata_mapped := rodata_len; data_content := dc; data_mapped := data_len;
          bss_content := bc; bss_mapped := bss_len; heap_va := HEAP_VIRT_START;
          heap_size := heap_len; pt_frames := pt_frames_allocated s;
          identity_bytes := BOOT_MAPPED_BYTES |}, s).

(** ** [harden_boot_map] *)

Definition harden_entry (pd f : Z) (pd_i : Z) (st : V * Z) : Res (V * Z) :=
  let '(s, entries) := st in
  let e := entry s pd pd_i in
  if negb (is_present e) then Ret st
  else
    let addr := entry_addr e in
    let s' := set_mem s (st64 s.(mem) (pd + 8 * pd_i) (Z.lor (Z.lor addr f) HUGE_PAGE)) in
    n ← add64 entries 1;
    Ret (s', n).

Definition harden_pd (pdpt f : Z) (pdpt_i : Z) (st : V * Z) : Res (V * Z) :=
  let '(s, _) := st in
  let pd_entry := entry s pdpt pdpt_i in
  if negb (is_present pd_entry) then Ret st
  else
    _ ← rassert (negb (is_huge pd_entry)) "vmm: unexpected 1 GiB page in the boot PDPT";
    pd_pa ← PhysAddr_new (entry_addr pd_entry);
    pd ← table_at pd_pa;
    for_range 0 512 st (harden_entry pd f).

Definition harden_boot_map (s : V) : Res (V * Z) :=
  let boot_pml4_pa := boot_root_table s in
  let f := effective (nx_available s) BootIdentity in
  pml4 ← table_at boot_pml4_pa;
  let pdpt_entry := entry s pml4 0 in
  if negb (is_present pdpt_entry) then Ret (s, 0)
  else
    pdpt_pa ← PhysAddr_new (entry_addr pdpt_entry);
    pdpt ← table_at pdpt_pa;
    for_range 0 512 (s, 0) (harden_pd pdpt f).

(** ** [count_wx_violations] *)

Definition count_if (b : bool) (n : Z) : Res Z := if b then add64 n 1 else Ret n.

Definition wx_pt (s : V) (pt pt_i n : Z) : Res Z :=
  let e1 := entry s pt pt_i in
  count_if (is_present e1 && is_wx (nx_available s) e1) n.

Definition wx_pd (s : V) (pd pd_i n : Z) : Res Z :=
  let e2 := entry s pd pd_i in
  if negb (is_present e2) then Ret n
  else if is_huge e2 then count_if (is_wx (nx_available s) e2) n
  else
    pa ← PhysAddr_new (entry_addr e2);
    pt ← table_at pa;
    for_range 0 512 n (wx_pt s pt).

Definition wx_pdpt (s : V) (pdpt pdpt_i n : Z) : Res Z :=
  let e3 := entry s pdpt pdpt_i in
  if negb (is_present e3) then Ret n
  else if is_huge e3 then count_if (is_wx (nx_available s) e3) n
  else
    pa ← PhysAddr_new (entry_addr e3);
    pd ← table_at pa;
    for_range 0 512 n (wx_pd s pd).

Definition wx_pml4 (s : V) (pml4 pml4_i n : Z) : Res Z :=
  let e4 := entry s pml4 pml4_i in
  if negb (is_present e4) then Ret n
  else
    pa ← PhysAddr_new (entry_addr e4);
    pdpt ← table_at pa;
    for_range 0 512 n (wx_pdpt s pdpt).

Definition count_wx_violations (s : V) : Res Z :=
  let root := kernel_pml4 s in
  if root =? 0 then Ret 0
  else
    pml4 ← table_at root;
    for_range 0 512 0 (wx_pml4 s pml4).

(** ** [translate] *)

Definition translate (s : V) (va : Z) : Res (option (Z * Z)) :=
  let root := kernel_pml4 s in
  if root =? 0 then Ret None
  else
    let idx := indices va in
    t4 ← table_at root;
    let e4 := entry s t4 idx.(i_pml4) in
    if negb (is_present e4) then Ret None
    else
      pa3 ← PhysAddr_new (entry_addr e4);
      t3 ← table_at pa3;
      let e3 := entry s t3 idx.(i_pdpt) in
      if negb (is_present e3) then Ret None
      else if is_huge e3 then
        let base := Z.land (entry_addr e3) (bnot 64 (HUGE_PAGE_SIZE - 1)) in
        a ← add64 base (Z.land va (HUGE_PAGE_SIZE - 1));
        pa ← PhysAddr_new a;
        Ret (Some (pa, e3))
      else
        pa2 ← PhysAddr_new (entry_addr e3);
        t2 ← table_at pa2;
        let e2 := entry s t2 idx.(i_pd) in
        if negb (is_present e2) then Ret None
        else if is_huge e2 then
          let base := Z.land (entry_addr e2) (bnot 64 (LARGE_PAGE_SIZE - 1)) in
          a ← add64 base (Z.land va (LARGE_PAGE_SIZE - 1));
          pa ← PhysAddr_new a;
          Ret (Some (pa, e2))
        else
          pa1 ← PhysAddr_new (entry_addr e2);
          t1 ← table_at pa1;
          let e1 := entry s t1 idx.(i_pt) in
          if negb (is_present e1) then Ret None
          else
            a ← add64 (entry_addr e1) idx.(i_offset);
            pa ← PhysAddr_new a;
            Ret (Some (pa, e1)).

End Vmm.
