(* ===== verification/PageTables.v ===== *)
(** * Page tables as a tree: the invariant and what [map_4k] does to it

    [path] labels every table of the kernel's tree with the list of indices
    that lead to it from the root.  A label determines a table's parent slot,
    so no table is shared and a write to one slot can only affect addresses
    whose indices start with that slot's path.  Slot 0 of the root holds the
    identity map inherited from the boot loader and is outside the tree.
    [walk] is the MMU's view of the tree; [translate] computes it. *)

From S2P Require Import Prelude Arch BootInfo Bitmap Pmm PmmSpec Vmm.
From stdpp Require Import base gmap sets list list_numbers strings numbers.
From Stdlib Require Import ZArith Lia.
#[local] Open Scope Z_scope.

(** ** Entries *)

Lemma addr_mask_bits i : Z.testbit 0x000FFFFFFFFFF000 i = (12 <=? i) && (i <? 52).
Proof.
  change 0x000FFFFFFFFFF000 with (Z.shiftl (Z.ones 40) 12).
  destruct (Z.leb_spec 12 i) as [H|H]; cbn [andb].
  - rewrite Z.shiftl_spec_high by lia. destruct (Z.ltb_spec i 52).
    + by rewrite Z.ones_spec_low by lia.
    + by rewrite Z.ones_spec_high by lia.
  - destruct (Z.lt_ge_cases i 0); [by rewrite Z.testbit_neg_r|].
    by rewrite Z.shiftl_spec_low by lia.
Qed.

Lemma is_present_bit e : is_present e = Z.testbit e 0.
Proof. apply land_pow2_ltb. lia. Qed.
Lemma is_huge_bit e : is_huge e = Z.testbit e 7.
Proof. apply land_pow2_ltb. lia. Qed.
Lemma is_wx_bits nx e : is_wx nx e = Z.testbit e 1 && nx && negb (Z.testbit e 63).
Proof.
  unfold is_wx, WRITABLE, NO_EXECUTE. rewrite land_pow2_ltb, land_pow2_eqb by lia.
  destruct (Z.testbit e 1), nx; done.
Qed.

Lemma entry_addr_bound e : 0 ≤ entry_addr e < 2 ^ 52.
Proof.
  unfold entry_addr. split; [apply Z.land_nonneg; lia|].
  apply bits_bound; [lia|apply Z.land_nonneg; lia|]. intros i Hi.
  rewrite Z.land_spec, addr_mask_bits. destruct (Z.ltb_spec i 52); [lia|].
  by rewrite !andb_false_r.
Qed.

Lemma entry_addr_aligned e : entry_addr e mod 4096 = 0.
Proof.
  apply (testbit_aligned _ 12); [lia|]. intros i Hi. unfold entry_addr.
  rewrite Z.land_spec, addr_mask_bits. destruct (Z.leb_spec 12 i); [lia|].
  by rewrite !andb_false_r.
Qed.

(** The bits of a flag word: the low twelve and NX. *)
Definition flag_bits (f : Z) : Prop := 0 ≤ f ∧ ∀ i, 12 ≤ i → i ≠ 63 → Z.testbit f i = false.

(** A frame address. *)
Definition frame_addr (p : Z) : Prop := p mod 4096 = 0 ∧ 0 ≤ p < 2 ^ 52.

Lemma entry_addr_lor p f : frame_addr p → flag_bits f → entry_addr (Z.lor p f) = p.
Proof.
  intros [Hal Hp] [_ Hf]. apply Z.bits_inj'. intros i Hi. unfold entry_addr.
  rewrite Z.land_spec, Z.lor_spec, addr_mask_bits.
  destruct (Z.leb_spec 12 i); cbn [andb].
  - destruct (Z.ltb_spec i 52); cbn [andb].
    + rewrite Hf by lia. by rewrite orb_false_r, andb_true_r.
    + rewrite andb_false_r. by rewrite (testbit_high 52) by lia.
  - rewrite andb_false_r. by rewrite (aligned_testbit p 12) by (try done; lia).
Qed.

Lemma lor_flag_bit p f i :
  frame_addr p → 0 ≤ i < 12 ∨ i = 63 → Z.testbit (Z.lor p f) i = Z.testbit f i.
Proof.
  intros [Hal Hp] Hi. rewrite Z.lor_spec. destruct Hi as [Hi | ->].
  - by rewrite (aligned_testbit p 12) by (try done; lia).
  - by rewrite (testbit_high 52) by lia.
Qed.

(** Every profile is a flag word that is present, not huge, not for ring 3 and
    never writable and executable where NX is enforced. *)
Definition good_flags (nx : bool) (f : Z) : Prop :=
  flag_bits f ∧ Z.testbit f 0 = true ∧ Z.testbit f 7 = false ∧ Z.testbit f 2 = false ∧
  is_wx nx f = false.

Lemma flag_bits_check f :
  0 ≤ f → Z.land f (Z.lor 0xFFF NO_EXECUTE) = f → flag_bits f.
Proof.
  intros Hf Heq. split; [done|]. intros i Hi Hne. rewrite <- Heq, Z.land_spec, Z.lor_spec.
  unfold NO_EXECUTE. rewrite testbit_shiftl_1 by lia. change 0xFFF with (Z.ones 12).
  rewrite Z.ones_spec_high by lia. destruct (Z.eqb_spec 63 i); [lia|]. by rewrite andb_false_r.
Qed.

Lemma effective_good nx perm : good_flags nx (effective nx perm).
Proof.
  destruct nx, perm; (split; [apply flag_bits_check; by vm_compute|]); by vm_compute.
Qed.

(** ** Words of a frame *)

Lemma zero_words_in m pa n i :
  0 ≤ i < Z.of_nat n → ld64 (zero_words m pa n) (pa + 8 * i) = 0.
Proof.
  induction n as [|n IH]; intros Hi; [lia|]. cbn [zero_words].
  destruct (Z.eq_dec i (Z.of_nat n)) as [->|]; [apply ld64_st64_eq|].
  rewrite ld64_st64_ne by lia. apply IH. lia.
Qed.

Lemma zero_words_out m pa n a :
  (∀ k, 0 ≤ k < Z.of_nat n → a ≠ pa + 8 * k) → ld64 (zero_words m pa n) a = ld64 m a.
Proof.
  induction n as [|n IH]; intros Ha; [done|]. cbn [zero_words].
  rewrite ld64_st64_ne by (apply not_eq_sym, Ha; lia). apply IH. intros k Hk. apply Ha. lia.
Qed.

(** The frame an address lies in. *)
Abbreviation page a := (a / 4096).

Lemma slot_page t i : t mod 4096 = 0 → 0 ≤ i < 512 → page (t + 8 * i) = page t.
Proof. intros. zlia. Qed.

Lemma slot_inj t i t' i' :
  t mod 4096 = 0 → t' mod 4096 = 0 → 0 ≤ i < 512 → 0 ≤ i' < 512 →
  t + 8 * i = t' + 8 * i' → t = t' ∧ i = i'.
Proof. intros. zlia. Qed.

(** ** The MMU's walk

    [walk m t l lvl] follows the indices [l] from the table [t] at level
    [lvl]; a present entry at level 1, or a huge one at levels 2 and 3, ends
    the walk. *)
Fixpoint walk (m : phys) (t : Z) (l : list Z) (lvl : Z) : option (Z * Z) :=
  match l with
  | [] => None
  | i :: l' =>
      let e := ld64 m (t + 8 * i) in
      if negb (is_present e) then None
      else if (lvl =? 1) || ((lvl <? 4) && is_huge e) then Some (lvl, e)
      else walk m (entry_addr e) l' (lvl - 1)
  end.

Definition idx_list (x : Indices) : list Z := [x.(i_pml4); x.(i_pdpt); x.(i_pd); x.(i_pt)].
Abbreviation idx v := (idx_list (indices v)).

Lemma land_ones9 x : 0 ≤ Z.land x 0x1FF < 512.
Proof.
  change 0x1FF with (Z.ones 9). rewrite Z.land_ones by lia. apply Z.mod_pos_bound. lia.
Qed.

Lemma idx_bounds v : Forall (fun i => 0 ≤ i < 512) (idx v).
Proof. unfold idx_list, indices. cbn. repeat constructor; apply land_ones9. Qed.

(** Two page-aligned canonical addresses with the same indices are equal. *)
Lemma indices_arith v :
  0 ≤ v → indices v = {| i_pml4 := (v / 2 ^ 39) mod 512; i_pdpt := (v / 2 ^ 30) mod 512;
                         i_pd := (v / 2 ^ 21) mod 512; i_pt := (v / 2 ^ 12) mod 512;
                         i_offset := v mod 4096 |}.
Proof.
  intros Hv. unfold indices. change 0x1FF with (Z.ones 9). change 0xFFF with (Z.ones 12).
  by rewrite !Z.land_ones, !Z.shiftr_div_pow2 by lia.
Qed.

Lemma idx_inj v v' :
  canonical v = true → canonical v' = true → v mod 4096 = 0 → v' mod 4096 = 0 →
  idx v = idx v' → v = v'.
Proof.
  rewrite !canonical_iff. intros Hc Hc' Hv Hv' Heq.
  rewrite !indices_arith in Heq by (rewrite U64_val in *; lia).
  unfold idx_list in Heq. cbn [i_pml4 i_pdpt i_pd i_pt] in Heq.
  injection Heq as H1 H2 H3 H4. rewrite U64_val in *. zlia.
Qed.

(** ** The invariant *)

Abbreviation labels := (gmap Z (list Z)).

(** The tree of tables in memory [m]. *)
Record tree (m : phys) (root : Z) (path : labels) : Prop := {
  tr_root : path !! root = Some [];
  tr_aligned t p : path !! t = Some p → t mod 4096 = 0;
  tr_range t p : path !! t = Some p → 0 < t < BOOT_MAPPED_BYTES;
  tr_depth t p : path !! t = Some p → (length p ≤ 3)%nat;
  tr_uniq t t' p : path !! t = Some p → path !! t' = Some p → t = t';
  tr_parent t' p i : path !! t' = Some (p ++ [i]) →
    ∃ t, path !! t = Some p ∧ 0 ≤ i < 512 ∧ is_present (ld64 m (t + 8 * i)) = true;
  tr_child t p i : path !! t = Some p → (length p < 3)%nat → 0 ≤ i < 512 → ¬ (p = [] ∧ i = 0) →
    is_present (ld64 m (t + 8 * i)) = true →
    is_huge (ld64 m (t + 8 * i)) = false ∧ path !! entry_addr (ld64 m (t + 8 * i)) = Some (p ++ [i]);
}.

(** Every leaf is supervisor-only and not both writable and executable. *)
Definition leaves_ok (nx : bool) (m : phys) (path : labels) : Prop :=
  ∀ t p i, path !! t = Some p → length p = 3%nat → 0 ≤ i < 512 →
    is_present (ld64 m (t + 8 * i)) = true →
    is_wx nx (ld64 m (t + 8 * i)) = false ∧ Z.testbit (ld64 m (t + 8 * i)) 2 = false.

(** Memory outside the labelled tables is the same in [m] and [m']. *)
Definition untouched (path : labels) (m m' : phys) : Prop :=
  ∀ a, path !! (4096 * page a) = None → ld64 m' a = ld64 m a.

(** [l] is a full list of indices that does not go through slot 0 of the
    root. *)
Definition kernel_idx (l : list Z) : Prop :=
  length l = 4%nat ∧ Forall (fun i => 0 ≤ i < 512) l ∧ head l ≠ Some 0.

Lemma aligned_page t : t mod 4096 = 0 → 4096 * page t = t.
Proof. intros. zlia. Qed.

(** ** Linking a fresh table *)

Section Link.
Context (m m' : phys) (root : Z) (path : labels) (t0 i0 n e : Z) (p0 : list Z).
Context (Htree : tree m root path).
Context (Hp0 : path !! t0 = Some p0) (Hlen : (length p0 < 3)%nat) (Hi0 : 0 ≤ i0 < 512).
Context (Hslot : ¬ (p0 = [] ∧ i0 = 0)).
Context (Habs : is_present (ld64 m (t0 + 8 * i0)) = false).
Context (Hn : frame_addr n) (Hnr : 0 < n < BOOT_MAPPED_BYTES) (Hfresh : path !! n = None).
Context (He : e = Z.lor n (Z.lor PRESENT WRITABLE)).
Context (Hm' : ∀ a, ld64 m' a = if bool_decide (a = t0 + 8 * i0) then e
                                else if bool_decide (page a = page n ∧ (a - n) mod 8 = 0) then 0
                                else ld64 m a).

Definition linked : labels := <[n := p0 ++ [i0]]> path.

Lemma link_flags : flag_bits (Z.lor PRESENT WRITABLE).
Proof. apply flag_bits_check; by vm_compute. Qed.

Lemma link_e : is_present e = true ∧ is_huge e = false ∧ entry_addr e = n.
Proof.
  rewrite is_present_bit, is_huge_bit, He. rewrite !(lor_flag_bit n) by (done || lia).
  split_and!; [by vm_compute|by vm_compute|]. apply entry_addr_lor; [done|apply link_flags].
Qed.

(** A slot of an old table other than the linked one is unchanged. *)
Lemma link_old t p i :
  path !! t = Some p → 0 ≤ i < 512 → (t = t0 → i ≠ i0) →
  ld64 m' (t + 8 * i) = ld64 m (t + 8 * i).
Proof.
  intros Ht Hi Hne. rewrite Hm'. destruct Hn as [Hal _].
  pose proof (tr_aligned _ _ _ Htree _ _ Ht). pose proof (tr_aligned _ _ _ Htree _ _ Hp0).
  rewrite bool_decide_eq_false_2.
  2:{ intros Heq. apply slot_inj in Heq as [-> ->]; try done. by apply Hne. }
  rewrite bool_decide_eq_false_2; [done|]. intros [Hpg _]. rewrite slot_page in Hpg by done.
  assert (t = n) as -> by zlia. congruence.
Qed.

Lemma link_new_slot : ld64 m' (t0 + 8 * i0) = e.
Proof. rewrite Hm'. by rewrite bool_decide_eq_true_2. Qed.

Lemma link_zero i : 0 ≤ i < 512 → ld64 m' (n + 8 * i) = 0.
Proof.
  intros Hi. rewrite Hm'. destruct Hn as [Hal _].
  pose proof (tr_aligned _ _ _ Htree _ _ Hp0).
  rewrite bool_decide_eq_false_2.
  2:{ intros Heq. apply slot_inj in Heq as [-> ->]; try done. congruence. }
  rewrite bool_decide_eq_true_2; [done|]. split; [by apply slot_page|].
  replace (n + 8 * i - n) with (i * 8) by lia. by apply Z.mod_mul.
Qed.

Lemma link_no_label t : path !! t ≠ Some (p0 ++ [i0]).
Proof.
  intros Ht. destruct (tr_parent _ _ _ Htree _ _ _ Ht) as (t1 & Ht1 & _ & Hpr).
  assert (t1 = t0) as -> by (by eapply (tr_uniq _ _ _ Htree)). congruence.
Qed.

Lemma linked_tree : tree m' root linked.
Proof.
  destruct link_e as (He1 & He2 & He3). unfold linked. split.
  - rewrite lookup_insert_ne; [apply Htree|]. intros ->. by rewrite (tr_root _ _ _ Htree) in Hfresh.
  - intros t p [[<- <-]|[_ Ht]]%lookup_insert_Some; [apply Hn|by eapply tr_aligned].
  - intros t p [[<- <-]|[_ Ht]]%lookup_insert_Some; [done|by eapply tr_range].
  - intros t p [[<- <-]|[_ Ht]]%lookup_insert_Some; [rewrite length_app; cbn; lia|by eapply tr_depth].
  - intros t t' p [[<- <-]|[_ Ht]]%lookup_insert_Some [[<- Hp]|[_ Ht']]%lookup_insert_Some; subst.
    + done.
    + by apply link_no_label in Ht'.
    + by apply link_no_label in Ht.
    + by eapply (tr_uniq _ _ _ Htree).
  - intros t' p i [[<- Hp]|[Hne Ht']]%lookup_insert_Some.
    + apply app_inj_tail in Hp as [<- <-]. exists t0. rewrite link_new_slot. split; [|done].
      rewrite lookup_insert_ne; [done|]. congruence.
    + destruct (tr_parent _ _ _ Htree _ _ _ Ht') as (t & Ht & Hi & Hpr). exists t.
      split; [rewrite lookup_insert_ne; [done|congruence]|]. split; [done|].
      destruct (decide (t = t0 ∧ i = i0)) as [[-> ->]|Hd]; [by rewrite link_new_slot|].
      rewrite (link_old t p i) by naive_solver. done.
  - intros t p i [[<- <-]|[Hne Ht]]%lookup_insert_Some Hl Hi Hs Hpr.
    + rewrite link_zero in Hpr by done. done.
    + destruct (decide (t = t0 ∧ i = i0)) as [[-> ->]|Hd].
      * rewrite link_new_slot, He3, lookup_insert_eq. simplify_eq. done.
      * rewrite (link_old t p i) in * by naive_solver.
        destruct (tr_child _ _ _ Htree t p i) as [H1 H2]; try done. split; [done|].
        rewrite lookup_insert_ne; [done|]. congruence.
Qed.

(** Linking an empty table changes no translation. *)
Lemma link_walk l t p lvl :
  path !! t = Some p → (length p + length l = 4)%nat → lvl = Z.of_nat (length l) →
  Forall (fun i => 0 ≤ i < 512) l → (p = [] → head l ≠ Some 0) →
  walk m' t l lvl = walk m t l lvl.
Proof.
  destruct link_e as (He1 & He2 & He3).
  revert t p lvl. induction l as [|i l IH]; intros t p lvl Ht Hl Hlvl Hb Hs; [done|].
  cbn [walk]. cbn [length] in *. apply Forall_cons_iff in Hb as [Hi Hb].
  destruct (decide (t = t0 ∧ i = i0)) as [[-> ->]|Hd].
  - assert (p = p0) as -> by congruence. rewrite link_new_slot, He1, He2, Habs, He3. cbn [negb].
    destruct (Z.eqb_spec lvl 1); [lia|]. rewrite andb_false_r. cbn [orb].
    destruct l as [|j l]; [done|]. cbn [walk]. apply Forall_cons_iff in Hb as [Hj _].
    by rewrite link_zero.
  - rewrite (link_old t p i) by naive_solver.
    destruct (is_present (ld64 m (t + 8 * i))) eqn:Epr; cbn [negb]; [|done].
    destruct (Z.eqb_spec lvl 1); cbn [orb]; [done|].
    destruct (tr_child _ _ _ Htree t p i) as [Hh Hc]; [done|lia|done|naive_solver|done|].
    rewrite Hh, andb_false_r. apply (IH _ (p ++ [i])); [done|rewrite length_app; cbn; lia|lia|done|].
    intros H. by apply app_nil in H as [_ ?].
Qed.

Lemma linked_leaves nx : leaves_ok nx m path → leaves_ok nx m' linked.
Proof.
  intros Hlv t p i Hlk Hl Hi Hpr. unfold linked in Hlk. apply lookup_insert_Some in Hlk as [[<- <-]|[Hne Ht]].
  - by rewrite link_zero in Hpr.
  - assert (ld64 m' (t + 8 * i) = ld64 m (t + 8 * i)) as Heq.
    { apply (link_old t p i); [done|done|]. intros -> ->. assert (p = p0) as -> by congruence. lia. }
    rewrite Heq in Hpr |- *. by eapply Hlv.
Qed.

Lemma linked_untouched : untouched linked m m'.
Proof.
  intros a Hlk. unfold linked in Hlk. apply lookup_insert_None in Hlk as [Hp Hna]. rewrite Hm'. destruct Hn as [Hal _].
  pose proof (tr_aligned _ _ _ Htree _ _ Hp0) as Hal0.
  rewrite bool_decide_eq_false_2.
  2:{ intros ->. rewrite slot_page in Hp by done. rewrite aligned_page in Hp by done. congruence. }
  rewrite bool_decide_eq_false_2; [done|]. intros [Hpg _]. rewrite Hpg, aligned_page in Hna by done. done.
Qed.

Lemma linked_extends : path ⊆ linked.
Proof. by apply insert_subseteq. Qed.
End Link.

(** ** Writing a leaf *)

Section Leaf.
Context (m : phys) (root : Z) (path : labels) (t0 i0 e : Z) (p0 : list Z).
Context (Htree : tree m root path).
Context (Hp0 : path !! t0 = Some p0) (Hlen : length p0 = 3%nat) (Hi0 : 0 ≤ i0 < 512).
Context (Hpres : is_present e = true).

Abbreviation m1 := (st64 m (t0 + 8 * i0) e).

Lemma leaf_old t p i :
  path !! t = Some p → 0 ≤ i < 512 → (t = t0 → i ≠ i0) → ld64 m1 (t + 8 * i) = ld64 m (t + 8 * i).
Proof.
  intros Ht Hi Hne. apply ld64_st64_ne. intros Heq. symmetry in Heq.
  pose proof (tr_aligned _ _ _ Htree _ _ Ht). pose proof (tr_aligned _ _ _ Htree _ _ Hp0).
  apply slot_inj in Heq as [-> ->]; try done. by apply Hne.
Qed.

Lemma leaf_tree : tree m1 root path.
Proof.
  destruct Htree as [H1 H2 H3 H4 H5 H6 H7]. split; try done.
  - intros t' p i Ht'. destruct (H6 t' p i Ht') as (t & Ht & Hi & Hpr). exists t.
    split; [done|]. split; [done|].
    destruct (decide (t = t0 ∧ i = i0)) as [[-> ->]|Hd]; [by rewrite ld64_st64_eq|].
    by rewrite (leaf_old t p i) by naive_solver.
  - intros t p i Ht Hl Hi Hs. rewrite (leaf_old t p i); [by apply H7|done|done|].
    intros -> _. assert (p = p0) as -> by congruence. lia.
Qed.

Lemma ancestor t q1 q2 : path !! t = Some (q1 ++ q2) → ∃ t', path !! t' = Some q1.
Proof.
  revert t. induction q2 as [|i q2 IH] using rev_ind; intros t Ht.
  - rewrite app_nil_r in Ht. eauto.
  - rewrite app_assoc in Ht. destruct (tr_parent _ _ _ Htree _ _ _ Ht) as (t' & Ht' & _). eauto.
Qed.

(** The written leaf is what its address now translates to; every other
    address translates as before. *)
Lemma leaf_walk l t p lvl :
  path !! t = Some p → (length p + length l = 4)%nat → lvl = Z.of_nat (length l) →
  Forall (fun i => 0 ≤ i < 512) l → (p = [] → head l ≠ Some 0) →
  walk m1 t l lvl = if bool_decide (p ++ l = p0 ++ [i0]) then Some (1, e) else walk m t l lvl.
Proof.
  revert t p lvl. induction l as [|i l IH]; intros t p lvl Ht Hl Hlvl Hb Hs.
  { exfalso. pose proof (tr_depth _ _ _ Htree _ _ Ht). cbn in Hl. lia. }
  cbn [walk]. cbn [length] in *. apply Forall_cons_iff in Hb as [Hi Hb].
  destruct l as [|j l].
  - replace (lvl =? 1) with true by (symmetry; apply Z.eqb_eq; cbn in *; lia). cbn [orb].
    case_bool_decide as Heq.
    + apply app_inj_tail in Heq as [-> ->]. assert (t = t0) as -> by (by eapply (tr_uniq _ _ _ Htree)).
      by rewrite ld64_st64_eq, Hpres, Hlvl.
    + rewrite (leaf_old t p i); [done|done|done|]. intros -> ->. apply Heq. congruence.
  - rewrite (leaf_old t p i); [|done|done|].
    2:{ intros -> _. assert (p = p0) as -> by congruence. cbn in *. lia. }
    replace (lvl =? 1) with false by (symmetry; apply Z.eqb_neq; cbn in *; lia). cbn [orb].
    assert (length p < 3)%nat as Hp3 by (cbn in *; lia).
    destruct (is_present (ld64 m (t + 8 * i))) eqn:Epr; cbn [negb].
    + destruct (tr_child _ _ _ Htree t p i) as [Hh Hc]; [done|done|done|naive_solver|done|].
      rewrite Hh, andb_false_r. rewrite (IH _ (p ++ [i])); rewrite <- ?app_assoc; cbn [app].
      * done.
      * done.
      * rewrite length_app. cbn in *. lia.
      * cbn in *. lia.
      * done.
      * intros H. by apply app_nil in H as [_ ?].
    + case_bool_decide as Heq; [|done]. exfalso.
      assert (∃ q, p0 = (p ++ [i]) ++ q) as (q & Hq).
      { exists (take (length (j :: l) - 1) (j :: l)). apply (f_equal (take 3)) in Heq.
        rewrite (take_app_length' p0) in Heq by done. rewrite <- Heq.
        rewrite take_app_ge by lia. replace (3 - length p)%nat with (S (length (j :: l) - 1)) by (cbn in *; lia).
        by rewrite <- app_assoc. }
      rewrite Hq in Hp0. destruct (ancestor _ _ _ Hp0) as (t' & Ht').
      destruct (tr_parent _ _ _ Htree _ _ _ Ht') as (t1 & Ht1 & _ & Hpr).
      assert (t1 = t) as -> by (by eapply (tr_uniq _ _ _ Htree)). congruence.
Qed.

Lemma leaf_leaves nx : is_wx nx e = false → Z.testbit e 2 = false → leaves_ok nx m path → leaves_ok nx m1 path.
Proof.
  intros Hwx Hu Hlv t p i Ht Hl Hi.
  destruct (decide (t = t0 ∧ i = i0)) as [[-> ->]|Hd]; [by rewrite ld64_st64_eq|].
  rewrite (leaf_old t p i) by naive_solver. by eapply Hlv.
Qed.

Lemma leaf_untouched : untouched path m m1.
Proof.
  intros a Ha. apply ld64_st64_ne. intros <-.
  pose proof (tr_aligned _ _ _ Htree _ _ Hp0). rewrite slot_page in Ha by done.
  rewrite aligned_page in Ha by done. congruence.
Qed.
End Leaf.

(** ** The state invariant *)

Section State.
Context {S : Type} `{FS : FrameSource S} `{X : X86Crate}.
Context (debug : bool).

Abbreviation free s := (fs_free s.(src)).

Record vmm_inv (s : Vmm S) (path : labels) : Prop := {
  vi_src : fs_inv s.(src);
  vi_zero : 0 ∉ free s;
  vi_pool : length s.(PT_POOL).(pool_frames) = 64%nat ∧ 0 ≤ s.(PT_POOL).(allocated);
  vi_total : s.(PT_POOL).(allocated) + Z.of_nat (size (free s)) < U64;
  vi_tree : tree s.(mem) s.(KERNEL_PML4) path;
  vi_leaves : leaves_ok s.(NX_AVAILABLE) s.(mem) path;
  vi_fresh t p : path !! t = Some p → page t ∉ free s;
}.

(** What mapping may change: the tree grows by at most [k] frames taken from
    the source, and memory outside the tree stays as it was. *)
Record grows (k : Z) (s : Vmm S) (path : labels) (s' : Vmm S) (path' : labels) : Prop := {
  gr_nx : s'.(NX_AVAILABLE) = s.(NX_AVAILABLE);
  gr_pml4 : s'.(KERNEL_PML4) = s.(KERNEL_PML4);
  gr_cr3 : s'.(CR3) = s.(CR3);
  gr_path : path ⊆ path';
  gr_new t p : path' !! t = Some p → path !! t = None → page t ∈ free s;
  gr_free : free s' ⊆ free s;
  gr_count : Z.of_nat (size (free s)) ≤ Z.of_nat (size (free s')) + k;
  gr_mem : untouched path' s.(mem) s'.(mem);
  gr_slot0 : ld64 s'.(mem) (s.(KERNEL_PML4) + 8 * 0) = ld64 s.(mem) (s.(KERNEL_PML4) + 8 * 0);
}.

Lemma grows_refl s path : grows 0 s path s path.
Proof. split; try done. - congruence. - lia. Qed.

Lemma grows_trans k k' s path s1 path1 s2 path2 :
  grows k s path s1 path1 → grows k' s1 path1 s2 path2 → grows (k + k') s path s2 path2.
Proof.
  intros [A1 A2 A3 A4 A5 A6 A7 A8 A9] [B1 B2 B3 B4 B5 B6 B7 B8 B9].
  split; [congruence..|by etrans| |by etrans|lia| |rewrite A2 in B9; congruence].
  - intros t p H2 H0. destruct (path1 !! t) as [q|] eqn:E; [by eapply A5|].
    apply A6. by eapply B5.
  - intros a Ha. rewrite B8 by done. apply A8.
    destruct (path1 !! (4096 * page a)) eqn:E; [|done].
    rewrite (lookup_weaken _ _ _ _ E B4) in Ha. done.
Qed.

Lemma PtPool_alloc_ok s :
  fs_inv s.(src) → free s ≠ ∅ → 0 ∉ free s →
  length s.(PT_POOL).(pool_frames) = 64%nat → 0 ≤ s.(PT_POOL).(allocated) →
  s.(PT_POOL).(allocated) + Z.of_nat (size (free s)) < U64 →
  ∃ i s', PtPool_alloc s = Ret (Some (i * FRAME_SIZE), s') ∧ i ∈ free s ∧
    0 < i < MAX_FRAMES ∧ fs_inv s'.(src) ∧ free s' = free s ∖ {[i]} ∧
    s'.(mem) = zero_words s.(mem) (i * FRAME_SIZE) 512 ∧
    s'.(NX_AVAILABLE) = s.(NX_AVAILABLE) ∧ s'.(KERNEL_PML4) = s.(KERNEL_PML4) ∧
    s'.(CR3) = s.(CR3) ∧ length s'.(PT_POOL).(pool_frames) = 64%nat ∧
    s'.(PT_POOL).(allocated) = s.(PT_POOL).(allocated) + 1.
Proof.
  intros Hsrc Hne H0 Hlen Hal Htot. unfold PtPool_alloc.
  destruct (fs_alloc_ok s.(src) Hsrc) as (r & src' & -> & Hsrc' & Hr). cbn [mbind Res_bind].
  destruct r as [pa|]; [|by destruct Hr]. destruct Hr as (i & -> & Hin & Hfree).
  pose proof (fs_range _ _ Hsrc Hin) as Hi. rewrite MAX_FRAMES_val in *.
  assert (i ≠ 0) by congruence. pose proof (size_remove _ _ Hin) as Hsz.
  assert (∃ fr, (if s.(PT_POOL).(allocated) <? Z.of_nat (length s.(PT_POOL).(pool_frames))
            then lset s.(PT_POOL).(pool_frames) s.(PT_POOL).(allocated) (i * FRAME_SIZE)
            else Ret s.(PT_POOL).(pool_frames)) = Ret fr ∧ length fr = 64%nat) as (fr & -> & Hfr).
  { destruct (Z.ltb_spec s.(PT_POOL).(allocated) (Z.of_nat (length s.(PT_POOL).(pool_frames)))).
    - rewrite lset_ok by lia. eexists. split; [done|]. by rewrite length_insert.
    - eauto. }
  cbn [mbind Res_bind]. rewrite add64_ok by lia. cbn [mbind Res_bind].
  unfold FRAME_SIZE. rewrite VirtAddr_new_low by lia. cbn [mbind Res_bind].
  eexists i, _. split; [reflexivity|]. cbn. split_and!; (done || lia).
Qed.

Lemma table_at_ok pa :
  pa mod 4096 = 0 → 0 < pa < BOOT_MAPPED_BYTES → table_at debug pa = Ret pa.
Proof.
  intros Hal Hr. unfold table_at, PAGE_SIZE. rewrite Hal.
  destruct (Z.ltb_spec pa BOOT_MAPPED_BYTES); [|lia]. rewrite orb_true_r. cbn.
  apply VirtAddr_new_low. unfold BOOT_MAPPED_BYTES in *. lia.
Qed.

Lemma table_at_label s path t p : vmm_inv s path → path !! t = Some p → table_at debug t = Ret t.
Proof.
  intros Hinv Ht. apply table_at_ok; [by eapply tr_aligned, Ht; apply Hinv|].
  by eapply tr_range, Ht; apply Hinv.
Qed.

(** Memory after a zeroed frame was linked into a slot. *)
Lemma linked_mem m t i n e a :
  ld64 (st64 (zero_words m (n * 4096) 512) (t + 8 * i) e) a =
    if bool_decide (a = t + 8 * i) then e
    else if bool_decide (page a = page (n * 4096) ∧ (a - n * 4096) mod 8 = 0) then 0 else ld64 m a.
Proof.
  case_bool_decide as Ha; [subst a; apply ld64_st64_eq|]. rewrite ld64_st64_ne by congruence. case_bool_decide as Hb.
  - destruct Hb as [Hpg Hmod]. rewrite Z.div_mul in Hpg by lia.
    replace a with (n * 4096 + 8 * ((a - n * 4096) / 8)) by zlia. apply zero_words_in. zlia.
  - apply zero_words_out. intros k Hk ->. apply Hb. split; [apply slot_page; [by apply Z.mod_mul|lia]|].
    replace (n * 4096 + 8 * k - n * 4096) with (k * 8) by lia. by apply Z.mod_mul.
Qed.

(** [descend] returns the labelled child, creating it from one free frame if
    the slot is empty; no translation changes. *)
Lemma descend_ok s path t p i :
  vmm_inv s path → path !! t = Some p → (length p < 3)%nat → 0 ≤ i < 512 → ¬ (p = [] ∧ i = 0) →
  free s ≠ ∅ →
  ∃ t' s' path', descend s t i = Ret (Some t', s') ∧ vmm_inv s' path' ∧
    path' !! t' = Some (p ++ [i]) ∧ grows 1 s path s' path' ∧
    (∀ l, kernel_idx l → walk s'.(mem) s'.(KERNEL_PML4) l 4 = walk s.(mem) s.(KERNEL_PML4) l 4).
Proof.
  intros Hinv Ht Hlen Hi Hslot Hne. unfold descend, entry.
  destruct (is_present (ld64 s.(mem) (t + 8 * i))) eqn:Epr.
  - destruct (tr_child _ _ _ (vi_tree _ _ Hinv) t p i) as [_ Hc]; [done..|].
    pose proof (tr_range _ _ _ (vi_tree _ _ Hinv) _ _ Hc) as Hrange.
    rewrite PhysAddr_new_low by apply entry_addr_bound. cbn [mbind Res_bind].
    eexists _, s, path. split; [reflexivity|]. split; [done|]. split; [done|]. split; [|done].
    destruct (grows_refl s path). split; (done || lia).
  - destruct Hinv as [Hsrc Hz [Hpl Hpa] Htot Htr Hlv Hfr].
    destruct (PtPool_alloc_ok s) as (n & s1 & -> & Hin & Hn & Hsrc1 & Hfree1 & Hmem1 & Hnx1 & Hk1 & Hc1 & Hpl1 & Hpa1);
      [done..|]. cbn [mbind Res_bind]. rewrite MAX_FRAMES_val in Hn. unfold FRAME_SIZE in *.
    set (m' := st64 s1.(mem) (t + 8 * i) (Z.lor (n * 4096) (Z.lor PRESENT WRITABLE))).
    assert (frame_addr (n * 4096)) as Hfa by (split; [by apply Z.mod_mul|lia]).
    assert (0 < n * 4096 < BOOT_MAPPED_BYTES) as Hnr by (unfold BOOT_MAPPED_BYTES; lia).
    assert (path !! (n * 4096) = None) as Hfresh.
    { destruct (path !! (n * 4096)) eqn:E; [|done]. apply Hfr in E. by rewrite Z.div_mul in E by lia. }
    pose proof (fun a => linked_mem s.(mem) t i n (Z.lor (n * 4096) (Z.lor PRESENT WRITABLE)) a) as Hm'. rewrite <- Hmem1 in Hm'. fold m' in Hm'.
    exists (n * 4096), (set_mem s1 m'), (linked path i (n * 4096) p). split; [reflexivity|].
    pose proof (size_remove _ _ Hin) as Hsz.
    assert (path ⊆ linked path i (n * 4096) p) as Hsub by (by apply linked_extends).
    split; [|split; [apply lookup_insert_eq|split]].
    + split; cbn [set_mem src mem PT_POOL KERNEL_PML4 NX_AVAILABLE]; rewrite ?Hk1, ?Hnx1;
        [exact Hsrc1| |split; [exact Hpl1|lia]| | | |].
      * rewrite Hfree1. intros [H0 _]%elem_of_difference. by apply Hz.
      * rewrite Hpa1, Hfree1. lia.
      * exact (linked_tree _ m' _ path t i (n * 4096) _ p Htr Ht Hlen Hi Epr Hfa Hnr Hfresh eq_refl Hm').
      * exact (linked_leaves _ m' _ path t i (n * 4096) _ p Htr Ht Hlen Hi Hfa Hnr Hfresh eq_refl Hm' _ Hlv).
      * unfold linked. intros t1 p1 [[<- <-]|[_ Ht1]]%lookup_insert_Some; rewrite Hfree1.
        -- rewrite Z.div_mul by lia. intros [_ H1]%elem_of_difference. by apply H1, elem_of_singleton.
        -- apply Hfr in Ht1. intros [H1 _]%elem_of_difference. by apply Ht1.
    + split; cbn [set_mem src mem PT_POOL KERNEL_PML4 NX_AVAILABLE CR3]; [exact Hnx1|exact Hk1|exact Hc1|exact Hsub| | | | |].
      * unfold linked. intros t1 p1 [[<- _]|[_ Ht1]]%lookup_insert_Some H1; [by rewrite Z.div_mul by lia|congruence].
      * rewrite Hfree1. apply subseteq_difference_l. done.
      * rewrite Hfree1. lia.
      * exact (linked_untouched _ m' _ path t i (n * 4096) _ p Htr Ht Hi Hfa Hfresh Hm').
      * pose proof (tr_root _ _ _ Htr) as Hroot.
        apply (link_old _ m' _ path t i (n * 4096) _ p Htr Ht Hlen Hi Hfa Hfresh Hm' _ []); [done|lia|].
        intros <- <-. apply Hslot. split; congruence.
    + intros l (Hl4 & Hlb & Hl0). cbn [set_mem mem KERNEL_PML4]. rewrite Hk1.
      apply (link_walk _ m' _ path t i (n * 4096) _ p Htr Ht Hlen Hi Epr Hfa Hnr Hfresh eq_refl Hm'
               l _ []); [apply Htr|exact Hl4|by rewrite Hl4|exact Hlb|done].
Qed.

(** The walk along a label ends in the labelled table. *)
Lemma walk_to m root path t0 q1 q2 t i :
  tree m root path → path !! t0 = Some (q1 ++ q2) → path !! t = Some q1 →
  length (q1 ++ q2) = 3%nat → Forall (fun j => 0 ≤ j < 512) q2 → (q1 = [] → head q2 ≠ Some 0) →
  walk m t (q2 ++ [i]) (Z.of_nat (length q2) + 1) = walk m t0 [i] 1.
Proof.
  intros Htr. revert q1 t. induction q2 as [|j q2 IH]; intros q1 t Ht0 Ht Hl Hb Hz.
  - rewrite app_nil_r in Ht0. by rewrite (tr_uniq _ _ _ Htr _ _ _ Ht0 Ht).
  - inversion_clear Hb as [|? ? Hj Hb']. rewrite cons_middle, app_assoc in Ht0, Hl.
    destruct (ancestor m root path Htr t0 (q1 ++ [j]) q2 Ht0) as (t' & Ht').
    destruct (tr_parent _ _ _ Htr _ _ _ Ht') as (t1 & Ht1 & _ & Hpr).
    rewrite (tr_uniq _ _ _ Htr _ _ _ Ht1 Ht) in Hpr. rewrite !length_app in Hl. cbn [length] in Hl.
    destruct (tr_child _ _ _ Htr t q1 j) as [Hh Hc]; [done|lia|done|naive_solver|done|].
    cbn [app walk length]. rewrite Hpr, Hh. cbn [negb].
    destruct (Z.eqb_spec (Z.of_nat (Datatypes.S (length q2)) + 1) 1); [lia|]. rewrite andb_false_r. cbn [orb].
    replace (Z.of_nat (Datatypes.S (length q2)) + 1 - 1) with (Z.of_nat (length q2) + 1) by lia.
    apply (IH (q1 ++ [j])); [done|done|rewrite !length_app; cbn; lia|done|].
    intros H. by apply app_nil in H as [_ ?].
Qed.

Lemma walk_leaf m root path t0 p0 i :
  tree m root path → path !! t0 = Some p0 → length p0 = 3%nat → kernel_idx (p0 ++ [i]) →
  walk m root (p0 ++ [i]) 4 =
    if is_present (ld64 m (t0 + 8 * i)) then Some (1, ld64 m (t0 + 8 * i)) else None.
Proof.
  intros Htr Hp0 Hl (H4 & Hb & H0). apply Forall_app in Hb as [Hb _].
  change 4 with (Z.of_nat 3 + 1). rewrite <- Hl.
  rewrite (walk_to m root path t0 [] p0 root i Htr); [|done|apply Htr|done|done|].
  - cbn [walk]. by destruct (is_present _).
  - intros _. destruct p0; [done|]. done.
Qed.

Lemma size_nonempty s : 1 ≤ Z.of_nat (size (free s)) → free s ≠ ∅.
Proof. intros H He. rewrite He, size_empty in H. lia. Qed.

(** The first three levels of [map_4k]'s loop body. *)
Lemma map_4k_body_levels s path va pa f i v p :
  vmm_inv s path → 3 ≤ Z.of_nat (size (free s)) →
  mul64 i PAGE_SIZE = Ret (v - va) → p = pa + (v - va) → add64 va (v - va) = Ret v →
  add64 pa (v - va) = Ret p → canonical v = true → (indices v).(i_pml4) ≠ 0 →
  ∃ pt s' path', vmm_inv s' path' ∧ grows 3 s path s' path' ∧
    path' !! pt = Some [(indices v).(i_pml4); (indices v).(i_pdpt); (indices v).(i_pd)] ∧
    (∀ l, kernel_idx l → walk s'.(mem) s'.(KERNEL_PML4) l 4 = walk s.(mem) s.(KERNEL_PML4) l 4) ∧
    map_4k_body debug va pa f s.(KERNEL_PML4) i s =
      let old := entry s' pt (indices v).(i_pt) in
      if is_present old && negb (entry_addr old =? p)
      then Panic (PanicMsg "map_4k: already maps, refusing to remap")
      else Ret (set_mem s' (st64 s'.(mem) (pt + 8 * (indices v).(i_pt)) (Z.lor p f))).
Proof.
  intros Hinv Hsz Hmul Hp Hadd Hadd2 Hcan H0.
  pose proof (idx_bounds v) as Hb. unfold idx_list in Hb.
  inversion_clear Hb as [|? ? B4 Hb1]. inversion_clear Hb1 as [|? ? B3 Hb2].
  inversion_clear Hb2 as [|? ? B2 Hb3]. clear Hb3.
  unfold map_4k_body. rewrite Hmul. cbn [mbind Res_bind]. rewrite Hadd. cbn [mbind Res_bind].
  rewrite VirtAddr_new_ok by done. cbn [mbind Res_bind]. rewrite Hadd2. cbn [mbind Res_bind].
  pose proof (tr_root _ _ _ (vi_tree _ _ Hinv)) as Hroot.
  rewrite (table_at_label s path _ [] Hinv Hroot). cbn [mbind Res_bind].
  destruct (descend_ok s path s.(KERNEL_PML4) [] (indices v).(i_pml4))
    as (t3 & s1 & path1 & -> & Hinv1 & Hp1 & Hg1 & Hw1);
    [done|done|cbn; lia|done|naive_solver|apply size_nonempty; lia|].
  cbn [mbind Res_bind expect]. rewrite (table_at_label s1 path1 _ _ Hinv1 Hp1). cbn [mbind Res_bind].
  pose proof (gr_count _ _ _ _ _ Hg1) as Hc1.
  destruct (descend_ok s1 path1 t3 _ (indices v).(i_pdpt) Hinv1 Hp1)
    as (t2 & s2 & path2 & -> & Hinv2 & Hp2 & Hg2 & Hw2);
    [cbn; lia|done|by intros [? _]|apply size_nonempty; lia|].
  cbn [mbind Res_bind expect]. rewrite (table_at_label s2 path2 _ _ Hinv2 Hp2). cbn [mbind Res_bind].
  pose proof (gr_count _ _ _ _ _ Hg2) as Hc2.
  destruct (descend_ok s2 path2 t2 _ (indices v).(i_pd) Hinv2 Hp2)
    as (t1 & s3 & path3 & -> & Hinv3 & Hp3 & Hg3 & Hw3);
    [cbn; lia|done|by intros [? _]|apply size_nonempty; lia|].
  cbn [mbind Res_bind expect]. rewrite (table_at_label s3 path3 _ _ Hinv3 Hp3). cbn [mbind Res_bind].
  exists t1, s3, path3. split; [done|]. split.
  { replace 3 with (1 + (1 + 1)) by lia. eapply grows_trans; [exact Hg1|]. by eapply grows_trans. }
  split; [done|]. split; [|done]. intros l Hl. by rewrite Hw3, Hw2, Hw1.
Qed.

Lemma idx_split v :
  [(indices v).(i_pml4); (indices v).(i_pdpt); (indices v).(i_pd)] ++ [(indices v).(i_pt)] = idx v.
Proof. done. Qed.

Lemma kernel_idx_of v : (indices v).(i_pml4) ≠ 0 → kernel_idx (idx v).
Proof. intros H. split; [done|]. split; [apply idx_bounds|].
  change (Some (indices v).(i_pml4) ≠ Some 0). congruence. Qed.

(** Mapping one page: the page translates to the frame with the profile's
    flags, and every other kernel address translates as before. *)
Lemma map_4k_body_ok s path va pa perm i v p :
  vmm_inv s path → 3 ≤ Z.of_nat (size (free s)) →
  mul64 i PAGE_SIZE = Ret (v - va) → p = pa + (v - va) → add64 va (v - va) = Ret v →
  add64 pa (v - va) = Ret p → canonical v = true → (indices v).(i_pml4) ≠ 0 → frame_addr p →
  (∀ lv e, walk s.(mem) s.(KERNEL_PML4) (idx v) 4 = Some (lv, e) → entry_addr e = p) →
  let e := Z.lor p (effective s.(NX_AVAILABLE) perm) in
  ∃ s' path',
    map_4k_body debug va pa (effective s.(NX_AVAILABLE) perm) s.(KERNEL_PML4) i s = Ret s' ∧
    vmm_inv s' path' ∧ grows 3 s path s' path' ∧
    (∀ l, kernel_idx l → walk s'.(mem) s'.(KERNEL_PML4) l 4 =
       if bool_decide (l = idx v) then Some (1, e) else walk s.(mem) s.(KERNEL_PML4) l 4).
Proof.
  intros Hinv Hsz Hmul Hp Hadd Hadd2 Hcan H0 Hfa Hsame e.
  destruct (map_4k_body_levels s path va pa (effective s.(NX_AVAILABLE) perm) i v p)
    as (pt & s3 & path3 & Hinv3 & Hg3 & Hpt & Hw3 & ->); [done..|].
  pose proof (effective_good s.(NX_AVAILABLE) perm) as (Hfb & Hf0 & Hf7 & Hf2 & Hfwx).
  pose proof (idx_bounds v) as Hb. assert (0 ≤ i_pt (indices v) < 512) as Bt.
  { unfold idx_list in Hb. rewrite Forall_forall in Hb. apply Hb. right. right. right. by left. }
  assert (is_present (entry s3 pt (i_pt (indices v))) = true →
          entry_addr (entry s3 pt (i_pt (indices v))) = p) as Hold.
  { intros Hpr. apply (Hsame 1). rewrite <- Hw3 by (by apply kernel_idx_of).
    rewrite <- idx_split. rewrite (walk_leaf _ _ path3 pt); [|apply Hinv3|exact Hpt|done|].
    - unfold entry in Hpr. by rewrite Hpr.
    - rewrite idx_split. by apply kernel_idx_of. }
  cbn zeta. replace (_ && negb _)%bool with false.
  2:{ symmetry. destruct (is_present _) eqn:E; [|done]. cbn [andb]. rewrite (Hold eq_refl), Z.eqb_refl. done. }
  fold e. eexists _, path3. split; [reflexivity|].
  assert (is_present e = true) as Hpr. { rewrite is_present_bit. unfold e. by rewrite lor_flag_bit by (done || lia). }
  assert (is_wx s.(NX_AVAILABLE) e = false) as Hwx.
  { rewrite is_wx_bits in *. unfold e. rewrite !(lor_flag_bit p) by (done || lia). done. }
  assert (Z.testbit e 2 = false) as He2. { unfold e. by rewrite lor_flag_bit by (done || lia). }
  pose proof (vi_tree _ _ Hinv3) as Htr3. split; [|split].
  - destruct Hinv3 as [A1 A2 A3 A4 A5 A6 A7]. split; try done; cbn [set_mem mem KERNEL_PML4 NX_AVAILABLE].
    + by eapply leaf_tree.
    + eapply leaf_leaves; try done. by rewrite (gr_nx _ _ _ _ _ Hg3).
  - destruct Hg3 as [G1 G2 G3 G4 G5 G6 G7 G8 G9]. split; try done; cbn [set_mem mem].
    + intros a Ha. rewrite <- G8 by done. by eapply (leaf_untouched s3.(mem)).
    + rewrite <- G9, <- G2. eapply leaf_old; [exact Htr3|exact Hpt|exact Bt|apply Htr3|lia|].
      intros Heq. rewrite <- Heq, (tr_root _ _ _ Htr3) in Hpt. done.
  - intros l Hl. rewrite <- Hw3 by done. destruct Hl as (H4 & Hlb & Hl0).
    cbn [set_mem mem KERNEL_PML4].
    rewrite (leaf_walk s3.(mem) s3.(KERNEL_PML4) path3 pt _ e _ Htr3 Hpt eq_refl Bt Hpr l _ []);
      [|apply Htr3|exact H4|by rewrite H4|exact Hlb|done].
    by rewrite idx_split.
Qed.

(** ** [translate] is the walk *)

Lemma entry_addr_offset e o : 0 ≤ o < 4096 → 0 ≤ entry_addr e + o < 2 ^ 52.
Proof. intros Ho. pose proof (entry_addr_bound e). pose proof (entry_addr_aligned e). zlia. Qed.

Lemma translate_ok s path va :
  vmm_inv s path → 0 ≤ va → (indices va).(i_pml4) ≠ 0 →
  translate debug s va =
    Ret (match walk s.(mem) s.(KERNEL_PML4) (idx va) 4 with
         | Some (_, e) => Some (entry_addr e + va mod 4096, e)
         | None => None
         end).
Proof.
  intros Hinv Hva H0. pose proof (vi_tree _ _ Hinv) as Htr.
  pose proof (idx_bounds va) as Hb. unfold idx_list in *.
  inversion_clear Hb as [|? ? B4 Hb1]. inversion_clear Hb1 as [|? ? B3 Hb2].
  inversion_clear Hb2 as [|? ? B2 _].
  pose proof (tr_root _ _ _ Htr) as Hroot. pose proof (tr_range _ _ _ Htr _ _ Hroot).
  unfold translate, kernel_pml4. destruct (Z.eqb_spec s.(KERNEL_PML4) 0); [lia|].
  rewrite (table_at_label s path _ _ Hinv Hroot). cbn [mbind Res_bind walk]. unfold entry.
  set (e4 := ld64 s.(mem) _). destruct (is_present e4) eqn:E4; cbn [negb]; [|done].
  destruct (tr_child _ _ _ Htr _ [] (indices va).(i_pml4) Hroot) as [Hh4 Hc4];
    [cbn; lia|done|naive_solver|done|]. fold e4 in Hh4, Hc4.
  rewrite PhysAddr_new_low by apply entry_addr_bound. cbn [mbind Res_bind].
  rewrite (table_at_label s path _ _ Hinv Hc4). cbn [mbind Res_bind].
  change (4 =? 1) with false. change (4 <? 4) with false. cbn [orb andb]. change (4 - 1) with 3.
  set (e3 := ld64 s.(mem) (entry_addr e4 + _)). destruct (is_present e3) eqn:E3; cbn [negb]; [|done].
  destruct (tr_child _ _ _ Htr _ _ (indices va).(i_pdpt) Hc4) as [Hh3 Hc3];
    [cbn; lia|done|by intros [? _]|done|]. fold e3 in Hh3, Hc3. rewrite Hh3.
  rewrite PhysAddr_new_low by apply entry_addr_bound. cbn [mbind Res_bind].
  rewrite (table_at_label s path _ _ Hinv Hc3). cbn [mbind Res_bind].
  change (3 =? 1) with false. rewrite andb_false_r. cbn [orb]. change (3 - 1) with 2.
  set (e2 := ld64 s.(mem) (entry_addr e3 + _)). destruct (is_present e2) eqn:E2; cbn [negb]; [|done].
  destruct (tr_child _ _ _ Htr _ _ (indices va).(i_pd) Hc3) as [Hh2 Hc2];
    [cbn; lia|done|by intros [? _]|done|]. fold e2 in Hh2, Hc2. rewrite Hh2.
  rewrite PhysAddr_new_low by apply entry_addr_bound. cbn [mbind Res_bind].
  rewrite (table_at_label s path _ _ Hinv Hc2). cbn [mbind Res_bind].
  change (2 =? 1) with false. rewrite andb_false_r. cbn [orb]. change (2 - 1) with 1.
  set (e1 := ld64 s.(mem) (entry_addr e2 + _)). destruct (is_present e1) eqn:E1; cbn [negb]; [|done].
  change (1 =? 1) with true. cbn [orb].
  rewrite (indices_arith va) by done. cbn [i_offset].
  assert (0 ≤ va mod 4096 < 4096) as Ho by (apply Z.mod_pos_bound; lia).
  pose proof (entry_addr_offset e1 _ Ho).
  rewrite add64_ok by (rewrite U64_val; lia). cbn [mbind Res_bind].
  rewrite PhysAddr_new_low by done. done.
Qed.

(** ** [map_4k] *)

(** A page-aligned range of the higher half and its physical target. *)
Record range_ok (va pa size : Z) : Prop := {
  ro_va : va mod 4096 = 0;
  ro_pa : pa mod 4096 = 0;
  ro_size : size mod 4096 = 0;
  ro_high : U64 - 2 ^ 47 ≤ va ∧ va + size ≤ U64;
  ro_phys : 0 ≤ pa ∧ pa + size ≤ 2 ^ 52;
  ro_nonneg : 0 ≤ size;
}.

Definition vpage (va k : Z) : Z := va + k * 4096.

Lemma high_pml4 v : U64 - 2 ^ 47 ≤ v < U64 → (indices v).(i_pml4) ≠ 0.
Proof.
  intros Hv. rewrite indices_arith by (rewrite U64_val in *; lia). cbn [i_pml4].
  rewrite U64_val in *. zlia.
Qed.

Lemma vpage_ok va pa size k :
  range_ok va pa size → 0 ≤ k < size / 4096 →
  canonical (vpage va k) = true ∧ U64 - 2 ^ 47 ≤ vpage va k < U64 ∧
  (indices (vpage va k)).(i_pml4) ≠ 0 ∧ frame_addr (vpage pa k) ∧ vpage va k mod 4096 = 0.
Proof.
  intros [Hva Hpa Hsz Hhi Hph Hnn] Hk. unfold vpage.
  assert (U64 - 2 ^ 47 ≤ va + k * 4096 < U64) as Hr by (rewrite U64_val in *; zlia).
  split; [apply canonical_iff; lia|]. split; [done|]. split; [by apply high_pml4|].
  split; [split; zlia|zlia].
Qed.

Lemma vpage_inj va pa size k k' :
  range_ok va pa size → 0 ≤ k < size / 4096 → 0 ≤ k' < size / 4096 →
  idx (vpage va k) = idx (vpage va k') → k = k'.
Proof.
  intros Hr Hk Hk' Heq. destruct (vpage_ok _ _ _ _ Hr Hk) as (H1 & _ & _ & _ & H2).
  destruct (vpage_ok _ _ _ _ Hr Hk') as (H3 & _ & _ & _ & H4).
  apply idx_inj in Heq; try done. unfold vpage in Heq. lia.
Qed.

(** No page of the range is mapped to another frame. *)
Definition no_conflict (s : Vmm S) (va pa n : Z) : Prop :=
  ∀ k lv e, 0 ≤ k < n → walk s.(mem) s.(KERNEL_PML4) (idx (vpage va k)) 4 = Some (lv, e) →
            entry_addr e = vpage pa k.

(** [s'] is [s] with the first [n] pages of the range mapped. *)
Definition mapped (s s' : Vmm S) (va pa n f : Z) : Prop :=
  (∀ k, 0 ≤ k < n →
     walk s'.(mem) s'.(KERNEL_PML4) (idx (vpage va k)) 4 = Some (1, Z.lor (vpage pa k) f)) ∧
  (∀ l, kernel_idx l → (∀ k, 0 ≤ k < n → l ≠ idx (vpage va k)) →
     walk s'.(mem) s'.(KERNEL_PML4) l 4 = walk s.(mem) s.(KERNEL_PML4) l 4).

Lemma mapped_step s s1 s2 va pa size n f :
  range_ok va pa size → 0 ≤ n < size / 4096 → mapped s s1 va pa n f →
  (∀ l, kernel_idx l → walk s2.(mem) s2.(KERNEL_PML4) l 4 =
     if bool_decide (l = idx (vpage va n)) then Some (1, Z.lor (vpage pa n) f)
     else walk s1.(mem) s1.(KERNEL_PML4) l 4) →
  mapped s s2 va pa (n + 1) f.
Proof.
  intros Hr Hn [Hin Hout] Hw. split.
  - intros k Hk. destruct (vpage_ok va pa size k Hr) as (_ & _ & H4 & _); [lia|].
    rewrite Hw by (by apply kernel_idx_of). destruct (decide (k = n)) as [->|Hne].
    + by rewrite bool_decide_eq_true_2.
    + rewrite bool_decide_eq_false_2; [apply Hin; lia|]. intros Heq.
      apply (vpage_inj va pa size) in Heq; [done|done|lia|lia].
  - intros l Hl Hne. rewrite Hw by done.
    rewrite bool_decide_eq_false_2 by (apply Hne; lia). apply Hout; [done|].
    intros k Hk. apply Hne. lia.
Qed.

(** The loop of [map_4k]. *)
Lemma map_4k_ok s path va pa len perm :
  vmm_inv s path → range_ok va pa len → 3 * (len / 4096) ≤ Z.of_nat (size (free s)) →
  no_conflict s va pa (len / 4096) →
  ∃ s' path', map_4k debug s va pa len perm = Ret s' ∧ vmm_inv s' path' ∧
    grows (3 * (len / 4096)) s path s' path' ∧
    mapped s s' va pa (len / 4096) (effective s.(NX_AVAILABLE) perm).
Proof.
  intros Hinv Hr Hsz Hnc. pose proof Hr as [Hva Hpa Hlen Hhi Hph Hnn].
  pose proof (tr_range _ _ _ (vi_tree _ _ Hinv) _ _ (tr_root _ _ _ (vi_tree _ _ Hinv))) as Hroot.
  unfold map_4k, PAGE_SIZE, kernel_pml4, nx_available. rewrite Hva, Hpa, Hlen. cbn [rassert mbind Res_bind Z.eqb].
  destruct (Z.eqb_spec s.(KERNEL_PML4) 0) as [|_]; [lia|]. cbn [negb rassert mbind Res_bind].
  set (f := effective s.(NX_AVAILABLE) perm).
  assert (0 ≤ len / 4096) as Hp0 by zlia.
  destruct (for_range_inv (fun n s1 => ∃ path1, vmm_inv s1 path1 ∧ grows (3 * n) s path s1 path1 ∧
      mapped s s1 va pa n f) 0 (len / 4096) s (map_4k_body debug va pa f s.(KERNEL_PML4)))
    as (s' & Hl & path' & Hinv' & Hg' & Hm'); [done| | |exists s', path'; by rewrite Hl].
  - exists path. split; [done|]. split; [apply grows_refl|]. split; [lia|done].
  - intros n s1 Hn (path1 & Hinv1 & Hg1 & Hm1).
    destruct (vpage_ok va pa len n Hr Hn) as (Hcan & Hrange & Hi4 & Hfa & Hal).
    pose proof (gr_nx _ _ _ _ _ Hg1) as Enx. pose proof (gr_pml4 _ _ _ _ _ Hg1) as Epm.
    pose proof (gr_count _ _ _ _ _ Hg1) as Hcnt.
    assert (vpage va n - va = n * 4096) as Hoff by (unfold vpage; lia).
    destruct (map_4k_body_ok s1 path1 va pa perm n (vpage va n) (vpage pa n))
      as (s2 & path2 & E & Hinv2 & Hg2 & Hw2); rewrite ?Hoff.
    + done.
    + lia.
    + apply mul64_ok. unfold PAGE_SIZE. rewrite U64_val in *. zlia.
    + done.
    + apply add64_ok. unfold vpage in Hrange. lia.
    + apply add64_ok. rewrite U64_val in *. zlia.
    + done.
    + done.
    + done.
    + intros lv e Hwk. apply (Hnc n lv e Hn). destruct Hm1 as [_ Hout]. rewrite <- Hout; [done|by apply kernel_idx_of|].
      intros k Hk Heq. apply (vpage_inj va pa len) in Heq; [lia|done|lia|lia].
    + rewrite Enx, Epm in E. exists s2. split; [exact E|]. exists path2. split; [done|]. split.
      * replace (3 * (n + 1)) with (3 * n + 3) by lia. by eapply grows_trans.
      * eapply mapped_step; [done|done|done|]. unfold f. rewrite <- Enx. exact Hw2.
Qed.

End State.
