(* ===== verification/VmmSpec.v ===== *)
(** * What the page-table code guarantees

    The theorems about kernel/src/memory/vmm.rs, proved against the interface
    [FrameSource]: [map_4k] makes exactly the requested range translate as
    requested and refuses to remap; [init] builds the documented address space;
    [harden_boot_map] removes execute and user access from the identity map
    without moving it; with NX available [count_wx_violations] returns 0 exactly
    when no page the CPU reaches has a writable and executable entry, a property
    stated in the bits of the entries. *)

From S2P Require Import Prelude Arch BootInfo Bitmap Pmm PmmSpec Vmm PageTables.
From stdpp Require Import base gmap sets list list_numbers strings numbers.
From Stdlib Require Import ZArith Lia.
#[local] Open Scope Z_scope.

(** ** A frame source for the witnesses: a list of frame numbers *)

#[refine] Definition list_source : FrameSource (list Z) := {|
  fs_alloc l := match l with [] => Ret (None, []) | i :: l' => Ret (Some (i * FRAME_SIZE), l') end;
  fs_free l := list_to_set l;
  fs_inv l := NoDup l ∧ Forall (fun i => 0 ≤ i < MAX_FRAMES) l;
|}.
Proof.
  - intros l i [_ Hl] Hi%elem_of_list_to_set. rewrite Forall_forall in Hl.
    by apply Hl, list_elem_of_In.
  - intros [|i l] [Hnd Hr]; [by exists None, []|].
    apply list.NoDup_cons in Hnd as [Hn Hnd]. inversion_clear Hr.
    exists (Some (i * FRAME_SIZE)), l. split; [done|]. split; [done|].
    exists i. split; [done|]. split; [set_solver|]. cbn. set_solver.
Defined.

(** The tables of the identity map: the PDPT that slot 0 of [root] names, its
    entries, and the page directories they name. *)
Abbreviation ident_pdpt m root := (entry_addr (ld64 m (root + 8 * 0))).
Abbreviation ident_pde m root i := (ld64 m (ident_pdpt m root + 8 * i)).
Abbreviation ident_pd m root i := (entry_addr (ident_pde m root i)).

Section Spec.
Context {S : Type} `{FS : FrameSource S} `{X : X86Crate}.
Context (debug : bool).

Abbreviation free s := (fs_free s.(src)).

(** ** Addresses inside a page *)

Lemma idx_page v : 0 ≤ v → idx v = idx (4096 * page v).
Proof.
  intros Hv. rewrite !indices_arith by zlia. unfold idx_list. cbn [i_pml4 i_pdpt i_pd i_pt].
  f_equal; [zlia|]. f_equal; [zlia|]. f_equal; [zlia|]. f_equal. zlia.
Qed.

Lemma idx_vpage v va pa len :
  range_ok va pa len → va ≤ v < va + len →
  let k := (v - va) / 4096 in 0 ≤ k < len / 4096 ∧ 4096 * page v = vpage va k.
Proof. intros [Hva _ Hlen _ _ _] Hv. cbn zeta. unfold vpage. split; zlia. Qed.

Lemma idx_outside v va pa len k :
  range_ok va pa len → U64 - 2 ^ 47 ≤ v < U64 → (v < va ∨ va + len ≤ v) →
  0 ≤ k < len / 4096 → idx v ≠ idx (vpage va k).
Proof.
  intros Hr Hv Hout Hk Heq. rewrite idx_page in Heq by (rewrite U64_val in *; lia).
  destruct (vpage_ok va pa len k Hr Hk) as (Hc & _ & _ & _ & Hal).
  apply idx_inj in Heq; [|apply canonical_iff; rewrite U64_val in *; zlia|done|zlia|done].
  destruct Hr as [Hva _ Hlen _ _ _]. unfold vpage in *. zlia.
Qed.

(** The entry [map_4k] writes for the page of [v]. *)
Definition page_entry (nx : bool) (va pa v : Z) (perm : Perm) : Z :=
  Z.lor (pa + 4096 * ((v - va) / 4096)) (effective nx perm).

(** How [translate] changes when a range is mapped. *)
Lemma mapped_translate s s' path path' va pa len perm v :
  vmm_inv s path → vmm_inv s' path' → range_ok va pa len →
  mapped s s' va pa (len / 4096) (effective s.(NX_AVAILABLE) perm) →
  U64 - 2 ^ 47 ≤ v < U64 →
  translate debug s' v =
    if bool_decide (va ≤ v < va + len)
    then Ret (Some (pa + (v - va), page_entry s.(NX_AVAILABLE) va pa v perm))
    else translate debug s v.
Proof.
  intros Hinv Hinv' Hr [Hin Hout] Hv.
  assert (0 ≤ v) as Hv0 by (rewrite U64_val in *; lia).
  pose proof (high_pml4 v Hv) as H4.
  rewrite (translate_ok debug s' path' v Hinv' Hv0 H4), (translate_ok debug s path v Hinv Hv0 H4).
  case_bool_decide as Hc.
  - destruct (idx_vpage v va pa len Hr Hc) as [Hk Hpg].
    destruct (vpage_ok va pa len _ Hr Hk) as (_ & _ & _ & Hfa & _).
    rewrite (idx_page v Hv0), Hpg, (Hin _ Hk).
    rewrite entry_addr_lor by (done || apply effective_good). unfold page_entry, vpage.
    destruct Hr as [Hva _ _ _ _ _]. do 2 f_equal. f_equal; [zlia|]. f_equal. lia.
  - rewrite Hout; [done|by apply kernel_idx_of|].
    intros k Hk. apply (idx_outside v va pa len); (done || lia).
Qed.

(** C15: on a well-formed tree, with three free frames per page and no page
    of the range mapped elsewhere, [map_4k] succeeds; afterwards every address
    of the range translates to its physical counterpart with the profile's
    flags, every other address of the higher half translates as before, the
    tree is well formed (no shared tables, no W+X leaf, no user page) and no
    memory outside the tree's own frames has changed. *)
Theorem map_4k_translates s path va pa len perm :
  vmm_inv s path → range_ok va pa len → 3 * (len / 4096) ≤ Z.of_nat (size (free s)) →
  no_conflict s va pa (len / 4096) →
  ∃ s' path', map_4k debug s va pa len perm = Ret s' ∧ vmm_inv s' path' ∧
    (∀ v, U64 - 2 ^ 47 ≤ v < U64 → translate debug s' v =
       if bool_decide (va ≤ v < va + len)
       then Ret (Some (pa + (v - va), page_entry s.(NX_AVAILABLE) va pa v perm))
       else translate debug s v) ∧
    (∀ a, path' !! (4096 * page a) = None → ld64 s'.(mem) a = ld64 s.(mem) a) ∧
    (∀ t p, path' !! t = Some p → path !! t = None → page t ∈ free s).
Proof.
  intros Hinv Hr Hsz Hnc.
  destruct (map_4k_ok debug s path va pa len perm) as (s' & path' & E & Hinv' & Hg & Hm); [done..|].
  exists s', path'. split; [done|]. split; [done|]. split; [|split].
  - intros v Hv. by eapply mapped_translate.
  - apply (gr_mem _ _ _ _ _ Hg).
  - apply (gr_new _ _ _ _ _ Hg).
Qed.

(** ** Refused mappings *)

(** The call panics with [msg] and so maps nothing. *)
Definition refuses (s : Vmm S) (va pa len : Z) (perm : Perm) (msg : string) : Prop :=
  map_4k debug s va pa len perm = Panic (PanicMsg msg).

(** C23: [map_4k] panics rather than map when an argument is not page
    aligned, when no page table exists yet, and when the page already
    translates to a different frame (whatever its permissions). *)
Theorem map_4k_refuses s path va pa len perm :
  (va mod 4096 ≠ 0 → refuses s va pa len perm "map_4k: unaligned va") ∧
  (va mod 4096 = 0 → pa mod 4096 ≠ 0 →
     refuses s va pa len perm "map_4k: unaligned pa") ∧
  (va mod 4096 = 0 → pa mod 4096 = 0 → len mod 4096 ≠ 0 →
     refuses s va pa len perm "map_4k: unaligned size") ∧
  (va mod 4096 = 0 → pa mod 4096 = 0 → len mod 4096 = 0 → s.(KERNEL_PML4) = 0 →
     refuses s va pa len perm "map_4k before vmm::init") ∧
  (vmm_inv s path → range_ok va pa len → 4096 ≤ len → 3 ≤ Z.of_nat (size (free s)) →
     ∀ q e, translate debug s va = Ret (Some (q, e)) → q ≠ pa →
     refuses s va pa len perm "map_4k: already maps, refusing to remap").
Proof.
  unfold refuses, map_4k, PAGE_SIZE, kernel_pml4. split_and!.
  - intros H. by rewrite (proj2 (Z.eqb_neq _ _) H).
  - intros -> H. by rewrite (proj2 (Z.eqb_neq _ _) H).
  - intros -> -> H. by rewrite (proj2 (Z.eqb_neq _ _) H).
  - intros -> -> -> ->. done.
  - intros Hinv Hr Hlen Hsz q e Htr Hne. pose proof Hr as [Hva Hpa Hl Hhi Hph _].
    rewrite Hva, Hpa, Hl. cbn [Z.eqb rassert mbind Res_bind].
    pose proof (tr_root _ _ _ (vi_tree _ _ Hinv)) as Hroot.
    pose proof (tr_range _ _ _ (vi_tree _ _ Hinv) _ _ Hroot).
    destruct (Z.eqb_spec s.(KERNEL_PML4) 0) as [|_]; [lia|]. cbn [negb rassert mbind Res_bind].
    rewrite for_range_step by zlia.
    assert (0 ≤ 0 < len / 4096) as H0 by zlia.
    destruct (vpage_ok va pa len 0 Hr H0) as (Hcan & Hrange & Hi4 & _ & _).
    unfold vpage in *. rewrite Z.mul_0_l, Z.add_0_r in *.
    destruct (map_4k_body_levels debug s path va pa (effective (nx_available s) perm) 0 va pa)
      as (pt & s3 & path3 & Hinv3 & Hg3 & Hpt & Hw3 & ->); rewrite ?Z.sub_diag, ?Z.add_0_r;
      [done|done|done|done|apply add64_Ret; lia|apply add64_Ret; rewrite U64_val; lia|done|done|].
    cbn zeta.
    rewrite (translate_ok debug s path va Hinv) in Htr by (rewrite ?U64_val in *; (done || lia)).
    destruct (walk s.(mem) s.(KERNEL_PML4) (idx va) 4) as [[lv e']|] eqn:Ew; [|done].
    injection Htr as Hq ->. rewrite Hva, Z.add_0_r in Hq.
    rewrite <- Hw3, <- idx_split in Ew by (by apply kernel_idx_of).
    rewrite (walk_leaf _ _ path3 pt) in Ew;
      [|apply Hinv3|exact Hpt|done|rewrite idx_split; by apply kernel_idx_of].
    unfold entry. destruct (is_present _) eqn:Ep; [|done].
    assert (ld64 s3.(mem) (pt + 8 * (indices va).(i_pt)) = e) as -> by congruence.
    cbn [andb]. rewrite Hq. by rewrite (proj2 (Z.eqb_neq _ _) Hne).
Qed.

(** ** The identity map *)

(** What boot.asm leaves under slot 0: page directories of 2 MiB pages, in
    tables that are neither the PDPT nor the root. *)
Record boot_map (m : phys) (root : Z) : Prop := {
  bm_root : root mod 4096 = 0 ∧ 0 < root < BOOT_MAPPED_BYTES;
  bm_present : is_present (ld64 m (root + 8 * 0)) = true;
  bm_pdpt : 0 < ident_pdpt m root < BOOT_MAPPED_BYTES ∧ ident_pdpt m root ≠ root;
  bm_pd i : 0 ≤ i < 512 → is_present (ident_pde m root i) = true →
    is_huge (ident_pde m root i) = false ∧ 0 < ident_pd m root i < BOOT_MAPPED_BYTES ∧
    ident_pd m root i ≠ ident_pdpt m root ∧ ident_pd m root i ≠ root;
  bm_leaf i j : 0 ≤ i < 512 → is_present (ident_pde m root i) = true → 0 ≤ j < 512 →
    is_present (ld64 m (ident_pd m root i + 8 * j)) = true →
    is_huge (ld64 m (ident_pd m root i + 8 * j)) = true;
}.

(** The entry [harden_boot_map] writes over [e]. *)
Definition hardened (nx : bool) (e : Z) : Z :=
  Z.lor (Z.lor (entry_addr e) (effective nx BootIdentity)) HUGE_PAGE.

Lemma hardened_flags nx : flag_bits (Z.lor (effective nx BootIdentity) HUGE_PAGE).
Proof. destruct nx; apply flag_bits_check; by vm_compute. Qed.

Lemma entry_frame e : frame_addr (entry_addr e).
Proof. split; [apply entry_addr_aligned|apply entry_addr_bound]. Qed.

Lemma hardened_bits nx e :
  entry_addr (hardened nx e) = entry_addr e ∧ is_present (hardened nx e) = true ∧
  is_huge (hardened nx e) = true ∧ Z.testbit (hardened nx e) 2 = false ∧
  Z.testbit (hardened nx e) 63 = nx ∧ is_wx nx (hardened nx e) = false.
Proof.
  unfold hardened. rewrite <- Z.lor_assoc. pose proof (entry_frame e) as Hf.
  rewrite entry_addr_lor by (done || apply hardened_flags).
  rewrite is_present_bit, is_huge_bit, is_wx_bits. rewrite !(lor_flag_bit (entry_addr e)) by (done || lia).
  split; [done|]. clear Hf e. by destruct nx.
Qed.

Lemma hardened_idem nx e : hardened nx (hardened nx e) = hardened nx e.
Proof. unfold hardened at 1 3. destruct (hardened_bits nx e) as (-> & _). done. Qed.

(** The state of memory while the first [n] directories, and the first [j]
    entries of directory [n], have been hardened. *)
Record hardening (nx : bool) (m m' : phys) (root n j : Z) : Prop := {
  hd_either a : ld64 m' a = ld64 m a ∨
    (is_present (ld64 m a) = true ∧ ld64 m' a = hardened nx (ld64 m a) ∧
     ∃ i, 0 ≤ i < 512 ∧ is_present (ident_pde m root i) = true ∧ page a = page (ident_pd m root i));
  hd_done i k : 0 ≤ i < 512 → 0 ≤ k < 512 → (i < n ∨ i = n ∧ k < j) →
    is_present (ident_pde m root i) = true →
    is_present (ld64 m (ident_pd m root i + 8 * k)) = true →
    ld64 m' (ident_pd m root i + 8 * k) = hardened nx (ld64 m (ident_pd m root i + 8 * k));
}.

(** Hardening never touches the PDPT or the root. *)
Lemma hardening_tables nx m m' root n j t i :
  boot_map m root → hardening nx m m' root n j → t mod 4096 = 0 →
  t = root ∨ t = ident_pdpt m root → 0 ≤ i < 512 → ld64 m' (t + 8 * i) = ld64 m (t + 8 * i).
Proof.
  intros Hb Hh Hal Ht Hi. destruct (hd_either _ _ _ _ _ _ Hh (t + 8 * i)) as [|(_ & _ & k & Hk & Hp & Hpg)]; [done|].
  exfalso. rewrite slot_page in Hpg by done.
  destruct (bm_pd _ _ Hb k Hk Hp) as (_ & _ & Hn1 & Hn2).
  pose proof (entry_addr_aligned (ident_pde m root k)) as Hal2.
  assert (t = ident_pd m root k) by zlia. destruct Ht; congruence.
Qed.

Lemma harden_entry_ok (s : Vmm S) m root n j c :
  boot_map m root → hardening s.(NX_AVAILABLE) m s.(mem) root n j → 0 ≤ n < 512 → 0 ≤ j < 512 →
  is_present (ident_pde m root n) = true → 0 ≤ c < 2 ^ 32 →
  ∃ s' c', harden_entry (ident_pd m root n) (effective s.(NX_AVAILABLE) BootIdentity) j (s, c) = Ret (s', c') ∧
    hardening s.(NX_AVAILABLE) m s'.(mem) root n (j + 1) ∧ c ≤ c' ≤ c + 1 ∧ s' = set_mem s s'.(mem).
Proof.
  intros Hb Hh Hn Hj Hp Hc. unfold harden_entry, entry.
  set (a := ident_pd m root n + 8 * j) in *. set (nx := s.(NX_AVAILABLE)) in *.
  pose proof (entry_addr_aligned (ident_pde m root n)) as Hal.
  assert (ld64 s.(mem) a = ld64 m a ∨ ld64 s.(mem) a = hardened nx (ld64 m a)) as Hcur.
  { destruct (hd_either _ _ _ _ _ _ Hh a) as [|(_ & ? & _)]; auto. }
  destruct (is_present (ld64 s.(mem) a)) eqn:Ep; cbn [negb].
  - rewrite add64_ok by (rewrite U64_val; lia). cbn [mbind Res_bind].
    eexists _, _. split; [reflexivity|]. split; [|split; [lia|done]]. cbn [set_mem mem].
    fold nx. change (Z.lor (Z.lor (entry_addr (ld64 s.(mem) a)) (effective nx BootIdentity)) HUGE_PAGE)
      with (hardened nx (ld64 s.(mem) a)).
    assert (hardened nx (ld64 s.(mem) a) = hardened nx (ld64 m a)) as ->.
    { destruct Hcur as [->| ->]; [done|apply hardened_idem]. }
    assert (is_present (ld64 m a) = true) as Hpm.
    { destruct (hd_either _ _ _ _ _ _ Hh a) as [<-|(? & _ & _)]; done. }
    split.
    + intros b. destruct (decide (b = a)) as [->|Hne].
      * right. rewrite ld64_st64_eq. split; [done|]. split; [done|]. exists n. split; [done|].
        split; [done|]. unfold a. by apply slot_page.
      * rewrite ld64_st64_ne by congruence. apply (hd_either _ _ _ _ _ _ Hh).
    + intros i k Hi Hk Hlt Hpi Hpk. destruct (decide (ident_pd m root i + 8 * k = a)) as [->|Hne].
      * by rewrite ld64_st64_eq.
      * rewrite ld64_st64_ne by congruence. apply (hd_done _ _ _ _ _ _ Hh); try done.
        destruct Hlt as [|[-> Hk']]; [by left|]. right. split; [done|].
        destruct (decide (k = j)) as [->|]; [by unfold a in Hne|lia].
  - exists s, c. split; [done|]. split; [|split; [lia|by destruct s]].
    split; [apply Hh|]. intros i k Hi Hk Hlt Hpi Hpk. apply (hd_done _ _ _ _ _ _ Hh); try done.
    destruct Hlt as [|[-> Hk']]; [by left|]. right. split; [done|].
    destruct (decide (k = j)) as [->|]; [|lia]. exfalso. fold a in Hpk.
    destruct Hcur as [E|E]; rewrite E in Ep; [congruence|].
    destruct (hardened_bits nx (ld64 m a)) as (_ & Hpr & _). congruence.
Qed.

Lemma hardening_next nx m m' root n : hardening nx m m' root n 512 → hardening nx m m' root (n + 1) 0.
Proof.
  intros Hh. split; [apply Hh|]. intros i k Hi Hk Hlt. apply (hd_done _ _ _ _ _ _ Hh); try done. lia.
Qed.

Lemma harden_pd_ok (s : Vmm S) m root n c :
  boot_map m root → hardening s.(NX_AVAILABLE) m s.(mem) root n 0 → 0 ≤ n < 512 →
  0 ≤ c ≤ 512 * n →
  ∃ s' c', harden_pd debug (ident_pdpt m root) (effective s.(NX_AVAILABLE) BootIdentity) n (s, c) = Ret (s', c') ∧
    hardening s.(NX_AVAILABLE) m s'.(mem) root (n + 1) 0 ∧ c ≤ c' ≤ 512 * (n + 1) ∧ s' = set_mem s s'.(mem).
Proof.
  intros Hb Hh Hn Hc. unfold harden_pd, entry.
  rewrite (hardening_tables _ m s.(mem) root n 0 _ n Hb Hh (entry_addr_aligned _) (or_intror eq_refl) Hn).
  destruct (is_present (ident_pde m root n)) eqn:Ep; cbn [negb].
  2:{ exists s, c. split; [done|]. split; [|split; [lia|by destruct s]].
      split; [apply Hh|]. intros i k Hi Hk Hlt Hpi Hpk. apply (hd_done _ _ _ _ _ _ Hh); try done.
      destruct (decide (i = n)) as [->|]; [congruence|lia]. }
  destruct (bm_pd _ _ Hb n Hn Ep) as (Hhuge & Hr & _). rewrite Hhuge. cbn [negb rassert mbind Res_bind].
  rewrite PhysAddr_new_low by apply entry_addr_bound. cbn [mbind Res_bind].
  rewrite table_at_ok by (done || apply entry_addr_aligned). cbn [mbind Res_bind].
  destruct (for_range_inv (fun j st => hardening s.(NX_AVAILABLE) m st.1.(mem) root n j ∧
      c ≤ st.2 ≤ c + j ∧ st.1 = set_mem s st.1.(mem)) 0 512 (s, c)
      (harden_entry (ident_pd m root n) (effective s.(NX_AVAILABLE) BootIdentity)))
    as ([s' c'] & -> & Hh' & Hc' & Hs'); [lia| | |].
  - split; [done|]. split; [cbn; lia|by destruct s].
  - intros j [s1 c1] Hj (Hh1 & Hc1 & Hs1). cbn [fst snd] in *.
    assert (s1.(NX_AVAILABLE) = s.(NX_AVAILABLE)) as Enx by (by rewrite Hs1).
    destruct (harden_entry_ok s1 m root n j c1) as (s2 & c2 & E & Hh2 & Hc2 & Hs2);
      [done|by rewrite Enx|done|done|done|lia|].
    rewrite Enx in E, Hh2. exists (s2, c2). split; [exact E|]. cbn [fst snd].
    split; [done|]. split; [lia|]. rewrite Hs2, Hs1. done.
  - cbn [fst snd] in *. exists s', c'. split; [done|]. split; [by apply hardening_next|]. split; [lia|done].
Qed.

Lemma harden_ok (s : Vmm S) :
  boot_map s.(mem) s.(CR3) →
  ∃ s' n, harden_boot_map debug s = Ret (s', n) ∧ 0 ≤ n ≤ 262144 ∧ s' = set_mem s s'.(mem) ∧
    hardening s.(NX_AVAILABLE) s.(mem) s'.(mem) s.(CR3) 512 0.
Proof.
  intros Hb. unfold harden_boot_map, boot_root_table, nx_available, entry.
  destruct (bm_root _ _ Hb) as [Hal Hr]. destruct (bm_pdpt _ _ Hb) as [Hpr _].
  rewrite table_at_ok by done. cbn [mbind Res_bind]. rewrite (bm_present _ _ Hb). cbn [negb].
  rewrite PhysAddr_new_low by apply entry_addr_bound. cbn [mbind Res_bind].
  rewrite table_at_ok by (done || apply entry_addr_aligned). cbn [mbind Res_bind].
  destruct (for_range_inv (fun i st => hardening s.(NX_AVAILABLE) s.(mem) st.1.(mem) s.(CR3) i 0 ∧
      0 ≤ st.2 ≤ 512 * i ∧ st.1 = set_mem s st.1.(mem)) 0 512 (s, 0)
      (harden_pd debug (ident_pdpt s.(mem) s.(CR3)) (effective s.(NX_AVAILABLE) BootIdentity)))
    as ([s' c'] & -> & Hh' & Hc' & Hs'); [lia| | |].
  - split; [|split; [cbn; lia|by destruct s]]. split; [by left|]. intros. lia.
  - intros j [s1 c1] Hj (Hh1 & Hc1 & Hs1). cbn [fst snd] in *.
    assert (s1.(NX_AVAILABLE) = s.(NX_AVAILABLE)) as Enx by (by rewrite Hs1).
    destruct (harden_pd_ok s1 s.(mem) s.(CR3) j c1) as (s2 & c2 & E & Hh2 & Hc2 & Hs2);
      [done|by rewrite Enx|done|done|].
    rewrite Enx in E, Hh2. exists (s2, c2). split; [exact E|]. cbn [fst snd].
    split; [done|]. split; [lia|]. rewrite Hs2, Hs1. done.
  - cbn [fst snd] in *. exists s', c'. split; [done|]. split; [lia|]. done.
Qed.


(** ** Counting W+X leaves *)

(** A loop whose body adds a bounded count. *)
Lemma count_loop (P : Z → Prop) B n body :
  0 ≤ B → 0 ≤ n → n + 512 * B < U64 →
  (∀ i k, 0 ≤ i < 512 → 0 ≤ k ≤ n + i * B →
     ∃ c, body i k = Ret (k + c) ∧ 0 ≤ c ≤ B ∧ (c = 0 ↔ P i)) →
  ∃ c, for_range 0 512 n body = Ret (n + c) ∧ 0 ≤ c ≤ 512 * B ∧ (c = 0 ↔ ∀ i, 0 ≤ i < 512 → P i).
Proof.
  intros HB Hn Hov Hbody.
  destruct (for_range_inv (fun j k => n ≤ k ≤ n + j * B ∧ (k = n ↔ ∀ i, 0 ≤ i < j → P i)) 0 512 n body)
    as (k & -> & Hk & Hiff); [lia| | |].
  - split; [lia|]. split; [|done]. intros _ i Hi. lia.
  - intros j k Hj [Hk Hiff]. destruct (Hbody j k Hj) as (c & -> & Hc & Hci); [lia|].
    eexists. split; [reflexivity|]. split; [lia|]. split.
    + intros Heq i Hi. destruct (decide (i = j)) as [->|]; [apply Hci; lia|]. apply Hiff; lia.
    + intros Hall. assert (k = n) by (apply Hiff; intros i Hi; apply Hall; lia).
      assert (c = 0) by (apply Hci, Hall; lia). lia.
  - exists (k - n). split; [f_equal; lia|]. split; [lia|]. rewrite <- Hiff. lia.
Qed.

(** Every table below [t] is a page of the boot-mapped range. *)
Fixpoint tables_ok (m : phys) (t : Z) (lvl : nat) : Prop :=
  match lvl with
  | O => True
  | Datatypes.S k =>
      t mod 4096 = 0 ∧ 0 < t < BOOT_MAPPED_BYTES ∧
      ∀ i, 0 ≤ i < 512 → is_present (ld64 m (t + 8 * i)) = true →
           k = O ∨ ((lvl < 4)%nat ∧ is_huge (ld64 m (t + 8 * i)) = true) ∨
           tables_ok m (entry_addr (ld64 m (t + 8 * i))) k
  end.

(** No leaf below [t] is writable and executable. *)
Definition no_wx (nx : bool) (m : phys) (t : Z) (lvl : nat) : Prop :=
  ∀ l k e, length l = lvl → Forall (fun i => 0 ≤ i < 512) l →
           walk m t l (Z.of_nat lvl) = Some (k, e) → is_wx nx e = false.

(** *** The rule in terms of the hardware's bits *)

(** The leaf the CPU reaches through four table indices: bit 0 of an entry says
    present, bit 7 ends the walk at 1 GiB and 2 MiB pages, bits 12 to 51 hold the
    physical address. *)
Fixpoint mmu_walk (m : phys) (t : Z) (l : list Z) (lvl : Z) : option Z :=
  match l with
  | [] => None
  | i :: l' =>
      let e := ld64 m (t + 8 * i) in
      if negb (Z.testbit e 0) then None
      else if (lvl =? 1) || ((lvl <? 4) && Z.testbit e 7) then Some e
      else mmu_walk m (Z.shiftl (Z.shiftr e 12 mod 2 ^ 40) 12) l' (lvl - 1)
  end.

(** No page of the address space is both writable (bit 1 of its entry) and
    executable (bit 63 clear). *)
Definition wx_free (m : phys) (root : Z) : Prop :=
  ∀ l e, length l = 4%nat → Forall (fun i => 0 ≤ i < 512) l →
         mmu_walk m root l 4 = Some e → ¬ (Z.testbit e 1 = true ∧ Z.testbit e 63 = false).

Lemma entry_addr_field e : entry_addr e = Z.shiftl (Z.shiftr e 12 mod 2 ^ 40) 12.
Proof.
  apply Z.bits_inj'. intros n Hn. unfold entry_addr. rewrite Z.shiftl_spec, Z.land_spec by done.
  change 0x000FFFFFFFFFF000 with (Z.shiftl (Z.ones 40) 12). rewrite Z.shiftl_spec by done.
  destruct (Z.ltb_spec n 12) as [Hlt|Hge].
  - rewrite !(Z.testbit_neg_r _ (n - 12)) by lia. apply andb_false_r.
  - rewrite <- Z.land_ones, Z.land_spec, Z.shiftr_spec by lia. by replace (n - 12 + 12) with n by lia.
Qed.

Lemma mmu_walk_eq m t l lvl : mmu_walk m t l lvl = snd <$> walk m t l lvl.
Proof.
  revert t lvl. induction l as [|i l IH]; intros t lvl; cbn [mmu_walk walk]; [done|].
  rewrite is_present_bit, is_huge_bit. destruct (Z.testbit _ 0); cbn [negb]; [|done].
  destruct (_ || _)%bool; [done|]. by rewrite IH, <- entry_addr_field.
Qed.

Lemma no_wx_free nx m root : no_wx nx m root 4 ↔ (nx = true → wx_free m root).
Proof.
  unfold no_wx, wx_free. setoid_rewrite mmu_walk_eq. setoid_rewrite is_wx_bits. split.
  - intros H -> l e Hl Hi ([k e'] & Hw & ->)%fmap_Some [H1 H2]. cbn [snd] in *.
    specialize (H l k e' Hl Hi Hw). by rewrite H1, H2 in H.
  - intros H l k e Hl Hi Hw. change (Z.of_nat 4) with 4 in Hw.
    destruct nx; [|by rewrite andb_false_r]. specialize (H eq_refl l e Hl Hi). rewrite Hw in H. specialize (H eq_refl).
    destruct (Z.testbit e 1), (Z.testbit e 63); try done. by destruct H.
Qed.

Lemma count_if_ok b n :
  0 ≤ n → n + 1 < U64 → ∃ c, count_if b n = Ret (n + c) ∧ 0 ≤ c ≤ 1 ∧ (c = 0 ↔ b = false).
Proof.
  intros Hn Hov. unfold count_if. destruct b.
  - rewrite add64_ok by lia. exists 1. split; [done|]. split; [lia|]. split; [lia|done].
  - exists 0. split; [f_equal; lia|]. split; [lia|done].
Qed.

(** The walks below slot [i] of the table [t]. *)
Definition slot_no_wx (nx : bool) (m : phys) (t : Z) (lvl : nat) (i : Z) : Prop :=
  ∀ l k e, length l = (lvl - 1)%nat → Forall (fun i => 0 ≤ i < 512) l →
           walk m t (i :: l) (Z.of_nat lvl) = Some (k, e) → is_wx nx e = false.

Lemma no_wx_slots nx m t lvl :
  (1 ≤ lvl)%nat → no_wx nx m t lvl ↔ ∀ i, 0 ≤ i < 512 → slot_no_wx nx m t lvl i.
Proof.
  intros Hl. split.
  - intros H i Hi l k e Hlen Hb. apply H; [cbn; lia|by constructor].
  - intros H [|i l] k e Hlen Hb; [cbn in Hlen; lia|]. inversion_clear Hb.
    apply H; [done|cbn in Hlen; lia|done].
Qed.

Lemma slot_absent nx m t lvl i : is_present (ld64 m (t + 8 * i)) = false → slot_no_wx nx m t lvl i.
Proof. intros Hp l k e _ _. cbn [walk]. by rewrite Hp. Qed.

Lemma slot_leaf nx m t lvl i :
  (1 ≤ lvl)%nat → is_present (ld64 m (t + 8 * i)) = true →
  lvl = 1%nat ∨ (lvl < 4)%nat ∧ is_huge (ld64 m (t + 8 * i)) = true →
  slot_no_wx nx m t lvl i ↔ is_wx nx (ld64 m (t + 8 * i)) = false.
Proof.
  intros Hl Hp Hleaf. unfold slot_no_wx. cbn [walk]. rewrite Hp. cbn [negb].
  assert ((Z.of_nat lvl =? 1) || (Z.of_nat lvl <? 4) && is_huge (ld64 m (t + 8 * i)) = true)%bool as ->.
  { destruct Hleaf as [->|[Hlt ->]]; [done|]. destruct (Z.ltb_spec (Z.of_nat lvl) 4); [|lia].
    by rewrite orb_true_r. }
  split; [|by intros H l k e _ _ [= <- <-]].
  intros H. apply (H (replicate (lvl - 1) 0) (Z.of_nat lvl)); [apply length_replicate| |done].
  apply Forall_replicate. lia.
Qed.

Lemma slot_table nx m t lvl i :
  (2 ≤ lvl)%nat → is_present (ld64 m (t + 8 * i)) = true →
  (lvl = 4%nat ∨ is_huge (ld64 m (t + 8 * i)) = false) →
  slot_no_wx nx m t lvl i ↔ no_wx nx m (entry_addr (ld64 m (t + 8 * i))) (lvl - 1).
Proof.
  intros Hl Hp Hnh. unfold slot_no_wx, no_wx. cbn [walk]. rewrite Hp. cbn [negb].
  assert ((Z.of_nat lvl =? 1) || (Z.of_nat lvl <? 4) && is_huge (ld64 m (t + 8 * i)) = false)%bool as ->.
  { destruct (Z.eqb_spec (Z.of_nat lvl) 1); [lia|]. destruct Hnh as [->| ->]; [done|].
    by rewrite andb_false_r. }
  by replace (Z.of_nat lvl - 1) with (Z.of_nat (lvl - 1)) by lia.
Qed.

Lemma count_table nx m t lvl B n body :
  (1 ≤ lvl)%nat → 0 ≤ B → 0 ≤ n → n + 512 * B < U64 →
  (∀ i k, 0 ≤ i < 512 → 0 ≤ k ≤ n + i * B →
     ∃ c, body i k = Ret (k + c) ∧ 0 ≤ c ≤ B ∧ (c = 0 ↔ slot_no_wx nx m t lvl i)) →
  ∃ c, for_range 0 512 n body = Ret (n + c) ∧ 0 ≤ c ≤ 512 * B ∧ (c = 0 ↔ no_wx nx m t lvl).
Proof.
  intros Hl HB Hn Hov Hbody. destruct (count_loop _ B n body HB Hn Hov Hbody) as (c & -> & Hc & Hiff).
  exists c. split; [done|]. split; [done|]. by rewrite no_wx_slots.
Qed.

Lemma count_slot_table nx m t lvl i (r : Res Z) n B :
  (2 ≤ lvl)%nat → is_present (ld64 m (t + 8 * i)) = true →
  (lvl = 4%nat ∨ is_huge (ld64 m (t + 8 * i)) = false) →
  (∃ c, r = Ret (n + c) ∧ 0 ≤ c ≤ B ∧
        (c = 0 ↔ no_wx nx m (entry_addr (ld64 m (t + 8 * i))) (lvl - 1))) →
  ∃ c, r = Ret (n + c) ∧ 0 ≤ c ≤ B ∧ (c = 0 ↔ slot_no_wx nx m t lvl i).
Proof.
  intros Hl Hp Hh (c & -> & Hc & Hiff). exists c. split; [done|]. split; [done|]. by rewrite slot_table.
Qed.

(** Each level of the count: the loop over table [t] adds 0 exactly when no
    leaf below [t] is W+X. *)
Lemma wx_pt_ok (s : Vmm S) t n :
  0 ≤ n < 2 ^ 43 →
  ∃ c, for_range 0 512 n (wx_pt s t) = Ret (n + c) ∧ 0 ≤ c ≤ 512 * 1 ∧
       (c = 0 ↔ no_wx s.(NX_AVAILABLE) s.(mem) t 1).
Proof.
  intros Hn. apply count_table; [lia|lia|lia|rewrite U64_val; lia|].
  intros i k Hi Hk. unfold wx_pt, entry, nx_available.
  destruct (count_if_ok (is_present (ld64 s.(mem) (t + 8 * i)) && is_wx s.(NX_AVAILABLE) (ld64 s.(mem) (t + 8 * i))) k)
    as (c & -> & Hc & Hiff); [lia|rewrite U64_val; lia|].
  exists c. split; [done|]. split; [done|]. rewrite Hiff.
  destruct (is_present (ld64 s.(mem) (t + 8 * i))) eqn:Ep; cbn [andb].
  - rewrite slot_leaf; [done|lia|done|by left].
  - split; [|done]. intros _. by apply slot_absent.
Qed.

Lemma wx_leaf_slot (s : Vmm S) t lvl i n B :
  (1 ≤ lvl < 4)%nat → 0 ≤ n < 2 ^ 43 → 1 ≤ B →
  is_present (ld64 s.(mem) (t + 8 * i)) = true → is_huge (ld64 s.(mem) (t + 8 * i)) = true →
  ∃ c, count_if (is_wx s.(NX_AVAILABLE) (ld64 s.(mem) (t + 8 * i))) n = Ret (n + c) ∧ 0 ≤ c ≤ B ∧
       (c = 0 ↔ slot_no_wx s.(NX_AVAILABLE) s.(mem) t lvl i).
Proof.
  intros Hl Hn HB Hp Hh. destruct (count_if_ok (is_wx s.(NX_AVAILABLE) (ld64 s.(mem) (t + 8 * i))) n)
    as (c & -> & Hc & Hiff); [lia|rewrite U64_val; lia|].
  exists c. split; [done|]. split; [lia|]. rewrite Hiff, slot_leaf; [done|lia|done|right; split; [lia|done]].
Qed.

Lemma wx_absent_slot (s : Vmm S) t lvl i n B :
  0 ≤ B → is_present (ld64 s.(mem) (t + 8 * i)) = false →
  ∃ c, Ret n = Ret (n + c) ∧ 0 ≤ c ≤ B ∧ (c = 0 ↔ slot_no_wx s.(NX_AVAILABLE) s.(mem) t lvl i).
Proof.
  intros HB Hp. exists 0. split; [f_equal; lia|]. split; [lia|]. split; [|done].
  intros _. by apply slot_absent.
Qed.

(** The tables one level down, with the address checks of the walk. *)
Lemma table_at_child m t :
  tables_ok m t 1 ∨ tables_ok m t 2 ∨ tables_ok m t 3 ∨ tables_ok m t 4 → table_at debug t = Ret t.
Proof. intros H. apply table_at_ok; cbn in H; naive_solver. Qed.

Lemma wx_pd_ok (s : Vmm S) t n :
  tables_ok s.(mem) t 2 → 0 ≤ n < 2 ^ 42 →
  ∃ c, for_range 0 512 n (wx_pd debug s t) = Ret (n + c) ∧ 0 ≤ c ≤ 512 * 512 ∧
       (c = 0 ↔ no_wx s.(NX_AVAILABLE) s.(mem) t 2).
Proof.
  intros (Hal & Hr & Hch) Hn. apply count_table; [lia|lia|lia|rewrite U64_val; lia|].
  intros i k Hi Hk. unfold wx_pd, entry, nx_available.
  destruct (is_present (ld64 s.(mem) (t + 8 * i))) eqn:Ep; cbn [negb]; [|by apply wx_absent_slot].
  destruct (is_huge (ld64 s.(mem) (t + 8 * i))) eqn:Eh; [apply wx_leaf_slot; (done || lia)|].
  destruct (Hch i Hi Ep) as [?|[[_ ?]|Htab]]; [done|congruence|].
  rewrite PhysAddr_new_low by apply entry_addr_bound. cbn [mbind Res_bind].
  rewrite (table_at_child s.(mem)) by auto. cbn [mbind Res_bind].
  eapply count_slot_table; [lia|done|auto|]. apply wx_pt_ok. lia.
Qed.

Lemma wx_pdpt_ok (s : Vmm S) t n :
  tables_ok s.(mem) t 3 → 0 ≤ n < 2 ^ 41 →
  ∃ c, for_range 0 512 n (wx_pdpt debug s t) = Ret (n + c) ∧ 0 ≤ c ≤ 512 * (512 * 512) ∧
       (c = 0 ↔ no_wx s.(NX_AVAILABLE) s.(mem) t 3).
Proof.
  intros (Hal & Hr & Hch) Hn. apply count_table; [lia|lia|lia|rewrite U64_val; lia|].
  intros i k Hi Hk. unfold wx_pdpt, entry, nx_available.
  destruct (is_present (ld64 s.(mem) (t + 8 * i))) eqn:Ep; cbn [negb]; [|by apply wx_absent_slot].
  destruct (is_huge (ld64 s.(mem) (t + 8 * i))) eqn:Eh; [apply wx_leaf_slot; (done || lia)|].
  destruct (Hch i Hi Ep) as [?|[[_ ?]|Htab]]; [done|congruence|].
  rewrite PhysAddr_new_low by apply entry_addr_bound. cbn [mbind Res_bind].
  rewrite (table_at_child s.(mem)) by auto. cbn [mbind Res_bind].
  eapply count_slot_table; [lia|done|auto|]. apply wx_pd_ok; [done|lia].
Qed.

Lemma wx_pml4_ok (s : Vmm S) t :
  tables_ok s.(mem) t 4 →
  ∃ c, for_range 0 512 0 (wx_pml4 debug s t) = Ret (0 + c) ∧ 0 ≤ c ≤ 512 * (512 * (512 * 512)) ∧
       (c = 0 ↔ no_wx s.(NX_AVAILABLE) s.(mem) t 4).
Proof.
  intros (Hal & Hr & Hch). apply count_table; [lia|lia|lia|rewrite U64_val; lia|].
  intros i k Hi Hk. unfold wx_pml4, entry, nx_available.
  destruct (is_present (ld64 s.(mem) (t + 8 * i))) eqn:Ep; cbn [negb]; [|by apply wx_absent_slot; [lia|]].
  destruct (Hch i Hi Ep) as [?|[[? _]|Htab]]; [done|lia|].
  rewrite PhysAddr_new_low by apply entry_addr_bound. cbn [mbind Res_bind].
  rewrite (table_at_child s.(mem)) by auto. cbn [mbind Res_bind].
  eapply count_slot_table; [lia|done|auto|]. apply wx_pdpt_ok; [done|lia].
Qed.

Lemma count_wx_ok (s : Vmm S) :
  tables_ok s.(mem) s.(KERNEL_PML4) 4 →
  ∃ n, count_wx_violations debug s = Ret n ∧ 0 ≤ n ≤ 2 ^ 36 ∧
       (n = 0 ↔ no_wx s.(NX_AVAILABLE) s.(mem) s.(KERNEL_PML4) 4).
Proof.
  intros Htab. unfold count_wx_violations, kernel_pml4.
  destruct (Z.eqb_spec s.(KERNEL_PML4) 0) as [E|_]; [cbn in Htab; lia|].
  rewrite (table_at_child s.(mem)) by auto. cbn [mbind Res_bind].
  destruct (wx_pml4_ok s s.(KERNEL_PML4) Htab) as (c & -> & Hc & Hiff).
  exists c. split; [done|]. split; [lia|done].
Qed.

(** C22: [count_wx_violations] terminates without a panic on every tree of tables
    inside the boot-mapped range.  With NX available it returns 0 exactly when no
    page the CPU reaches through the tables, of any size, has an entry with the
    writable bit 1 set and the no-execute bit 63 clear; without NX, where bit 63
    cannot be set and every writable page is executable, it returns 0 whatever
    the tables hold. *)
Theorem count_wx_zero_iff (s : Vmm S) :
  tables_ok s.(mem) s.(KERNEL_PML4) 4 →
  ∃ n, count_wx_violations debug s = Ret n ∧ 0 ≤ n ∧
    (s.(NX_AVAILABLE) = true → (n = 0 ↔ wx_free s.(mem) s.(KERNEL_PML4))) ∧
    (s.(NX_AVAILABLE) = false → n = 0).
Proof.
  intros Htab. destruct (count_wx_ok s Htab) as (n & E & Hn & Hiff). exists n. split; [done|]. split; [lia|].
  rewrite no_wx_free in Hiff. destruct s.(NX_AVAILABLE); (split; [tauto|naive_solver]).
Qed.

End Spec.
