(* ===== verification/AddressSpace.v ===== *)
(** * The kernel address space after boot

    [vmm::init] followed by [vmm::harden_boot_map], as kmain.rs calls them: the
    higher half translates exactly as the documented layout says (everything
    else there is unmapped, guard pages included), and on a CPU with NX no page of
    the resulting address space, identity map included, is writable and executable. *)

From S2P Require Import Prelude Arch BootInfo Bitmap Pmm PmmSpec Vmm PageTables VmmSpec.
From stdpp Require Import base gmap sets list list_numbers strings numbers.
From Stdlib Require Import ZArith Lia.
#[local] Open Scope Z_scope.

(** ** Layouts *)

Record region : Type := mkRegion { r_va : Z; r_pa : Z; r_len : Z; r_perm : Perm }.

Definition in_region (r : region) (v : Z) : bool := (r.(r_va) <=? v) && (v <? r.(r_va) + r.(r_len)).

(** The translation a list of regions describes. *)
Fixpoint layout (nx : bool) (rs : list region) (v : Z) : option (Z * Z) :=
  match rs with
  | [] => None
  | r :: rs' =>
      if in_region r v
      then Some (r.(r_pa) + (v - r.(r_va)), page_entry nx r.(r_va) r.(r_pa) v r.(r_perm))
      else layout nx rs' v
  end.

Definition disjoint (r r' : region) : Prop :=
  r.(r_va) + r.(r_len) ≤ r'.(r_va) ∨ r'.(r_va) + r'.(r_len) ≤ r.(r_va).

Lemma in_region_iff r v : in_region r v = true ↔ r.(r_va) ≤ v < r.(r_va) + r.(r_len).
Proof. unfold in_region. rewrite andb_true_iff, Z.leb_le, Z.ltb_lt. done. Qed.

Lemma layout_snoc nx rs r v :
  Forall (disjoint r) rs →
  layout nx (rs ++ [r]) v = if in_region r v then layout nx [r] v else layout nx rs v.
Proof.
  induction 1 as [|x rs Hx Hrs IH]; cbn [app layout]; [by destruct (in_region r v)|].
  destruct (in_region x v) eqn:Ex; [|exact IH].
  destruct (in_region r v) eqn:Er; [|done].
  apply in_region_iff in Ex, Er. unfold disjoint in Hx. lia.
Qed.

Lemma layout_none nx rs r v :
  Forall (disjoint r) rs → in_region r v = true → layout nx rs v = None.
Proof.
  induction 1 as [|x rs Hx Hrs IH]; cbn [layout]; [done|]. intros Hr.
  destruct (in_region x v) eqn:Ex; [|by apply IH].
  apply in_region_iff in Ex, Hr. unfold disjoint in Hx. lia.
Qed.

Section Space.
Context {S : Type} `{FS : FrameSource S} `{X : X86Crate}.
Context (debug : bool).

Abbreviation free s := (fs_free s.(src)).

(** The higher half of [s] is described by [rs]; [s] was reached from [s0] by
    mapping, with at most [k] frames. *)
Definition space (k : Z) (s0 : Vmm S) (path0 : labels) (rs : list region) (s : Vmm S) : Prop :=
  ∃ path, vmm_inv s path ∧ grows k s0 path0 s path ∧
    ∀ v, U64 - 2 ^ 47 ≤ v < U64 → translate debug s v = Ret (layout s0.(NX_AVAILABLE) rs v).

(** Mapping a region that is disjoint from the others adds it. *)
Lemma space_map k s0 path0 rs s va pa len perm :
  space k s0 path0 rs s → range_ok va pa len → Forall (disjoint (mkRegion va pa len perm)) rs →
  k + 3 * (len / 4096) ≤ Z.of_nat (size (free s0)) →
  ∃ s', map_4k debug s va pa len perm = Ret s' ∧
        space (k + 3 * (len / 4096)) s0 path0 (rs ++ [mkRegion va pa len perm]) s'.
Proof.
  intros (path & Hinv & Hg & Htr) Hr Hd Hsz. pose proof (gr_count _ _ _ _ _ Hg) as Hcnt.
  pose proof (gr_nx _ _ _ _ _ Hg) as Hnx.
  destruct (map_4k_ok debug s path va pa len perm) as (s' & path' & E & Hinv' & Hg' & Hm).
  - done.
  - done.
  - lia.
  - intros j lv e Hj Hw. exfalso. destruct (vpage_ok va pa len j Hr Hj) as (_ & Hrange & H4 & _ & _).
    specialize (Htr _ Hrange). rewrite (translate_ok debug s path) in Htr; [|done|rewrite U64_val in *; lia|done].
    rewrite Hw in Htr. injection Htr as Htr. erewrite layout_none in Htr; [done|exact Hd|].
    apply in_region_iff. cbn. unfold vpage. destruct Hr. zlia.
  - exists s'. split; [done|]. exists path'. split; [done|]. split; [by eapply grows_trans|].
    intros v Hv. rewrite (mapped_translate debug s s' path path' va pa len perm v) by done.
    rewrite Htr by done. rewrite layout_snoc by done. rewrite Hnx.
    case_bool_decide as Hc.
    + rewrite (proj2 (in_region_iff (mkRegion va pa len perm) v)) by done.
      cbn [layout]. by rewrite (proj2 (in_region_iff (mkRegion va pa len perm) v)) by done.
    + destruct (in_region _ v) eqn:Ei; [|done]. by apply in_region_iff in Ei.
Qed.

(** ** A fresh root *)

(** A root whose only present slot is slot 0 is a tree that maps nothing in
    the higher half. *)
Lemma fresh_root (s : Vmm S) :
  fs_inv s.(src) → 0 ∉ free s → length s.(PT_POOL).(pool_frames) = 64%nat →
  0 ≤ s.(PT_POOL).(allocated) → s.(PT_POOL).(allocated) + Z.of_nat (size (free s)) < U64 →
  s.(KERNEL_PML4) mod 4096 = 0 → 0 < s.(KERNEL_PML4) < BOOT_MAPPED_BYTES →
  page s.(KERNEL_PML4) ∉ free s →
  (∀ i, 1 ≤ i < 512 → is_present (ld64 s.(mem) (s.(KERNEL_PML4) + 8 * i)) = false) →
  vmm_inv s {[s.(KERNEL_PML4) := []]} ∧
  space 0 s {[s.(KERNEL_PML4) := []]} [] s.
Proof.
  intros Hsrc Hz Hpl Hal Htot Hra Hrr Hfr Hempty.
  assert (vmm_inv s {[s.(KERNEL_PML4) := []]}) as Hinv.
  { split; [done|done|done|done| | |].
    - split.
      + apply lookup_singleton_eq.
      + intros t p [<- <-]%lookup_singleton_Some. done.
      + intros t p [<- <-]%lookup_singleton_Some. done.
      + intros t p [<- <-]%lookup_singleton_Some. cbn. lia.
      + intros t t' p [<- <-]%lookup_singleton_Some [<- _]%lookup_singleton_Some. done.
      + intros t' p i [_ Hp]%lookup_singleton_Some. by destruct p.
      + intros t p i [<- <-]%lookup_singleton_Some _ Hi Hs Hpr. exfalso.
        rewrite Hempty in Hpr; [done|]. destruct (decide (i = 0)) as [->|]; [by destruct Hs|lia].
    - intros t p i [<- <-]%lookup_singleton_Some Hl. done.
    - intros t p [<- _]%lookup_singleton_Some. done. }
  split; [done|]. exists {[s.(KERNEL_PML4) := []]}. split; [done|]. split; [apply grows_refl|].
  intros v Hv. rewrite (translate_ok debug s {[s.(KERNEL_PML4) := []]});
    [|done|rewrite U64_val in *; lia|by apply high_pml4].
  unfold idx_list. cbn [walk layout]. rewrite Hempty; [done|].
  pose proof (high_pml4 v Hv). pose proof (land_ones9 (Z.shiftr v 39)). unfold indices in *. cbn in *. lia.
Qed.

(** ** What [init] relies on *)

Definition LP : Z := LARGE_PAGE_SIZE.

(** The end of the last image region. *)
Definition image_top (k : LinkerSyms) : Z := LP * ((k.(virt_end) + LP - 1) / LP).

(** orin.ld: every section starts on a 2 MiB boundary, in ascending order, in
    the kernel half and above the legacy megabyte. *)
Record sections_ok (k : LinkerSyms) : Prop := {
  so_aligned : k.(text_start) mod LP = 0 ∧ k.(rodata_start) mod LP = 0 ∧
               k.(data_start) mod LP = 0 ∧ k.(bss_start) mod LP = 0;
  so_low : KERNEL_VMA + LP ≤ k.(text_start);
  so_text : k.(text_start) ≤ k.(text_end) ≤ k.(rodata_start) ∧ k.(text_start) < k.(rodata_start);
  so_rodata : k.(rodata_start) ≤ k.(rodata_end) ∧ k.(rodata_start) < k.(data_start);
  so_data : k.(data_start) ≤ k.(data_end) ∧ k.(data_start) < k.(bss_start);
  so_bss : k.(bss_start) ≤ k.(bss_end) ∧ k.(bss_start) < k.(virt_end);
  so_top : k.(virt_end) + LP < U64;
}.

(** The boot-parameter block is readable and is not free memory, and the heap
    range it names is a page-aligned range of at most 1 GiB below 2 GiB. *)
Record heap_ok (s : Vmm S) (bp lo hi : Z) : Prop := {
  hp_bp : bp ≠ 0 ∧ bp mod 8 = 0 ∧ 0 ≤ bp < BOOT_MAPPED_BYTES;
  hp_lo : ld64 s.(mem) (bp + 0x20) = lo;
  hp_hi : ld64 s.(mem) (bp + 0x28) = hi;
  hp_kept : (page (bp + 0x20) ∉ free s) ∧ (page (bp + 0x28) ∉ free s);
  hp_range : 0 ≤ lo ≤ hi ∧ hi ≤ BOOT_MAPPED_BYTES ∧ hi - lo ≤ HUGE_PAGE_SIZE;
  hp_aligned : lo mod 4096 = 0 ∧ hi mod 4096 = 0;
}.

(** The regions of the kernel's half of the address space. *)
Definition kernel_regions (k : LinkerSyms) (lo hi : Z) : list region :=
  [mkRegion k.(text_start) (k.(text_start) - KERNEL_VMA) (k.(rodata_start) - k.(text_start)) TextRoX;
   mkRegion k.(rodata_start) (k.(rodata_start) - KERNEL_VMA) (k.(data_start) - k.(rodata_start)) RoData;
   mkRegion k.(data_start) (k.(data_start) - KERNEL_VMA) (k.(bss_start) - k.(data_start)) DataRwNx;
   mkRegion k.(bss_start) (k.(bss_start) - KERNEL_VMA) (image_top k - k.(bss_start)) DataRwNx;
   mkRegion HEAP_VIRT_START lo (hi - lo) DataRwNx;
   mkRegion (KERNEL_VMA + 0xB8000) 0xB8000 4096 Device].

(** Frames that are certainly enough: the root and three per page. *)
Definition frames_needed (k : LinkerSyms) (lo hi : Z) : Z :=
  1 + 3 * ((image_top k - k.(text_start)) / 4096 + (hi - lo) / 4096 + 1).

Lemma align_down_2m_ok v : 0 ≤ v < U64 → align_down_2m v = LP * (v / LP).
Proof. apply (land_bnot_align 21). lia. Qed.

Lemma align_down_2m_id v : 0 ≤ v < U64 → v mod LP = 0 → align_down_2m v = v.
Proof. intros Hv Hm. rewrite align_down_2m_ok by done. unfold LP, LARGE_PAGE_SIZE in *. zlia. Qed.

Ltac sections H :=
  destruct H as [(?&?&?&?) ? [[? ?] ?] [? ?] [? ?] [? ?] ?];
  unfold LP, LARGE_PAGE_SIZE, KERNEL_VMA in *; rewrite U64_val in *.

Lemma check_sections_ok k : sections_ok k → check_sections k = Ret tt.
Proof.
  intros H. unfold check_sections.
  assert (align_down_2m k.(text_start) = k.(text_start)) as -> by (apply align_down_2m_id; sections H; lia).
  assert (align_down_2m k.(rodata_start) = k.(rodata_start)) as -> by (apply align_down_2m_id; sections H; lia).
  assert (align_down_2m k.(data_start) = k.(data_start)) as -> by (apply align_down_2m_id; sections H; lia).
  assert (align_down_2m k.(bss_start) = k.(bss_start)) as -> by (apply align_down_2m_id; sections H; lia).
  rewrite Z.eqb_refl. cbn [rassert mbind Res_bind]. sections H.
  destruct (Z.leb_spec k.(text_end) k.(rodata_start)), (Z.leb_spec k.(rodata_start) k.(data_start)),
    (Z.leb_spec k.(data_start) k.(bss_start)); try lia.
  cbn [andb rassert mbind Res_bind].
  destruct (Z.eqb_spec k.(rodata_start) k.(text_start)), (Z.eqb_spec k.(data_start) k.(rodata_start)),
    (Z.eqb_spec k.(bss_start) k.(data_start)); try lia. done.
Qed.

Lemma image_regions_ok k :
  sections_ok k →
  image_regions k = Ret [(k.(text_start), k.(rodata_start) - k.(text_start), TextRoX);
                         (k.(rodata_start), k.(data_start) - k.(rodata_start), RoData);
                         (k.(data_start), k.(bss_start) - k.(data_start), DataRwNx);
                         (k.(bss_start), image_top k - k.(bss_start), DataRwNx)].
Proof.
  intros H. unfold image_regions, align_up_2m, image_top.
  rewrite (align_down_2m_id k.(rodata_start)) by (sections H; lia).
  rewrite (align_down_2m_id k.(data_start)) by (sections H; lia).
  rewrite (align_down_2m_id k.(bss_start)) by (sections H; lia).
  rewrite sub64_ok by (sections H; lia). cbn [mbind Res_bind].
  rewrite sub64_ok by (sections H; lia). cbn [mbind Res_bind].
  rewrite sub64_ok by (sections H; lia). cbn [mbind Res_bind].
  rewrite add64_ok by (sections H; lia). cbn [mbind Res_bind].
  rewrite sub64_ok by (sections H; lia). cbn [mbind Res_bind].
  rewrite align_down_2m_ok by (sections H; lia). fold LP.
  rewrite sub64_ok by (sections H; zlia). done.
Qed.

(** Mapping one image region. *)
Lemma map_region_ok k kk s0 path0 rs s l l' start len perm :
  space kk s0 path0 rs s → sections_ok k →
  start mod 4096 = 0 → len mod 4096 = 0 → 0 < len → KERNEL_VMA ≤ start → start + len ≤ U64 →
  Forall (disjoint (mkRegion start (start - KERNEL_VMA) len perm)) rs →
  kk + 3 * (len / 4096) ≤ Z.of_nat (size (free s0)) →
  count_region k start len perm l = Ret l' →
  ∃ s', map_region debug k (start, len, perm) (s, l) = Ret (s', l') ∧
    space (kk + 3 * (len / 4096)) s0 path0
          (rs ++ [mkRegion start (start - KERNEL_VMA) len perm]) s'.
Proof.
  intros Hsp Hk Hs Hl Hpos Hlo Hhi Hd Hsz Hc. unfold map_region.
  destruct (Z.eqb_spec len 0); [lia|].
  assert (canonical start = true) as Hcan.
  { apply canonical_iff. unfold KERNEL_VMA in *. rewrite U64_val in *. lia. }
  rewrite VirtAddr_new_ok by done. cbn [mbind Res_bind].
  unfold phys_of. rewrite VirtAddr_new_ok by done. cbn [mbind Res_bind].
  rewrite virt_to_phys_kernel by lia. cbn [mbind Res_bind expect].
  destruct (space_map kk s0 path0 rs s start (start - KERNEL_VMA) len perm) as (s' & -> & Hsp'); [done| |done|done|].
  { unfold KERNEL_VMA in *. split; rewrite ?U64_val in *; zlia. }
  cbn [mbind Res_bind]. rewrite Hc. cbn [mbind Res_bind]. eauto.
Qed.

Lemma image_top_bounds k :
  sections_ok k → k.(bss_start) < image_top k ≤ U64 ∧ image_top k mod LP = 0.
Proof. intros H. unfold image_top. sections H. split; zlia. Qed.

(** The side conditions of [map_region_ok] for a region of the image. *)
Ltac image_region :=
  repeat match goal with x := _ : Z |- _ => subst x end;
  match goal with
  | |- Forall _ _ =>
      repeat (apply Forall_cons_2; [unfold disjoint; cbn [r_va r_len]; lia|]); apply Forall_nil_2
  | |- count_region ?k ?a _ _ _ = _ =>
      cbn [count_region];
      try (first [destruct (Z.eqb_spec a k.(data_start)); [|lia]
                 |destruct (Z.eqb_spec a k.(data_start)); [lia|]]);
      rewrite add64_ok by (rewrite U64_val; lia); reflexivity
  | _ => done || (unfold KERNEL_VMA; rewrite ?U64_val; zlia)
  end.

(** The loop over the four image regions. *)
Lemma map_image_ok k s0 path0 s :
  space 0 s0 path0 [] s → sections_ok k →
  3 * ((image_top k - k.(text_start)) / 4096) ≤ Z.of_nat (size (free s0)) →
  ∃ s', for_list [(k.(text_start), k.(rodata_start) - k.(text_start), TextRoX);
                  (k.(rodata_start), k.(data_start) - k.(rodata_start), RoData);
                  (k.(data_start), k.(bss_start) - k.(data_start), DataRwNx);
                  (k.(bss_start), image_top k - k.(bss_start), DataRwNx)]
          (s, (0, 0, 0, 0)) (map_region debug k) =
        Ret (s', (k.(rodata_start) - k.(text_start), k.(data_start) - k.(rodata_start),
                  k.(bss_start) - k.(data_start), image_top k - k.(bss_start))) ∧
    space (3 * ((image_top k - k.(text_start)) / 4096)) s0 path0
      (take 4 (kernel_regions k 0 0)) s'.
Proof.
  intros Hsp Hk Hsz. destruct (image_top_bounds k Hk) as [Htop Htopm].
  pose proof Hk as Hk'. sections Hk'. cbn [for_list].
  set (tl := k.(rodata_start) - k.(text_start)). set (rl := k.(data_start) - k.(rodata_start)).
  set (dl := k.(bss_start) - k.(data_start)). set (bl := image_top k - k.(bss_start)).
  destruct (map_region_ok k 0 s0 path0 [] s (0, 0, 0, 0) (0 + tl, 0, 0, 0) k.(text_start) tl TextRoX)
    as (s1 & -> & Hsp1); [image_region..|].
  cbn [mbind Res_bind app] in *.
  destruct (map_region_ok k _ s0 path0 _ s1 (0 + tl, 0, 0, 0) (0 + tl, 0 + rl, 0, 0)
    k.(rodata_start) rl RoData Hsp1) as (s2 & -> & Hsp2); [image_region..|].
  cbn [mbind Res_bind app] in *.
  destruct (map_region_ok k _ s0 path0 _ s2 (0 + tl, 0 + rl, 0, 0) (0 + tl, 0 + rl, 0 + dl, 0)
    k.(data_start) dl DataRwNx Hsp2) as (s3 & -> & Hsp3); [image_region..|].
  cbn [mbind Res_bind app] in *.
  destruct (map_region_ok k _ s0 path0 _ s3 (0 + tl, 0 + rl, 0 + dl, 0) (0 + tl, 0 + rl, 0 + dl, 0 + bl)
    k.(bss_start) bl DataRwNx Hsp3) as (s4 & -> & Hsp4); [image_region..|].
  cbn [mbind Res_bind app] in *. rewrite !Z.add_0_l in *.
  exists s4. split; [done|]. cbn [take kernel_regions].
  match goal with H : space ?k4 _ _ _ s4 |- space ?k5 _ _ _ _ =>
    replace k5 with k4 by (unfold tl, rl, dl, bl; zlia) end.
  exact Hsp4.
Qed.

(** ** [init] *)

Record init_env (k : LinkerSyms) (bp lo hi : Z) (s : Vmm S) : Prop := {
  ie_src : fs_inv s.(src);
  ie_zero : 0 ∉ free s;
  ie_pool : length s.(PT_POOL).(pool_frames) = 64%nat ∧ 0 ≤ s.(PT_POOL).(allocated);
  ie_total : s.(PT_POOL).(allocated) + Z.of_nat (size (free s)) < U64;
  ie_cr3 : s.(CR3) mod 4096 = 0 ∧ 0 < s.(CR3) < BOOT_MAPPED_BYTES;
  ie_cr3_kept : page s.(CR3) ∉ free s;
  ie_sections : sections_ok k;
  ie_heap : heap_ok s bp lo hi;
  ie_frames : frames_needed k lo hi ≤ Z.of_nat (size (free s));
}.

(** The new root: a frame [n] that was free, zeroed, with slot 0 copied. *)
Lemma init_root k bp lo hi s :
  init_env k bp lo hi s →
  ∃ n s1, PtPool_alloc s = Ret (Some (n * 4096), s1) ∧ n ∈ free s ∧ 0 < n < MAX_FRAMES ∧
    let s2 := set_roots s1 (n * 4096) s1.(CR3) (st64 s1.(mem) (n * 4096 + 8 * 0) (entry s1 s.(CR3) 0)) in
    space 0 s2 {[n * 4096 := []]} [] s2 ∧ free s2 = free s ∖ {[n]} ∧ s2.(NX_AVAILABLE) = s.(NX_AVAILABLE) ∧
    ld64 s2.(mem) (n * 4096 + 8 * 0) = ld64 s.(mem) (s.(CR3) + 8 * 0) ∧
    (∀ a, page a ∉ free s → ld64 s2.(mem) a = ld64 s.(mem) a).
Proof.
  intros [Hsrc Hz [Hpl Hal] Htot [Hcal Hcr] Hck Hsec Hheap Hfr].
  assert (1 ≤ Z.of_nat (size (free s))) as H1.
  { unfold frames_needed in Hfr. destruct (image_top_bounds k Hsec). destruct (hp_range _ _ _ _ Hheap).
    sections Hsec. zlia. }
  destruct (PtPool_alloc_ok s) as (n & s1 & E & Hin & Hn & Hsrc1 & Hfree1 & Hmem1 & Hnx1 & _ & Hc1 & Hpl1 & Hal1);
    [done|by apply size_nonempty|done..|].
  unfold FRAME_SIZE in *. exists n, s1. split; [done|]. split; [done|]. split; [done|]. cbn zeta.
  rewrite MAX_FRAMES_val in Hn. pose proof (size_remove _ _ Hin) as Hsz.
  assert (∀ a, page a ≠ n → ld64 s1.(mem) a = ld64 s.(mem) a) as Hout.
  { intros a Ha. rewrite Hmem1. apply zero_words_out. intros j Hj ->. apply Ha.
    rewrite slot_page by (lia || by apply Z.mod_mul). by rewrite Z.div_mul. }
  assert (entry s1 s.(CR3) 0 = ld64 s.(mem) (s.(CR3) + 8 * 0)) as ->.
  { apply Hout. rewrite slot_page by (done || lia). congruence. }
  set (s2 := set_roots s1 (n * 4096) _ _).
  destruct (fresh_root s2) as [Hinv Hsp]; cbn [s2 set_roots src PT_POOL KERNEL_PML4 mem].
  - done.
  - rewrite Hfree1. intros [? _]%elem_of_difference. by apply Hz.
  - done.
  - lia.
  - rewrite Hal1, Hfree1. lia.
  - by apply Z.mod_mul.
  - unfold BOOT_MAPPED_BYTES. lia.
  - rewrite Hfree1, Z.div_mul by lia. intros [_ Hc]%elem_of_difference. by apply Hc, elem_of_singleton.
  - intros i Hi. rewrite ld64_st64_ne by lia. rewrite Hmem1, zero_words_in by lia. done.
  - split; [exact Hsp|]. split; [done|]. split; [done|]. split; [apply ld64_st64_eq|].
    intros a Ha. assert (page a ≠ n) by congruence. rewrite ld64_st64_ne; [by apply Hout|].
    intros <-. rewrite slot_page, Z.div_mul in Ha by (lia || by apply Z.mod_mul). done.
Qed.

(** Reading the heap range after the image is mapped. *)
Lemma heap_range_kept s bp lo hi m :
  heap_ok s bp lo hi → (∀ a, page a ∉ free s → ld64 m a = ld64 s.(mem) a) →
  heap_phys_range m bp = Ret (lo, hi).
Proof.
  intros [(Hb0 & Hb8 & Hbr) Hlo Hhi [Hk1 Hk2] _ _] Hm. unfold heap_phys_range, boot_params.
  destruct (Z.eqb_spec bp 0); [done|]. rewrite Hb8. cbn [negb rassert mbind Res_bind Z.eqb].
  rewrite PhysAddr_new_low by (unfold BOOT_MAPPED_BYTES in *; lia). cbn [mbind Res_bind].
  rewrite phys_to_virt_boot by done. cbn [mbind Res_bind heap_phys_start_ heap_phys_end_].
  by rewrite !Hm, Hlo, Hhi.
Qed.

(** What a grown tree means for memory that was never free. *)
Lemma grown_kept k s0 root s path a :
  grows k s0 {[root := []]} s path → page a ∉ free s0 → page a ≠ page root → root mod 4096 = 0 →
  ld64 s.(mem) a = ld64 s0.(mem) a.
Proof.
  intros Hg Ha Hr Hal. apply (gr_mem _ _ _ _ _ Hg).
  destruct (path !! (4096 * page a)) as [p|] eqn:E; [|done]. exfalso.
  destruct (decide (4096 * page a = root)) as [<-|Hne].
  - apply Hr. zlia.
  - apply (gr_new _ _ _ _ _ Hg) in E; [|by apply lookup_singleton_ne].
    replace (page (4096 * page a)) with (page a) in E by zlia. done.
Qed.

(** Mapping the heap and the VGA window after the image. *)
Lemma map_heap_vga_ok k lo hi s0 path0 s :
  sections_ok k → 0 ≤ lo ≤ hi → hi ≤ BOOT_MAPPED_BYTES → hi - lo ≤ HUGE_PAGE_SIZE →
  lo mod 4096 = 0 → hi mod 4096 = 0 →
  space (3 * ((image_top k - k.(text_start)) / 4096)) s0 path0 (take 4 (kernel_regions k 0 0)) s →
  frames_needed k lo hi - 1 ≤ Z.of_nat (size (free s0)) →
  ∃ s4 s5, map_4k debug s HEAP_VIRT_START lo (hi - lo) DataRwNx = Ret s4 ∧
    map_4k debug s4 (KERNEL_VMA + 0xB8000) 0xB8000 4096 Device = Ret s5 ∧
    space (frames_needed k lo hi - 1) s0 path0 (kernel_regions k lo hi) s5.
Proof.
  intros Hsec Hlo Hhi Hlen Hla Hha Hsp Hfr. destruct (image_top_bounds k Hsec) as [Htop _].
  pose proof Hsec as Hs. sections Hs. unfold frames_needed in *.
  unfold BOOT_MAPPED_BYTES, HUGE_PAGE_SIZE in *.
  destruct (space_map _ s0 path0 _ s HEAP_VIRT_START lo (hi - lo) DataRwNx Hsp) as (s4 & E4 & Hsp4).
  - unfold HEAP_VIRT_START. split; rewrite ?U64_val; zlia.
  - cbn [take kernel_regions]. unfold HEAP_VIRT_START.
    repeat (apply Forall_cons_2; [unfold disjoint; cbn [r_va r_len]; lia|]). apply Forall_nil_2.
  - zlia.
  - destruct (space_map _ s0 path0 _ s4 (KERNEL_VMA + 0xB8000) 0xB8000 4096 Device Hsp4) as (s5 & E5 & Hsp5).
    + unfold KERNEL_VMA. split; rewrite ?U64_val; zlia.
    + cbn [take kernel_regions app]. unfold HEAP_VIRT_START, KERNEL_VMA.
      repeat (apply Forall_cons_2; [unfold disjoint; cbn [r_va r_len]; lia|]). apply Forall_nil_2.
    + zlia.
    + exists s4, s5. split; [done|]. split; [done|]. cbn [take kernel_regions app] in Hsp5.
      match goal with H : space ?k4 _ _ _ s5 |- space ?k5 _ _ _ _ => replace k5 with k4 by zlia end.
      exact Hsp5.
Qed.

Lemma init_ok k bp lo hi s :
  init_env k bp lo hi s →
  ∃ info s' path', init debug k bp s = Ret (info, s') ∧ vmm_inv s' path' ∧
    s'.(CR3) = s'.(KERNEL_PML4) ∧ s'.(NX_AVAILABLE) = s.(NX_AVAILABLE) ∧
    info.(kernel_pml4_phys) = s'.(KERNEL_PML4) ∧
    (∀ v, U64 - 2 ^ 47 ≤ v < U64 →
       translate debug s' v = Ret (layout s.(NX_AVAILABLE) (kernel_regions k lo hi) v)) ∧
    ld64 s'.(mem) (s'.(KERNEL_PML4) + 8 * 0) = ld64 s.(mem) (s.(CR3) + 8 * 0) ∧
    (∀ a, page a ∉ free s → ld64 s'.(mem) a = ld64 s.(mem) a) ∧
    (∀ t p, path' !! t = Some p → page t ∈ free s) ∧
    info.(text_mapped) + info.(rodata_mapped) + info.(data_mapped) + info.(bss_mapped) =
      image_top k - k.(text_start) ∧
    free s' ⊆ free s ∧ Z.of_nat (size (free s)) ≤ Z.of_nat (size (free s')) + frames_needed k lo hi.
Proof.
  intros Henv. destruct (init_root k bp lo hi s Henv) as (n & s1 & Ea & Hin & Hn & Hsp2 & Hfree2 & Hnx2 & Hslot2 & Hkept2).
  destruct Henv as [_ _ _ _ [Hcal Hcr] _ Hsec Hheap Hfr]. rewrite MAX_FRAMES_val in Hn.
  assert ((n * 4096) mod 4096 = 0) as Hnal by (by apply Z.mod_mul).
  unfold init, boot_root_table. destruct (Z.ltb_spec s.(CR3) BOOT_MAPPED_BYTES); [|lia].
  cbn [rassert mbind Res_bind]. rewrite Ea. cbn [mbind Res_bind expect].
  rewrite (table_at_ok debug s.(CR3)) by done. cbn [mbind Res_bind].
  rewrite (table_at_ok debug (n * 4096)) by (done || (unfold BOOT_MAPPED_BYTES; lia)).
  cbn [mbind Res_bind]. cbn zeta in *. set (s2 := set_roots s1 _ _ _) in *.
  rewrite check_sections_ok by done. cbn [mbind Res_bind]. rewrite image_regions_ok by done.
  cbn [mbind Res_bind]. pose proof (size_remove _ _ Hin) as Hsz. rewrite <- Hfree2 in Hsz.
  pose proof Hheap as [_ _ _ _ ([Hr0 Hr1] & Hr2 & Hr3) [Hla Hha]].
  destruct (map_image_ok k s2 _ s2 Hsp2 Hsec) as (s3 & -> & Hsp3).
  { unfold frames_needed in Hfr. zlia. }
  cbn [mbind Res_bind].
  destruct Hsp3 as (path3 & Hinv3 & Hg3 & Htr3).
  rewrite (heap_range_kept s bp lo hi); [|done|].
  2:{ intros a Ha. rewrite <- Hkept2 by done. eapply grown_kept; [exact Hg3| | |done].
      - rewrite Hfree2. intros [? _]%elem_of_difference. done.
      - rewrite Z.div_mul by lia. congruence. }
  cbn [mbind Res_bind]. rewrite (sub64_ok hi lo) by lia. cbn [mbind Res_bind].
  destruct (Z.leb_spec hi BOOT_MAPPED_BYTES); [|lia]. cbn [rassert mbind Res_bind].
  rewrite (VirtAddr_new_ok HEAP_VIRT_START) by done. cbn [mbind Res_bind].
  rewrite (PhysAddr_new_low lo) by (unfold BOOT_MAPPED_BYTES in *; lia). cbn [mbind Res_bind].
  destruct (map_heap_vga_ok k lo hi s2 {[n * 4096 := []]} s3 Hsec) as (s4 & s5 & E4 & E5 & path5 & Hinv5 & Hg5 & Htr5);
    [lia|lia|lia|done|done|by exists path3|lia|].
  rewrite E4. cbn [mbind Res_bind]. rewrite (PhysAddr_new_low 0xB8000) by lia. cbn [mbind Res_bind].
  rewrite phys_to_virt_boot by (unfold BOOT_MAPPED_BYTES; lia). cbn [mbind Res_bind].
  rewrite (Z.add_comm 0xB8000). unfold PAGE_SIZE. rewrite E5. cbn [mbind Res_bind].
  assert (s5.(KERNEL_PML4) = n * 4096) as Hpml by apply (gr_pml4 _ _ _ _ _ Hg5).
  rewrite !sub64_ok by (pose proof Hsec as Hs; sections Hs; lia). cbn [mbind Res_bind].
  eexists _, _, path5. split; [reflexivity|].
  cbn [set_roots CR3 KERNEL_PML4 NX_AVAILABLE mem src kernel_pml4_phys text_mapped rodata_mapped data_mapped bss_mapped].
  split; [by destruct Hinv5; split|]. split; [done|].
  split; [rewrite (gr_nx _ _ _ _ _ Hg5); exact Hnx2|]. split; [done|].
  split; [intros v Hv; rewrite <- Hnx2; exact (Htr5 v Hv)|].
  split; [rewrite Hpml, <- Hslot2; exact (gr_slot0 _ _ _ _ _ Hg5)|].
  split; [|split; [|split; [lia|split]]].
  - intros a Ha. rewrite <- Hkept2 by done. eapply grown_kept; [exact Hg5| | |done].
    + rewrite Hfree2. intros [? _]%elem_of_difference. done.
    + rewrite Z.div_mul by lia. congruence.
  - intros t p Ht. destruct (decide (t = n * 4096)) as [->|Hne]; [by rewrite Z.div_mul by lia|].
    apply (gr_new _ _ _ _ _ Hg5) in Ht; [|by apply lookup_singleton_ne].
    rewrite Hfree2 in Ht. by apply elem_of_difference in Ht as [? _].
  - intros i Hi%(gr_free _ _ _ _ _ Hg5). rewrite Hfree2 in Hi. by apply elem_of_difference in Hi as [? _].
  - pose proof (gr_count _ _ _ _ _ Hg5) as Hcnt. lia.
Qed.

(** ** Changing memory outside the tree *)

Definition agree (path : labels) (m m' : phys) : Prop :=
  ∀ t p i, path !! t = Some p → 0 ≤ i < 512 → ld64 m' (t + 8 * i) = ld64 m (t + 8 * i).

Lemma agree_inv s path m' : vmm_inv s path → agree path s.(mem) m' → vmm_inv (set_mem s m') path.
Proof.
  intros [A1 A2 A3 A4 [T1 T2 T3 T4 T5 T6 T7] A6 A7] Hag.
  split; try done; cbn [set_mem mem KERNEL_PML4 NX_AVAILABLE].
  - split; try done.
    + intros t' p i Ht'. destruct (T6 t' p i Ht') as (t & Ht & Hi & Hpr). exists t.
      by rewrite (Hag t p i).
    + intros t p i Ht Hl Hi. rewrite (Hag t p i) by done. by apply T7.
  - intros t p i Ht Hl Hi. rewrite (Hag t p i) by done. by apply (A6 t p i).
Qed.

Lemma agree_walk m m' root path l t p lvl :
  tree m root path → agree path m m' → path !! t = Some p → (length p + length l = 4)%nat →
  lvl = Z.of_nat (length l) → Forall (fun i => 0 ≤ i < 512) l → (p = [] → head l ≠ Some 0) →
  walk m' t l lvl = walk m t l lvl.
Proof.
  intros Htr Hag. revert t p lvl. induction l as [|i l IH]; intros t p lvl Ht Hl Hlvl Hb Hs; [done|].
  cbn [walk]. cbn [length] in *. inversion_clear Hb as [|? ? Hi Hb']. rewrite (Hag t p i) by done.
  destruct (is_present (ld64 m (t + 8 * i))) eqn:Ep; cbn [negb]; [|done].
  destruct (Z.eqb_spec lvl 1); cbn [orb]; [done|].
  destruct (tr_child _ _ _ Htr t p i) as [Hh Hc]; [done|lia|done|naive_solver|done|].
  rewrite Hh, andb_false_r. apply (IH _ (p ++ [i])); [done|rewrite length_app; cbn; lia|lia|done|].
  intros H. by apply app_nil in H as [_ ?].
Qed.

Lemma agree_translate s path m' v :
  vmm_inv s path → agree path s.(mem) m' → U64 - 2 ^ 47 ≤ v < U64 →
  translate debug (set_mem s m') v = translate debug s v.
Proof.
  intros Hinv Hag Hv. assert (0 ≤ v) by (rewrite U64_val in *; lia). pose proof (high_pml4 v Hv) as H4.
  rewrite (translate_ok debug (set_mem s m') path), (translate_ok debug s path);
    [|done..|by apply agree_inv|done|done]. cbn [set_mem mem KERNEL_PML4].
  pose proof (vi_tree _ _ Hinv) as Htr. destruct (kernel_idx_of v H4) as (Hl4 & Hb & H0).
  rewrite (agree_walk s.(mem) m' s.(KERNEL_PML4) path (idx v) _ [] 4 Htr Hag);
    [done|apply Htr|exact Hl4|done|exact Hb|done].
Qed.

(** ** The whole tree of a booted kernel *)

Lemma labelled_tables_ok m root path t p :
  tree m root path → path !! t = Some p → p ≠ [] → tables_ok m t (4 - length p).
Proof.
  intros Htr. remember (4 - length p)%nat as lvl eqn:Hlvl. revert t p Hlvl.
  induction lvl as [|lvl IH]; intros t p Hlvl Ht Hne; [done|]. cbn [tables_ok].
  pose proof (tr_depth _ _ _ Htr _ _ Ht).
  split; [by eapply tr_aligned|]. split; [by eapply tr_range|]. intros i Hi Hp.
  destruct lvl as [|lvl]; [by left|]. right. right.
  destruct (tr_child _ _ _ Htr t p i) as [_ Hc]; [done|lia|done|by intros [? _]|done|].
  apply (IH _ (p ++ [i])); [rewrite length_app; cbn; lia|done|].
  intros H0. by apply app_nil in H0 as [_ ?].
Qed.

Lemma ident_tables_ok m root :
  boot_map m root → tables_ok m (ident_pdpt m root) 3.
Proof.
  intros Hb. destruct (bm_pdpt _ _ Hb) as [Hr _].
  split; [apply entry_addr_aligned|]. split; [done|]. intros i Hi Hp. right. right.
  destruct (bm_pd _ _ Hb i Hi Hp) as (_ & Hr2 & _).
  split; [apply entry_addr_aligned|]. split; [done|]. intros j Hj Hp2. right. left.
  split; [lia|]. by eapply bm_leaf.
Qed.

Lemma boot_tables_ok s path :
  vmm_inv s path → boot_map s.(mem) s.(KERNEL_PML4) → tables_ok s.(mem) s.(KERNEL_PML4) 4.
Proof.
  intros Hinv Hb. pose proof (vi_tree _ _ Hinv) as Htr. pose proof (tr_root _ _ _ Htr) as Hroot.
  cbn [tables_ok]. split; [by eapply tr_aligned|]. split; [by eapply tr_range|].
  intros i Hi Hp. right. right. destruct (decide (i = 0)) as [->|Hne]; [by apply ident_tables_ok|].
  destruct (tr_child _ _ _ Htr _ [] i Hroot) as [_ Hc]; [cbn; lia|done|naive_solver|done|].
  by apply (labelled_tables_ok _ s.(KERNEL_PML4) path _ [i]).
Qed.

(** Leaves below a labelled table. *)
Lemma labelled_walk nx m root path l t p lvl k e :
  tree m root path → leaves_ok nx m path → path !! t = Some p → p ≠ [] → lvl = (4 - length p)%nat →
  length l = lvl → Forall (fun i => 0 ≤ i < 512) l → walk m t l (Z.of_nat lvl) = Some (k, e) →
  is_wx nx e = false ∧ Z.testbit e 2 = false.
Proof.
  intros Htr Hlv. revert t p lvl. induction l as [|i l IH]; intros t p lvl Ht Hne Hlvl Hl Hb Hw; [done|].
  pose proof (tr_depth _ _ _ Htr _ _ Ht). cbn [walk] in Hw. inversion_clear Hb as [|? ? Hi Hb']. cbn in Hl.
  destruct (is_present (ld64 m (t + 8 * i))) eqn:Ep; cbn [negb] in Hw; [|done].
  destruct (Z.eqb_spec (Z.of_nat lvl) 1) as [E1|E1]; cbn [orb] in Hw.
  - injection Hw as <- <-. apply (Hlv t p i); [done|lia|done|done].
  - destruct (tr_child _ _ _ Htr t p i) as [Hh Hc]; [done|lia|done|by intros [? _]|done|].
    rewrite Hh, andb_false_r in Hw. replace (Z.of_nat lvl - 1) with (Z.of_nat (lvl - 1)) in Hw by lia.
    apply (IH (entry_addr (ld64 m (t + 8 * i))) (p ++ [i]) (lvl - 1)%nat);
      [done| |rewrite length_app; cbn; lia|lia|done|done].
    intros H0. by apply app_nil in H0 as [_ ?].
Qed.

Lemma labelled_no_wx nx m root path t p :
  tree m root path → leaves_ok nx m path → path !! t = Some p → p ≠ [] →
  no_wx nx m t (4 - length p).
Proof. intros Htr Hlv Ht Hne l k e Hl Hb Hw. by destruct (labelled_walk nx m root path l t p _ k e Htr Hlv Ht Hne eq_refl Hl Hb Hw). Qed.

(** Outside slot 0 nothing is reachable from ring 3. *)
Lemma translate_supervisor s path va :
  vmm_inv s path → 0 ≤ va → (indices va).(i_pml4) ≠ 0 →
  ∃ r, translate debug s va = Ret r ∧ ∀ pa e, r = Some (pa, e) → Z.testbit e 2 = false.
Proof.
  intros Hinv Hva H0. rewrite (translate_ok debug s path va) by done. eexists. split; [reflexivity|].
  intros pa e Hr. destruct (walk _ _ _ _) as [[k e']|] eqn:Hw; [|done]. injection Hr as _ <-.
  pose proof (vi_tree _ _ Hinv) as Htr. pose proof (tr_root _ _ _ Htr) as Hroot. pose proof (idx_bounds va) as Hb.
  unfold idx_list in *. cbn [walk] in Hw. inversion_clear Hb as [|? ? B4 Hb'].
  destruct (is_present _) eqn:Ep; cbn [negb] in Hw; [|done]. change (4 =? 1) with false in Hw.
  change (4 <? 4) with false in Hw. cbn [orb andb] in Hw. change (4 - 1) with (Z.of_nat 3) in Hw.
  destruct (tr_child _ _ _ Htr _ [] (indices va).(i_pml4) Hroot) as [_ Hc]; [cbn; lia|done|naive_solver|done|].
  assert ([(indices va).(i_pml4)] ≠ []) as Hne by done.
  exact (proj2 (labelled_walk s.(NX_AVAILABLE) s.(mem) s.(KERNEL_PML4) path
    [(indices va).(i_pdpt); (indices va).(i_pd); (indices va).(i_pt)] _ [(indices va).(i_pml4)] 3 k e'
    Htr (vi_leaves _ _ Hinv) Hc Hne eq_refl eq_refl Hb' Hw)).
Qed.

(** Leaves of the identity map once every page of it is not W+X. *)
Lemma ident_no_wx nx m root :
  boot_map m root →
  (∀ i j, 0 ≤ i < 512 → 0 ≤ j < 512 → is_present (ident_pde m root i) = true →
     is_present (ld64 m (ident_pd m root i + 8 * j)) = true →
     is_wx nx (ld64 m (ident_pd m root i + 8 * j)) = false) →
  no_wx nx m (ident_pdpt m root) 3.
Proof.
  intros Hb Hleaf l k e Hl Hbd Hw. destruct l as [|i [|j l]]; [done|done|].
  inversion_clear Hbd as [|? ? Hi Hbd']. inversion_clear Hbd' as [|? ? Hj _].
  cbn [walk] in Hw. destruct (is_present (ident_pde m root i)) eqn:Ei; cbn [negb] in Hw; [|done].
  destruct (bm_pd _ _ Hb i Hi Ei) as (Hnh & _). rewrite Hnh in Hw. cbn [length] in Hw.
  change (Z.of_nat 3 =? 1) with false in Hw. rewrite andb_false_r in Hw. cbn [orb] in Hw.
  destruct (is_present (ld64 m (ident_pd m root i + 8 * j))) eqn:Ej; cbn [negb] in Hw; [|done].
  rewrite (bm_leaf _ _ Hb i j Hi Ei Hj Ej) in Hw. change (Z.of_nat 3 - 1 =? 1) with false in Hw.
  change (Z.of_nat 3 - 1 <? 4) with true in Hw. cbn [orb andb] in Hw. injection Hw as <- <-.
  by apply Hleaf.
Qed.

Lemma boot_no_wx s path :
  vmm_inv s path → boot_map s.(mem) s.(KERNEL_PML4) →
  no_wx s.(NX_AVAILABLE) s.(mem) (ident_pdpt s.(mem) s.(KERNEL_PML4)) 3 →
  no_wx s.(NX_AVAILABLE) s.(mem) s.(KERNEL_PML4) 4.
Proof.
  intros Hinv Hb Hid. pose proof (vi_tree _ _ Hinv) as Htr. pose proof (tr_root _ _ _ Htr) as Hroot.
  apply no_wx_slots; [lia|]. intros i Hi.
  destruct (is_present (ld64 s.(mem) (s.(KERNEL_PML4) + 8 * i))) eqn:Ep; [|by apply slot_absent].
  apply slot_table; [lia|done|by left|].
  destruct (decide (i = 0)) as [->|Hne]; [exact Hid|].
  destruct (tr_child _ _ _ Htr _ [] i Hroot) as [_ Hc]; [cbn; lia|done|naive_solver|done|].
  apply (labelled_no_wx _ _ s.(KERNEL_PML4) path _ [i]); [done|apply Hinv|done|done].
Qed.

(** The boot tables are not free memory. *)
Definition boot_kept (s : Vmm S) : Prop :=
  (page (ident_pdpt s.(mem) s.(CR3)) ∉ free s) ∧
  ∀ i, 0 ≤ i < 512 → is_present (ident_pde s.(mem) s.(CR3) i) = true →
       page (ident_pd s.(mem) s.(CR3) i) ∉ free s.

Lemma boot_map_transfer (s : Vmm S) m' root' :
  boot_map s.(mem) s.(CR3) → boot_kept s →
  root' mod 4096 = 0 → 0 < root' < BOOT_MAPPED_BYTES → page root' ∈ free s →
  ld64 m' (root' + 8 * 0) = ld64 s.(mem) (s.(CR3) + 8 * 0) →
  (∀ a, page a ∉ free s → ld64 m' a = ld64 s.(mem) a) →
  boot_map m' root' ∧
  ∀ i, 0 ≤ i < 512 → ident_pde m' root' i = ident_pde s.(mem) s.(CR3) i.
Proof.
  intros [B1 B2 B3 B4 B5] [K1 K2] Hal Hr Hin H0 Hm.
  assert (∀ t i, t mod 4096 = 0 → page t ∉ free s → 0 ≤ i < 512 →
            ld64 m' (t + 8 * i) = ld64 s.(mem) (t + 8 * i)) as Hslot.
  { intros t i Ht Hn Hi. apply Hm. by rewrite slot_page. }
  assert (∀ i, 0 ≤ i < 512 → ident_pde m' root' i = ident_pde s.(mem) s.(CR3) i) as Hpde.
  { intros i Hi. rewrite H0. apply Hslot; [apply entry_addr_aligned|done|done]. }
  split; [|done]. split.
  - done.
  - by rewrite H0.
  - rewrite H0. split; [apply B3|]. congruence.
  - intros i Hi. rewrite Hpde, H0 by done. intros Hp. destruct (B4 i Hi Hp) as (? & ? & ? & _).
    split; [done|]. split; [done|]. split; [done|]. pose proof (K2 i Hi Hp). congruence.
  - intros i j Hi. rewrite Hpde by done. intros Hp Hj.
    rewrite Hslot; [by apply B5|apply entry_addr_aligned|by apply K2|done].
Qed.

(** Hardening keeps the shape of the identity map. *)
Lemma hardening_boot_map nx m m' root :
  boot_map m root → hardening nx m m' root 512 0 →
  boot_map m' root ∧
  (∀ i j, 0 ≤ i < 512 → 0 ≤ j < 512 → is_present (ident_pde m' root i) = true →
     is_present (ld64 m' (ident_pd m' root i + 8 * j)) = true →
     is_wx nx (ld64 m' (ident_pd m' root i + 8 * j)) = false).
Proof.
  intros Hb Hh. destruct (bm_root _ _ Hb) as [Hal Hr].
  pose proof (hardening_tables nx m m' root 512 0 root 0 Hb Hh Hal (or_introl eq_refl) ltac:(lia)) as H0.
  assert (∀ i, 0 ≤ i < 512 → ident_pde m' root i = ident_pde m root i) as Hpde.
  { intros i Hi. rewrite H0. eapply hardening_tables; [done|done|apply entry_addr_aligned|by right|done]. }
  assert (∀ i j, 0 ≤ i < 512 → 0 ≤ j < 512 → is_present (ident_pde m root i) = true →
    is_present (ld64 m' (ident_pd m root i + 8 * j)) = true →
    ld64 m' (ident_pd m root i + 8 * j) = hardened nx (ld64 m (ident_pd m root i + 8 * j))) as Hleaf.
  { intros i j Hi Hj Hp Hp2. apply (hd_done _ _ _ _ _ _ Hh); [done|done|lia|done|].
    destruct (hd_either _ _ _ _ _ _ Hh (ident_pd m root i + 8 * j)) as [<-|(? & _)]; done. }
  split; [split|].
  - done.
  - rewrite H0. apply Hb.
  - rewrite H0. apply Hb.
  - intros i Hi. rewrite Hpde, H0 by done. by apply Hb.
  - intros i j Hi. rewrite Hpde by done. intros Hp Hj Hp2. rewrite Hleaf by done. apply hardened_bits.
  - intros i j Hi Hj. rewrite Hpde by done. intros Hp Hp2. rewrite Hleaf by done. apply hardened_bits.
Qed.

(** An address of the identity map, by its three indices. *)
Lemma ident_translate (s : Vmm S) va e :
  boot_map s.(mem) s.(KERNEL_PML4) → 0 ≤ va → (indices va).(i_pml4) = 0 →
  let i := (indices va).(i_pdpt) in
  let j := (indices va).(i_pd) in
  is_present (ident_pde s.(mem) s.(KERNEL_PML4) i) = true →
  ld64 s.(mem) (ident_pd s.(mem) s.(KERNEL_PML4) i + 8 * j) = e → is_present e = true →
  translate debug s va = Ret (Some (LP * (entry_addr e / LP) + va mod LP, e)).
Proof.
  intros Hb Hva H4 i j Hi He Hj. pose proof (idx_bounds va) as Hbd. unfold idx_list in Hbd.
  inversion_clear Hbd as [|? ? B4 Hb1]. inversion_clear Hb1 as [|? ? B3 Hb2]. inversion_clear Hb2 as [|? ? B2 _].
  destruct (bm_root _ _ Hb) as [Hal Hr]. destruct (bm_pdpt _ _ Hb) as [Hpr _].
  destruct (bm_pd _ _ Hb i B3 Hi) as (Hnh & Hpd & _).
  assert (is_huge e = true) as Hh by (subst e; by apply (bm_leaf _ _ Hb i j)).
  unfold translate, kernel_pml4. destruct (Z.eqb_spec s.(KERNEL_PML4) 0); [lia|].
  rewrite table_at_ok by done. cbn [mbind Res_bind]. unfold entry. rewrite H4, (bm_present _ _ Hb). cbn [negb].
  rewrite PhysAddr_new_low by apply entry_addr_bound. cbn [mbind Res_bind].
  rewrite table_at_ok by (done || apply entry_addr_aligned). cbn [mbind Res_bind].
  fold i. rewrite Hi, Hnh. cbn [negb].
  rewrite PhysAddr_new_low by apply entry_addr_bound. cbn [mbind Res_bind].
  rewrite table_at_ok by (done || apply entry_addr_aligned). cbn [mbind Res_bind].
  fold j. rewrite He, Hj, Hh. cbn [negb].
  pose proof (entry_addr_bound e) as Heb. change (Z.land (entry_addr e) (bnot 64 (LARGE_PAGE_SIZE - 1))) with (align_down_2m (entry_addr e)).
  rewrite align_down_2m_ok by (rewrite U64_val; lia).
  change (LARGE_PAGE_SIZE - 1) with (Z.ones 21). rewrite Z.land_ones by lia. unfold LP, LARGE_PAGE_SIZE.
  rewrite add64_ok by (rewrite U64_val; zlia). cbn [mbind Res_bind].
  rewrite PhysAddr_new_low by zlia. cbn [mbind Res_bind]. done.
Qed.

(** An address of slot 0 is a page of the identity map or nothing. *)
Lemma ident_cases (s : Vmm S) va :
  boot_map s.(mem) s.(KERNEL_PML4) → 0 ≤ va → (indices va).(i_pml4) = 0 →
  translate debug s va = Ret None ∨
  ∃ pa i j, 0 ≤ i < 512 ∧ 0 ≤ j < 512 ∧ is_present (ident_pde s.(mem) s.(KERNEL_PML4) i) = true ∧
    is_present (ld64 s.(mem) (ident_pd s.(mem) s.(KERNEL_PML4) i + 8 * j)) = true ∧
    translate debug s va = Ret (Some (pa, ld64 s.(mem) (ident_pd s.(mem) s.(KERNEL_PML4) i + 8 * j))).
Proof.
  intros Hb Hva H4. pose proof (idx_bounds va) as Hbd. unfold idx_list in Hbd.
  inversion_clear Hbd as [|? ? B4 Hb1]. inversion_clear Hb1 as [|? ? B3 Hb2]. inversion_clear Hb2 as [|? ? B2 _].
  set (i := (indices va).(i_pdpt)) in *. set (j := (indices va).(i_pd)) in *.
  destruct (is_present (ident_pde s.(mem) s.(KERNEL_PML4) i)) eqn:Ei;
    [destruct (is_present (ld64 s.(mem) (ident_pd s.(mem) s.(KERNEL_PML4) i + 8 * j))) eqn:Ej|].
  { right. eexists _, i, j. do 4 (split; [done|]). by apply (ident_translate s va _ Hb). }
  all: left; destruct (bm_root _ _ Hb) as [Hal Hr]; destruct (bm_pdpt _ _ Hb) as [Hpr _];
    unfold translate, kernel_pml4; destruct (Z.eqb_spec s.(KERNEL_PML4) 0); [lia|];
    rewrite table_at_ok by done; cbn [mbind Res_bind]; unfold entry; rewrite H4, (bm_present _ _ Hb); cbn [negb];
    rewrite PhysAddr_new_low by apply entry_addr_bound; cbn [mbind Res_bind];
    rewrite table_at_ok by (done || apply entry_addr_aligned); cbn [mbind Res_bind]; fold i; rewrite Ei; cbn [negb]; try done.
  destruct (bm_pd _ _ Hb i B3 Ei) as (Hnh & Hpd & _). rewrite Hnh.
  rewrite PhysAddr_new_low by apply entry_addr_bound. cbn [mbind Res_bind].
  rewrite table_at_ok by (done || apply entry_addr_aligned). cbn [mbind Res_bind]. fold j. by rewrite Ej.
Qed.

(** The state [vmm::init] leaves and the state [harden_boot_map] makes of it:
    the higher half is the layout in both, the identity map is boot.asm's in the
    first and hardened in the second. *)
Lemma boot_space_ok k bp lo hi s :
  init_env k bp lo hi s → boot_map s.(mem) s.(CR3) → boot_kept s →
  ∃ info s1 s2 n path, init debug k bp s = Ret (info, s1) ∧ harden_boot_map debug s1 = Ret (s2, n) ∧
    s2 = set_mem s1 s2.(mem) ∧ s1.(NX_AVAILABLE) = s.(NX_AVAILABLE) ∧
    boot_map s1.(mem) s1.(KERNEL_PML4) ∧ boot_map s2.(mem) s2.(KERNEL_PML4) ∧
    vmm_inv s1 path ∧ vmm_inv s2 path ∧ no_wx s2.(NX_AVAILABLE) s2.(mem) s2.(KERNEL_PML4) 4 ∧
    (∀ v, U64 - 2 ^ 47 ≤ v < U64 → translate debug s1 v = Ret (layout s.(NX_AVAILABLE) (kernel_regions k lo hi) v)) ∧
    (∀ v, U64 - 2 ^ 47 ≤ v < U64 → translate debug s2 v = Ret (layout s.(NX_AVAILABLE) (kernel_regions k lo hi) v)) ∧
    (∀ i j, 0 ≤ i < 512 → 0 ≤ j < 512 → is_present (ident_pde s.(mem) s.(CR3) i) = true →
       is_present (ident_pde s1.(mem) s1.(KERNEL_PML4) i) = true ∧ is_present (ident_pde s2.(mem) s2.(KERNEL_PML4) i) = true ∧
       let e := ld64 s.(mem) (ident_pd s.(mem) s.(CR3) i + 8 * j) in
       ld64 s1.(mem) (ident_pd s1.(mem) s1.(KERNEL_PML4) i + 8 * j) = e ∧
       (is_present e = true → ld64 s2.(mem) (ident_pd s2.(mem) s2.(KERNEL_PML4) i + 8 * j) = hardened s.(NX_AVAILABLE) e)) ∧
    (∀ a, page a ∉ free s → ld64 s1.(mem) a = ld64 s.(mem) a) ∧
    free s1 ⊆ free s ∧ Z.of_nat (size (free s)) ≤ Z.of_nat (size (free s1)) + frames_needed k lo hi ∧
    (∀ i j, 0 ≤ i < 512 → 0 ≤ j < 512 → is_present (ident_pde s2.(mem) s2.(KERNEL_PML4) i) = true →
       is_present (ld64 s2.(mem) (ident_pd s2.(mem) s2.(KERNEL_PML4) i + 8 * j)) = true →
       Z.testbit (ld64 s2.(mem) (ident_pd s2.(mem) s2.(KERNEL_PML4) i + 8 * j)) 2 = false) ∧
    (∀ a, page a ∉ free s → (∀ i, 0 ≤ i < 512 → is_present (ident_pde s.(mem) s.(CR3) i) = true →
         page a ≠ page (ident_pd s.(mem) s.(CR3) i)) → ld64 s2.(mem) a = ld64 s.(mem) a).
Proof.
  intros Henv Hb Hk. destruct (init_ok k bp lo hi s Henv)
    as (info & s1 & path & E & Hinv & Hcr & Hnx & _ & Htr & H0 & Hkept & Hlab & _ & Hfr & Hcnt).
  pose proof (vi_tree _ _ Hinv) as Htree. pose proof (tr_root _ _ _ Htree) as Hroot.
  destruct (boot_map_transfer s s1.(mem) s1.(KERNEL_PML4)) as [Hb1 Hpde];
    [done|done|by eapply tr_aligned|by eapply tr_range|by eapply Hlab|done|done|].
  destruct (harden_ok debug s1) as (s2 & n & E2 & _ & Hs2 & Hh); [by rewrite Hcr|]. rewrite Hcr in Hh.
  destruct (hardening_boot_map _ _ _ _ Hb1 Hh) as [Hb2 Hwx].
  assert (agree path s1.(mem) s2.(mem)) as Hag.
  { intros t p i Ht Hi. destruct (hd_either _ _ _ _ _ _ Hh (t + 8 * i)) as [|(_ & _ & j & Hj & Hp & Hpg)]; [done|].
    exfalso. rewrite slot_page in Hpg by (done || by eapply tr_aligned).
    rewrite Hpde in Hp, Hpg by done. apply (proj2 Hk j Hj Hp). rewrite <- Hpg. by eapply Hlab. }
  assert (vmm_inv s2 path) as Hinv2 by (rewrite Hs2; by apply agree_inv).
  assert (s2.(KERNEL_PML4) = s1.(KERNEL_PML4)) as Ek by (by rewrite Hs2).
  assert (s2.(NX_AVAILABLE) = s1.(NX_AVAILABLE)) as En by (by rewrite Hs2).
  exists info, s1, s2, n, path. split; [done|]. split; [done|]. split; [done|]. split; [done|].
  split; [done|]. split; [by rewrite Ek|]. split; [done|]. split; [done|].
  split; [apply (boot_no_wx s2 path Hinv2); rewrite Ek; [done|]; rewrite En; by apply ident_no_wx|].
  split; [done|]. split; [intros v Hv; rewrite Hs2, (agree_translate s1 path) by done; by apply Htr|].
  assert (∀ i, 0 ≤ i < 512 → ident_pde s2.(mem) s2.(KERNEL_PML4) i = ident_pde s1.(mem) s1.(KERNEL_PML4) i) as Hpde2.
  { intros i' Hi'. rewrite Ek. destruct (bm_root _ _ Hb1) as [Hal _].
    rewrite (hardening_tables _ _ _ _ 512 0 s1.(KERNEL_PML4) 0 Hb1 Hh Hal (or_introl eq_refl) ltac:(lia)).
    eapply hardening_tables; [done|done|apply entry_addr_aligned|by right|done]. }
  split; [|split; [done|split; [done|split; [done|split]]]].
  3:{ intros a Ha Hpg. destruct (hd_either _ _ _ _ _ _ Hh a) as [->|(_ & _ & i & Hi & Hp & Hq)]; [by apply Hkept|].
      rewrite Hpde in Hp, Hq by done. by destruct (Hpg i Hi Hp). }
  2:{ intros i j Hi Hj Hp Hp2. rewrite Hpde2 in Hp, Hp2 |- * by done.
      destruct (is_present (ld64 s1.(mem) (ident_pd s1.(mem) s1.(KERNEL_PML4) i + 8 * j))) eqn:Hp1.
      - rewrite (hd_done _ _ _ _ _ _ Hh i j) by (done || lia). apply hardened_bits.
      - destruct (hd_either _ _ _ _ _ _ Hh (ident_pd s1.(mem) s1.(KERNEL_PML4) i + 8 * j)) as [|(? & _)]; congruence. }
  intros i j Hi Hj Hp.
  assert (ld64 s1.(mem) (ident_pd s1.(mem) s1.(KERNEL_PML4) i + 8 * j) = ld64 s.(mem) (ident_pd s.(mem) s.(CR3) i + 8 * j)) as E1.
  { rewrite Hpde by done. apply Hkept. rewrite slot_page; [by apply (proj2 Hk)|apply entry_addr_aligned|done]. }
  split; [by rewrite Hpde|]. split; [by rewrite Hpde2, Hpde|]. cbn zeta. split; [done|]. intros He.
  rewrite <- E1, <- Hnx, Hpde2 by done. apply (hd_done _ _ _ _ _ _ Hh); [done|done|lia|by rewrite Hpde|by rewrite E1].
Qed.

(** Below the image, only the heap is mapped. *)
Lemma layout_gap nx k lo hi v :
  sections_ok k → hi - lo ≤ HUGE_PAGE_SIZE → 0xFFFFFFFE00000000 ≤ v < KERNEL_VMA → (v < HEAP_VIRT_START ∨ HEAP_VIRT_START + (hi - lo) ≤ v) →
  layout nx (kernel_regions k lo hi) v = None.
Proof.
  intros Hsec Hlen Hv Hout. pose proof (image_top_bounds k Hsec) as [Htop _]. sections Hsec.
  cbn [kernel_regions layout]. unfold in_region. cbn [r_va r_len]. unfold KERNEL_VMA, HUGE_PAGE_SIZE, HEAP_VIRT_START in *.
  repeat match goal with |- context [(?a <=? ?b) && (?c <? ?d)] =>
    destruct (Z.leb_spec a b), (Z.ltb_spec c d); cbn [andb]; try lia end; done.
Qed.

(** C2: [vmm::init] builds exactly the documented higher half.  With enough
    free frames it succeeds, switches CR3 to the new root, and every address of
    the higher half then translates as the layout says: .text read-execute,
    .rodata read-only, .data and .bss read-write, the heap and the VGA window
    read-write, and nothing else, so the pages around the heap fault.  Slot 0
    is inherited and memory that was not free is unchanged. *)
Theorem init_builds_layout k bp lo hi s :
  init_env k bp lo hi s →
  ∃ info s', init debug k bp s = Ret (info, s') ∧ s'.(CR3) = s'.(KERNEL_PML4) ∧
    (∀ v, U64 - 2 ^ 47 ≤ v < U64 →
       translate debug s' v = Ret (layout s.(NX_AVAILABLE) (kernel_regions k lo hi) v)) ∧
    translate debug s' (HEAP_VIRT_START - 1) = Ret None ∧
    translate debug s' (HEAP_VIRT_START + (hi - lo)) = Ret None ∧
    ld64 s'.(mem) (s'.(KERNEL_PML4) + 8 * 0) = ld64 s.(mem) (s.(CR3) + 8 * 0) ∧
    (∀ a, page a ∉ free s → ld64 s'.(mem) a = ld64 s.(mem) a).
Proof.
  intros Henv. destruct (init_ok k bp lo hi s Henv)
    as (info & s' & path' & E & Hinv & Hcr & Hnx & _ & Htr & H0 & Hkept & _ & _).
  exists info, s'. split; [done|]. split; [done|]. split; [done|].
  destruct (ie_heap _ _ _ _ _ Henv) as [_ _ _ _ (Hr0 & Hr1 & Hr2) _].
  pose proof (ie_sections _ _ _ _ _ Henv) as Hsec. split; [|split; [|done]].
  - rewrite Htr by (unfold HEAP_VIRT_START; rewrite ?U64_val; lia).
    by rewrite layout_gap by (done || unfold HEAP_VIRT_START, KERNEL_VMA; lia).
  - unfold HUGE_PAGE_SIZE in *. rewrite Htr by (unfold HEAP_VIRT_START; rewrite ?U64_val; lia).
    by rewrite layout_gap by (done || unfold HEAP_VIRT_START, KERNEL_VMA, HUGE_PAGE_SIZE; lia).
Qed.

(** C5: after [init] and [harden_boot_map], from the memory boot.asm leaves with
    enough free frames, the self-test's W^X count is zero, and rightly so when the
    CPU has NX: no page of the whole address space, identity map included, has an
    entry that is writable (bit 1) and executable (bit 63 clear).  The higher half
    still translates as the layout says, with or without NX. *)
Theorem boot_is_wx_free k bp lo hi s :
  init_env k bp lo hi s → boot_map s.(mem) s.(CR3) → boot_kept s →
  ∃ info s1 s2 n, init debug k bp s = Ret (info, s1) ∧ harden_boot_map debug s1 = Ret (s2, n) ∧
    count_wx_violations debug s2 = Ret 0 ∧
    (s.(NX_AVAILABLE) = true → wx_free s2.(mem) s2.(KERNEL_PML4)) ∧
    (∀ v, U64 - 2 ^ 47 ≤ v < U64 →
       translate debug s2 v = Ret (layout s.(NX_AVAILABLE) (kernel_regions k lo hi) v)).
Proof.
  intros Henv Hb Hk. destruct (boot_space_ok k bp lo hi s Henv Hb Hk)
    as (info & s1 & s2 & n & path & E & E2 & Hs2 & Hnx & _ & Hb2 & _ & Hinv2 & Hno & _ & Htr2 & _).
  destruct (count_wx_ok debug s2) as (c & Ec & _ & Hiff); [by apply (boot_tables_ok s2 path)|].
  exists info, s1, s2, n. split; [done|]. split; [done|]. split; [rewrite Ec; f_equal; by apply Hiff|]. split; [|done].
  apply no_wx_free. rewrite <- Hnx. by rewrite Hs2 in Hno |- *.
Qed.

End Space.
