(* ===== verification/VmmWitness.v ===== *)
(** * Page tables: a concrete machine

    A small machine on which the hypotheses of the theorems of VmmSpec and
    AddressSpace hold: the tables boot.asm leaves behind (a PML4, a PDPT and a
    page directory with two 2 MiB pages), a boot-parameter block that names a
    16 KiB heap, a kernel image of four 2 MiB sections, and nine thousand free
    frames above it. *)

From S2P Require Import Prelude Arch BootInfo Bitmap Pmm PmmSpec Vmm PageTables VmmSpec AddressSpace.
From stdpp Require Import base gmap sets list list_numbers strings numbers.
From Stdlib Require Import ZArith Lia.
#[local] Open Scope Z_scope.

#[local] Existing Instance list_source.
#[local] Existing Instance x86_ref.

Definition demo_mem : phys :=
  list_to_map [(0x1000, 0x2003); (0x2000, 0x3003); (0x3000, 0x83); (0x3008, 0x200083);
               (0x520, 0x1000000); (0x528, 0x1004000)].

Definition demo_frames : list Z := seqZ 0x2000 9000.

(** The machine before [init] ([root] = 0) and with [root] as kernel PML4. *)
Definition demo (root : Z) : Vmm (list Z) := mkVmm true PtPool_new root 0x1000 demo_mem demo_frames.

Definition demo_syms : LinkerSyms :=
  {| text_start := KERNEL_VMA + 0x200000; text_end := KERNEL_VMA + 0x380000;
     rodata_start := KERNEL_VMA + 0x400000; rodata_end := KERNEL_VMA + 0x420000;
     data_start := KERNEL_VMA + 0x600000; data_end := KERNEL_VMA + 0x601000;
     bss_start := KERNEL_VMA + 0x800000; bss_end := KERNEL_VMA + 0x900000;
     virt_end := KERNEL_VMA + 0x900000 |}.

(** A property of a range of slots, by evaluation. *)
Lemma range_check (P : Z → bool) a n i :
  forallb P (seqZ a n) = true → a ≤ i < a + n → P i = true.
Proof.
  intros H Hi. apply (proj1 (forallb_forall P _) H), list_elem_of_In, elem_of_seqZ. lia.
Qed.

Lemma demo_free i : i ∈ fs_free demo_frames ↔ 0x2000 ≤ i < 0x2000 + 9000.
Proof. cbn [fs_free list_source]. unfold demo_frames. by rewrite elem_of_list_to_set, elem_of_seqZ. Qed.

Lemma demo_size : Z.of_nat (size (fs_free demo_frames)) = 9000.
Proof.
  cbn [fs_free list_source]. unfold demo_frames.
  rewrite size_list_to_set by apply NoDup_seqZ. rewrite length_seqZ. lia.
Qed.

Lemma demo_src : fs_inv demo_frames.
Proof.
  cbn [fs_inv list_source]. unfold demo_frames. split; [apply NoDup_seqZ|].
  apply list.Forall_forall. intros i Hi%elem_of_seqZ. rewrite MAX_FRAMES_val. lia.
Qed.

#[local] Opaque demo_frames.

(** Slot 0 is the only present slot of the root and of the PDPT. *)
Lemma demo_root_slots i : 1 ≤ i < 512 → is_present (ld64 demo_mem (0x1000 + 8 * i)) = false.
Proof.
  intros Hi. apply negb_true_iff.
  apply (range_check (fun i => negb (is_present (ld64 demo_mem (0x1000 + 8 * i)))) 1 511); [by vm_compute|lia].
Qed.

Lemma demo_pdpt_slots i :
  0 ≤ i < 512 → is_present (ld64 demo_mem (0x2000 + 8 * i)) = true → i = 0.
Proof.
  intros Hi Hp. apply Z.eqb_eq.
  pose proof (range_check (fun i => negb (is_present (ld64 demo_mem (0x2000 + 8 * i))) || (i =? 0))
    0 512 i ltac:(by vm_compute) ltac:(lia)) as H. cbn beta in H. by rewrite Hp in H.
Qed.

Lemma demo_pd_slots j :
  0 ≤ j < 512 → is_present (ld64 demo_mem (0x3000 + 8 * j)) = true →
  is_huge (ld64 demo_mem (0x3000 + 8 * j)) = true.
Proof.
  intros Hj Hp.
  pose proof (range_check (fun j => negb (is_present (ld64 demo_mem (0x3000 + 8 * j)))
      || is_huge (ld64 demo_mem (0x3000 + 8 * j))) 0 512 j ltac:(by vm_compute) ltac:(lia)) as H.
  cbn beta in H. by rewrite Hp in H.
Qed.

Lemma demo_tables :
  ident_pdpt demo_mem 0x1000 = 0x2000 ∧ ident_pd demo_mem 0x1000 0 = 0x3000 ∧
  is_huge (ident_pde demo_mem 0x1000 0) = false ∧ is_present (ld64 demo_mem (0x1000 + 8 * 0)) = true.
Proof. by vm_compute. Qed.

Lemma demo_boot_map : boot_map demo_mem 0x1000.
Proof.
  destruct demo_tables as (E1 & E2 & E3 & E4).
  split; [split; [done|unfold BOOT_MAPPED_BYTES; lia]|done|rewrite E1; unfold BOOT_MAPPED_BYTES; lia| |].
  - intros i Hi Hp. rewrite E1 in Hp. apply demo_pdpt_slots in Hp; [subst i|done].
    rewrite E3, E2, E1. split; [done|]. unfold BOOT_MAPPED_BYTES. lia.
  - intros i j Hi Hp Hj. rewrite E1 in Hp. apply demo_pdpt_slots in Hp; [subst i|done].
    rewrite E2. by apply demo_pd_slots.
Qed.

Lemma demo_inv : vmm_inv (demo 0x1000) {[0x1000 := []]}.
Proof.
  apply (fresh_root false (demo 0x1000)); cbn [demo src PT_POOL KERNEL_PML4 mem PtPool_new allocated pool_frames].
  - apply demo_src.
  - rewrite demo_free. lia.
  - apply length_replicate.
  - lia.
  - rewrite demo_size, U64_val. lia.
  - done.
  - unfold BOOT_MAPPED_BYTES. zlia.
  - rewrite demo_free. change (page 0x1000) with 1. lia.
  - apply demo_root_slots.
Qed.

Lemma demo_init_env : init_env demo_syms 0x500 0x1000000 0x1004000 (demo 0).
Proof.
  split; cbn [demo src PT_POOL CR3 mem PtPool_new allocated pool_frames].
  - apply demo_src.
  - rewrite demo_free. lia.
  - split; [apply length_replicate|lia].
  - rewrite demo_size, U64_val. lia.
  - unfold BOOT_MAPPED_BYTES. zlia.
  - rewrite demo_free. change (page 0x1000) with 1. lia.
  - split; unfold demo_syms, LP, LARGE_PAGE_SIZE, KERNEL_VMA; rewrite ?U64_val;
      cbn [text_start text_end rodata_start rodata_end data_start data_end bss_start bss_end virt_end]; zlia.
  - split; cbn [demo mem src]; [unfold BOOT_MAPPED_BYTES; zlia|done|done| |unfold BOOT_MAPPED_BYTES, HUGE_PAGE_SIZE; lia|done].
    rewrite !demo_free. change (page (0x500 + 0x20)) with 0. change (page (0x500 + 0x28)) with 0. lia.
  - rewrite demo_size. by vm_compute.
Qed.

Lemma demo_boot_kept : boot_kept (demo 0).
Proof.
  destruct demo_tables as (E1 & E2 & _ & _). unfold boot_kept. cbn [demo mem CR3 src].
  split; [rewrite E1, demo_free; change (page 0x2000) with 2; lia|].
  intros i Hi Hp. rewrite E1 in Hp. apply demo_pdpt_slots in Hp; [subst i|done].
  rewrite E2, demo_free. change (page 0x3000) with 3. lia.
Qed.

(** ** The theorems on this machine *)

Lemma demo_range : range_ok KERNEL_VMA 0x7000 4096.
Proof. split; unfold KERNEL_VMA; rewrite ?U64_val; zlia. Qed.

Lemma demo_no_conflict : no_conflict (demo 0x1000) KERNEL_VMA 0x7000 1.
Proof.
  intros k lv e Hk. assert (k = 0) as -> by lia. intros H. exfalso. revert H.
  cbn [demo mem KERNEL_PML4]. by vm_compute.
Qed.

Lemma map_4k_translates_witness :
  ∃ s' path', map_4k false (demo 0x1000) KERNEL_VMA 0x7000 4096 RoData = Ret s' ∧ vmm_inv s' path' ∧
    translate false s' (KERNEL_VMA + 5) =
      Ret (Some (0x7005, page_entry true KERNEL_VMA 0x7000 (KERNEL_VMA + 5) RoData)).
Proof.
  destruct (map_4k_translates false (demo 0x1000) {[0x1000 := []]} KERNEL_VMA 0x7000 4096 RoData
    demo_inv demo_range) as (s' & path' & E & Hinv & Htr & _).
  - cbn [demo src]. rewrite demo_size. by vm_compute.
  - exact demo_no_conflict.
  - exists s', path'. split; [exact E|]. split; [exact Hinv|]. rewrite (Htr (KERNEL_VMA + 5)) by (unfold KERNEL_VMA; rewrite U64_val; lia).
    rewrite bool_decide_eq_true_2 by (unfold KERNEL_VMA; lia). reflexivity.
Defined.

Lemma map_4k_refuses_witness :
  map_4k false (demo 0x1000) (KERNEL_VMA + 1) 0x7000 4096 RoData = Panic (PanicMsg "map_4k: unaligned va") ∧
  ∃ s', map_4k false (demo 0x1000) KERNEL_VMA 0x7000 4096 RoData = Ret s' ∧
    map_4k false s' KERNEL_VMA 0x8000 4096 RoData =
      Panic (PanicMsg "map_4k: already maps, refusing to remap").
Proof.
  split.
  { apply (map_4k_refuses false (demo 0x1000) {[0x1000 := []]} (KERNEL_VMA + 1) 0x7000 4096 RoData).
    unfold KERNEL_VMA. zlia. }
  destruct (map_4k_ok false (demo 0x1000) {[0x1000 := []]} KERNEL_VMA 0x7000 4096 RoData
    demo_inv demo_range) as (s' & path' & E & Hinv & Hg & Hm).
  - cbn [demo src]. rewrite demo_size. by vm_compute.
  - exact demo_no_conflict.
  - exists s'. split; [exact E|].
    pose proof (mapped_translate false _ _ _ _ _ _ _ _ KERNEL_VMA demo_inv Hinv demo_range Hm
      ltac:(unfold KERNEL_VMA; rewrite U64_val; lia)) as Htr.
    rewrite bool_decide_eq_true_2 in Htr by (unfold KERNEL_VMA; lia).
    destruct (map_4k_refuses false s' path' KERNEL_VMA 0x8000 4096 RoData) as (_ & _ & _ & _ & H).
    eapply H; [exact Hinv| |lia| |exact Htr|unfold KERNEL_VMA; lia].
    + split; unfold KERNEL_VMA; rewrite ?U64_val; zlia.
    + pose proof (gr_count _ _ _ _ _ Hg) as Hc. cbn [demo src] in Hc. rewrite demo_size in Hc.
      change (4096 / 4096) with 1 in Hc. lia.
Defined.


Lemma count_wx_zero_iff_witness :
  ∃ n, count_wx_violations false (demo 0x1000) = Ret n ∧ n ≠ 0.
Proof.
  destruct (count_wx_zero_iff false (demo 0x1000)) as (n & E & _ & H & _).
  - destruct demo_tables as (E1 & E2 & E3 & E4). cbn [demo mem KERNEL_PML4].
    split; [reflexivity|]. split; [unfold BOOT_MAPPED_BYTES; lia|]. intros i Hi Hp. right. right.
    destruct (decide (i = 0)) as [->|Hne]; [|rewrite demo_root_slots in Hp by lia; discriminate].
    rewrite E1. split; [reflexivity|]. split; [unfold BOOT_MAPPED_BYTES; lia|].
    intros j Hj Hpj. right. right. apply demo_pdpt_slots in Hpj; [subst j|done].
    change (entry_addr (ld64 demo_mem (0x2000 + 8 * 0))) with 0x3000.
    split; [reflexivity|]. split; [unfold BOOT_MAPPED_BYTES; lia|]. intros l Hl Hpl. right. left.
    split; [lia|]. by apply demo_pd_slots.
  - exists n. split; [exact E|]. rewrite (H eq_refl). intros Hall.
    refine (Hall [0; 0; 0; 0] 0x83 eq_refl _ _ (conj eq_refl eq_refl)); [repeat constructor; lia|].
    vm_compute. reflexivity.
Defined.

Lemma init_builds_layout_witness :
  ∃ info s', init false demo_syms 0x500 (demo 0) = Ret (info, s') ∧
    translate false s' (HEAP_VIRT_START + 0x4000) = Ret None ∧
    translate false s' (KERNEL_VMA + 0x400010) =
      Ret (layout true (kernel_regions demo_syms 0x1000000 0x1004000) (KERNEL_VMA + 0x400010)).
Proof.
  destruct (init_builds_layout false demo_syms 0x500 0x1000000 0x1004000 (demo 0) demo_init_env)
    as (info & s' & E & _ & Htr & _ & Hguard & _).
  exists info, s'. split; [exact E|]. split; [exact Hguard|].
  apply (Htr (KERNEL_VMA + 0x400010)). unfold KERNEL_VMA. rewrite U64_val. lia.
Defined.

Lemma boot_is_wx_free_witness :
  ∃ info s1 s2 n, init false demo_syms 0x500 (demo 0) = Ret (info, s1) ∧
    harden_boot_map false s1 = Ret (s2, n) ∧ count_wx_violations false s2 = Ret 0 ∧ wx_free s2.(mem) s2.(KERNEL_PML4).
Proof.
  destruct (boot_is_wx_free false demo_syms 0x500 0x1000000 0x1004000 (demo 0)
    demo_init_env demo_boot_map demo_boot_kept) as (info & s1 & s2 & n & E1 & E2 & E3 & E4 & _).
  exists info, s1, s2, n. split; [exact E1|]. split; [exact E2|]. split; [exact E3|exact (E4 eq_refl)].
Defined.
