(* ===== verification/Ports.v ===== *)
(** * Port I/O

    The kernel reaches the 8259A, the 8254, the PS/2 controller and the UARTs
    through [x86_64::instructions::port::Port].  The devices are a parameter
    [Bus]: what a read returns and how reads and writes move the device on is
    the device's business, not the kernel's.  The state [Hw] pairs the devices
    with the accesses made so far, oldest first, so that a theorem can say which
    ports a driver touched, in which order and with which values. *)

From S2P Require Import Prelude.
From stdpp Require Import base list strings.
From Stdlib Require Import ZArith Lia.
#[local] Open Scope Z_scope.

Inductive pevent : Type :=
  | PIn (port v : Z)
  | POut (port v : Z).

#[export] Instance pevent_eq_dec : EqDecision pevent.
Proof. solve_decision. Defined.

(** The devices behind the ports: byte reads return bytes. *)
Class Bus (D : Type) : Type := {
  bus_in : Z → D → Z * D;
  bus_out : Z → Z → D → D;
  bus_in_byte p d : 0 ≤ (bus_in p d).1 < 256;
}.

Record Hw (D : Type) : Type := mkHw { dev : D; io : list pevent }.
Arguments mkHw {D} _ _.
Arguments dev {D} _.
Arguments io {D} _.

(** A device that answers its reads from a script, for the witnesses. *)
#[refine] Definition script_bus : Bus (list Z) := {|
  bus_in _ d := match d with [] => (0, []) | v :: d' => (v mod 256, d') end;
  bus_out _ _ d := d;
|}.
Proof. intros _ [|v d]; cbn [fst]; [lia|]. apply Z.mod_pos_bound. lia. Defined.

Section Ports.
Context {D : Type} `{B : Bus D}.

(** [Port::<u8>::read] and [Port::<u8>::write] *)
Definition inb (port : Z) (h : Hw D) : Z * Hw D :=
  let '(v, d) := bus_in port h.(dev) in (v, mkHw d (h.(io) ++ [PIn port v])).

Definition outb (port v : Z) (h : Hw D) : Hw D :=
  mkHw (bus_out port v h.(dev)) (h.(io) ++ [POut port v]).

(** [iowait] and the like: writes whose value does not matter. *)
Fixpoint outs (l : list (Z * Z)) (h : Hw D) : Hw D :=
  match l with
  | [] => h
  | (p, v) :: l' => outs l' (outb p v h)
  end.

Lemma io_outb port v h : io (outb port v h) = io h ++ [POut port v].
Proof. done. Qed.

Lemma io_inb port h : io (inb port h).2 = io h ++ [PIn port (inb port h).1].
Proof. unfold inb. by destruct (bus_in port (dev h)). Qed.

Lemma inb_byte port h : 0 ≤ (inb port h).1 < 256.
Proof. unfold inb. pose proof (bus_in_byte port (dev h)). by destruct (bus_in port (dev h)). Qed.

Lemma io_outs l h : io (outs l h) = io h ++ map (fun pv => POut pv.1 pv.2) l.
Proof.
  revert h. induction l as [|[p v] l IH]; intros h; cbn [outs map].
  - by rewrite app_nil_r.
  - rewrite IH, io_outb, <- app_assoc. done.
Qed.

(** The accesses a computation adds to the log all satisfy [P]. *)
Definition adds (P : pevent → Prop) (h h' : Hw D) : Prop := ∃ l, io h' = io h ++ l ∧ Forall P l.

#[export] Instance adds_preorder P : PreOrder (adds P).
Proof.
  split.
  - intros h. exists []. by rewrite app_nil_r.
  - intros h1 h2 h3 (l1 & E1 & H1) (l2 & E2 & H2). exists (l1 ++ l2).
    rewrite E2, E1, app_assoc. split; [done|]. by apply Forall_app.
Qed.

Lemma adds_outb (P : pevent → Prop) port v h : P (POut port v) → adds P h (outb port v h).
Proof. intros H. eexists. split; [apply io_outb|]. by repeat constructor. Qed.
Lemma adds_inb (P : pevent → Prop) port h : (∀ v, P (PIn port v)) → adds P h (inb port h).2.
Proof. intros H. eexists. split; [apply io_inb|]. by repeat constructor. Qed.

End Ports.

Arguments outs {D B} l h : simpl never.

(** The writes of a log to one port. *)
Fixpoint writes_to (port : Z) (l : list pevent) : list Z :=
  match l with
  | [] => []
  | POut p v :: l' => if p =? port then v :: writes_to port l' else writes_to port l'
  | PIn _ _ :: l' => writes_to port l'
  end.

(** The reads of a log from one port. *)
Fixpoint reads_from (port : Z) (l : list pevent) : list Z :=
  match l with
  | [] => []
  | PIn p v :: l' => if p =? port then v :: reads_from port l' else reads_from port l'
  | POut _ _ :: l' => reads_from port l'
  end.

Lemma writes_to_app port l1 l2 : writes_to port (l1 ++ l2) = writes_to port l1 ++ writes_to port l2.
Proof.
  induction l1 as [|[p v|p v] l1 IH]; cbn [writes_to app]; [done|done|].
  destruct (p =? port); [by rewrite IH|done].
Qed.

Lemma reads_from_app port l1 l2 : reads_from port (l1 ++ l2) = reads_from port l1 ++ reads_from port l2.
Proof.
  induction l1 as [|[p v|p v] l1 IH]; cbn [reads_from app]; [done| |done].
  destruct (p =? port); [by rewrite IH|done].
Qed.

#[export] Hint Resolve adds_outb adds_inb : orin.
