(* ===== verification/Pic.v ===== *)
(** * The 8259A driver (kernel/src/interrupts/pic.rs)

    The driver keeps a shadow of the two interrupt mask registers and writes
    the controllers through their command and data ports.  The specification is
    the datasheet's view of a controller, [i8259]: an automaton over the writes
    to its two ports (initialisation words ICW1-ICW4, then masks and
    end-of-interrupt commands).  The theorems run that automaton over the writes
    the driver makes. *)

From S2P Require Import Prelude Ports.
From stdpp Require Import base list strings.
From Stdlib Require Import ZArith Lia.
#[local] Open Scope Z_scope.

(** ** Constants *)

Definition MASTER_CMD : Z := 0x20.
Definition MASTER_DATA : Z := 0x21.
Definition SLAVE_CMD : Z := 0xA0.
Definition SLAVE_DATA : Z := 0xA1.
Definition MASTER_OFFSET : Z := 0x20.
Definition SLAVE_OFFSET : Z := 0x28.
Definition ICW1_ICW4 : Z := 0x01.
Definition ICW1_INIT : Z := 0x10.
Definition ICW4_8086 : Z := 0x01.
Definition CMD_END_OF_INTERRUPT : Z := 0x20.

Definition irq_TIMER : Z := 0.
Definition irq_KEYBOARD : Z := 1.
Definition irq_CASCADE : Z := 2.

(** ** Byte arithmetic with overflow checks *)

Definition add8 (a b : Z) : Res Z := if a + b <? 256 then Ret (a + b) else Panic Overflow.
(** [1u8 << k] *)
Definition shl8 (k : Z) : Res Z := if k <? 8 then Ret (Z.shiftl 1 k) else Panic Overflow.

(** ** Vectors and lines *)

Definition vector_for_irq (irq : Z) : Res Z :=
  if irq <? 8 then add8 MASTER_OFFSET irq else add8 SLAVE_OFFSET (irq - 8).

Definition irq_for_vector (vec : Z) : option Z :=
  if (0x20 <=? vec) && (vec <=? 0x27) then Some (vec - MASTER_OFFSET)
  else if (0x28 <=? vec) && (vec <=? 0x2F) then Some (8 + (vec - SLAVE_OFFSET))
  else None.

(** ** The driver *)

Record Pic : Type := mkPic { MASKS : Z * Z; REMAPPED : bool }.

Definition Pic_initial : Pic := mkPic (0xFF, 0xFF) false.

Section Driver.
Context {D : Type} `{B : Bus D}.

Definition iowait (h : Hw D) : Hw D := outb 0x80 0 h.

(** One initialisation write and the bus delay after it. *)
Definition out_wait (port v : Z) (h : Hw D) : Hw D := iowait (outb port v h).

Definition remap (p : Pic) (h : Hw D) : Pic * Hw D :=
  let '(saved_master, h) := inb MASTER_DATA h in
  let '(saved_slave, h) := inb SLAVE_DATA h in
  let h := out_wait MASTER_CMD (Z.lor ICW1_INIT ICW1_ICW4) h in
  let h := out_wait SLAVE_CMD (Z.lor ICW1_INIT ICW1_ICW4) h in
  let h := out_wait MASTER_DATA MASTER_OFFSET h in
  let h := out_wait SLAVE_DATA SLAVE_OFFSET h in
  let h := out_wait MASTER_DATA (Z.shiftl 1 irq_CASCADE) h in
  let h := out_wait SLAVE_DATA irq_CASCADE h in
  let h := out_wait MASTER_DATA ICW4_8086 h in
  let h := out_wait SLAVE_DATA ICW4_8086 h in
  let h := out_wait MASTER_DATA 0xFF h in
  let h := out_wait SLAVE_DATA 0xFF h in
  (mkPic (0xFF, 0xFF) true, h).

Definition set_mask (idx : bool) (v : Z) (m : Z * Z) : Z * Z := if idx then (m.1, v) else (v, m.2).
Definition get_mask (idx : bool) (m : Z * Z) : Z := if idx then m.2 else m.1.

Definition unmask (irq_num : Z) (p : Pic) (h : Hw D) : Res (Pic * Hw D) :=
  let slave := negb (irq_num <? 8) in
  let '(port, bit) :=
    if irq_num <? 8 then (MASTER_DATA, irq_num) else (SLAVE_DATA, irq_num - 8) in
  let masks := p.(MASKS) in
  let '(masks, h) :=
    if slave then
      let m0 := Z.land masks.1 (bnot 8 (Z.shiftl 1 irq_CASCADE)) in
      ((m0, masks.2), out_wait MASTER_DATA m0 h)
    else (masks, h) in
  b ← shl8 bit;
  let m := Z.land (get_mask slave masks) (bnot 8 b) in
  Ret (mkPic (set_mask slave m masks) p.(REMAPPED), out_wait port m h).

Definition mask (irq_num : Z) (p : Pic) (h : Hw D) : Res (Pic * Hw D) :=
  let slave := negb (irq_num <? 8) in
  let bit := if irq_num <? 8 then irq_num else irq_num - 8 in
  b ← shl8 bit;
  let m := Z.lor (get_mask slave p.(MASKS)) b in
  Ret (mkPic (set_mask slave m p.(MASKS)) p.(REMAPPED),
       out_wait (if irq_num <? 8 then MASTER_DATA else SLAVE_DATA) m h).

Definition end_of_interrupt (vec : Z) (h : Hw D) : Hw D :=
  match irq_for_vector vec with
  | None => h
  | Some irq_num =>
      let h := if 8 <=? irq_num then out_wait SLAVE_CMD CMD_END_OF_INTERRUPT h else h in
      out_wait MASTER_CMD CMD_END_OF_INTERRUPT h
  end.

Definition masks (p : Pic) : Z * Z := p.(MASKS).
Definition is_remapped (p : Pic) : bool := p.(REMAPPED).

End Driver.

(** ** The datasheet's controller *)

Inductive phase : Type := Ready | WantICW2 | WantICW3 | WantICW4.

Record i8259 : Type := mk8259 {
  ph : phase; single : bool; icw4 : bool;
  offset : Z; cascade : Z; mode_8086 : bool; imr : Z; eois : nat }.

(** A write to the command port (A0 = 0). *)
Definition cmd_write (v : Z) (c : i8259) : i8259 :=
  if Z.testbit v 4 then
    mk8259 WantICW2 (Z.testbit v 1) (Z.testbit v 0) c.(offset) 0 false 0 0
  else if Z.land v 0xF8 =? 0x20 then
    mk8259 c.(ph) c.(single) c.(icw4) c.(offset) c.(cascade) c.(mode_8086) c.(imr) (S c.(eois))
  else c.

(** After ICW3, or instead of it in single mode. *)
Definition after_icw3 (c : i8259) : phase := if c.(icw4) then WantICW4 else Ready.

(** A write to the data port (A0 = 1). *)
Definition data_write (v : Z) (c : i8259) : i8259 :=
  match c.(ph) with
  | WantICW2 => mk8259 (if c.(single) then after_icw3 c else WantICW3)
                  c.(single) c.(icw4) (Z.land v 0xF8) c.(cascade) c.(mode_8086) c.(imr) c.(eois)
  | WantICW3 => mk8259 (after_icw3 c) c.(single) c.(icw4) c.(offset) v c.(mode_8086) c.(imr) c.(eois)
  | WantICW4 => mk8259 Ready c.(single) c.(icw4) c.(offset) c.(cascade) (Z.testbit v 0) c.(imr) c.(eois)
  | Ready => mk8259 Ready c.(single) c.(icw4) c.(offset) c.(cascade) c.(mode_8086) v c.(eois)
  end.

(** The controller at ports [cmd] and [dat], driven by a log of accesses. *)
Definition pic_step (cmd dat : Z) (c : i8259) (e : pevent) : i8259 :=
  match e with
  | POut p v => if p =? cmd then cmd_write v c else if p =? dat then data_write v c else c
  | PIn _ _ => c
  end.

Definition pic_run (cmd dat : Z) (c : i8259) (l : list pevent) : i8259 :=
  foldl (pic_step cmd dat) c l.

Definition run_master : i8259 → list pevent → i8259 := pic_run MASTER_CMD MASTER_DATA.
Definition run_slave : i8259 → list pevent → i8259 := pic_run SLAVE_CMD SLAVE_DATA.

(** A controller that is initialised at [off] with cascade word [casc]. *)
Definition configured (off casc : Z) (c : i8259) : Prop :=
  c.(ph) = Ready ∧ c.(single) = false ∧ c.(offset) = off ∧ c.(cascade) = casc ∧ c.(mode_8086) = true.

(** The pair of controllers the driver believes in. *)
Definition pics_match (p : Pic) (m s : i8259) : Prop :=
  p.(REMAPPED) = true ∧
  configured MASTER_OFFSET 4 m ∧ configured SLAVE_OFFSET 2 s ∧
  p.(MASKS) = (m.(imr), s.(imr)).

(** The ports the driver uses. *)
Definition pic_event (e : pevent) : Prop :=
  match e with POut p _ | PIn p _ => p ∈ [MASTER_CMD; MASTER_DATA; SLAVE_CMD; SLAVE_DATA; 0x80] end.

#[export] Instance pic_event_dec e : Decision (pic_event e).
Proof. destruct e; apply _. Defined.

Lemma pic_only port l :
  port ∉ [MASTER_CMD; MASTER_DATA; SLAVE_CMD; SLAVE_DATA; 0x80] → Forall pic_event l → writes_to port l = [].
Proof.
  intros Hp. induction 1 as [|[q v|q v] l Hq Hl IH]; cbn [writes_to]; [done|done|].
  destruct (Z.eqb_spec q port) as [->|]; [done|exact IH].
Qed.

Section Facts.
Context {D : Type} `{B : Bus D}.

(** The log after [out_wait]. *)
Lemma io_out_wait port v (h : Hw D) : io (out_wait port v h) = io h ++ [POut port v; POut 0x80 0].
Proof. unfold out_wait, iowait. by rewrite !io_outb, <- app_assoc. Qed.

Lemma pic_run_app cmd dat c l1 l2 : pic_run cmd dat c (l1 ++ l2) = pic_run cmd dat (pic_run cmd dat c l1) l2.
Proof. apply foldl_app. Qed.

(** Whatever state firmware left the two controllers in, the writes
    [remap] makes, read by the datasheet's automaton, leave both initialised in
    8086 mode and wired to each other, the master at vectors 0x20-0x27, the
    slave at 0x28-0x2F, every line masked, and the driver's shadow masks equal
    to the controllers'. *)
Theorem remap_programs_pics p (h : Hw D) m s :
  let '(p', h') := remap p h in
  ∃ l, io h' = io h ++ l ∧ pics_match p' (run_master m l) (run_slave s l) ∧
    p'.(MASKS) = (0xFF, 0xFF) ∧ Forall pic_event l.
Proof.
  unfold remap. pose proof (io_inb MASTER_DATA h) as E1. destruct (inb MASTER_DATA h) as [v1 h1].
  pose proof (io_inb SLAVE_DATA h1) as E2. destruct (inb SLAVE_DATA h1) as [v2 h2]. cbn [fst snd] in *.
  eexists. split; [rewrite !io_out_wait, E2, E1, <- !app_assoc; cbn [app]; reflexivity|].
  split; [by split|]. split; [done|]. repeat constructor; by apply (bool_decide_unpack _).
Qed.

(** *** Masks *)

Lemma shl8_ok k : 0 ≤ k < 8 → shl8 k = Ret (Z.shiftl 1 k).
Proof. intros H. unfold shl8. by destruct (Z.ltb_spec k 8); [|lia]. Qed.

(** The line [irq] is masked in the pair of masks [ms]. *)
Definition line_masked (irq : Z) (ms : Z * Z) : bool :=
  if irq <? 8 then Z.testbit ms.1 irq else Z.testbit ms.2 (irq - 8).

(** An interrupt on line [irq] reaches the CPU: its line is open and, for the
    slave's lines, the cascade line is open too. *)
Definition deliverable (irq : Z) (ms : Z * Z) : bool :=
  negb (line_masked irq ms) && ((irq <? 8) || negb (line_masked irq_CASCADE ms)).

Lemma run_data_master c v : c.(ph) = Ready →
  run_master c [POut MASTER_DATA v; POut 0x80 0] =
    mk8259 Ready c.(single) c.(icw4) c.(offset) c.(cascade) c.(mode_8086) v c.(eois).
Proof. intros H. unfold run_master, pic_run. cbn. unfold data_write. by rewrite H. Qed.

Lemma run_data_slave c v : c.(ph) = Ready →
  run_slave c [POut SLAVE_DATA v; POut 0x80 0] =
    mk8259 Ready c.(single) c.(icw4) c.(offset) c.(cascade) c.(mode_8086) v c.(eois).
Proof. intros H. unfold run_slave, pic_run. cbn. unfold data_write. by rewrite H. Qed.

(** Writing one mask: the controller and the shadow move together. *)
Lemma write_master_mask p m s v :
  pics_match p m s →
  pics_match (mkPic (v, p.(MASKS).2) p.(REMAPPED))
    (run_master m [POut MASTER_DATA v; POut 0x80 0]) (run_slave s [POut MASTER_DATA v; POut 0x80 0]) ∧
  (run_master m [POut MASTER_DATA v; POut 0x80 0]).(eois) = m.(eois) ∧
  (run_slave s [POut MASTER_DATA v; POut 0x80 0]).(eois) = s.(eois).
Proof.
  intros (Hr & Hm & Hs & Hk). pose proof Hm as (Hp & _). rewrite run_data_master by done. split; [|done].
  split; [done|]. destruct Hm as (_ & ? & ? & ? & ?). split; [done|]. split; [done|].
  cbn [MASKS imr]. rewrite Hk. done.
Qed.

Lemma write_slave_mask p m s v :
  pics_match p m s →
  pics_match (mkPic (p.(MASKS).1, v) p.(REMAPPED))
    (run_master m [POut SLAVE_DATA v; POut 0x80 0]) (run_slave s [POut SLAVE_DATA v; POut 0x80 0]) ∧
  (run_master m [POut SLAVE_DATA v; POut 0x80 0]).(eois) = m.(eois) ∧
  (run_slave s [POut SLAVE_DATA v; POut 0x80 0]).(eois) = s.(eois).
Proof.
  intros (Hr & Hm & Hs & Hk). pose proof Hs as (Hp & _). rewrite run_data_slave by done. split; [|done].
  split; [done|]. split; [done|]. destruct Hs as (_ & ? & ? & ? & ?). split; [done|].
  cbn [MASKS imr]. rewrite Hk. done.
Qed.

Lemma testbit_clear x k i :
  0 ≤ k < 8 → 0 ≤ i < 8 → Z.testbit (Z.land x (bnot 8 (Z.shiftl 1 k))) i = Z.testbit x i && negb (k =? i).
Proof.
  intros Hk Hi. rewrite Z.land_spec, bnot_spec, testbit_shiftl_1 by lia.
  destruct (Z.leb_spec 0 i), (Z.ltb_spec i 8); [done|lia..].
Qed.

Lemma testbit_set x k i :
  0 ≤ k → Z.testbit (Z.lor x (Z.shiftl 1 k)) i = Z.testbit x i || (k =? i).
Proof. intros Hk. by rewrite Z.lor_spec, testbit_shiftl_1. Qed.

(** On initialised controllers, [unmask] of one of the 16 lines succeeds,
    keeps the shadow equal to the controllers' mask registers, makes the line
    deliverable (opening the cascade line for the slave's lines), and changes
    no other line. *)
Theorem unmask_correct irq p (h : Hw D) m s :
  0 ≤ irq < 16 → pics_match p m s →
  ∃ p' h' l, unmask irq p h = Ret (p', h') ∧ io h' = io h ++ l ∧
    pics_match p' (run_master m l) (run_slave s l) ∧
    deliverable irq p'.(MASKS) = true ∧
    (∀ j, 0 ≤ j < 16 → j ≠ irq → (irq < 8 ∨ j ≠ irq_CASCADE) →
       line_masked j p'.(MASKS) = line_masked j p.(MASKS)) ∧
    Forall pic_event l.
Proof.
  intros Hi Hm. unfold unmask. destruct (Z.ltb_spec irq 8); cbn [negb get_mask set_mask].
  - rewrite shl8_ok by lia. cbn [mbind Res_bind]. eexists _, _, _. split; [reflexivity|].
    split; [apply io_out_wait|]. split; [by apply write_master_mask|]. cbn [MASKS].
    split; [|split; [|repeat constructor; by apply (bool_decide_unpack _)]].
    + unfold deliverable, line_masked. destruct (Z.ltb_spec irq 8); [|lia]. cbn [fst snd].
      rewrite testbit_clear, Z.eqb_refl, andb_false_r by lia. done.
    + intros j Hj Hne _. unfold line_masked. cbn [fst snd]. destruct (Z.ltb_spec j 8); [|done].
      rewrite testbit_clear by lia. destruct (Z.eqb_spec irq j); [lia|]. apply andb_true_r.
  - rewrite shl8_ok by lia. cbn [mbind Res_bind fst snd]. eexists _, _, _. split; [reflexivity|].
    split; [rewrite !io_out_wait, <- app_assoc; reflexivity|].
    split.
    { unfold run_master, run_slave. rewrite !pic_run_app.
      apply (write_slave_mask (mkPic (_, p.(MASKS).2) p.(REMAPPED))).
      by apply write_master_mask. }
    cbn [MASKS].
    split; [|split; [|repeat constructor; by apply (bool_decide_unpack _)]].
    + unfold deliverable, line_masked, irq_CASCADE. destruct (Z.ltb_spec irq 8); [lia|]. cbn [fst snd].
      change (2 <? 8) with true. cbv iota. rewrite !testbit_clear, !Z.eqb_refl, !andb_false_r by lia.
      done.
    + intros j Hj Hne Hc. unfold line_masked. cbn [fst snd]. unfold irq_CASCADE in *.
      destruct (Z.ltb_spec j 8); rewrite testbit_clear by lia.
      * destruct (Z.eqb_spec 2 j); [lia|]. apply andb_true_r.
      * destruct (Z.eqb_spec (irq - 8) (j - 8)); [lia|]. apply andb_true_r.
Qed.

(** [mask] of one of the 16 lines succeeds, keeps the shadow equal to
    the controllers' mask registers, masks that line and no other; a line number
    of 16 or more makes both [mask] and [unmask] panic (a shift overflow). *)
Theorem mask_correct irq p (h : Hw D) m s :
  0 ≤ irq → pics_match p m s →
  if irq <? 16 then
    ∃ p' h' l, mask irq p h = Ret (p', h') ∧ io h' = io h ++ l ∧
      pics_match p' (run_master m l) (run_slave s l) ∧
      (run_master m l).(eois) = m.(eois) ∧ (run_slave s l).(eois) = s.(eois) ∧
      line_masked irq p'.(MASKS) = true ∧
      (∀ j, 0 ≤ j < 16 → j ≠ irq → line_masked j p'.(MASKS) = line_masked j p.(MASKS))
  else mask irq p h = Panic Overflow ∧ unmask irq p h = Panic Overflow.
Proof.
  intros Hi Hm. destruct (Z.ltb_spec irq 16).
  - unfold mask. destruct (Z.ltb_spec irq 8); cbn [negb get_mask set_mask];
      rewrite shl8_ok by lia; cbn [mbind Res_bind]; eexists _, _, _; (split; [reflexivity|]);
      (split; [apply io_out_wait|]);
      (split; [by (apply write_master_mask || apply write_slave_mask)|]);
      (split; [by eapply (write_master_mask p m s) || eapply (write_slave_mask p m s)|]);
      (split; [by eapply (write_master_mask p m s) || eapply (write_slave_mask p m s)|]); cbn [MASKS]; split.
    + unfold line_masked. destruct (Z.ltb_spec irq 8); [|lia]. cbn [fst snd].
      by rewrite testbit_set, Z.eqb_refl, orb_true_r by lia.
    + intros j Hj Hne. unfold line_masked. cbn [fst snd]. destruct (Z.ltb_spec j 8); [|done].
      rewrite testbit_set by lia. destruct (Z.eqb_spec irq j); [lia|]. apply orb_false_r.
    + unfold line_masked. destruct (Z.ltb_spec irq 8); [lia|]. cbn [fst snd].
      by rewrite testbit_set, Z.eqb_refl, orb_true_r by lia.
    + intros j Hj Hne. unfold line_masked. cbn [fst snd]. destruct (Z.ltb_spec j 8); [done|].
      rewrite testbit_set by lia. destruct (Z.eqb_spec (irq - 8) (j - 8)); [lia|]. apply orb_false_r.
  - unfold mask, unmask, shl8. destruct (Z.ltb_spec irq 8); [lia|]. cbn [negb].
    destruct (Z.ltb_spec (irq - 8) 8); [lia|]. done.
Qed.

(** *** End of interrupt *)

Lemma irq_vector irq :
  0 ≤ irq < 16 → vector_for_irq irq = Ret (32 + irq) ∧ irq_for_vector (32 + irq) = Some irq.
Proof.
  intros Hi. unfold vector_for_irq, irq_for_vector, add8, MASTER_OFFSET, SLAVE_OFFSET.
  zbool; try lia; split; f_equal; lia.
Qed.

Lemma irq_for_vector_Some vec irq : irq_for_vector vec = Some irq → 0 ≤ irq < 16 ∧ vec = 32 + irq.
Proof. unfold irq_for_vector, MASTER_OFFSET, SLAVE_OFFSET. zbool; intros [= <-]; lia. Qed.

(** The 16 lines and the vectors 0x20-0x2F correspond one to one, clear
    of the 32 exceptions, and [end_of_interrupt] acknowledges exactly the right
    controllers: nothing for a vector that is no PIC line, the master alone for
    lines 0-7, the slave and then the master for lines 8-15. *)
Theorem end_of_interrupt_correct vec (h : Hw D) m s :
  (∀ irq, 0 ≤ irq < 16 → ∃ v, vector_for_irq irq = Ret v ∧ 32 ≤ v ∧ irq_for_vector v = Some irq) ∧
  ∃ l, io (end_of_interrupt vec h) = io h ++ l ∧
    match irq_for_vector vec with
    | None => l = []
    | Some irq =>
        vector_for_irq irq = Ret vec ∧
        (run_master m l).(eois) = S m.(eois) ∧
        (run_slave s l).(eois) = (if irq <? 8 then s.(eois) else S s.(eois)) ∧
        (8 ≤ irq → ∃ l1 l2, l = l1 ++ l2 ∧ run_master m l1 = m ∧ run_slave (run_slave s l1) l2 = run_slave s l1)
    end.
Proof.
  split.
  { intros irq Hi. destruct (irq_vector irq Hi) as [H1 H2]. exists (32 + irq). split; [done|]. split; [lia|done]. }
  unfold end_of_interrupt. destruct (irq_for_vector vec) as [irq|] eqn:E.
  - apply irq_for_vector_Some in E as [Hi ->]. destruct (irq_vector irq Hi) as [Hv _].
    destruct (Z.leb_spec 8 irq), (Z.ltb_spec irq 8); try lia.
    + eexists. split; [rewrite !io_out_wait, <- app_assoc; reflexivity|]. split; [done|].
      split; [done|]. split; [done|]. intros _. eexists _, _. split; [reflexivity|]. done.
    + eexists. split; [apply io_out_wait|]. split; [done|]. split; [done|]. split; [done|lia].
  - exists []. by rewrite app_nil_r.
Qed.

End Facts.

(** ** Witnesses *)

Definition demo_8259 (off casc : Z) : i8259 := mk8259 Ready false true off casc true 0xFF 0.
Definition demo_hw : Hw (list Z) := mkHw [] [].

Lemma demo_match : pics_match (mkPic (0xFF, 0xFF) true) (demo_8259 0x20 4) (demo_8259 0x28 2).
Proof. done. Qed.

Lemma unmask_correct_witness :
  ∃ p' h', @unmask _ script_bus 12 (mkPic (0xFF, 0xFF) true) demo_hw = Ret (p', h') ∧
    deliverable 12 p'.(MASKS) = true.
Proof.
  destruct (@unmask_correct _ script_bus 12 _ demo_hw _ _ ltac:(lia) demo_match)
    as (p' & h' & l & E & _ & _ & H & _).
  exists p', h'. split; [exact E|exact H].
Defined.

Lemma mask_correct_witness :
  ∃ p' h', @mask _ script_bus 1 (mkPic (0xFF, 0xFF) true) demo_hw = Ret (p', h') ∧
    line_masked 1 p'.(MASKS) = true.
Proof.
  destruct (@mask_correct _ script_bus 1 _ demo_hw _ _ ltac:(lia) demo_match)
    as (p' & h' & l & E & _ & _ & _ & _ & H & _).
  exists p', h'. split; [exact E|exact H].
Defined.

Lemma end_of_interrupt_correct_witness :
  irq_for_vector 0x2C = Some 12 ∧
  ∃ l, io (@end_of_interrupt _ script_bus 0x2C demo_hw) = [] ++ l ∧
    (run_slave (demo_8259 0x28 2) l).(eois) = 1%nat.
Proof.
  split; [reflexivity|].
  destruct (@end_of_interrupt_correct _ script_bus 0x2C demo_hw (demo_8259 0x20 4) (demo_8259 0x28 2))
    as (_ & l & E & _ & _ & H & _).
  exists l. split; [exact E|exact H].
Defined.
