(* ===== verification/Pit.v ===== *)
(** * The 8254 timer (kernel/src/interrupts/pit.rs)

    The tick counter and the clock derived from it (microseconds, uptime), the
    programming of channel 0, and the bounded busy-wait on channel 2. *)

From S2P Require Import Prelude Ports.
From stdpp Require Import base list strings pretty.
From Stdlib Require Import ZArith Lia.
#[local] Open Scope Z_scope.

Definition PIT_CHANNEL0_DATA : Z := 0x40.
Definition PIT_CHANNEL2_DATA : Z := 0x42.
Definition PIT_COMMAND : Z := 0x43.
Definition PIT_INPUT_HZ : Z := 1193182.
Definition CMD_CHANNEL0_MODE3 : Z := 0x36.
Definition TICK_HZ : Z := 1000.
Definition DIVISOR : Z := Z.land (PIT_INPUT_HZ / TICK_HZ) 0xFFFF.
Definition ACTUAL_TICK_HZ_NUM : Z := PIT_INPUT_HZ.
Definition ACTUAL_TICK_HZ_DEN : Z := DIVISOR.

Record Pit : Type := mkPit { TICKS : Z; ENABLED : bool }.
Definition Pit_initial : Pit := mkPit 0 false.

(** ** The clock *)

(** [fetch_add] wraps. *)
Definition tick (p : Pit) : Pit :=
  if p.(ENABLED) then mkPit (wrap64 (p.(TICKS) + 1)) true else p.

Definition ticks_since_boot (p : Pit) : Z := p.(TICKS).

(** [u128] products of a 64-bit tick count, then a cast to [u64]. *)
Definition micros_since_boot (p : Pit) : Z :=
  if negb p.(ENABLED) then 0
  else
    let micros := ticks_since_boot p * 1000000 * ACTUAL_TICK_HZ_DEN / ACTUAL_TICK_HZ_NUM in
    wrap64 micros.

Definition millis_since_boot (p : Pit) : Z := micros_since_boot p / 1000.
Definition seconds_since_boot (p : Pit) : Z := micros_since_boot p / 1000000.

Record Uptime : Type := mkUptime { days : Z; hours : Z; minutes : Z; seconds : Z }.

Definition uptime_string (p : Pit) : Uptime :=
  let total := micros_since_boot p / 1000000 in
  {| days := (total / 86400) mod 2 ^ 32;
     hours := ((total mod 86400) / 3600) mod 2 ^ 8;
     minutes := ((total mod 3600) / 60) mod 2 ^ 8;
     seconds := (total mod 60) mod 2 ^ 8 |}.

(** [{:02}] *)
Definition pad2 (n : Z) : string :=
  let s := pretty n in if (String.length s <? 2)%nat then String.append "0" s else s.

Definition hms (u : Uptime) : string :=
  String.append (pad2 u.(hours)) (String.append ":" (String.append (pad2 u.(minutes))
    (String.append ":" (pad2 u.(seconds))))).

Definition Uptime_fmt (u : Uptime) : string :=
  if 0 <? u.(days) then String.append (pretty u.(days)) (String.append "d " (hms u)) else hms u.

(** ** Hardware *)

Section Driver.
Context {D : Type} `{B : Bus D}.

Definition init (p : Pit) (h : Hw D) : Pit * Hw D :=
  let h := outb PIT_COMMAND CMD_CHANNEL0_MODE3 h in
  let h := outb PIT_CHANNEL0_DATA (Z.land DIVISOR 0xFF) h in
  let h := outb PIT_CHANNEL0_DATA (Z.shiftr DIVISOR 8) h in
  (mkPit p.(TICKS) true, h).

Definition GUARD_LIMIT : Z := 20000000.

(** One iteration of the wait: [inr] leaves the loop. *)
Definition spin_body (st : Z * Hw D) : Res (Z * Hw D + Hw D) :=
  let '(guard, h) := st in
  let '(v, h) := inb 0x61 h in
  if negb (Z.land v (Z.shiftl 1 5) =? 0) then Ret (inr h)
  else
    let guard := guard + 1 in
    if GUARD_LIMIT <? guard then Ret (inr h) else Ret (inl (guard, h)).

Definition spin_ticks (micros : Z) : Res Z :=
  m ← mul64 micros PIT_INPUT_HZ;
  Ret (Z.min (Z.max (m / 1000000) 1) 0xFFFF).

Definition spin_delay_us (micros : Z) (h : Hw D) : Res (Hw D) :=
  let '(saved, h) := inb 0x61 h in
  let h := outb 0x61 (Z.land (Z.lor saved 0x01) (bnot 8 0x02)) h in
  let h := outb PIT_COMMAND 0xB0 h in
  ticks ← spin_ticks micros;
  let h := outb PIT_CHANNEL2_DATA (Z.land ticks 0xFF) h in
  let h := outb PIT_CHANNEL2_DATA (Z.shiftr ticks 8) h in
  h ← loop (Z.to_nat (GUARD_LIMIT + 2)) (0, h) spin_body;
  Ret (outb 0x61 saved h).

(** ** The clock is exact *)

Lemma DIVISOR_val : DIVISOR = 1193.
Proof. reflexivity. Qed.

(** The exact time of [t] ticks, in microseconds, times the input clock. *)
Abbreviation exact t := (t * 1000000 * 1193).

Lemma micros_value p :
  p.(ENABLED) = true → 0 ≤ p.(TICKS) → exact p.(TICKS) < U64 * 1193182 →
  micros_since_boot p = exact p.(TICKS) / 1193182.
Proof.
  intros He Ht Hb. unfold micros_since_boot, ticks_since_boot, ACTUAL_TICK_HZ_DEN, ACTUAL_TICK_HZ_NUM.
  rewrite He, DIVISOR_val. cbn [negb]. unfold PIT_INPUT_HZ, wrap64. apply Z.mod_small.
  split; [apply Z.div_pos; lia|]. apply Z.div_lt_upper_bound; lia.
Qed.

(** C34: the clock counts.  Once [init] has run, a clock of up to 2^54 ticks
    (half a million years) reads the exact time of its tick count rounded down
    to a microsecond, with no truncation of the 128-bit product; a tick advances
    it by 999 or 1000 microseconds, so it never runs backwards.  Before [init]
    neither the counter nor the clock moves. *)
Theorem clock_exact p :
  0 ≤ p.(TICKS) < 2 ^ 54 →
  if p.(ENABLED) then
    micros_since_boot p * 1193182 ≤ exact p.(TICKS) < (micros_since_boot p + 1) * 1193182 ∧
    (tick p).(TICKS) = p.(TICKS) + 1 ∧
    999 ≤ micros_since_boot (tick p) - micros_since_boot p ≤ 1000
  else tick p = p ∧ micros_since_boot p = 0.
Proof.
  intros Ht. destruct (ENABLED p) eqn:He; [|by unfold tick, micros_since_boot; rewrite He].
  assert (wrap64 (p.(TICKS) + 1) = p.(TICKS) + 1) as Hw.
  { unfold wrap64. apply Z.mod_small. rewrite U64_val. lia. }
  rewrite (micros_value (tick p)); unfold tick; rewrite He, ?Hw; cbn [ENABLED TICKS]; [|done|lia|rewrite U64_val; lia].
  rewrite (micros_value p) by (done || rewrite ?U64_val; lia).
  split; [zlia|]. split; [done|]. zlia.
Qed.

(** The uptime is the clock: days, hours, minutes and seconds are in
    range and add up to the whole seconds since boot, at every tick count, so
    none of the narrowing casts of [uptime_string] loses anything. *)
Theorem uptime_correct p :
  let u := uptime_string p in
  seconds_since_boot p = 86400 * u.(days) + 3600 * u.(hours) + 60 * u.(minutes) + u.(seconds) ∧
  0 ≤ u.(days) < 2 ^ 32 ∧ 0 ≤ u.(hours) < 24 ∧ 0 ≤ u.(minutes) < 60 ∧ 0 ≤ u.(seconds) < 60.
Proof.
  assert (0 ≤ micros_since_boot p < U64) as Hm.
  { unfold micros_since_boot. destruct (negb (ENABLED p)); [rewrite U64_val; lia|].
    unfold wrap64. apply Z.mod_pos_bound. rewrite U64_val. lia. }
  unfold seconds_since_boot, uptime_string. cbn [days hours minutes seconds]. rewrite U64_val in Hm.
  assert (0 ≤ micros_since_boot p / 1000000 < 18446744073710) as Ht by zlia.
  set (t := micros_since_boot p / 1000000) in *. clearbody t. clear Hm p.
  rewrite (Z.mod_small (t / 86400)), (Z.mod_small ((t mod 86400) / 3600)),
    (Z.mod_small ((t mod 3600) / 60)), (Z.mod_small (t mod 60) (2 ^ 8)) by zlia.
  zlia.
Qed.

(** ** The busy-wait *)

Lemma spin_body_ok g (h : Hw D) :
  0 ≤ g ≤ GUARD_LIMIT →
  (∃ h', spin_body (g, h) = Ret (inr h') ∧ io h' = io h ++ [PIn 0x61 (inb 0x61 h).1]) ∨
  (∃ h', spin_body (g, h) = Ret (inl (g + 1, h')) ∧ g + 1 ≤ GUARD_LIMIT ∧
         io h' = io h ++ [PIn 0x61 (inb 0x61 h).1]).
Proof.
  intros Hg. unfold spin_body. pose proof (io_inb 0x61 h) as E. destruct (inb 0x61 h) as [v h1]. cbn [fst snd] in *.
  destruct (negb _); [by left; eexists|]. destruct (Z.ltb_spec GUARD_LIMIT (g + 1)); [by left; eexists|].
  right. eexists. split; [done|]. split; [lia|done].
Qed.

Lemma spin_delay_ok micros (h : Hw D) :
  0 ≤ micros < 2 ^ 32 →
  ∃ h' saved polls lo hi, spin_delay_us micros h = Ret h' ∧
    io h' = io h ++ [PIn 0x61 saved; POut 0x61 (Z.land (Z.lor saved 0x01) (bnot 8 0x02));
                     POut PIT_COMMAND 0xB0; POut PIT_CHANNEL2_DATA lo; POut PIT_CHANNEL2_DATA hi]
                 ++ map (PIn 0x61) polls ++ [POut 0x61 saved] ∧
    Z.of_nat (length polls) ≤ GUARD_LIMIT + 1 ∧ 0 ≤ lo < 256 ∧ 0 ≤ hi < 256 ∧ 1 ≤ lo + 256 * hi.
Proof.
  intros Hm. unfold spin_delay_us. pose proof (io_inb 0x61 h) as E. destruct (inb 0x61 h) as [saved h1].
  cbn [fst snd] in E. unfold spin_ticks. rewrite mul64_ok by (unfold PIT_INPUT_HZ; rewrite U64_val; lia).
  cbn [mbind Res_bind]. set (t := Z.min (Z.max (micros * PIT_INPUT_HZ / 1000000) 1) 0xFFFF).
  assert (1 ≤ t ≤ 0xFFFF) as Ht by lia. clearbody t.
  set (h2 := outb PIT_CHANNEL2_DATA (Z.shiftr t 8) _).
  assert (io h2 = io h ++ [PIn 0x61 saved; POut 0x61 (Z.land (Z.lor saved 0x01) (bnot 8 0x02));
     POut PIT_COMMAND 0xB0; POut PIT_CHANNEL2_DATA (Z.land t 0xFF); POut PIT_CHANNEL2_DATA (Z.shiftr t 8)]) as E2.
  { unfold h2. rewrite !io_outb, E, <- !app_assoc. done. }
  destruct (loop_total
    (fun st => 0 ≤ st.1 ≤ GUARD_LIMIT ∧ ∃ l, io st.2 = io h2 ++ map (PIn 0x61) l ∧ Z.of_nat (length l) = st.1)
    (fun h' => ∃ l, io h' = io h2 ++ map (PIn 0x61) l ∧ Z.of_nat (length l) ≤ GUARD_LIMIT + 1)
    (fun st => Z.to_nat (GUARD_LIMIT - st.1 + 1)) spin_body (Z.to_nat (GUARD_LIMIT + 2)) (0, h2))
    as (h3 & -> & l & E3 & Hl).
  - intros [g h4] [Hg (l & E4 & Hl)]. cbn [fst snd] in *.
    assert (∀ v, map (PIn 0x61) (l ++ [v]) = map (PIn 0x61) l ++ [PIn 0x61 v]) as Hsn by (intros; apply map_app).
    destruct (spin_body_ok g h4 Hg) as [(h5 & -> & E5)|(h5 & -> & Hg5 & E5)]; [left|right];
      eexists; (split; [reflexivity|]).
    + exists (l ++ [(inb 0x61 h4).1]). rewrite Hsn, E5, E4, <- app_assoc, length_app. split; [done|]. cbn. lia.
    + split; [|cbn; lia]. cbn [fst snd]. split; [lia|]. exists (l ++ [(inb 0x61 h4).1]).
      rewrite Hsn, E5, E4, <- app_assoc, length_app. split; [done|]. cbn. lia.
  - split; [cbn; unfold GUARD_LIMIT; lia|]. exists []. by rewrite app_nil_r.
  - cbn [fst]. unfold GUARD_LIMIT. lia.
  - cbn [mbind Res_bind]. exists (outb 0x61 saved h3), saved, l, (Z.land t 0xFF), (Z.shiftr t 8).
    split; [done|]. rewrite io_outb, E3, E2, <- !app_assoc. split; [done|]. split; [done|].
    change 0xFF with (Z.ones 8). rewrite Z.land_ones, Z.shiftr_div_pow2 by lia. zlia.
Qed.

(** [spin_delay_us] always returns, whatever the device does: it polls
    port 0x61 at most twenty million and one times, programs channel 2 with a
    count between 1 and 65535 and leaves port 0x61 (the speaker gate) as it
    found it, on the timeout path too. *)
Theorem spin_delay_bounded micros (h : Hw D) :
  0 ≤ micros < 2 ^ 32 →
  ∃ h' saved polls lo hi, spin_delay_us micros h = Ret h' ∧
    io h' = io h ++ [PIn 0x61 saved; POut 0x61 (Z.land (Z.lor saved 0x01) (bnot 8 0x02));
                     POut PIT_COMMAND 0xB0; POut PIT_CHANNEL2_DATA lo; POut PIT_CHANNEL2_DATA hi]
                 ++ map (PIn 0x61) polls ++ [POut 0x61 saved] ∧
    Z.of_nat (length polls) ≤ GUARD_LIMIT + 1 ∧ 0 ≤ lo < 256 ∧ 0 ≤ hi < 256 ∧ 1 ≤ lo + 256 * hi.
Proof. apply spin_delay_ok. Qed.

End Driver.

(** ** Witnesses *)

Lemma clock_exact_witness :
  micros_since_boot (mkPit 1000 true) * 1193182 ≤ 1000 * 1000000 * 1193.
Proof.
  destruct (clock_exact (mkPit 1000 true)) as [[H _] _]; [cbn [TICKS]; lia|]. exact H.
Defined.

Lemma spin_delay_bounded_witness :
  ∃ h', @spin_delay_us _ script_bus 100 (mkHw [3; 0; 0x20] []) = Ret h'.
Proof.
  destruct (@spin_delay_bounded _ script_bus 100 (mkHw [3; 0; 0x20] [])) as (h' & _ & _ & _ & _ & E & _); [lia|].
  exists h'. exact E.
Defined.

Example uptime_fmt_example : Uptime_fmt (mkUptime 2 3 4 5) = "2d 03:04:05"%string.
Proof. reflexivity. Qed.
