(* ===== verification/Ring.v ===== *)
(** * The scancode ring (kernel/src/drivers/keyboard.rs, lines 72-143)

    A lock-free single-producer/single-consumer ring: the IRQ1 handler pushes,
    the main loop pops.  [ring_push], [ring_pop] and [pending] are the functions
    of the driver; [pstep] and [cstep] are the same functions cut into their
    atomic loads and stores, so that [step] is every interleaving of one
    producer and one consumer (sequentially consistent: on x86 the acquire and
    release orderings of the code forbid every reordering the proof would
    notice).  The abstract object is a FIFO queue of at most 255 bytes. *)

From S2P Require Import Prelude.
From stdpp Require Import base list list_numbers strings relations.
From Stdlib Require Import ZArith Lia.
#[local] Open Scope Z_scope.

Definition RING_CAP : Z := 256.

Record Ring : Type := mkRing { RING : list Z; RING_HEAD : Z; RING_TAIL : Z; DROPPED : Z }.

Definition Ring_new : Ring := mkRing (replicate 256 0) 0 0 0.

(** ** The driver's functions *)

Definition ring_push (b : Z) (r : Ring) : Res Ring :=
  let head := r.(RING_HEAD) in
  next ← (n ← add64 head 1; Ret (n mod RING_CAP));
  if next =? r.(RING_TAIL) then
    Ret (mkRing r.(RING) r.(RING_HEAD) r.(RING_TAIL) (wrap64 (r.(DROPPED) + 1)))
  else
    cells ← lset r.(RING) head b;
    Ret (mkRing cells next r.(RING_TAIL) r.(DROPPED)).

Definition ring_pop (r : Ring) : Res (option Z * Ring) :=
  let tail := r.(RING_TAIL) in
  if tail =? r.(RING_HEAD) then Ret (None, r)
  else
    b ← lget r.(RING) tail;
    t ← add64 tail 1;
    Ret (Some b, mkRing r.(RING) r.(RING_HEAD) (t mod RING_CAP) r.(DROPPED)).

Definition pending (r : Ring) : Res Z :=
  if r.(RING_TAIL) <=? r.(RING_HEAD) then sub64 r.(RING_HEAD) r.(RING_TAIL)
  else n ← sub64 RING_CAP r.(RING_TAIL); add64 n r.(RING_HEAD).

Definition dropped_count (r : Ring) : Z := r.(DROPPED).

(** ** The abstract queue *)

Definition ring_inv (r : Ring) : Prop :=
  length r.(RING) = 256%nat ∧ 0 ≤ r.(RING_HEAD) < 256 ∧ 0 ≤ r.(RING_TAIL) < 256.

Definition count (r : Ring) : Z := (r.(RING_HEAD) - r.(RING_TAIL)) mod RING_CAP.

(** The cell [i] places after the tail. *)
Definition cell (r : Ring) (i : Z) : Z := r.(RING) !!! Z.to_nat ((r.(RING_TAIL) + i) mod RING_CAP).

(** The bytes in the ring, oldest first. *)
Definition contents (r : Ring) : list Z := cell r <$> seqZ 0 (count r).

Lemma count_range r : 0 ≤ count r < 256.
Proof. unfold count, RING_CAP. zlia. Qed.

Lemma length_contents r : Z.of_nat (length (contents r)) = count r.
Proof. unfold contents. rewrite length_fmap, length_seqZ. pose proof (count_range r). lia. Qed.

Lemma Ring_new_inv : ring_inv Ring_new ∧ contents Ring_new = [].
Proof. split; [|done]. split; [apply length_replicate|]. cbn. lia. Qed.

(** The head is the cell after the contents. *)
Lemma head_cell r : ring_inv r → (r.(RING_TAIL) + count r) mod RING_CAP = r.(RING_HEAD).
Proof. intros (_ & ? & ?). unfold count, RING_CAP. zlia. Qed.

(** Writing the head cell of a ring that is not full changes no content. *)
Lemma store_contents r b :
  ring_inv r →
  contents (mkRing (<[Z.to_nat r.(RING_HEAD) := b]> r.(RING)) r.(RING_HEAD) r.(RING_TAIL) r.(DROPPED)) = contents r.
Proof.
  intros Hi. unfold contents, count. cbn [RING_HEAD RING_TAIL].
  apply list_fmap_ext. intros k i Hk. unfold cell. cbn [RING RING_TAIL].
  apply list_lookup_total_insert_ne.
  apply lookup_seqZ in Hk. destruct Hi as (_ & ? & ?). unfold RING_CAP in *. zlia.
Qed.

(** Advancing the head appends the head cell. *)
Lemma advance_contents r :
  ring_inv r → count r < 255 →
  let r' := mkRing r.(RING) ((r.(RING_HEAD) + 1) mod RING_CAP) r.(RING_TAIL) r.(DROPPED) in
  contents r' = contents r ++ [r.(RING) !!! Z.to_nat r.(RING_HEAD)] ∧ count r' = count r + 1.
Proof.
  intros Hi Hc. cbn zeta.
  assert (count (mkRing r.(RING) ((r.(RING_HEAD) + 1) mod RING_CAP) r.(RING_TAIL) r.(DROPPED)) = count r + 1) as Ec.
  { destruct Hi as (_ & ? & ?). unfold count, RING_CAP in *. cbn [RING_HEAD RING_TAIL]. zlia. }
  split; [|done]. unfold contents. rewrite Ec. pose proof (count_range r).
  rewrite seqZ_app by lia. rewrite fmap_app. f_equal.
  rewrite seqZ_cons by lia. cbn [fmap list_fmap]. unfold cell at 1. cbn [RING RING_TAIL].
  rewrite Z.add_0_l, head_cell by done. done.
Qed.

(** Advancing the tail removes the tail cell. *)
Lemma consume_contents r :
  ring_inv r → 0 < count r →
  let r' := mkRing r.(RING) r.(RING_HEAD) ((r.(RING_TAIL) + 1) mod RING_CAP) r.(DROPPED) in
  contents r = r.(RING) !!! Z.to_nat r.(RING_TAIL) :: contents r' ∧ count r' = count r - 1.
Proof.
  intros Hi Hc. cbn zeta.
  assert (count (mkRing r.(RING) r.(RING_HEAD) ((r.(RING_TAIL) + 1) mod RING_CAP) r.(DROPPED)) = count r - 1) as Ec.
  { destruct Hi as (_ & ? & ?). unfold count, RING_CAP in *. cbn [RING_HEAD RING_TAIL]. zlia. }
  split; [|done]. unfold contents. rewrite Ec. rewrite seqZ_cons by lia. cbn [fmap list_fmap]. f_equal.
  - unfold cell. destruct Hi as (_ & ? & Ht). rewrite Z.add_0_r, Z.mod_small; [done|unfold RING_CAP; lia].
  - replace (Z.pred (count r)) with (count r - 1) by lia.
    change (Z.succ 0) with (1 + 0). rewrite <- fmap_add_seqZ, <- list_fmap_compose.
    apply list_fmap_ext. intros k i _. unfold cell. cbn [compose RING RING_TAIL]. do 2 f_equal.
    destruct Hi as (_ & ? & ?). unfold RING_CAP. zlia.
Qed.

(** ** Interleavings *)

(** Where the producer is, with the values it has loaded. *)
Inductive ppc : Type :=
  | PIdle
  | PHead (b head : Z)            (* RING_HEAD loaded *)
  | PDrop                         (* found full: about to count the drop *)
  | PStore (b head next : Z)      (* found room: about to store the byte *)
  | PPublish (b next : Z).        (* byte stored: about to publish the head *)

(** Where the consumer is. *)
Inductive cpc : Type :=
  | CIdle
  | CTail (tail : Z)              (* RING_TAIL loaded *)
  | CLoad (tail : Z)              (* found non-empty: about to load the byte *)
  | CRelease (tail b : Z).        (* byte loaded: about to publish the tail *)

(** The shared ring, both program counters, and the history: the bytes whose
    push was published and the bytes returned by pop. *)
Record conf : Type := mkConf { ring : Ring; prod : ppc; cons : cpc; pushed : list Z; popped : list Z }.

Definition conf0 : conf := mkConf Ring_new PIdle CIdle [] [].

(** One atomic action of [ring_push]. *)
Inductive pstep : conf → conf → Prop :=
  | p_load_head r c u o b :
      pstep (mkConf r PIdle c u o) (mkConf r (PHead b r.(RING_HEAD)) c u o)
  | p_found_full r c u o b head :
      (head + 1) mod RING_CAP = r.(RING_TAIL) →
      pstep (mkConf r (PHead b head) c u o) (mkConf r PDrop c u o)
  | p_found_room r c u o b head :
      (head + 1) mod RING_CAP ≠ r.(RING_TAIL) →
      pstep (mkConf r (PHead b head) c u o) (mkConf r (PStore b head ((head + 1) mod RING_CAP)) c u o)
  | p_drop r c u o :
      pstep (mkConf r PDrop c u o)
            (mkConf (mkRing r.(RING) r.(RING_HEAD) r.(RING_TAIL) (wrap64 (r.(DROPPED) + 1))) PIdle c u o)
  | p_store r c u o b head next cells :
      lset r.(RING) head b = Ret cells →
      pstep (mkConf r (PStore b head next) c u o)
            (mkConf (mkRing cells r.(RING_HEAD) r.(RING_TAIL) r.(DROPPED)) (PPublish b next) c u o)
  | p_publish r c u o b next :
      pstep (mkConf r (PPublish b next) c u o)
            (mkConf (mkRing r.(RING) next r.(RING_TAIL) r.(DROPPED)) PIdle c (u ++ [b]) o).

(** One atomic action of [ring_pop]. *)
Inductive cstep : conf → conf → Prop :=
  | c_load_tail r p u o :
      cstep (mkConf r p CIdle u o) (mkConf r p (CTail r.(RING_TAIL)) u o)
  | c_found_empty r p u o tail :
      tail = r.(RING_HEAD) →
      cstep (mkConf r p (CTail tail) u o) (mkConf r p CIdle u o)
  | c_found_byte r p u o tail :
      tail ≠ r.(RING_HEAD) →
      cstep (mkConf r p (CTail tail) u o) (mkConf r p (CLoad tail) u o)
  | c_load r p u o tail b :
      lget r.(RING) tail = Ret b →
      cstep (mkConf r p (CLoad tail) u o) (mkConf r p (CRelease tail b) u o)
  | c_release r p u o tail b :
      cstep (mkConf r p (CRelease tail b) u o)
            (mkConf (mkRing r.(RING) r.(RING_HEAD) ((tail + 1) mod RING_CAP) r.(DROPPED)) p CIdle u (o ++ [b])).

Definition step (x y : conf) : Prop := pstep x y ∨ cstep x y.

(** The atomic actions, run without interruption, are the functions. *)
Lemma ring_push_steps b r r' c u o :
  ring_inv r → ring_push b r = Ret r' →
  ∃ u', rtc pstep (mkConf r PIdle c u o) (mkConf r' PIdle c u' o).
Proof.
  intros (Hlen & Hh & Ht). unfold ring_push. rewrite add64_ok by (rewrite U64_val; lia). cbn [mbind Res_bind].
  destruct (Z.eqb_spec ((r.(RING_HEAD) + 1) mod RING_CAP) r.(RING_TAIL)); intros H.
  - injection H as <-. exists u. eapply rtc_l; [apply (p_load_head r c u o b)|].
    eapply rtc_l; [by apply p_found_full|]. eapply rtc_l; [apply p_drop|]. apply rtc_refl.
  - apply bind_Ret in H as (cells & Hc & H). injection H as <-. exists (u ++ [b]).
    eapply rtc_l; [apply (p_load_head r c u o b)|]. eapply rtc_l; [by apply p_found_room|].
    eapply rtc_l; [by apply p_store|]. eapply rtc_l; [apply p_publish|]. apply rtc_refl.
Qed.

Lemma ring_pop_steps r r' x p u o :
  ring_inv r → ring_pop r = Ret (x, r') →
  rtc cstep (mkConf r p CIdle u o) (mkConf r' p CIdle u (o ++ option_list x)).
Proof.
  intros (Hlen & Hh & Ht). unfold ring_pop.
  destruct (Z.eqb_spec r.(RING_TAIL) r.(RING_HEAD)); intros H.
  - injection H as <- <-. cbn. rewrite app_nil_r. eapply rtc_l; [apply c_load_tail|].
    eapply rtc_l; [by apply c_found_empty|]. apply rtc_refl.
  - apply bind_Ret in H as (b & Hb & H). rewrite add64_ok in H by (rewrite U64_val; lia). cbn in H.
    injection H as <- <-. eapply rtc_l; [apply c_load_tail|]. eapply rtc_l; [by apply c_found_byte|].
    eapply rtc_l; [by apply c_load|]. eapply rtc_l; [apply c_release|]. apply rtc_refl.
Qed.

(** What each program counter knows about the ring. *)
Definition prod_ok (r : Ring) (p : ppc) : Prop :=
  match p with
  | PIdle | PDrop => True
  | PHead _ head => head = r.(RING_HEAD)
  | PStore _ head next => head = r.(RING_HEAD) ∧ next = (head + 1) mod RING_CAP ∧ count r < 255
  | PPublish b next =>
      next = (r.(RING_HEAD) + 1) mod RING_CAP ∧ count r < 255 ∧ r.(RING) !!! Z.to_nat r.(RING_HEAD) = b
  end.

Definition cons_ok (r : Ring) (c : cpc) : Prop :=
  match c with
  | CIdle => True
  | CTail tail => tail = r.(RING_TAIL)
  | CLoad tail => tail = r.(RING_TAIL) ∧ 0 < count r
  | CRelease tail b => tail = r.(RING_TAIL) ∧ 0 < count r ∧ r.(RING) !!! Z.to_nat tail = b
  end.

Record conf_inv (x : conf) : Prop := {
  ci_ring : ring_inv x.(ring);
  ci_prod : prod_ok x.(ring) x.(prod);
  ci_cons : cons_ok x.(ring) x.(cons);
  ci_fifo : x.(popped) ++ contents x.(ring) = x.(pushed);
}.

Lemma full_count r : ring_inv r → (r.(RING_HEAD) + 1) mod RING_CAP = r.(RING_TAIL) ↔ count r = 255.
Proof. intros (_ & ? & ?). unfold count, RING_CAP. zlia. Qed.

Lemma empty_count r : ring_inv r → r.(RING_TAIL) = r.(RING_HEAD) ↔ count r = 0.
Proof. intros (_ & ? & ?). unfold count, RING_CAP. zlia. Qed.

Lemma lget_total (l : list Z) i b : lget l i = Ret b → l !!! Z.to_nat i = b.
Proof. intros [_ H]%lget_Ret. by apply list_lookup_total_correct. Qed.

(** Storing at the head keeps what the consumer has seen. *)
Lemma cons_ok_store r b c :
  ring_inv r → cons_ok r c →
  cons_ok (mkRing (<[Z.to_nat r.(RING_HEAD) := b]> r.(RING)) r.(RING_HEAD) r.(RING_TAIL) r.(DROPPED)) c.
Proof.
  intros Hi. destruct c as [|t|t|t b']; cbn [cons_ok RING RING_TAIL]; [done..|].
  intros (-> & Hc & Hb). split; [done|]. split; [done|].
  rewrite list_lookup_total_insert_ne; [done|]. destruct Hi as (_ & ? & ?).
  unfold count, RING_CAP in Hc. intros E. assert (r.(RING_HEAD) = r.(RING_TAIL)) as E2 by lia.
  rewrite E2, Z.sub_diag in Hc. done.
Qed.

Lemma pstep_inv x y : conf_inv x → pstep x y → conf_inv y.
Proof.
  intros [Hr Hp Hc Hf] Hs. destruct Hs as [r c u o b|r c u o b head H|r c u o b head H|r c u o|r c u o b head next cells H|r c u o b next];
    cbn [ring prod cons pushed popped prod_ok] in *.
  - by split.
  - by split.
  - subst head. split; cbn; try done. split; [done|]. split; [done|].
    rewrite (full_count r Hr) in H. pose proof (count_range r). lia.
  - by split; cbn.
  - destruct Hp as (-> & -> & Hlt). apply lset_Ret in H as [Hl ->].
    split; cbn [ring prod cons pushed popped].
    + destruct Hr as (Hlen & ?). split; [cbn [RING]; by rewrite length_insert|done].
    + cbn. split; [done|]. split; [done|]. apply list_lookup_total_insert_eq. lia.
    + by apply cons_ok_store.
    + by rewrite store_contents.
  - destruct Hp as (-> & Hlt & Hb). destruct (advance_contents r Hr Hlt) as [E Ec].
    split; cbn [ring prod cons pushed popped].
    + destruct Hr as (? & ? & ?). split; [done|]. split; [cbn; unfold RING_CAP; zlia|done].
    + done.
    + destruct c as [|t|t|t b']; cbn in *; [done|done| |]; rewrite Ec; naive_solver lia.
    + rewrite E, Hb, app_assoc, Hf. done.
Qed.

Lemma cstep_inv x y : conf_inv x → cstep x y → conf_inv y.
Proof.
  intros [Hr Hp Hc Hf] Hs. destruct Hs as [r p u o|r p u o tail H|r p u o tail H|r p u o tail b H|r p u o tail b];
    cbn [ring prod cons pushed popped cons_ok] in *.
  - by split.
  - by split.
  - subst tail. split; try done. cbn. split; [done|]. rewrite (empty_count r Hr) in H.
    pose proof (count_range r). lia.
  - destruct Hc as [-> Hc]. split; try done. cbn. split; [done|]. split; [done|by apply lget_total].
  - destruct Hc as (-> & Hc & Hb). destruct (consume_contents r Hr Hc) as [E Ec].
    split; cbn [ring prod cons pushed popped].
    + destruct Hr as (? & ? & ?). split; [done|]. split; [done|cbn; unfold RING_CAP; zlia].
    + destruct p as [|b' h| |b' h n|b' n]; cbn in *; [done|done|done| |]; rewrite Ec; naive_solver lia.
    + done.
    + rewrite <- Hf, E, <- app_assoc, Hb. done.
Qed.

Lemma conf0_inv : conf_inv conf0.
Proof. destruct Ring_new_inv as [Hi Hc]. by split. Qed.

Lemma reach_inv x : rtc step conf0 x → conf_inv x.
Proof.
  intros H. refine (rtc_ind_r (fun y => conf_inv y) conf0 conf0_inv _ x H).
  intros y z _ [Hs|Hs] Hy; [by eapply pstep_inv|by eapply cstep_inv].
Qed.

(** C12: the ring is a FIFO under every interleaving of one producer and one
    consumer.  In every reachable configuration the bytes popped so far,
    followed by the bytes in the ring, are exactly the published pushes in
    order: no byte is lost, duplicated, reordered or read before it was written.
    At most 255 bytes are stored, and neither side can get stuck (no index is
    ever out of bounds). *)
Theorem spsc_fifo x :
  rtc step conf0 x →
  x.(popped) ++ contents x.(ring) = x.(pushed) ∧
  (length (contents x.(ring)) ≤ 255)%nat ∧
  (∃ y, pstep x y) ∧ (∃ y, cstep x y).
Proof.
  intros H%reach_inv. destruct x as [r p c u o]. destruct H as [(Hlen & Hh & Ht) Hp Hc Hf]. cbn in *.
  split; [done|]. split.
  { pose proof (length_contents r). pose proof (count_range r). lia. }
  split.
  - destruct p as [|b h| |b h n|b n]; [eexists; by apply p_load_head with (b := 0)| |by eexists; constructor| |by eexists; constructor].
    + destruct (decide ((h + 1) mod RING_CAP = r.(RING_TAIL))); eexists; [by apply p_found_full|by apply p_found_room].
    + destruct Hp as (-> & _). eexists. apply p_store. apply lset_ok. lia.
  - destruct c as [|t|t|t b]; [by eexists; constructor| | |by eexists; constructor].
    + destruct (decide (t = r.(RING_HEAD))); eexists; [by apply c_found_empty|by apply c_found_byte].
    + destruct Hc as (-> & _). destruct (lget_ok r.(RING) r.(RING_TAIL)) as [b Hb]; [lia|].
      eexists. by apply c_load.
Qed.

Abbreviation conf1 := (mkConf Ring_new (PHead 0x1E 0) CIdle [] []).

Lemma spsc_fifo_witness : rtc step conf0 conf1 ∧ [] ++ contents Ring_new = [].
Proof.
  assert (rtc step conf0 conf1) as H.
  { eapply rtc_l; [left; exact (p_load_head Ring_new CIdle [] [] 0x1E)|]. apply rtc_refl. }
  split; [exact H|]. apply (spsc_fifo conf1 H).
Defined.

(** ** The functions on the queue *)

Lemma ring_push_ok b r :
  ring_inv r →
  ∃ r', ring_push b r = Ret r' ∧ ring_inv r' ∧
    contents r' = (if (length (contents r) <? 255)%nat then contents r ++ [b] else contents r) ∧
    r'.(DROPPED) = (if (length (contents r) <? 255)%nat then r.(DROPPED) else wrap64 (r.(DROPPED) + 1)).
Proof.
  intros Hi. pose proof Hi as (Hlen & Hh & Ht). unfold ring_push.
  rewrite add64_ok by (rewrite U64_val; lia). cbn [mbind Res_bind].
  pose proof (length_contents r) as Hl. pose proof (count_range r).
  destruct (Z.eqb_spec ((r.(RING_HEAD) + 1) mod RING_CAP) r.(RING_TAIL)) as [E|E];
    rewrite (full_count r Hi) in E; destruct (Nat.ltb_spec (length (contents r)) 255); try lia.
  - eexists. split; [reflexivity|]. done.
  - rewrite lset_ok by lia. cbn [mbind Res_bind]. eexists. split; [reflexivity|].
    set (r1 := mkRing (<[Z.to_nat r.(RING_HEAD) := b]> r.(RING)) r.(RING_HEAD) r.(RING_TAIL) r.(DROPPED)).
    assert (ring_inv r1) as Hi1 by (split; [by rewrite <- Hlen; apply length_insert|done]).
    destruct (advance_contents r1 Hi1) as [E1 _]; [change (count r1) with (count r); lia|].
    split; [split; [by rewrite <- Hlen; apply length_insert|split; [cbn; unfold RING_CAP; zlia|done]]|].
    split; [|done]. change (contents (mkRing r1.(RING) ((r1.(RING_HEAD) + 1) mod RING_CAP) r1.(RING_TAIL) r1.(DROPPED))
      = contents r ++ [b]). rewrite E1. unfold r1 at 1. rewrite store_contents by done.
    cbn [r1 RING RING_HEAD]. rewrite list_lookup_total_insert_eq by lia. done.
Qed.

Lemma ring_pop_ok r :
  ring_inv r →
  match contents r with
  | [] => ring_pop r = Ret (None, r)
  | b :: q => ∃ r', ring_pop r = Ret (Some b, r') ∧ ring_inv r' ∧ contents r' = q ∧ r'.(DROPPED) = r.(DROPPED)
  end.
Proof.
  intros Hi. pose proof Hi as (Hlen & Hh & Ht). unfold ring_pop.
  pose proof (length_contents r) as Hl. pose proof (count_range r) as Hc.
  destruct (Z.eqb_spec r.(RING_TAIL) r.(RING_HEAD)) as [E|E]; rewrite (empty_count r Hi) in E.
  - destruct (contents r); [done|cbn in Hl; lia].
  - destruct (lget_ok r.(RING) r.(RING_TAIL)) as [b Hb]; [lia|]. rewrite Hb. cbn [mbind Res_bind].
    rewrite add64_ok by (rewrite U64_val; lia). cbn [mbind Res_bind].
    destruct (consume_contents r Hi) as [-> _]; [lia|]. rewrite (lget_total _ _ _ Hb).
    eexists. split; [reflexivity|]. split; [split; [done|split; [done|cbn; unfold RING_CAP; zlia]]|]. done.
Qed.

(** [ring_push], [ring_pop] and [pending] implement a bounded queue: a
    push appends, or drops the new byte and counts the drop when 255 bytes wait;
    a pop takes the oldest byte; [pending] is the queue's length. *)
Theorem ring_refines_queue r b :
  ring_inv r →
  (∃ r', ring_push b r = Ret r' ∧ ring_inv r' ∧
     contents r' = (if (length (contents r) <? 255)%nat then contents r ++ [b] else contents r) ∧
     r'.(DROPPED) = (if (length (contents r) <? 255)%nat then r.(DROPPED) else wrap64 (r.(DROPPED) + 1))) ∧
  match contents r with
  | [] => ring_pop r = Ret (None, r)
  | x :: q => ∃ r', ring_pop r = Ret (Some x, r') ∧ ring_inv r' ∧ contents r' = q
  end ∧
  pending r = Ret (Z.of_nat (length (contents r))).
Proof.
  intros Hi. split; [by apply ring_push_ok|]. split.
  - pose proof (ring_pop_ok r Hi) as H. destruct (contents r); [done|]. destruct H as (r' & ? & ? & ? & _). eauto.
  - rewrite length_contents. destruct Hi as (_ & Hh & Ht). unfold pending, count, RING_CAP.
    destruct (Z.leb_spec r.(RING_TAIL) r.(RING_HEAD)).
    + rewrite sub64_ok by lia. f_equal. zlia.
    + rewrite sub64_ok by lia. cbn [mbind Res_bind]. rewrite add64_ok by (rewrite U64_val; lia). f_equal. zlia.
Qed.

Lemma ring_refines_queue_witness : pending Ring_new = Ret 0.
Proof. exact (proj2 (proj2 (ring_refines_queue Ring_new 0x1E (proj1 Ring_new_inv)))). Defined.
