(* ===== verification/Keyboard.v ===== *)
(** * The PS/2 keyboard driver (kernel/src/drivers/keyboard.rs)

    The scancode decoder with its tables and modifier state ([translate]), the
    controller handshake ([init], [shutdown]), the IRQ1 handler and the polling
    interface over the scancode ring of Ring.v.  Characters are Unicode scalar
    values in [Z]; the controller is the [Bus] parameter of Ports.v. *)

From S2P Require Import Prelude Ports Pit Ring.
From stdpp Require Import base list strings.
From Stdlib Require Import ZArith Lia.
#[local] Open Scope Z_scope.

(** ** Keys *)

Module KeyCode.

Inductive KeyCode : Type :=
  | None | Escape | F1 | F2 | F3 | F4 | F5 | F6 | F7 | F8 | F9 | F10 | F11 | F12 | Backquote
  | Num1 | Num2 | Num3 | Num4 | Num5 | Num6 | Num7 | Num8 | Num9 | Num0 | Minus | Equal
  | Backspace | Tab | Q | W | E | R | T | Y | U | I | O | P | BracketLeft | BracketRight
  | Backslash | CapsLock | A | S | D | F | G | H | J | K | L | Z | X | C | V | B | N | M
  | Semicolon | Quote | Enter | ShiftLeft | ShiftRight | ControlLeft | ControlRight | AltLeft
  | AltRight | SuperLeft | SuperRight | Space | PrintScreen | ScrollLock | Pause | Insert
  | Home | PageUp | Delete | End | PageDown | ArrowUp | ArrowLeft | ArrowDown | ArrowRight
  | NumLock | KeypadSlash | KeypadAsterisk | KeypadMinus | KeypadPlus | KeypadEnter | KeypadDot
  | Keypad0 | Keypad1 | Keypad2 | Keypad3 | Keypad4 | Keypad5 | Keypad6 | Keypad7 | Keypad8
  | Keypad9 | Comma_ | Period_ | Slash_
  | Unknown (b : BinNums.Z).

(** The variants without a payload, in declaration order. *)
Definition all : list KeyCode := [
  None; Escape; F1; F2; F3; F4; F5; F6; F7; F8; F9; F10; F11; F12; Backquote; Num1; Num2; Num3;
  Num4; Num5; Num6; Num7; Num8; Num9; Num0; Minus; Equal; Backspace; Tab; Q; W; E; R; T; Y; U;
  I; O; P; BracketLeft; BracketRight; Backslash; CapsLock; A; S; D; F; G; H; J; K; L; Z; X; C;
  V; B; N; M; Semicolon; Quote; Enter; ShiftLeft; ShiftRight; ControlLeft; ControlRight;
  AltLeft; AltRight; SuperLeft; SuperRight; Space; PrintScreen; ScrollLock; Pause; Insert;
  Home; PageUp; Delete; End; PageDown; ArrowUp; ArrowLeft; ArrowDown; ArrowRight; NumLock;
  KeypadSlash; KeypadAsterisk; KeypadMinus; KeypadPlus; KeypadEnter; KeypadDot; Keypad0;
  Keypad1; Keypad2; Keypad3; Keypad4; Keypad5; Keypad6; Keypad7; Keypad8; Keypad9; Comma_;
  Period_; Slash_].

Definition discriminant (k : KeyCode) : nat :=
  match k with
  | None => 0 | Escape => 1 | F1 => 2 | F2 => 3 | F3 => 4 | F4 => 5 | F5 => 6 | F6 => 7
  | F7 => 8 | F8 => 9 | F9 => 10 | F10 => 11 | F11 => 12 | F12 => 13 | Backquote => 14
  | Num1 => 15 | Num2 => 16 | Num3 => 17 | Num4 => 18 | Num5 => 19 | Num6 => 20 | Num7 => 21
  | Num8 => 22 | Num9 => 23 | Num0 => 24 | Minus => 25 | Equal => 26 | Backspace => 27
  | Tab => 28 | Q => 29 | W => 30 | E => 31 | R => 32 | T => 33 | Y => 34 | U => 35 | I => 36
  | O => 37 | P => 38 | BracketLeft => 39 | BracketRight => 40 | Backslash => 41
  | CapsLock => 42 | A => 43 | S => 44 | D => 45 | F => 46 | G => 47 | H => 48 | J => 49
  | K => 50 | L => 51 | Z => 52 | X => 53 | C => 54 | V => 55 | B => 56 | N => 57 | M => 58
  | Semicolon => 59 | Quote => 60 | Enter => 61 | ShiftLeft => 62 | ShiftRight => 63
  | ControlLeft => 64 | ControlRight => 65 | AltLeft => 66 | AltRight => 67 | SuperLeft => 68
  | SuperRight => 69 | Space => 70 | PrintScreen => 71 | ScrollLock => 72 | Pause => 73
  | Insert => 74 | Home => 75 | PageUp => 76 | Delete => 77 | End => 78 | PageDown => 79
  | ArrowUp => 80 | ArrowLeft => 81 | ArrowDown => 82 | ArrowRight => 83 | NumLock => 84
  | KeypadSlash => 85 | KeypadAsterisk => 86 | KeypadMinus => 87 | KeypadPlus => 88
  | KeypadEnter => 89 | KeypadDot => 90 | Keypad0 => 91 | Keypad1 => 92 | Keypad2 => 93
  | Keypad3 => 94 | Keypad4 => 95 | Keypad5 => 96 | Keypad6 => 97 | Keypad7 => 98
  | Keypad8 => 99 | Keypad9 => 100 | Comma_ => 101 | Period_ => 102 | Slash_ => 103
  | Unknown _ => 104
  end%nat.

Lemma all_discriminant k : (discriminant k < 104)%nat → all !! discriminant k = Some k.
Proof. destruct k; cbn; (lia || reflexivity). Qed.

Lemma discriminant_inj k k' :
  discriminant k = discriminant k' → (discriminant k < 104)%nat → k = k'.
Proof.
  intros E Hk. pose proof (all_discriminant k Hk) as H1. rewrite E in Hk.
  pose proof (all_discriminant k' Hk) as H2. rewrite E in H1. congruence.
Qed.

Lemma discriminant_unknown k : (104 ≤ discriminant k)%nat → ∃ b, k = Unknown b.
Proof. destruct k; cbn; (lia || eauto). Qed.

#[export] Instance KeyCode_eq_dec : EqDecision KeyCode.
Proof.
  intros k k'. destruct (decide (discriminant k = discriminant k')) as [E|E]; [|by right; intros ->].
  destruct (decide (discriminant k < 104)%nat) as [Hk|Hk]; [left; by apply discriminant_inj|].
  destruct k as [| | | | | | | | | | | | | | | | | | | | | | | | | | | | | | | | | | | | | | | | | | | | | | | | | | | |
    | | | | | | | | | | | | | | | | | | | | | | | | | | | | | | | | | | | | | | | | | | | | | | | | | | | |b];
    try (exfalso; apply Hk; cbn; lia).
  destruct k' as [| | | | | | | | | | | | | | | | | | | | | | | | | | | | | | | | | | | | | | | | | | | | | | | | | | | |
    | | | | | | | | | | | | | | | | | | | | | | | | | | | | | | | | | | | | | | | | | | | | | | | | | | | |b'];
    try (exfalso; clear -E; cbn in E; lia).
  destruct (decide (b = b')) as [->|]; [by left|right; congruence].
Defined.

End KeyCode.
Abbreviation KeyCode := KeyCode.KeyCode.
#[export] Existing Instance KeyCode.KeyCode_eq_dec.

(** ** Tables *)

Definition SCANCODE_BASE : list KeyCode := [
  KeyCode.None; KeyCode.Escape; KeyCode.Num1; KeyCode.Num2; KeyCode.Num3; KeyCode.Num4;
  KeyCode.Num5; KeyCode.Num6; KeyCode.Num7; KeyCode.Num8; KeyCode.Num9; KeyCode.Num0;
  KeyCode.Minus; KeyCode.Equal; KeyCode.Backspace; KeyCode.Tab; KeyCode.Q; KeyCode.W;
  KeyCode.E; KeyCode.R; KeyCode.T; KeyCode.Y; KeyCode.U; KeyCode.I; KeyCode.O; KeyCode.P;
  KeyCode.BracketLeft; KeyCode.BracketRight; KeyCode.Enter; KeyCode.ControlLeft; KeyCode.A;
  KeyCode.S; KeyCode.D; KeyCode.F; KeyCode.G; KeyCode.H; KeyCode.J; KeyCode.K; KeyCode.L;
  KeyCode.Semicolon; KeyCode.Quote; KeyCode.Backquote; KeyCode.ShiftLeft; KeyCode.Backslash;
  KeyCode.Z; KeyCode.X; KeyCode.C; KeyCode.V; KeyCode.B; KeyCode.N; KeyCode.M; KeyCode.Comma_;
  KeyCode.Period_; KeyCode.Slash_; KeyCode.ShiftRight; KeyCode.KeypadAsterisk; KeyCode.AltLeft;
  KeyCode.Space; KeyCode.CapsLock; KeyCode.F1; KeyCode.F2; KeyCode.F3; KeyCode.F4; KeyCode.F5;
  KeyCode.F6; KeyCode.F7; KeyCode.F8; KeyCode.F9; KeyCode.F10; KeyCode.NumLock;
  KeyCode.ScrollLock; KeyCode.Keypad7; KeyCode.Keypad8; KeyCode.Keypad9; KeyCode.KeypadMinus;
  KeyCode.Keypad4; KeyCode.Keypad5; KeyCode.Keypad6; KeyCode.KeypadPlus; KeyCode.Keypad1;
  KeyCode.Keypad2; KeyCode.Keypad3; KeyCode.Keypad0; KeyCode.KeypadDot; KeyCode.None;
  KeyCode.None; KeyCode.None; KeyCode.F11; KeyCode.F12; KeyCode.None; KeyCode.None;
  KeyCode.None; KeyCode.None; KeyCode.None; KeyCode.None; KeyCode.None].

Definition SCANCODE_E0_MAP : list (Z * KeyCode) := [
  (0x1C, KeyCode.KeypadEnter); (0x1D, KeyCode.ControlRight); (0x35, KeyCode.KeypadSlash);
  (0x37, KeyCode.PrintScreen); (0x38, KeyCode.AltRight); (0x47, KeyCode.Home);
  (0x48, KeyCode.ArrowUp); (0x49, KeyCode.PageUp); (0x4B, KeyCode.ArrowLeft);
  (0x4D, KeyCode.ArrowRight); (0x4F, KeyCode.End); (0x50, KeyCode.ArrowDown);
  (0x51, KeyCode.PageDown); (0x52, KeyCode.Insert); (0x53, KeyCode.Delete);
  (0x5B, KeyCode.SuperLeft); (0x5C, KeyCode.SuperRight)].

(** [lookup_e0]: the first entry with code [idx]. *)
Fixpoint lookup_in (m : list (Z * KeyCode)) (idx : Z) : KeyCode :=
  match m with
  | [] => KeyCode.None
  | (code, key) :: m' => if code =? idx then key else lookup_in m' idx
  end.

Definition lookup_e0 (idx : Z) : KeyCode := lookup_in SCANCODE_E0_MAP idx.

(** The unshifted and the shifted character of a key. *)
Definition char_pair (code : KeyCode) : option (Z * Z) :=
  match code with
  | KeyCode.Backquote => Some (96, 126) | KeyCode.Num1 => Some (49, 33)
  | KeyCode.Num2 => Some (50, 64) | KeyCode.Num3 => Some (51, 35)
  | KeyCode.Num4 => Some (52, 36) | KeyCode.Num5 => Some (53, 37)
  | KeyCode.Num6 => Some (54, 94) | KeyCode.Num7 => Some (55, 38)
  | KeyCode.Num8 => Some (56, 42) | KeyCode.Num9 => Some (57, 40)
  | KeyCode.Num0 => Some (48, 41) | KeyCode.Minus => Some (45, 95)
  | KeyCode.Equal => Some (61, 43) | KeyCode.Q => Some (113, 81) | KeyCode.W => Some (119, 87)
  | KeyCode.E => Some (101, 69) | KeyCode.R => Some (114, 82) | KeyCode.T => Some (116, 84)
  | KeyCode.Y => Some (121, 89) | KeyCode.U => Some (117, 85) | KeyCode.I => Some (105, 73)
  | KeyCode.O => Some (111, 79) | KeyCode.P => Some (112, 80)
  | KeyCode.BracketLeft => Some (91, 123) | KeyCode.BracketRight => Some (93, 125)
  | KeyCode.Backslash => Some (92, 124) | KeyCode.A => Some (97, 65)
  | KeyCode.S => Some (115, 83) | KeyCode.D => Some (100, 68) | KeyCode.F => Some (102, 70)
  | KeyCode.G => Some (103, 71) | KeyCode.H => Some (104, 72) | KeyCode.J => Some (106, 74)
  | KeyCode.K => Some (107, 75) | KeyCode.L => Some (108, 76)
  | KeyCode.Semicolon => Some (59, 58) | KeyCode.Quote => Some (39, 34)
  | KeyCode.Z => Some (122, 90) | KeyCode.X => Some (120, 88) | KeyCode.C => Some (99, 67)
  | KeyCode.V => Some (118, 86) | KeyCode.B => Some (98, 66) | KeyCode.N => Some (110, 78)
  | KeyCode.M => Some (109, 77) | KeyCode.Comma_ => Some (44, 60)
  | KeyCode.Period_ => Some (46, 62) | KeyCode.Slash_ => Some (47, 63)
  | KeyCode.Space => Some (32, 32) | KeyCode.Enter => Some (10, 10)
  | KeyCode.Tab => Some (9, 9) | KeyCode.Backspace => Some (8, 8)
  | KeyCode.Escape => Some (27, 27) | KeyCode.Keypad0 => Some (48, 48)
  | KeyCode.Keypad1 => Some (49, 49) | KeyCode.Keypad2 => Some (50, 50)
  | KeyCode.Keypad3 => Some (51, 51) | KeyCode.Keypad4 => Some (52, 52)
  | KeyCode.Keypad5 => Some (53, 53) | KeyCode.Keypad6 => Some (54, 54)
  | KeyCode.Keypad7 => Some (55, 55) | KeyCode.Keypad8 => Some (56, 56)
  | KeyCode.Keypad9 => Some (57, 57) | KeyCode.KeypadDot => Some (46, 46)
  | KeyCode.KeypadSlash => Some (47, 47) | KeyCode.KeypadAsterisk => Some (42, 42)
  | KeyCode.KeypadMinus => Some (45, 45) | KeyCode.KeypadPlus => Some (43, 43)
  | KeyCode.KeypadEnter => Some (10, 10)
  | _ => None
  end.

Definition char_for (code : KeyCode) (shift : bool) : option Z :=
  match char_pair code with
  | None => None
  | Some (lo, hi) => Some (if shift then hi else lo)
  end.

(** ** State and events *)

Record KeyEvent : Type := mkKeyEvent {
  code : KeyCode; pressed : bool; ev_shift : bool; ev_ctrl : bool; ev_alt : bool;
  ev_tick : Z; ch : option Z }.

Inductive Presence : Type := Unknown | Controller | Keyboard | Absent.

#[export] Instance Presence_eq_dec : EqDecision Presence.
Proof. solve_decision. Defined.

Record State : Type := mkState {
  presence : Presence; shift : bool; ctrl : bool; alt : bool;
  extended : bool; pause_prefix : bool;
  events : Z; unknown_scancodes : Z; command_byte : Z }.

Definition State_initial : State := mkState Unknown false false false false false 0 0 0.

Definition set_mods (sh ct al : bool) (st : State) : State :=
  mkState st.(presence) sh ct al st.(extended) st.(pause_prefix) st.(events) st.(unknown_scancodes) st.(command_byte).
Definition set_prefix (ext pau : bool) (st : State) : State :=
  mkState st.(presence) st.(shift) st.(ctrl) st.(alt) ext pau st.(events) st.(unknown_scancodes) st.(command_byte).
Definition set_events (n : Z) (st : State) : State :=
  mkState st.(presence) st.(shift) st.(ctrl) st.(alt) st.(extended) st.(pause_prefix) n st.(unknown_scancodes) st.(command_byte).
Definition set_unknown (n : Z) (st : State) : State :=
  mkState st.(presence) st.(shift) st.(ctrl) st.(alt) st.(extended) st.(pause_prefix) st.(events) n st.(command_byte).
Definition set_presence (p : Presence) (st : State) : State :=
  mkState p st.(shift) st.(ctrl) st.(alt) st.(extended) st.(pause_prefix) st.(events) st.(unknown_scancodes) st.(command_byte).
Definition set_command_byte (b : Z) (st : State) : State :=
  mkState st.(presence) st.(shift) st.(ctrl) st.(alt) st.(extended) st.(pause_prefix) st.(events) st.(unknown_scancodes) b.

Definition event_count (st : State) : Z := st.(events).

Definition reset_state_for_test (st : State) : State :=
  set_prefix false false (set_mods false false false st).

(** The event for [c] under the modifiers of [st]. *)
Definition event_of (c : KeyCode) (press : bool) (tick : Z) (chr : option Z) (st : State) : KeyEvent :=
  mkKeyEvent c press st.(shift) st.(ctrl) st.(alt) tick chr.

(** The modifier update of [translate]. *)
Definition update_mods (c : KeyCode) (released : bool) (st : State) : State :=
  match c with
  | KeyCode.ShiftLeft | KeyCode.ShiftRight => set_mods (negb released) st.(ctrl) st.(alt) st
  | KeyCode.ControlLeft | KeyCode.ControlRight => set_mods st.(shift) (negb released) st.(alt) st
  | KeyCode.AltLeft | KeyCode.AltRight => set_mods st.(shift) st.(ctrl) (negb released) st
  | _ => st
  end.

(** The end of [translate], once the key is known. *)
Definition emit (c : KeyCode) (released : bool) (tick : Z) (st : State) : Res (option KeyEvent * State) :=
  let st := update_mods c released st in
  if bool_decide (c = KeyCode.None) then Ret (None, st)
  else
    n ← add64 st.(events) 1;
    let st := set_events n st in
    Ret (Some (event_of c (negb released) tick (char_for c st.(shift)) st), st).

(** [translate]: decode one byte; [tick] is [pit::ticks_since_boot()]. *)
Definition translate (tick byte : Z) (st : State) : Res (option KeyEvent * State) :=
  if byte =? 0xE0 then Ret (None, set_prefix true st.(pause_prefix) st)
  else if byte =? 0xE1 then Ret (None, set_prefix st.(extended) true st)
  else if st.(pause_prefix) then
    let st := set_prefix st.(extended) false st in
    Ret (Some (event_of KeyCode.Pause true tick None st), st)
  else
    let released := negb (Z.land byte 0x80 =? 0) in
    let idx := Z.land byte 0x7F in
    if 0x60 <=? idx then
      n ← add64 st.(unknown_scancodes) 1;
      Ret (None, set_unknown n st)
    else if st.(extended) then
      let st := set_prefix false st.(pause_prefix) st in
      if (idx =? 0x2A) || (idx =? 0xAA) then Ret (None, st)
      else
        let c := lookup_e0 idx in
        if bool_decide (c = KeyCode.None) then
          n ← add64 st.(unknown_scancodes) 1;
          let st := set_unknown n st in
          Ret (Some (event_of (KeyCode.Unknown (Z.lor idx 0x80)) (negb released) tick None st), st)
        else emit c released tick st
    else
      c ← lget SCANCODE_BASE idx;
      emit c released tick st.

Definition translate_raw : Z → Z → State → Res (option KeyEvent * State) := translate.

(** A sequence of bytes, as the self-test and the echo loop feed them. *)
Fixpoint decode (tick : Z) (bytes : list Z) (st : State) : Res (list KeyEvent * State) :=
  match bytes with
  | [] => Ret ([], st)
  | b :: bs =>
      '(o, st) ← translate tick b st;
      '(evs, st) ← decode tick bs st;
      Ret (option_list o ++ evs, st)
  end.

(** ** The controller *)

Definition PORT_DATA : Z := 0x60.
Definition PORT_STATUS : Z := 0x64.
Definition ST_OUT_BUFFER_FULL : Z := Z.shiftl 1 0.
Definition ST_IN_BUFFER_FULL : Z := Z.shiftl 1 1.
Definition ST_FROM_DEVICE : Z := Z.shiftl 1 5.
Definition ST_TIMEOUT : Z := Z.shiftl 1 6.
Definition ST_PARITY : Z := Z.shiftl 1 7.
Definition CMD_READ_COMMAND_BYTE : Z := 0x20.
Definition CMD_WRITE_COMMAND_BYTE : Z := 0x60.
Definition CMD_SELF_TEST : Z := 0xAA.
Definition CMD_TEST_PORT_1 : Z := 0xAB.
Definition CMD_DISABLE_PORT_1 : Z := 0xAD.
Definition CMD_ENABLE_PORT_1 : Z := 0xAE.
Definition DEV_SET_SCANCODE_SET : Z := 0xF0.
Definition CB_IRQ1_ENABLE : Z := Z.shiftl 1 0.
Definition CB_TRANSLATE : Z := Z.shiftl 1 6.
Definition POLL_LIMIT : Z := 2000000.

(** [s & bit != 0] *)
Definition has (s bit : Z) : bool := negb (Z.land s bit =? 0).

Section Driver.
Context {D : Type} `{B : Bus D}.

(** [for _ in 0..n { if ok(status.read()) { return true } }  false] *)
Fixpoint poll_status (ok : Z → bool) (n : nat) (h : Hw D) : bool * Hw D :=
  match n with
  | O => (false, h)
  | S n' => let '(s, h) := inb PORT_STATUS h in
            if ok s then (true, h) else poll_status ok n' h
  end.

Definition wait_input_empty (h : Hw D) : bool * Hw D :=
  poll_status (fun s => Z.land s ST_IN_BUFFER_FULL =? 0) (Z.to_nat POLL_LIMIT) h.

Definition wait_output_full (h : Hw D) : bool * Hw D :=
  poll_status (fun s => has s ST_OUT_BUFFER_FULL) (Z.to_nat POLL_LIMIT) h.

Definition controller_cmd (cmd : Z) (h : Hw D) : bool * Hw D :=
  let '(ok, h) := wait_input_empty h in
  if negb ok then (false, h) else (true, outb PORT_STATUS cmd h).

Definition device_cmd (cmd : Z) (h : Hw D) : bool * Hw D :=
  let '(ok, h) := wait_input_empty h in
  if negb ok then (false, h) else (true, outb PORT_DATA cmd h).

Definition device_cmd_write (b : Z) (h : Hw D) : bool * Hw D := device_cmd b h.

Definition read_response (h : Hw D) : option Z * Hw D :=
  let '(ok, h) := wait_output_full h in
  if negb ok then (None, h) else let '(v, h) := inb PORT_DATA h in (Some v, h).

(** [flush_output]: the break after the 33rd byte is the end of [n]. *)
Fixpoint flush_fuel (n : nat) (h : Hw D) : Hw D :=
  let '(s, h) := inb PORT_STATUS h in
  if has s ST_OUT_BUFFER_FULL then
    let '(_, h) := inb PORT_DATA h in
    match n with O => h | S n' => flush_fuel n' h end
  else h.

Definition flush_output (h : Hw D) : Hw D := flush_fuel 32 h.

Definition absent (st : State) (h : Hw D) : Presence * State * Hw D :=
  (Absent, set_presence Absent st, h).

(** [init], from the disabling of port 1 on. *)
Definition configure (st : State) (h : Hw D) : Presence * State * Hw D :=
  let '(_, h) := controller_cmd CMD_DISABLE_PORT_1 h in
  let h := flush_output h in
  let '(_, h) := controller_cmd CMD_READ_COMMAND_BYTE h in
  let '(r, h) := read_response h in
  let cmd_byte := default 0 r in
  let '(_, h) := controller_cmd CMD_TEST_PORT_1 h in
  let '(r, h) := read_response h in
  let port_ok := bool_decide (r = Some 0x00) in
  let new_byte := Z.land (Z.lor cmd_byte CB_IRQ1_ENABLE) (bnot 8 CB_TRANSLATE) in
  let '(_, h) := controller_cmd CMD_WRITE_COMMAND_BYTE h in
  let '(_, h) := device_cmd_write new_byte h in
  let '(_, h) := device_cmd DEV_SET_SCANCODE_SET h in
  let '(ack, h) := read_response h in
  let '(_, h) := device_cmd_write 0x01 h in
  let '(ack2, h) := read_response h in
  let h :=
    if bool_decide (ack = Some 0xFA) && bool_decide (ack2 = Some 0xFA) then h
    else
      let '(_, h) := controller_cmd CMD_WRITE_COMMAND_BYTE h in
      let '(_, h) := device_cmd_write (Z.lor new_byte CB_TRANSLATE) h in h in
  let '(_, h) := controller_cmd CMD_ENABLE_PORT_1 h in
  let h := flush_output h in
  let p := if port_ok then Keyboard else Controller in
  (p, set_command_byte cmd_byte (set_presence p st), h).

Definition init (st : State) (h : Hw D) : Res (Presence * State * Hw D) :=
  let h := flush_output h in
  let '(ok, h) := controller_cmd CMD_SELF_TEST h in
  if negb ok then Ret (absent st h)
  else
    h ← spin_delay_us 100 h;
    let '(r, h) := read_response h in
    match r with
    | Some v => if v =? 0x55 then Ret (configure st h) else Ret (absent st h)
    | None => Ret (absent st h)
    end.

Definition shutdown (st : State) (h : Hw D) : Hw D :=
  if bool_decide (st.(presence) = Absent) then h
  else
    let saved := st.(command_byte) in
    let '(_, h) := controller_cmd CMD_WRITE_COMMAND_BYTE h in
    let '(_, h) := device_cmd_write saved h in
    h.

(** ** The interrupt handler and the polling interface *)

Definition interrupt_handler (r : Ring) (h : Hw D) : Res (Ring * Hw D) :=
  let '(s, h) := inb PORT_STATUS h in
  if has s ST_TIMEOUT then Ret (r, flush_output h)
  else if has s ST_PARITY then let '(_, h) := inb PORT_DATA h in Ret (r, h)
  else if Z.land s ST_OUT_BUFFER_FULL =? 0 then Ret (r, h)
  else
    let '(byte, h) := inb PORT_DATA h in
    if Z.land s ST_FROM_DEVICE =? 0 then Ret (r, h)
    else r ← ring_push byte r; Ret (r, h).

End Driver.

Definition poll (tick : Z) (r : Ring) (st : State) : Res (option KeyEvent * Ring * State) :=
  '(o, r) ← ring_pop r;
  match o with
  | None => Ret (None, r, st)
  | Some byte => '(ev, st) ← translate tick byte st; Ret (ev, r, st)
  end.

(** [drain] into a slice of [cap] events: the events written. *)
Fixpoint drain (tick : Z) (cap : nat) (r : Ring) (st : State) : Res (list KeyEvent * Ring * State) :=
  match cap with
  | O => Ret ([], r, st)
  | S cap' =>
      '(o, r, st) ← poll tick r st;
      match o with
      | None => Ret ([], r, st)
      | Some ev => '(evs, r, st) ← drain tick cap' r st; Ret (ev :: evs, r, st)
      end
  end.
