(* ===== verification/KeyboardSpec.v ===== *)
(** * What the keyboard driver guarantees

    Decoding is total and its modifier state is the history of the events it
    delivered; the scancode tables are unambiguous and decode every key; the
    IRQ1 handler queues exactly the bytes a device sent; [drain] decodes a prefix
    of the queue; [init] is described by its conversation with the controller.
    Two lemmas record what the decoder does with the Pause
    sequence and what [drain] does at a prefix byte. *)

From stdpp Require Import base list list_numbers strings sets.
From Stdlib Require Import ZArith Lia.
From S2P Require Import Prelude Ports Pit Ring Keyboard.
#[local] Open Scope Z_scope.

(** ** Modifiers *)

Record mods : Type := mkMods { m_shift : bool; m_ctrl : bool; m_alt : bool }.

Definition mods_of (st : State) : mods := mkMods st.(shift) st.(ctrl) st.(alt).

(** The modifiers a key event leaves held. *)
Definition mods_step (m : mods) (ev : KeyEvent) : mods :=
  match ev.(code) with
  | KeyCode.ShiftLeft | KeyCode.ShiftRight => mkMods ev.(pressed) m.(m_ctrl) m.(m_alt)
  | KeyCode.ControlLeft | KeyCode.ControlRight => mkMods m.(m_shift) ev.(pressed) m.(m_alt)
  | KeyCode.AltLeft | KeyCode.AltRight => mkMods m.(m_shift) m.(m_ctrl) ev.(pressed)
  | _ => m
  end.

(** The events are consistent with the modifiers held before them. *)
Fixpoint consistent (tick : Z) (m : mods) (evs : list KeyEvent) : Prop :=
  match evs with
  | [] => True
  | ev :: evs' =>
      let m' := mods_step m ev in
      mkMods ev.(ev_shift) ev.(ev_ctrl) ev.(ev_alt) = m' ∧
      ev.(ch) = char_for ev.(code) m'.(m_shift) ∧ ev.(ev_tick) = tick ∧ ev.(code) ≠ KeyCode.None ∧
      consistent tick m' evs'
  end.

Lemma consistent_app tick m l1 l2 :
  consistent tick m (l1 ++ l2) ↔ consistent tick m l1 ∧ consistent tick (foldl mods_step m l1) l2.
Proof.
  revert m. induction l1 as [|ev l1 IH]; intros m; cbn [app consistent foldl]; [naive_solver|].
  rewrite IH. naive_solver.
Qed.

Lemma update_mods_mods c rel tick chr st :
  mods_of (update_mods c rel st) = mods_step (mods_of st) (event_of c (negb rel) tick chr (update_mods c rel st)).
Proof. by destruct c. Qed.

Lemma update_mods_counts c rel st :
  (update_mods c rel st).(events) = st.(events) ∧
  (update_mods c rel st).(unknown_scancodes) = st.(unknown_scancodes) ∧
  (update_mods c rel st).(extended) = st.(extended) ∧
  (update_mods c rel st).(pause_prefix) = st.(pause_prefix).
Proof. by destruct c. Qed.

(** What one call of [translate] guarantees. *)
Definition step_ok (tick : Z) (st : State) (o : option KeyEvent) (st' : State) : Prop :=
  consistent tick (mods_of st) (option_list o) ∧
  mods_of st' = foldl mods_step (mods_of st) (option_list o) ∧
  st.(events) ≤ st'.(events) ≤ st.(events) + 1 ∧
  st.(unknown_scancodes) ≤ st'.(unknown_scancodes) ≤ st.(unknown_scancodes) + 1.

Lemma step_ok_quiet tick st st' :
  mods_of st' = mods_of st → st'.(events) = st.(events) →
  st.(unknown_scancodes) ≤ st'.(unknown_scancodes) ≤ st.(unknown_scancodes) + 1 →
  step_ok tick st None st'.
Proof. intros Hm He Hu. split; [done|]. split; [done|]. split; [lia|done]. Qed.

Lemma emit_ok c rel tick st :
  st.(events) + 1 < U64 → ∃ o st', emit c rel tick st = Ret (o, st') ∧ step_ok tick st o st' ∧
    st'.(extended) = st.(extended) ∧ st'.(pause_prefix) = st.(pause_prefix).
Proof.
  intros He. destruct (update_mods_counts c rel st) as (E1 & E2 & E3 & E4). unfold emit.
  case_bool_decide as Hc.
  - subst c. eexists _, _. split; [reflexivity|]. split; [|done]. apply step_ok_quiet; [done|done|cbn; lia].
  - rewrite E1, add64_ok by done. cbn [mbind Res_bind]. eexists _, _. split; [reflexivity|].
    split; [|done].
    set (st' := set_events _ _). pose proof (update_mods_mods c rel tick (char_for c st'.(shift)) st) as Hm.
    split; [|split; [|split]].
    + change (option_list (Some ?e)) with [e]. cbn [consistent]. change (event_of c (negb rel) tick (char_for c st'.(shift)) st')
        with (event_of c (negb rel) tick (char_for c st'.(shift)) (update_mods c rel st)).
      rewrite <- Hm. done.
    + exact Hm.
    + cbn [st' set_events events]. lia.
    + cbn [st' set_events unknown_scancodes]. lia.
Qed.

Lemma idx_range b : 0 ≤ Z.land b 0x7F < 128.
Proof. change 0x7F with (Z.ones 7). rewrite Z.land_ones by lia. apply Z.mod_pos_bound. lia. Qed.

Lemma translate_total tick b st :
  st.(events) + 1 < U64 → st.(unknown_scancodes) + 1 < U64 →
  ∃ o st', translate tick b st = Ret (o, st') ∧ step_ok tick st o st'.
Proof.
  intros He Hu. unfold translate.
  destruct (b =? 0xE0); [eexists _, _; split; [reflexivity|apply step_ok_quiet; cbn; (done || lia)]|].
  destruct (b =? 0xE1); [eexists _, _; split; [reflexivity|apply step_ok_quiet; cbn; (done || lia)]|].
  destruct (pause_prefix st).
  { eexists _, _. split; [reflexivity|]. split; [done|]. split; [done|]. cbn. lia. }
  pose proof (idx_range b) as Hi. destruct (Z.leb_spec 0x60 (Z.land b 0x7F)).
  { rewrite add64_ok by done. cbn [mbind Res_bind]. eexists _, _. split; [reflexivity|].
    apply step_ok_quiet; [done|done|cbn; lia]. }
  destruct (extended st).
  - destruct (_ || _)%bool; [eexists _, _; split; [reflexivity|apply step_ok_quiet; cbn; (done || lia)]|].
    case_bool_decide.
    + cbn [set_prefix unknown_scancodes]. rewrite add64_ok by done. cbn [mbind Res_bind].
      eexists _, _. split; [reflexivity|]. split; [done|]. split; [done|]. cbn. lia.
    + destruct (emit_ok (lookup_e0 (Z.land b 0x7F)) (negb (Z.land b 0x80 =? 0)) tick (set_prefix false false st))
        as (o & st' & E & Hok & _); [done|]. by exists o, st'.
  - destruct (lget_ok SCANCODE_BASE (Z.land b 0x7F)) as [c Hc]; [cbn; lia|]. rewrite Hc. cbn [mbind Res_bind].
    destruct (emit_ok c (negb (Z.land b 0x80 =? 0)) tick st) as (o & st' & E & Hok & _); [done|]. by exists o, st'.
Qed.

Lemma decode_total tick bs st :
  st.(events) + Z.of_nat (length bs) < U64 → st.(unknown_scancodes) + Z.of_nat (length bs) < U64 →
  ∃ evs st', decode tick bs st = Ret (evs, st') ∧ consistent tick (mods_of st) evs ∧
    mods_of st' = foldl mods_step (mods_of st) evs.
Proof.
  revert st. induction bs as [|b bs IH]; intros st He Hu; cbn [decode length] in *; [by exists [], st|].
  destruct (translate_total tick b st) as (o & st1 & -> & Hc & Hm & He1 & Hu1); [lia|lia|]. cbn [mbind Res_bind].
  destruct (IH st1) as (evs & st2 & -> & Hc2 & Hm2); [lia|lia|]. cbn [mbind Res_bind].
  eexists _, _. split; [reflexivity|]. rewrite consistent_app, foldl_app, <- Hm. done.
Qed.

Lemma synthetic_shift tick b st :
  b = 0x2A ∨ b = 0xAA → st.(pause_prefix) = false → decode tick [0xE0; b] st = Ret ([], set_prefix false false st).
Proof.
  intros Hb Hp. cbn [decode translate Z.eqb Pos.eqb mbind Res_bind option_list app].
  unfold translate. cbn [Z.eqb Pos.eqb set_prefix pause_prefix extended]. rewrite Hp.
  by destruct Hb as [-> | ->].
Qed.

(** C24: every byte sequence decodes without a panic (short of 2^64 events),
    and the modifier state is the history of the delivered events: a key event
    carries the modifiers as its own press or release leaves them, its character
    is the shifted or unshifted one accordingly, and the state after the sequence
    is what the delivered Shift, Control and Alt events imply.  The synthetic left
    Shift that surrounds PrintScreen (E0 2A, E0 AA) is no such event: in every
    state in which no Pause prefix is pending it yields nothing, and modifiers and
    counters stay as they were. *)
Theorem decode_modifiers tick bs st :
  st.(events) + Z.of_nat (length bs) < U64 → st.(unknown_scancodes) + Z.of_nat (length bs) < U64 →
  ∃ evs st', decode tick bs st = Ret (evs, st') ∧ consistent tick (mods_of st) evs ∧
    mods_of st' = foldl mods_step (mods_of st) evs ∧
    ∀ b, b = 0x2A ∨ b = 0xAA → st.(pause_prefix) = false → decode tick [0xE0; b] st = Ret ([], set_prefix false false st).
Proof.
  intros He Hu. destruct (decode_total tick bs st He Hu) as (evs & st' & H1 & H2 & H3). exists evs, st'.
  split; [done|]. split; [done|]. split; [done|]. intros b Hb. by apply synthetic_shift.
Qed.

(** Shift, a, release Shift, PrintScreen, a. *)
Lemma decode_modifiers_witness :
  ∃ evs st', decode 7 [0x2A; 0x1E; 0xAA; 0xE0; 0x2A; 0xE0; 0x37; 0x1E] State_initial = Ret (evs, st') ∧
    ch <$> evs = [None; Some 65; None; None; Some 97] ∧
    mods_of st' = foldl mods_step (mods_of State_initial) evs.
Proof.
  destruct (decode_modifiers 7 [0x2A; 0x1E; 0xAA; 0xE0; 0x2A; 0xE0; 0x37; 0x1E] State_initial)
    as (evs & st' & E & _ & Hm & _); [by vm_compute|by vm_compute|].
  exists evs, st'. split; [exact E|]. split; [|exact Hm].
  assert (decode 7 [0x2A; 0x1E; 0xAA; 0xE0; 0x2A; 0xE0; 0x37; 0x1E] State_initial = Ret (evs, st')) as E' by exact E.
  vm_compute in E'. injection E' as <- _. reflexivity.
Defined.

(** ** The scancode tables *)

(** The key at position [idx] of the base or the extended table. *)
Definition key_at (ext : bool) (idx : Z) : KeyCode :=
  if ext then lookup_e0 idx else default KeyCode.None (SCANCODE_BASE !! Z.to_nat idx).

(** The bytes a keyboard sends for it. *)
Definition scancode (ext : bool) (idx : Z) (press : bool) : list Z :=
  (if ext then [0xE0] else []) ++ [if press then idx else Z.lor idx 0x80].

Definition positions : list (bool * Z) :=
  ((fun i => (false, i)) <$> seqZ 0 96) ++ ((fun i => (true, i)) <$> seqZ 0 96).

Definition holders (k : KeyCode) : list (bool * Z) := filter (fun p => key_at p.1 p.2 = k) positions.

Lemma elem_of_positions e i : (e, i) ∈ positions ↔ 0 ≤ i < 96.
Proof.
  unfold positions. rewrite elem_of_app, !list_elem_of_fmap. setoid_rewrite elem_of_seqZ. split.
  - intros [(y & [= -> ->] & ?)|(y & [= -> ->] & ?)]; lia.
  - intros Hi. destruct e; [right|left]; exists i; (split; [done|lia]).
Qed.

(** Every key has one position, by evaluation of the tables. *)
Lemma one_holder k :
  k ∈ KeyCode.all → k ≠ KeyCode.None → k ≠ KeyCode.Pause → length (holders k) = 1%nat.
Proof.
  intros Hk Hn Hp.
  assert (forallb (fun k => bool_decide (k = KeyCode.None) || bool_decide (k = KeyCode.Pause) ||
                            (length (holders k) =? 1)%nat) KeyCode.all = true) as H by (by vm_compute).
  rewrite forallb_forall in H. specialize (H k (proj1 (list_elem_of_In _ _) Hk)).
  rewrite !bool_decide_eq_false_2 in H by done. by apply Nat.eqb_eq.
Qed.

Lemma unique_position k :
  k ∈ KeyCode.all → k ≠ KeyCode.None → k ≠ KeyCode.Pause →
  ∃ e i, 0 ≤ i < 96 ∧ ∀ e' i', 0 ≤ i' < 96 → (key_at e' i' = k ↔ (e', i') = (e, i)).
Proof.
  intros Hk Hn Hp. pose proof (one_holder k Hk Hn Hp) as Hl.
  destruct (holders k) as [|[e i] [|]] eqn:E; [done| |done].
  assert ((e, i) ∈ holders k) as Hin by (rewrite E; left).
  exists e, i. split; [by apply (elem_of_positions e); apply list_elem_of_filter in Hin as [_ Hin]|]. intros e' i' Hi.
  assert ((e', i') ∈ holders k ↔ key_at e' i' = k) as H.
  { unfold holders. rewrite list_elem_of_filter, elem_of_positions. naive_solver. }
  rewrite <- H, E, list_elem_of_singleton. done.
Qed.

Lemma land_make i : 0 ≤ i < 96 → Z.land i 0x80 = 0 ∧ Z.land i 0x7F = i.
Proof.
  intros Hi. change 0x7F with (Z.ones 7). rewrite Z.land_ones by lia. split; [|apply Z.mod_small; lia].
  apply Z.bits_inj'. intros n Hn. rewrite Z.land_spec, Z.bits_0. change 0x80 with (Z.shiftl 1 7).
  rewrite testbit_shiftl_1 by lia. destruct (Z.eqb_spec 7 n) as [<-|]; [|apply andb_false_r].
  by rewrite (testbit_high 7) by lia.
Qed.

Lemma land_break i : 0 ≤ i < 96 → Z.lor i 0x80 = i + 128 ∧ Z.land (Z.lor i 0x80) 0x80 = 0x80 ∧ Z.land (Z.lor i 0x80) 0x7F = i.
Proof.
  intros Hi. destruct (land_make i Hi) as [H1 H2].
  rewrite !Z.land_lor_distr_l, H1, H2. change (Z.land 0x80 0x80) with 0x80. change (Z.land 0x80 0x7F) with 0.
  rewrite Z.lor_0_l, Z.lor_0_r. split; [|done].
  pose proof (Z.add_lor_land i 0x80). lia.
Qed.

Lemma translate_E0 tick st : translate tick 0xE0 st = Ret (None, set_prefix true st.(pause_prefix) st).
Proof. reflexivity. Qed.

(** One byte of a scancode, from a state that expects it. *)
Lemma translate_key tick ext idx (press : bool) st :
  0 ≤ idx < 96 → st.(extended) = ext → st.(pause_prefix) = false → st.(events) + 1 < U64 →
  key_at ext idx ≠ KeyCode.None →
  ∃ ev st', translate tick (if press then idx else Z.lor idx 0x80) st = Ret (Some ev, st') ∧
    ev.(code) = key_at ext idx ∧ ev.(pressed) = press ∧
    st'.(extended) = false ∧ st'.(pause_prefix) = false ∧ st'.(events) = st.(events) + 1.
Proof.
  intros Hi Hext Hp He Hk. destruct (land_make idx Hi) as [M1 M2]. destruct (land_break idx Hi) as (B0 & B1 & B2).
  set (byte := if press then idx else Z.lor idx 0x80).
  assert (byte ≠ 0xE0 ∧ byte ≠ 0xE1) as [N0 N1] by (unfold byte; destruct press; lia).
  assert (Z.land byte 0x7F = idx) as Eidx by (unfold byte; by destruct press).
  assert (negb (Z.land byte 0x80 =? 0) = negb press) as Erel by (unfold byte; destruct press; by rewrite ?M1, ?B1).
  unfold translate. rewrite Eidx, Erel, Hp, Hext.
  destruct (Z.eqb_spec byte 0xE0), (Z.eqb_spec byte 0xE1); try done.
  destruct (Z.leb_spec 0x60 idx); [lia|].
  assert (∀ s, s.(events) + 1 < U64 → s.(extended) = false → s.(pause_prefix) = false → s.(events) = st.(events) →
    ∃ ev st', emit (key_at ext idx) (negb press) tick s = Ret (Some ev, st') ∧ ev.(code) = key_at ext idx ∧
      ev.(pressed) = press ∧ st'.(extended) = false ∧ st'.(pause_prefix) = false ∧ st'.(events) = st.(events) + 1) as Hemit.
  { intros s Hs Hx Hpp Hev. unfold emit. rewrite bool_decide_eq_false_2 by done.
    destruct (update_mods_counts (key_at ext idx) (negb press) s) as (E1 & _ & E3 & E4).
    rewrite E1, add64_ok by done. cbn [mbind Res_bind]. eexists _, _. split; [reflexivity|].
    cbn [event_of code pressed set_events extended pause_prefix events]. rewrite negb_involutive, E3, E4. rewrite Hev. done. }
  destruct ext.
  - assert (idx ≠ 0x2A) as N2 by (intros ->; by apply Hk).
    destruct (Z.eqb_spec idx 0x2A), (Z.eqb_spec idx 0xAA); try lia. cbn [orb].
    rewrite bool_decide_eq_false_2 by done. apply Hemit; done.
  - cbn [key_at] in *. destruct (lget_ok SCANCODE_BASE idx) as [c Hc]; [cbn; lia|].
    rewrite Hc. apply lget_Ret in Hc as [_ Hc]. rewrite Hc in *. cbn [default] in *. cbn [mbind Res_bind].
    by apply Hemit.
Qed.

(** C25: the tables are unambiguous and complete.  Every key of the layout but
    Pause sits at exactly one position of the base or the extended table, and
    from a state between scancodes (neither prefix pending, the event counter not
    at its last value) the bytes of a press (or release) of the key
    at any position decode to exactly one event, a press (release) of that key,
    and leave the decoder between scancodes. *)
Theorem scancode_round_trip :
  (∀ k, k ∈ KeyCode.all → k ≠ KeyCode.None → k ≠ KeyCode.Pause →
     ∃ e i, 0 ≤ i < 96 ∧ ∀ e' i', 0 ≤ i' < 96 → (key_at e' i' = k ↔ (e', i') = (e, i))) ∧
  (∀ tick e i press st, 0 ≤ i < 96 → key_at e i ≠ KeyCode.None →
     st.(extended) = false → st.(pause_prefix) = false → st.(events) + 1 < U64 →
     ∃ ev st', decode tick (scancode e i press) st = Ret ([ev], st') ∧
       ev.(code) = key_at e i ∧ ev.(pressed) = press ∧
       st'.(extended) = false ∧ st'.(pause_prefix) = false).
Proof.
  split; [exact unique_position|]. intros tick e i press st Hi Hk Hx Hp He. unfold scancode. destruct e.
  - cbn [app decode]. rewrite translate_E0. cbn [mbind Res_bind].
    destruct (translate_key tick true i press (set_prefix true st.(pause_prefix) st))
      as (ev & st' & -> & H1 & H2 & H3 & H4 & _); [done..|].
    cbn [mbind Res_bind option_list app]. eauto 10.
  - cbn [app decode]. destruct (translate_key tick false i press st)
      as (ev & st' & -> & H1 & H2 & H3 & H4 & _); [done..|].
    cbn [mbind Res_bind option_list app]. eauto 10.
Qed.

Lemma scancode_round_trip_witness :
  (∃ e i, 0 ≤ i < 96 ∧ key_at e i = KeyCode.ArrowUp) ∧
  ∃ ev st', decode 0 (scancode true 0x48 false) State_initial = Ret ([ev], st') ∧ ev.(code) = KeyCode.ArrowUp.
Proof.
  split.
  { destruct (proj1 scancode_round_trip KeyCode.ArrowUp) as (e & i & Hi & H);
      [by apply (bool_decide_unpack _)|done|done|]. exists e, i. split; [exact Hi|]. by apply H. }
  destruct (proj2 scancode_round_trip 0 true 0x48 false State_initial) as (ev & st' & E & H & _);
    [lia|discriminate|reflexivity|reflexivity|by vm_compute|].
  exists ev, st'. split; [exact E|exact H].
Defined.

(** Pause sends E1 1D 45 E1 9D C5 and has no release code.  The decoder is
    meant to emit one event for the sequence; it emits two Pause presses and a
    press and a release of NumLock. *)
Theorem pause_sequence_events :
  ∃ evs st', decode 0 [0xE1; 0x1D; 0x45; 0xE1; 0x9D; 0xC5] State_initial = Ret (evs, st') ∧
    (fun ev => (ev.(code), ev.(pressed))) <$> evs =
      [(KeyCode.Pause, true); (KeyCode.NumLock, true); (KeyCode.Pause, true); (KeyCode.NumLock, false)].
Proof. eexists _, _. split; [vm_compute; reflexivity|]. reflexivity. Qed.

(** ** The interrupt handler *)

Section Irq.
Context {D : Type} `{B : Bus D}.

(** [flush_output] reads at most 33 bytes and writes nothing. *)
Lemma flush_fuel_io n (h : Hw D) :
  ∃ l, io (flush_fuel n h) = io h ++ l ∧ (length (reads_from PORT_DATA l) ≤ S n)%nat ∧
       ∀ p, writes_to p l = [].
Proof.
  revert h. induction n as [|n IH]; intros h; cbn [flush_fuel];
    pose proof (io_inb PORT_STATUS h) as E1; destruct (inb PORT_STATUS h) as [s h1]; cbn [fst snd] in E1;
    (destruct (has s ST_OUT_BUFFER_FULL); [|exists [PIn PORT_STATUS s]; split; [done|]; split; [cbn; lia|done]]);
    pose proof (io_inb PORT_DATA h1) as E2; destruct (inb PORT_DATA h1) as [v h2]; cbn [fst snd] in E2.
  - exists [PIn PORT_STATUS s; PIn PORT_DATA v]. rewrite E2, E1, <- app_assoc. split; [done|]. split; [cbn; lia|done].
  - destruct (IH h2) as (l & E & Hr & Hw). exists (PIn PORT_STATUS s :: PIn PORT_DATA v :: l).
    rewrite E, E2, E1, <- !app_assoc. split; [done|]. split; [cbn; lia|]. intros p. cbn [writes_to]. apply Hw.
Qed.

(** The bytes the handler must queue, from the status it read and the byte
    behind it. *)
Definition keystroke (s v : Z) : list Z :=
  if has s ST_TIMEOUT || has s ST_PARITY || negb (has s ST_OUT_BUFFER_FULL) || negb (has s ST_FROM_DEVICE)
  then [] else [v].

(** The IRQ1 handler never panics, never writes a port, and appends to
    the queue exactly the byte a device sent: nothing on a timeout, a parity
    error, an empty buffer (the data port is then not read at all) or a
    controller response, one data-port read otherwise.  A full queue loses the
    new byte and counts it. *)
Theorem interrupt_handler_correct r (h : Hw D) :
  ring_inv r →
  let s := (inb PORT_STATUS h).1 in
  ∃ r' h' l, interrupt_handler r h = Ret (r', h') ∧ ring_inv r' ∧
    io h' = io h ++ PIn PORT_STATUS s :: l ∧ (∀ p, writes_to p l = []) ∧
    (has s ST_TIMEOUT = false →
       length (reads_from PORT_DATA l) =
         if has s ST_PARITY || has s ST_OUT_BUFFER_FULL then 1%nat else 0%nat) ∧
    let new := keystroke s (default 0 (head (reads_from PORT_DATA l))) in
    if (length (contents r) + length new <? 256)%nat
    then contents r' = contents r ++ new ∧ r'.(DROPPED) = r.(DROPPED)
    else contents r' = contents r ∧ r'.(DROPPED) = wrap64 (r.(DROPPED) + 1).
Proof.
  intros Hi. unfold interrupt_handler. pose proof (io_inb PORT_STATUS h) as E1.
  destruct (inb PORT_STATUS h) as [s h1]. cbn [fst snd] in *. unfold keystroke.
  assert (length (contents r) + 0 < 256)%nat as Hlen.
  { pose proof (length_contents r). pose proof (count_range r). lia. }
  assert ((Z.land s ST_OUT_BUFFER_FULL =? 0) = negb (has s ST_OUT_BUFFER_FULL)) as ->
    by (unfold has; by rewrite negb_involutive).
  assert ((Z.land s ST_FROM_DEVICE =? 0) = negb (has s ST_FROM_DEVICE)) as ->
    by (unfold has; by rewrite negb_involutive).
  destruct (has s ST_TIMEOUT); [|destruct (has s ST_PARITY); [|destruct (has s ST_OUT_BUFFER_FULL)]]; cbn [orb negb].
  - destruct (flush_fuel_io 32 h1) as (l & E & _ & Hw). exists r, (flush_output h1), l.
    split; [done|]. split; [done|]. unfold flush_output. rewrite E, E1, <- app_assoc. split; [done|]. split; [done|].
    split; [done|]. cbn [length]. destruct (Nat.ltb_spec (length (contents r) + 0) 256); [|lia]. by rewrite app_nil_r.
  - pose proof (io_inb PORT_DATA h1) as E2. destruct (inb PORT_DATA h1) as [v h2]. cbn [fst snd] in E2.
    exists r, h2, [PIn PORT_DATA v]. split; [done|]. split; [done|]. rewrite E2, E1, <- app_assoc. split; [done|].
    split; [done|]. split; [done|]. cbn [length]. destruct (Nat.ltb_spec (length (contents r) + 0) 256); [|lia]. by rewrite app_nil_r.
  - pose proof (io_inb PORT_DATA h1) as E2. destruct (inb PORT_DATA h1) as [v h2]. cbn [fst snd] in E2.
    destruct (has s ST_FROM_DEVICE); cbn [negb].
    + destruct (ring_push_ok v r Hi) as (r' & -> & Hi' & Hc & Hd). cbn [mbind Res_bind].
      exists r', h2, [PIn PORT_DATA v]. split; [done|]. split; [done|]. rewrite E2, E1, <- app_assoc. split; [done|].
      split; [done|]. split; [done|]. cbn [length reads_from Z.eqb head default].
      destruct (Nat.ltb_spec (length (contents r)) 255), (Nat.ltb_spec (length (contents r) + 1) 256); try lia; done.
    + exists r, h2, [PIn PORT_DATA v]. split; [done|]. split; [done|]. rewrite E2, E1, <- app_assoc. split; [done|].
      split; [done|]. split; [done|]. cbn [length]. destruct (Nat.ltb_spec (length (contents r) + 0) 256); [|lia]. by rewrite app_nil_r.
  - exists r, h1, []. split; [done|]. split; [done|]. rewrite E1. split; [done|]. split; [done|]. split; [done|].
    cbn [length]. destruct (Nat.ltb_spec (length (contents r) + 0) 256); [|lia]. by rewrite app_nil_r.
Qed.

End Irq.

Lemma interrupt_handler_correct_witness :
  ∃ r' h', @interrupt_handler _ script_bus Ring_new (mkHw [0x21; 0x1E] []) = Ret (r', h') ∧ ring_inv r'.
Proof.
  destruct (@interrupt_handler_correct _ script_bus Ring_new (mkHw [0x21; 0x1E] []) (proj1 Ring_new_inv))
    as (r' & h' & l & E & Hi & _).
  exists r', h'. split; [exact E|exact Hi].
Defined.

(** ** Draining the queue *)

Lemma poll_ok tick r st :
  ring_inv r → st.(events) + 1 < U64 → st.(unknown_scancodes) + 1 < U64 →
  match contents r with
  | [] => poll tick r st = Ret (None, r, st)
  | b :: q => ∃ o r' st', poll tick r st = Ret (o, r', st') ∧ ring_inv r' ∧ contents r' = q ∧
                translate tick b st = Ret (o, st') ∧ step_ok tick st o st'
  end.
Proof.
  intros Hi He Hu. unfold poll. pose proof (ring_pop_ok r Hi) as Hp. destruct (contents r) as [|b q].
  - by rewrite Hp.
  - destruct Hp as (r' & -> & Hi' & Hq & _). cbn [mbind Res_bind].
    destruct (translate_total tick b st He Hu) as (o & st' & Et & Hok). rewrite Et. cbn [mbind Res_bind].
    exists o, r', st'. done.
Qed.

Lemma drain_ok tick cap r st :
  ring_inv r → st.(events) + Z.of_nat cap < U64 → st.(unknown_scancodes) + Z.of_nat cap < U64 →
  ∃ evs r' st' bs rest, drain tick cap r st = Ret (evs, r', st') ∧ ring_inv r' ∧
    contents r = bs ++ rest ∧ contents r' = rest ∧ decode tick bs st = Ret (evs, st') ∧
    consistent tick (mods_of st) evs ∧
    (length evs ≤ cap)%nat ∧ ((length evs < cap)%nat → rest = [] ∨ length bs = S (length evs)).
Proof.
  revert r st. induction cap as [|cap IH]; intros r st Hi He Hu; cbn [drain].
  { exists [], r, st, [], (contents r). split; [done|]. split; [done|]. split; [done|]. split; [done|].
    split; [done|]. split; [done|]. cbn. split; [done|lia]. }
  pose proof (poll_ok tick r st Hi ltac:(lia) ltac:(lia)) as Hp. destruct (contents r) as [|b q] eqn:Ec.
  { rewrite Hp. cbn [mbind Res_bind]. exists [], r, st, [], []. cbn. rewrite Ec. naive_solver lia. }
  destruct Hp as (o & r1 & st1 & -> & Hi1 & Hq & Et & Hc1 & Hm1 & He1 & Hu1). cbn [mbind Res_bind].
  destruct o as [ev|].
  - destruct (IH r1 st1) as (evs & r2 & st2 & bs & rest & -> & Hi2 & Hc & Hr & Hd & Hcons & Hlen & Hstop); [done|lia|lia|].
    cbn [mbind Res_bind]. exists (ev :: evs), r2, st2, (b :: bs), rest. split; [done|]. split; [done|].
    split; [by rewrite <- Hq, Hc|]. split; [done|]. split; [cbn [decode]; rewrite Et; cbn [mbind Res_bind]; by rewrite Hd|].
    split; [change (ev :: evs) with (option_list (Some ev) ++ evs); apply consistent_app; rewrite <- Hm1; done|].
    cbn [length]. split; [lia|]. intros Hl. destruct Hstop as [-> | ->]; [lia|by left|by right].
  - exists [], r1, st1, [b], q. split; [done|]. split; [done|]. split; [done|]. split; [done|].
    split; [cbn [decode]; by rewrite Et|]. split; [done|]. cbn. split; [lia|auto].
Qed.

(** [drain] takes a prefix of the queue, in order, and returns exactly the
    events that prefix decodes to, at most the capacity of the slice.  It stops
    early only when the queue is empty or at a byte that decodes to no event (a
    prefix byte, for instance), leaving the rest queued for the next call. *)
Theorem drain_decodes_prefix tick cap r st :
  ring_inv r → st.(events) + Z.of_nat cap < U64 → st.(unknown_scancodes) + Z.of_nat cap < U64 →
  ∃ evs r' st' bs rest, drain tick cap r st = Ret (evs, r', st') ∧ ring_inv r' ∧
    contents r = bs ++ rest ∧ contents r' = rest ∧ decode tick bs st = Ret (evs, st') ∧
    consistent tick (mods_of st) evs ∧
    (length evs ≤ cap)%nat ∧ ((length evs < cap)%nat → rest = [] ∨ length bs = S (length evs)).
Proof. apply drain_ok. Qed.

(** A queue that holds E0 48 (arrow up): the first drain returns nothing although
    a whole scancode is pending. *)
Definition arrow_ring : Ring := mkRing (0xE0 :: 0x48 :: replicate 254 0) 2 0 0.

Lemma drain_decodes_prefix_witness :
  ∃ evs r' st' bs rest, drain 0 16 arrow_ring State_initial = Ret (evs, r', st') ∧
    contents arrow_ring = bs ++ rest ∧ evs = [] ∧ rest = [0x48].
Proof.
  destruct (drain_decodes_prefix 0 16 arrow_ring State_initial) as (evs & r' & st' & bs & rest & E & _ & Hc & Hr & _).
  - split; [reflexivity|]. cbn. lia.
  - by vm_compute.
  - by vm_compute.
  - exists evs, r', st', bs, rest. split; [exact E|]. split; [exact Hc|].
    assert (drain 0 16 arrow_ring State_initial = Ret (evs, r', st')) as E' by exact E.
    vm_compute in E'. injection E' as <- <- _. split; [reflexivity|]. rewrite <- Hr. reflexivity.
Defined.

(** The driver's doc says [drain] decodes every pending scancode up to the
    capacity; it stops at the first byte without an event. *)
Theorem drain_stops_at_prefix :
  ∃ r' st', drain 0 16 arrow_ring State_initial = Ret ([], r', st') ∧ pending r' = Ret 1.
Proof. eexists _, _. split; [vm_compute; reflexivity|]. reflexivity. Qed.

(** ** Initialisation *)

Section Init.
Context {D : Type} `{B : Bus D}.

(** Every write to the data port is one of [vs]. *)
Definition data_writes (vs : list Z) (e : pevent) : Prop :=
  match e with POut p v => p = PORT_DATA → v ∈ vs | PIn _ _ => True end.

Lemma adds_weaken vs vs' (h h' : Hw D) : vs ⊆ vs' → adds (data_writes vs) h h' → adds (data_writes vs') h h'.
Proof.
  intros Hsub (l & E & Hl). exists l. split; [done|]. eapply Forall_impl; [exact Hl|].
  intros [p v|p v]; cbn; [done|]. intros H Hp. by apply Hsub, H.
Qed.

Lemma poll_status_adds vs ok n (h : Hw D) : adds (data_writes vs) h (poll_status ok n h).2.
Proof.
  revert h. induction n as [|n IH]; intros h; cbn [poll_status]; [reflexivity|].
  pose proof (adds_inb (data_writes vs) PORT_STATUS h ltac:(done)) as H. destruct (inb PORT_STATUS h) as [s h1].
  cbn [snd] in H. destruct (ok s); [done|]. by etrans; [|apply IH].
Qed.

Lemma controller_cmd_adds vs cmd (h : Hw D) : adds (data_writes vs) h (controller_cmd cmd h).2.
Proof.
  unfold controller_cmd, wait_input_empty. pose proof (poll_status_adds vs (fun s => Z.land s ST_IN_BUFFER_FULL =? 0)
    (Z.to_nat POLL_LIMIT) h) as H. destruct (poll_status _ _ h) as [ok h1]. cbn [snd] in H.
  destruct ok; cbn [negb snd]; [|done]. etrans; [done|]. by apply adds_outb.
Qed.

Lemma device_cmd_adds cmd (h : Hw D) : adds (data_writes [cmd]) h (device_cmd cmd h).2.
Proof.
  unfold device_cmd, wait_input_empty. pose proof (poll_status_adds [cmd] (fun s => Z.land s ST_IN_BUFFER_FULL =? 0)
    (Z.to_nat POLL_LIMIT) h) as H. destruct (poll_status _ _ h) as [ok h1]. cbn [snd] in H.
  destruct ok; cbn [negb snd]; [|done]. etrans; [done|]. apply adds_outb. intros _. set_solver.
Qed.

Lemma read_response_adds vs (h : Hw D) :
  adds (data_writes vs) h (read_response h).2 ∧ ∀ v, (read_response h).1 = Some v → 0 ≤ v < 256.
Proof.
  unfold read_response, wait_output_full. pose proof (poll_status_adds vs (fun s => has s ST_OUT_BUFFER_FULL)
    (Z.to_nat POLL_LIMIT) h) as H. destruct (poll_status _ _ h) as [ok h1]. cbn [snd] in H.
  destruct ok; cbn [negb snd fst]; [|done].
  pose proof (adds_inb (data_writes vs) PORT_DATA h1 ltac:(done)) as H1. pose proof (inb_byte PORT_DATA h1) as Hv.
  destruct (inb PORT_DATA h1) as [v h2]. cbn [fst snd] in *. split; [by etrans|]. by intros ? [= <-].
Qed.

Lemma flush_adds vs (h : Hw D) : adds (data_writes vs) h (flush_output h).
Proof.
  destruct (flush_fuel_io 32 h) as (l & E & _ & Hw). exists l. split; [done|].
  apply list.Forall_forall. intros [p v|p v] Hin; [done|]. exfalso.
  specialize (Hw p). apply list_elem_of_split in Hin as (l1 & l2 & ->).
  rewrite writes_to_app in Hw. cbn [writes_to] in Hw. rewrite Z.eqb_refl in Hw.
  by destruct (writes_to p l1).
Qed.

(** The command byte the driver writes: the firmware's, with IRQ1 enabled (bit
    0) and translation (bit 6) off, then on again for a device that keeps set 2. *)
Definition configured_byte (b : Z) : Z := Z.clearbit (Z.setbit b 0) 6.
Definition translated_byte (b : Z) : Z := Z.setbit (configured_byte b) 6.

Definition config_writes (b : Z) : list Z :=
  [configured_byte b; DEV_SET_SCANCODE_SET; 0x01; translated_byte b].

Lemma configured_byte_eq b :
  0 ≤ b < 256 → Z.land (Z.lor b CB_IRQ1_ENABLE) (bnot 8 CB_TRANSLATE) = configured_byte b.
Proof.
  intros Hb. apply Z.bits_inj'. intros i Hi. unfold configured_byte, CB_IRQ1_ENABLE, CB_TRANSLATE.
  rewrite Z.clearbit_eqb, Z.setbit_eqb, Z.land_spec, Z.lor_spec, bnot_spec, !testbit_shiftl_1 by lia.
  destruct (Z.leb_spec 0 i); [|lia]. destruct (Z.ltb_spec i 8) as [|H8].
  - cbn [andb]. by rewrite (orb_comm (Z.testbit b i)).
  - rewrite (testbit_high 8 b) by (done || lia). destruct (Z.eqb_spec 0 i); [lia|]. by rewrite andb_false_r.
Qed.

Lemma translated_byte_eq b : Z.lor (configured_byte b) CB_TRANSLATE = translated_byte b.
Proof. done. Qed.

Lemma configure_ok st (h : Hw D) :
  ∃ p h' b, configure st h = (p, set_command_byte b (set_presence p st), h') ∧
    (p = Keyboard ∨ p = Controller) ∧ 0 ≤ b < 256 ∧ adds (data_writes (config_writes b)) h h'.
Proof.
  unfold configure, device_cmd_write.
  pose proof (fun vs => controller_cmd_adds vs CMD_DISABLE_PORT_1 h) as H1. destruct (controller_cmd _ h) as [ok1 h1]. cbn [snd] in H1.
  pose proof (fun vs => flush_adds vs h1) as H2. set (h2 := flush_output h1) in *. clearbody h2.
  pose proof (fun vs => controller_cmd_adds vs CMD_READ_COMMAND_BYTE h2) as H3. destruct (controller_cmd _ h2) as [ok2 h3]. cbn [snd] in H3.
  pose proof (fun vs => proj1 (read_response_adds vs h3)) as H4. pose proof (proj2 (read_response_adds [] h3)) as Hb.
  destruct (read_response h3) as [r h4]. cbn [fst snd] in *.
  assert (0 ≤ default 0 r < 256) as Hb' by (destruct r; cbn; [by apply Hb|lia]). set (b := default 0 r) in *. clearbody b.
  pose proof (fun vs => controller_cmd_adds vs CMD_TEST_PORT_1 h4) as H5. destruct (controller_cmd _ h4) as [ok3 h5]. cbn [snd] in H5.
  pose proof (fun vs => proj1 (read_response_adds vs h5)) as H6. destruct (read_response h5) as [r' h6]. cbn [snd] in H6.
  rewrite (configured_byte_eq b Hb'), translated_byte_eq.
  pose proof (fun vs => controller_cmd_adds vs CMD_WRITE_COMMAND_BYTE h6) as H7. destruct (controller_cmd _ h6) as [ok4 h7]. cbn [snd] in H7.
  pose proof (device_cmd_adds (configured_byte b) h7) as H8. destruct (device_cmd _ h7) as [ok5 h8]. cbn [snd] in H8.
  pose proof (device_cmd_adds DEV_SET_SCANCODE_SET h8) as H9. destruct (device_cmd _ h8) as [ok6 h9]. cbn [snd] in H9.
  pose proof (fun vs => proj1 (read_response_adds vs h9)) as H10. destruct (read_response h9) as [ack h10]. cbn [snd] in H10.
  pose proof (device_cmd_adds 0x01 h10) as H11. destruct (device_cmd _ h10) as [ok7 h11]. cbn [snd] in H11.
  pose proof (fun vs => proj1 (read_response_adds vs h11)) as H12. destruct (read_response h11) as [ack2 h12]. cbn [snd] in H12.
  match goal with |- context [if ?c then h12 else ?e] => set (h13 := if c then h12 else e) end.
  assert (adds (data_writes (config_writes b)) h12 h13) as H13.
  { unfold h13. destruct (_ && _)%bool; [reflexivity|].
    pose proof (controller_cmd_adds (config_writes b) CMD_WRITE_COMMAND_BYTE h12) as HA. destruct (controller_cmd _ h12) as [ok8 hA].
    pose proof (device_cmd_adds (translated_byte b) hA) as HB. destruct (device_cmd _ hA) as [ok9 hB].
    cbn [snd] in *. etrans; [exact HA|]. eapply adds_weaken; [|exact HB]. unfold config_writes. set_solver. }
  clearbody h13.
  pose proof (fun vs => controller_cmd_adds vs CMD_ENABLE_PORT_1 h13) as H14. destruct (controller_cmd _ h13) as [ok10 h14]. cbn [snd] in H14.
  exists (if bool_decide (r' = Some 0) then Keyboard else Controller), (flush_output h14), b.
  split; [done|]. split; [case_bool_decide; auto|]. split; [done|].
  assert (∀ v (x y : Hw D), v ∈ config_writes b → adds (data_writes [v]) x y → adds (data_writes (config_writes b)) x y) as Hw.
  { intros v x y Hv. apply adds_weaken. intros z ->%list_elem_of_singleton. done. }
  assert (configured_byte b ∈ config_writes b ∧ DEV_SET_SCANCODE_SET ∈ config_writes b ∧ 0x01 ∈ config_writes b)
    as (W1 & W2 & W3) by (unfold config_writes; set_solver).
  etrans; [apply H1|]. etrans; [apply H2|]. etrans; [apply H3|]. etrans; [apply H4|]. etrans; [apply H5|].
  etrans; [apply H6|]. etrans; [apply H7|]. etrans; [apply (Hw _ _ _ W1 H8)|]. etrans; [apply (Hw _ _ _ W2 H9)|].
  etrans; [apply H10|]. etrans; [apply (Hw _ _ _ W3 H11)|]. etrans; [apply H12|]. etrans; [apply H13|].
  etrans; [apply H14|]. apply flush_adds.
Qed.

Lemma spin_delay_adds vs micros (h : Hw D) :
  0 ≤ micros < 2 ^ 32 → ∃ h', spin_delay_us micros h = Ret h' ∧ adds (data_writes vs) h h'.
Proof.
  intros Hm. destruct (spin_delay_ok micros h Hm) as (h' & saved & polls & lo & hi & E & Hio & _).
  exists h'. split; [done|]. eexists. split; [exact Hio|].
  apply Forall_app. split; [repeat constructor; done|]. apply Forall_app. split; [|repeat constructor; done].
  apply list.Forall_forall. intros e Hin. apply list_elem_of_In, in_map_iff in Hin as (v & <- & _). done.
Qed.

Lemma keyboard_init_ok st (h : Hw D) :
  ∃ p st' h', init st h = Ret (p, st', h') ∧ st'.(presence) = p ∧ p ≠ Unknown ∧ mods_of st' = mods_of st ∧
    st'.(extended) = st.(extended) ∧ st'.(pause_prefix) = st.(pause_prefix) ∧ st'.(events) = st.(events) ∧
    (if decide (p = Absent)
     then st'.(command_byte) = st.(command_byte) ∧ adds (data_writes []) h h'
     else 0 ≤ st'.(command_byte) < 256 ∧ adds (data_writes (config_writes st'.(command_byte))) h h').
Proof.
  unfold init. pose proof (fun vs => flush_adds vs h) as H1. set (h1 := flush_output h) in *. clearbody h1.
  pose proof (fun vs => controller_cmd_adds vs CMD_SELF_TEST h1) as H2. destruct (controller_cmd _ h1) as [ok h2]. cbn [snd] in H2.
  assert (∀ vs, adds (data_writes vs) h h2) as H02 by (intros vs; etrans; [apply H1|apply H2]).
  assert (∀ h' : Hw D, (∀ vs, adds (data_writes vs) h h') →
    ∃ p st' h'', Ret (absent st h') = Ret (p, st', h'') ∧ st'.(presence) = p ∧ p ≠ Unknown ∧ mods_of st' = mods_of st ∧
    st'.(extended) = st.(extended) ∧ st'.(pause_prefix) = st.(pause_prefix) ∧ st'.(events) = st.(events) ∧
    (if decide (p = Absent)
     then st'.(command_byte) = st.(command_byte) ∧ adds (data_writes []) h h''
     else 0 ≤ st'.(command_byte) < 256 ∧ adds (data_writes (config_writes st'.(command_byte))) h h'')) as Habs.
  { intros h' Hh. eexists _, _, _. split; [reflexivity|]. split; [done|]. split; [done|]. split; [done|].
    split; [done|]. split; [done|]. split; [done|]. destruct (decide (Absent = Absent)); [|done]. split; [done|apply Hh]. }
  destruct ok; cbn [negb]; [|by apply Habs].
  destruct (spin_delay_adds [] 100 h2) as (h3 & E3 & _); [lia|]. rewrite E3. cbn [mbind Res_bind].
  assert (∀ vs, adds (data_writes vs) h h3) as H03.
  { intros vs. destruct (spin_delay_adds vs 100 h2) as (h3' & E3' & H3); [lia|]. rewrite E3 in E3'. injection E3' as <-.
    etrans; [apply H02|exact H3]. }
  pose proof (fun vs => proj1 (read_response_adds vs h3)) as H4. destruct (read_response h3) as [r h4]. cbn [snd] in H4.
  assert (∀ vs, adds (data_writes vs) h h4) as H04 by (intros vs; etrans; [apply H03|apply H4]).
  destruct r as [v|]; [|by apply Habs]. destruct (v =? 0x55); [|by apply Habs].
  destruct (configure_ok st h4) as (p & h5 & b & -> & Hp & Hb & H5). eexists _, _, _. split; [reflexivity|].
  cbn [presence set_command_byte set_presence command_byte]. split; [done|]. split; [by destruct Hp as [-> | ->]|].
  split; [done|]. split; [done|]. split; [done|]. split; [done|].
  destruct (decide (p = Absent)) as [->|_]; [by destruct Hp|]. split; [done|]. etrans; [apply H04|exact H5].
Qed.

(** *** The conversation with the controller *)

Definition chan (port : Z) : bool := (port =? PORT_STATUS) || (port =? PORT_DATA).

(** The byte the controller answers before it is written to again. *)
Fixpoint reply (l : list pevent) : option Z :=
  match l with
  | [] => None
  | PIn p v :: l' => if p =? PORT_DATA then Some v else reply l'
  | POut p _ :: l' => if chan p then None else reply l'
  end.

(** What a log says to the controller, each byte with its port and the answer. *)
Fixpoint talk (l : list pevent) : list (Z * Z * option Z) :=
  match l with
  | [] => []
  | PIn _ _ :: l' => talk l'
  | POut p v :: l' => if chan p then (p, v, reply l') :: talk l' else talk l'
  end.

Definition view (l : list pevent) : option Z * list (Z * Z * option Z) := (reply l, talk l).

(** Going from [h] to [h'] puts [f] in front of the conversation that follows. *)
Definition acts (f : option Z * list (Z * Z * option Z) → option Z * list (Z * Z * option Z)) (h h' : Hw D) : Prop :=
  ∃ l, io h' = io h ++ l ∧ ∀ l', view (l ++ l') = f (view l').

Lemma acts_trans f g h1 h2 h3 : acts f h1 h2 → acts g h2 h3 → acts (fun v => f (g v)) h1 h3.
Proof.
  intros (l1 & E1 & H1) (l2 & E2 & H2). exists (l1 ++ l2). rewrite E2, E1, <- app_assoc. split; [done|].
  intros l'. by rewrite <- app_assoc, H1, H2.
Qed.

(** Events that are no part of it. *)
Definition silent (e : pevent) : Prop :=
  match e with POut p _ => chan p = false | PIn p _ => p ≠ PORT_DATA end.

Lemma silent_view s l : Forall silent s → view (s ++ l) = view l.
Proof.
  induction 1 as [|[p v|p v] s Hs _ IH]; cbn [app]; [done|..]; unfold view in *; cbn [reply talk silent] in *.
  - destruct (Z.eqb_spec p PORT_DATA); [done|]. exact IH.
  - rewrite Hs. exact IH.
Qed.

Lemma silent_acts h h' : adds silent h h' → acts id h h'.
Proof. intros (l & E & Hl). exists l. split; [done|]. intros l'. by apply silent_view. Qed.

Lemma poll_silent ok n (h : Hw D) : adds silent h (poll_status ok n h).2.
Proof.
  revert h. induction n as [|n IH]; intros h; cbn [poll_status]; [reflexivity|].
  pose proof (adds_inb silent PORT_STATUS h ltac:(done)) as H. destruct (inb PORT_STATUS h) as [s h1].
  cbn [snd] in H. destruct (ok s); [done|]. by etrans; [|apply IH].
Qed.

Definition say (port v : Z) (c : option Z * list (Z * Z * option Z)) : option Z * list (Z * Z * option Z) :=
  (None, (port, v, c.1) :: c.2).

Lemma out_acts port v (h : Hw D) : chan port = true → acts (say port v) h (outb port v h).
Proof. intros Hc. exists [POut port v]. split; [apply io_outb|]. intros l'. unfold view, say. cbn. by rewrite Hc. Qed.

(** The controller empties its input buffer before the driver gives up. *)
Definition responsive : Prop := ∀ h : Hw D, (wait_input_empty h).1 = true.

Lemma controller_cmd_acts cmd (h : Hw D) :
  acts (if (controller_cmd cmd h).1 then say PORT_STATUS cmd else id) h (controller_cmd cmd h).2 ∧
  (responsive → (controller_cmd cmd h).1 = true).
Proof.
  unfold controller_cmd. pose proof (poll_silent (fun s => Z.land s ST_IN_BUFFER_FULL =? 0) (Z.to_nat POLL_LIMIT) h) as H.
  fold (wait_input_empty h) in H. pose proof (fun R : responsive => R h) as HR.
  destruct (wait_input_empty h) as [[] h1]; cbn [negb fst snd] in *; (split; [|exact HR]).
  - eapply (acts_trans id (say PORT_STATUS cmd)); [by apply silent_acts|by apply out_acts].
  - by apply silent_acts.
Qed.

Lemma device_cmd_acts cmd (h : Hw D) :
  acts (if (device_cmd cmd h).1 then say PORT_DATA cmd else id) h (device_cmd cmd h).2 ∧
  (responsive → (device_cmd cmd h).1 = true).
Proof.
  unfold device_cmd. pose proof (poll_silent (fun s => Z.land s ST_IN_BUFFER_FULL =? 0) (Z.to_nat POLL_LIMIT) h) as H.
  fold (wait_input_empty h) in H. pose proof (fun R : responsive => R h) as HR.
  destruct (wait_input_empty h) as [[] h1]; cbn [negb fst snd] in *; (split; [|exact HR]).
  - eapply (acts_trans id (say PORT_DATA cmd)); [by apply silent_acts|by apply out_acts].
  - by apply silent_acts.
Qed.

(** An answer [r], or none within the poll limit. *)
Definition hear (r : option Z) (c : option Z * list (Z * Z * option Z)) : option Z * list (Z * Z * option Z) :=
  (match r with Some v => Some v | None => c.1 end, c.2).

Lemma read_response_acts (h : Hw D) : acts (hear (read_response h).1) h (read_response h).2.
Proof.
  unfold read_response. pose proof (poll_silent (fun s => has s ST_OUT_BUFFER_FULL) (Z.to_nat POLL_LIMIT) h) as H.
  fold (wait_output_full h) in H. destruct (wait_output_full h) as [[] h1]; cbn [negb fst snd] in *.
  - pose proof (io_inb PORT_DATA h1) as E. destruct (inb PORT_DATA h1) as [v h2]. cbn [fst snd] in *.
    eapply (acts_trans id (hear (Some v))); [by apply silent_acts|]. exists [PIn PORT_DATA v]. by split.
  - exact (silent_acts _ _ H).
Qed.

Lemma flush_acts (h : Hw D) : ∃ r, acts (hear r) h (flush_output h).
Proof.
  destruct (flush_fuel_io 32 h) as (l & E & _ & Hw). unfold flush_output.
  assert (∃ r, ∀ l', view (l ++ l') = hear r (view l')) as [r Hr]; [|by exists r, l].
  clear E h. induction l as [|[p v|p v] l IH]; [by exists None|..].
  - destruct IH as [r IH]; [exact Hw|]. unfold view, hear in *. cbn [app reply talk fst snd] in *.
    destruct (p =? PORT_DATA); [exists (Some v)|exists r]; intros l'; specialize (IH l'); congruence.
  - specialize (Hw p). cbn [writes_to] in Hw. by rewrite Z.eqb_refl in Hw.
Qed.

Lemma spin_acts micros (h h' : Hw D) : 0 ≤ micros < 2 ^ 32 → spin_delay_us micros h = Ret h' → acts id h h'.
Proof.
  intros Hm E. destruct (spin_delay_ok micros h Hm) as (h2 & saved & polls & lo & hi & E2 & Hio & _).
  rewrite E in E2. injection E2 as <-. apply silent_acts. eexists. split; [exact Hio|].
  apply Forall_app. split; [repeat constructor; done|]. apply Forall_app. split; [|repeat constructor; done].
  apply list.Forall_forall. intros e Hin. apply list_elem_of_In, in_map_iff in Hin as (v & <- & _). done.
Qed.

(** What [init] says once the self-test has passed, to a controller that
    answers [x] to the disabling of port 1, [r] to the request for its command
    byte, [t] to the interface test, [a1] and [a2] to the request for set 1 and [y]
    to the enabling of port 1. *)
Definition configuration (x r t a1 a2 y : option Z) : list (Z * Z * option Z) :=
  let b := default 0 r in
  [(PORT_STATUS, CMD_DISABLE_PORT_1, x); (PORT_STATUS, CMD_READ_COMMAND_BYTE, r); (PORT_STATUS, CMD_TEST_PORT_1, t);
   (PORT_STATUS, CMD_WRITE_COMMAND_BYTE, None); (PORT_DATA, configured_byte b, None);
   (PORT_DATA, DEV_SET_SCANCODE_SET, a1); (PORT_DATA, 0x01, a2)]
  ++ (if decide (a1 = Some 0xFA ∧ a2 = Some 0xFA) then []
      else [(PORT_STATUS, CMD_WRITE_COMMAND_BYTE, None); (PORT_DATA, translated_byte b, None)])
  ++ [(PORT_STATUS, CMD_ENABLE_PORT_1, y)].

Lemma configure_acts st (h : Hw D) :
  ∃ p b h' f, configure st h = (p, set_command_byte b (set_presence p st), h') ∧ acts f h h' ∧
    (responsive → ∃ x r t a1 a2 y, f (None, []) = (None, configuration x r t a1 a2 y) ∧ b = default 0 r ∧
       p = if decide (t = Some 0) then Keyboard else Controller).
Proof.
  unfold configure, device_cmd_write.
  destruct (controller_cmd_acts CMD_DISABLE_PORT_1 h) as [H1 R1]. destruct (controller_cmd _ h) as [ok1 h1]. cbn [fst snd] in H1, R1.
  destruct (flush_acts h1) as [x H2]. set (h2 := flush_output h1) in *. clearbody h2.
  destruct (controller_cmd_acts CMD_READ_COMMAND_BYTE h2) as [H3 R3]. destruct (controller_cmd _ h2) as [ok2 h3]. cbn [fst snd] in H3, R3.
  pose proof (read_response_acts h3) as H4. pose proof (proj2 (read_response_adds [] h3)) as Hb.
  destruct (read_response h3) as [r h4]. cbn [fst snd] in *.
  destruct (controller_cmd_acts CMD_TEST_PORT_1 h4) as [H5 R5]. destruct (controller_cmd _ h4) as [ok3 h5]. cbn [fst snd] in H5, R5.
  pose proof (read_response_acts h5) as H6. destruct (read_response h5) as [t h6]. cbn [fst snd] in H6.
  rewrite configured_byte_eq, translated_byte_eq by (destruct r; cbn; [by apply Hb|lia]).
  destruct (controller_cmd_acts CMD_WRITE_COMMAND_BYTE h6) as [H7 R7]. destruct (controller_cmd _ h6) as [ok4 h7]. cbn [fst snd] in H7, R7.
  destruct (device_cmd_acts (configured_byte (default 0 r)) h7) as [H8 R8]. destruct (device_cmd _ h7) as [ok5 h8]. cbn [fst snd] in H8, R8.
  destruct (device_cmd_acts DEV_SET_SCANCODE_SET h8) as [H9 R9]. destruct (device_cmd _ h8) as [ok6 h9]. cbn [fst snd] in H9, R9.
  pose proof (read_response_acts h9) as H10. destruct (read_response h9) as [a1 h10]. cbn [fst snd] in H10.
  destruct (device_cmd_acts 0x01 h10) as [H11 R11]. destruct (device_cmd _ h10) as [ok7 h11]. cbn [fst snd] in H11, R11.
  pose proof (read_response_acts h11) as H12. destruct (read_response h11) as [a2 h12]. cbn [fst snd] in H12.
  match goal with |- context [if ?c then h12 else ?e] => set (h13 := if c then h12 else e) end.
  assert (∃ g, acts g h12 h13 ∧ (responsive → ∀ c, g c = if decide (a1 = Some 0xFA ∧ a2 = Some 0xFA) then c
    else say PORT_STATUS CMD_WRITE_COMMAND_BYTE (say PORT_DATA (translated_byte (default 0 r)) c))) as (g & H13 & R13).
  { unfold h13. destruct (decide (a1 = Some 0xFA ∧ a2 = Some 0xFA)) as [[-> ->]|Hn].
    - rewrite !bool_decide_eq_true_2 by done. exists id. split; [|done]. apply silent_acts. reflexivity.
    - replace (bool_decide (a1 = Some 0xFA) && bool_decide (a2 = Some 0xFA))%bool with false
        by (symmetry; apply andb_false_iff; rewrite !bool_decide_eq_false; destruct (decide (a1 = Some 0xFA)); tauto).
      destruct (controller_cmd_acts CMD_WRITE_COMMAND_BYTE h12) as [HA RA]. destruct (controller_cmd _ h12) as [ok8 hA]. cbn [fst snd] in HA, RA.
      destruct (device_cmd_acts (translated_byte (default 0 r)) hA) as [HB RB]. destruct (device_cmd _ hA) as [ok9 hB]. cbn [fst snd] in HB, RB.
      eexists. split; [exact (acts_trans _ _ _ _ _ HA HB)|]. intros R c. by rewrite (RA R), (RB R). }
  clearbody h13.
  destruct (controller_cmd_acts CMD_ENABLE_PORT_1 h13) as [H14 R14]. destruct (controller_cmd _ h13) as [ok10 h14]. cbn [fst snd] in H14, R14.
  destruct (flush_acts h14) as [y H15].
  eexists _, _, _, _. split; [reflexivity|]. split.
  { exact (acts_trans _ _ _ _ _ H1 (acts_trans _ _ _ _ _ H2 (acts_trans _ _ _ _ _ H3 (acts_trans _ _ _ _ _ H4
      (acts_trans _ _ _ _ _ H5 (acts_trans _ _ _ _ _ H6 (acts_trans _ _ _ _ _ H7 (acts_trans _ _ _ _ _ H8
      (acts_trans _ _ _ _ _ H9 (acts_trans _ _ _ _ _ H10 (acts_trans _ _ _ _ _ H11 (acts_trans _ _ _ _ _ H12
      (acts_trans _ _ _ _ _ H13 (acts_trans _ _ _ _ _ H14 H15)))))))))))))). }
  intros R. exists x, r, t, a1, a2, y. rewrite (R1 R), (R3 R), (R5 R), (R7 R), (R8 R), (R9 R), (R11 R), (R14 R), !(R13 R).
  unfold configuration. split; [|split; [done|by destruct (decide (t = Some 0)) as [->|]; case_bool_decide]].
  destruct (decide _) as [[-> ->]|]; unfold say, hear; cbn [fst snd app]; destruct x, r, t, y; cbn; try done.
  all: by destruct a1, a2.
Qed.

Lemma init_acts st (h : Hw D) :
  ∃ p st' h' l, init st h = Ret (p, st', h') ∧ io h' = io h ++ l ∧
    ((p = Absent ∧ (talk l = [] ∨ ∃ r, talk l = [(PORT_STATUS, CMD_SELF_TEST, r)] ∧ r ≠ Some 0x55)) ∨
     (p ≠ Absent ∧ head (talk l) = Some (PORT_STATUS, CMD_SELF_TEST, Some 0x55) ∧
      (responsive → ∃ x r t a1 a2 y, tail (talk l) = configuration x r t a1 a2 y ∧ st'.(command_byte) = default 0 r ∧
         p = if decide (t = Some 0) then Keyboard else Controller))).
Proof.
  unfold init. destruct (flush_acts h) as [z H1]. set (h1 := flush_output h) in *. clearbody h1.
  destruct (controller_cmd_acts CMD_SELF_TEST h1) as [H2 _]. destruct (controller_cmd _ h1) as [ok h2]. cbn [fst snd] in H2.
  pose proof (acts_trans _ _ _ _ _ H1 H2) as H02.
  destruct ok; cbn [negb].
  2:{ destruct H02 as (l & E & V). eexists _, _, _, l. split; [reflexivity|]. split; [exact E|]. left. split; [done|]. left.
      specialize (V []). rewrite app_nil_r in V. by injection V. }
  destruct (spin_delay_adds [] 100 h2) as (h3 & E3 & _); [lia|]. rewrite E3. cbn [mbind Res_bind].
  pose proof (acts_trans _ _ _ _ _ H02 (spin_acts 100 h2 h3 ltac:(lia) E3)) as H03.
  pose proof (read_response_acts h3) as H4. destruct (read_response h3) as [r h4]. cbn [fst snd] in H4.
  pose proof (acts_trans _ _ _ _ _ H03 H4) as H04.
  assert (r ≠ Some 0x55 → ∃ p st' h' l, Ret (absent st h4) = Ret (p, st', h') ∧ io h' = io h ++ l ∧
    p = Absent ∧ talk l = [(PORT_STATUS, CMD_SELF_TEST, r)]) as Habs.
  { intros _. destruct H04 as (l & E & V). eexists _, _, _, l. split; [reflexivity|]. split; [exact E|]. split; [done|].
    specialize (V []). rewrite app_nil_r in V. injection V as _ ->. by destruct r. }
  assert (r = Some 0x55 ∨ r ≠ Some 0x55) as [->|Hr] by (destruct (decide (r = Some 0x55)); auto).
  - cbn [Z.eqb Pos.eqb]. destruct (configure_acts st h4) as (p & b & h5 & f & E & H5 & R).
    pose proof (configure_ok st h4) as (p2 & h52 & b2 & E' & Hp & _). rewrite E in E'. injection E' as <- Eb _.
    rewrite E. pose proof (acts_trans _ _ _ _ _ H04 H5) as (l & El & V). specialize (V []). rewrite app_nil_r in V.
    unfold view in V. cbn [say hear fst snd id] in V. injection V as _ V.
    eexists _, _, _, l. split; [reflexivity|]. split; [exact El|]. right. split; [by destruct Hp as [-> | ->]|].
    rewrite V. split; [done|]. intros Hresp. destruct (R Hresp) as (x & r & t & a1 & a2 & y & Hf & Hb & Hpp).
    exists x, r, t, a1, a2, y. cbn [tail]. change (reply [], talk []) with (@None Z, @nil (Z * Z * option Z)).
    rewrite Hf. done.
  - destruct (Habs Hr) as (p & st' & h' & l & E & El & Hp & Ht).
    exists p, st', h', l. split; [|split; [exact El|left; split; [exact Hp|right; by exists r]]].
    rewrite <- E. destruct r as [v|]; [|done]. destruct (Z.eqb_spec v 0x55) as [->|]; [congruence|done].
Qed.

(** C33: [init] returns on every machine, with or without a PS/2 controller, and
    leaves the decoder's state alone.  It records [Absent] exactly when the
    self-test command is not taken or not answered by 0x55, and then has said
    nothing else and keeps the old command byte.  Otherwise the only bytes it
    sends to the data port are the recorded command byte with IRQ1 enabled and
    translation off, the request for scancode set 1, and that byte with
    translation on.  With a controller that always takes the next byte before the
    poll limit, the whole conversation is fixed by its answers: the recorded
    command byte is the one it answered to the request for it (0 without answer),
    translation is turned on again exactly when one of the two bytes of the
    request for set 1 is not acknowledged by 0xFA, and a keyboard is present
    exactly when the interface test answered 0. *)
Theorem keyboard_init_total st (h : Hw D) :
  ∃ p st' h' l, init st h = Ret (p, st', h') ∧ io h' = io h ++ l ∧ st'.(presence) = p ∧ mods_of st' = mods_of st ∧
    st'.(extended) = st.(extended) ∧ st'.(pause_prefix) = st.(pause_prefix) ∧
    (p = Absent ↔ head (talk l) ≠ Some (PORT_STATUS, CMD_SELF_TEST, Some 0x55)) ∧
    (p = Absent → st'.(command_byte) = st.(command_byte) ∧
       (talk l = [] ∨ ∃ r, talk l = [(PORT_STATUS, CMD_SELF_TEST, r)])) ∧
    (p ≠ Absent → adds (data_writes (config_writes st'.(command_byte))) h h') ∧
    (responsive → p ≠ Absent → ∃ x r t a1 a2 y, tail (talk l) = configuration x r t a1 a2 y ∧
       st'.(command_byte) = default 0 r ∧ p = if decide (t = Some 0) then Keyboard else Controller).
Proof.
  destruct (keyboard_init_ok st h) as (p & st' & h' & E & H1 & H2 & H3 & H4 & H5 & _ & H6).
  destruct (init_acts st h) as (p2 & st2 & h2 & l & E' & El & Ht). rewrite E in E'. injection E' as <- <- <-.
  exists p, st', h', l. split; [done|]. split; [done|]. split; [done|]. split; [done|]. split; [done|]. split; [done|].
  destruct Ht as [[-> Ht]|(Hp & Ht & R)].
  - destruct (decide (Absent = Absent)); [|done]. destruct H6 as [H6 _].
    split; [split; [intros _; destruct Ht as [->|(r & -> & Hr)]; [done|cbn [head]; congruence]|done]|].
    split; [intros _; split; [done|]; destruct Ht as [->|(r & -> & _)]; eauto|]. done.
  - destruct (decide (p = Absent)); [done|]. split; [split; [done|intros Hn; by destruct Hn]|]. split; [done|].
    split; [intros _; apply H6|]. intros HR _. by apply R.
Qed.

End Init.

(** A controller with a keyboard that knows set 1, for the witness: it always
    has the answer to the last byte it was sent. *)
Definition ps2_answer (port v : Z) : Z :=
  if port =? PORT_DATA then 0xFA
  else if v =? CMD_SELF_TEST then 0x55 else if v =? CMD_READ_COMMAND_BYTE then 0x65 else 0.

#[refine] Definition ps2_bus : Bus Z := {|
  bus_in p d := if p =? PORT_STATUS then (ST_OUT_BUFFER_FULL, d) else if p =? 0x61 then (0x20, d) else (d mod 256, d);
  bus_out p v d := if chan p then ps2_answer p v else d;
|}.
Proof.
  intros p d. destruct (p =? PORT_STATUS); [by vm_compute|]. destruct (p =? 0x61); [by vm_compute|].
  apply Z.mod_pos_bound. lia.
Defined.

Lemma ps2_responsive : @responsive Z ps2_bus.
Proof. intros h. unfold wait_input_empty. destruct (Z.to_nat POLL_LIMIT) eqn:E; [unfold POLL_LIMIT in E; lia|done]. Qed.

Lemma keyboard_init_total_witness :
  ∃ p st' h' l, @init Z ps2_bus State_initial (mkHw 0 []) = Ret (p, st', h') ∧ io h' = l ∧ p = Keyboard ∧
    st'.(command_byte) = 0x65 ∧
    ∃ x r t a1 a2 y, tail (talk l) = configuration x r t a1 a2 y ∧ st'.(command_byte) = default 0 r.
Proof.
  destruct (@keyboard_init_total Z ps2_bus State_initial (mkHw 0 [])) as (p & st' & h' & l & E & El & _ & _ & _ & _ & _ & _ & _ & R).
  assert (@init Z ps2_bus State_initial (mkHw 0 []) = Ret (p, st', h')) as E' by exact E.
  vm_compute in E'. injection E' as E1 E2 _.
  assert (st'.(command_byte) = 0x65) as Hc by exact (f_equal command_byte (eq_sym E2)).
  exists p, st', h', l. split; [exact E|]. split; [exact El|]. split; [exact (eq_sym E1)|]. split; [exact Hc|].
  destruct R as (x & r & t & a1 & a2 & y & H1 & H2 & _); [exact ps2_responsive|intros Hp; rewrite Hp in E1; discriminate E1|].
  exists x, r, t, a1, a2, y. split; [exact H1|exact H2].
Defined.
