(* ===== verification/Vga.v ===== *)
(** * The VGA text console (kernel/src/console/vga.rs)

    The 80x25 text buffer at 0xB8000 is a list of 2000 cells (character and
    attribute); [write_cell] and [read_cell] check the index that the [unsafe]
    pointer arithmetic of the source relies on, so a theorem that the writer never
    panics is the proof of that safety contract.  The CRT controller's cursor
    registers are ports of the [Bus]. *)

From stdpp Require Import base list list_numbers strings.
From Stdlib Require Import ZArith Lia.
From S2P Require Import Prelude Ports.
#[local] Open Scope Z_scope.

Definition WIDTH : Z := 80.
Definition HEIGHT : Z := 25.

Inductive Color : Type :=
  | Black | Blue | Green | Cyan | Red | Magenta | Brown | LightGray
  | DarkGray | LightBlue | LightGreen | LightCyan | LightRed | Pink | Yellow | White.

Definition color_code (c : Color) : Z :=
  match c with
  | Black => 0 | Blue => 1 | Green => 2 | Cyan => 3 | Red => 4 | Magenta => 5 | Brown => 6 | LightGray => 7
  | DarkGray => 8 | LightBlue => 9 | LightGreen => 10 | LightCyan => 11 | LightRed => 12 | Pink => 13
  | Yellow => 14 | White => 15
  end.

(** [ColorCode::new] *)
Definition ColorCode_new (fg bg : Color) : Z := Z.lor (Z.shiftl (color_code bg) 4) (color_code fg).

Record Cell : Type := mkCell { ascii : Z; attr : Z }.
#[export] Instance Cell_inhabited : Inhabited Cell := populate (mkCell 0 0).

Record VgaWriter : Type := mkVga { column : Z; row : Z; color : Z }.

Definition VgaWriter_new : VgaWriter := mkVga 0 0 (ColorCode_new LightGray Black).

(** The writer, the text buffer and the ports. *)
Record Console (D : Type) : Type := mkConsole { writer : VgaWriter; cells : list Cell; hw : Hw D }.
Arguments mkConsole {D} _ _ _.
Arguments writer {D} _.
Arguments cells {D} _.
Arguments hw {D} _.

Section Vga.
Context {D : Type} `{B : Bus D}.
Abbreviation C := (Console D).

Definition set_writer (w : VgaWriter) (s : C) : C := mkConsole w s.(cells) s.(hw).
Definition set_cells (l : list Cell) (s : C) : C := mkConsole s.(writer) l s.(hw).
Definition set_cursor (r c : Z) (s : C) : C := set_writer (mkVga c r s.(writer).(color)) s.

Definition write_cell (index a col : Z) (s : C) : Res C :=
  l ← lset s.(cells) index (mkCell a col); Ret (set_cells l s).

Definition read_cell (index : Z) (s : C) : Res Z := c ← lget s.(cells) index; Ret c.(ascii).

Definition set_color (fg bg : Color) (s : C) : C :=
  set_writer (mkVga s.(writer).(column) s.(writer).(row) (ColorCode_new fg bg)) s.

(** [(self.row * WIDTH + self.column) as u16], low byte then high byte. *)
Definition update_hw_cursor (s : C) : C :=
  let pos := (s.(writer).(row) * WIDTH + s.(writer).(column)) mod 2 ^ 16 in
  let h := outb 0x3D4 0x0F s.(hw) in
  let h := outb 0x3D5 (Z.land pos 0xFF) h in
  let h := outb 0x3D4 0x0E h in
  let h := outb 0x3D5 (Z.land (Z.shiftr pos 8) 0xFF) h in
  mkConsole s.(writer) s.(cells) h.

Definition clear_screen (s : C) : Res C :=
  s ← for_range 0 (WIDTH * HEIGHT) s (fun i s => write_cell i 0x20 s.(writer).(color) s);
  Ret (set_cursor 0 0 s).

Definition init (s : C) : Res C := s ← clear_screen s; Ret (update_hw_cursor s).

Definition clear_line (r : Z) (s : C) : Res C :=
  if HEIGHT <=? r then Ret s
  else for_range 0 WIDTH s (fun c s => write_cell (r * WIDTH + c) 0x20 s.(writer).(color) s).

Definition scroll_row (r : Z) (s : C) : Res C :=
  for_range 0 WIDTH s (fun c s =>
    ch ← read_cell (r * WIDTH + c) s;
    write_cell ((r - 1) * WIDTH + c) ch s.(writer).(color) s).

Definition scroll_up (s : C) : Res C :=
  s ← for_range 1 HEIGHT s scroll_row;
  clear_line (HEIGHT - 1) s.

Definition new_line (s : C) : Res C :=
  let s := set_cursor s.(writer).(row) 0 s in
  s ← (if s.(writer).(row) <? HEIGHT - 1 then Ret (set_cursor (s.(writer).(row) + 1) 0 s) else scroll_up s);
  Ret (update_hw_cursor s).

Definition put (a : Z) (s : C) : Res C :=
  s ← (if WIDTH <=? s.(writer).(column) then new_line s else Ret s);
  s ← write_cell (s.(writer).(row) * WIDTH + s.(writer).(column)) a s.(writer).(color) s;
  Ret (update_hw_cursor (set_cursor s.(writer).(row) (s.(writer).(column) + 1) s)).

(** The end of [backspace]. *)
Definition erase (s : C) : Res C :=
  s ← write_cell (s.(writer).(row) * WIDTH + s.(writer).(column)) 0x20 s.(writer).(color) s;
  Ret (update_hw_cursor s).

Definition backspace (s : C) : Res C :=
  if 0 <? s.(writer).(column) then erase (set_cursor s.(writer).(row) (s.(writer).(column) - 1) s)
  else if 0 <? s.(writer).(row) then erase (set_cursor (s.(writer).(row) - 1) (WIDTH - 1) s)
  else Ret s.

Definition write_byte (b : Z) (s : C) : Res C :=
  if b =? 0x0A then new_line s
  else if b =? 0x0D then Ret (set_cursor s.(writer).(row) 0 s)
  else if b =? 0x08 then backspace s
  else if b =? 0x09 then
    let next := Z.land (s.(writer).(column) + 8) (bnot 64 7) in
    Ret (set_cursor s.(writer).(row) (Z.min next (WIDTH - 1)) s)
  else if (b <? 0x20) || (b =? 0x7F) then
    s ← put 0x5E s;
    put ((b + 0x40) mod 256) s
  else put b s.

(** [write_str]: bytes that are not ASCII become question marks. *)
Definition write_str (bs : list Z) (s : C) : Res C :=
  for_list bs s (fun b s => write_byte (if b <? 128 then b else 0x3F) s).

Definition position (s : C) : Z * Z := (s.(writer).(row), s.(writer).(column)).

Definition put_at (r c a : Z) (s : C) : Res C :=
  if (r <? HEIGHT) && (c <? WIDTH) then write_cell (r * WIDTH + c) a s.(writer).(color) s else Ret s.

Definition read_row (r : Z) (s : C) : Res (list Z) :=
  if r <? HEIGHT then
    for_range 0 WIDTH (replicate 80 0x20) (fun c out => a ← read_cell (r * WIDTH + c) s; lset out c a)
  else Ret (replicate 80 0x20).

(** ** The invariant

    The buffer has 2000 cells and the cursor is on it, or just past the end of
    its row, where the next character wraps. *)

Definition vga_inv (s : C) : Prop :=
  length s.(cells) = 2000%nat ∧ 0 ≤ s.(writer).(row) < 25 ∧ 0 ≤ s.(writer).(column) ≤ 80.

(** The character and the attribute at a position. *)
Definition char_at (s : C) (r c : Z) : Z := (s.(cells) !!! Z.to_nat (r * 80 + c)).(ascii).
Definition attr_at (s : C) (r c : Z) : Z := (s.(cells) !!! Z.to_nat (r * 80 + c)).(attr).

Lemma write_cell_ok i a col s :
  length s.(cells) = 2000%nat → 0 ≤ i < 2000 →
  write_cell i a col s = Ret (set_cells (<[Z.to_nat i := mkCell a col]> s.(cells)) s).
Proof. intros Hl Hi. unfold write_cell. rewrite lset_ok by lia. done. Qed.

Lemma read_cell_ok i s :
  length s.(cells) = 2000%nat → 0 ≤ i < 2000 → read_cell i s = Ret (s.(cells) !!! Z.to_nat i).(ascii).
Proof.
  intros Hl Hi. unfold read_cell. destruct (lget_ok s.(cells) i) as [x Hx]; [lia|]. rewrite Hx. cbn [mbind Res_bind].
  apply lget_Ret in Hx as [_ Hx]. by rewrite (list_lookup_total_correct _ _ _ Hx).
Qed.

(** A loop that writes one cell per iteration: the cells of [f] below [n] have
    their new value, the others are untouched. *)
Definition painted (f : Z → Z) (new : Z → Cell) (n : Z) (l l' : list Cell) : Prop :=
  length l' = length l ∧
  (∀ i, 0 ≤ i < n → l' !!! Z.to_nat (f i) = new i) ∧
  (∀ j, 0 ≤ j → (∀ i, 0 ≤ i < n → f i ≠ j) → l' !!! Z.to_nat j = l !!! Z.to_nat j).

Lemma painted_0 f new l : painted f new 0 l l.
Proof. split; [done|]. split; [lia|done]. Qed.

Lemma painted_S f new n l l' :
  painted f new n l l' → 0 ≤ n → 0 ≤ f n < Z.of_nat (length l) → (∀ i, 0 ≤ i < n → 0 ≤ f i ∧ f i ≠ f n) →
  painted f new (n + 1) l (<[Z.to_nat (f n) := new n]> l').
Proof.
  intros (Hl & Hin & Hout) Hn Hf Hinj. split; [by rewrite length_insert|]. split.
  - intros i Hi. destruct (decide (i = n)) as [->|].
    + apply list_lookup_total_insert_eq. lia.
    + rewrite list_lookup_total_insert_ne; [apply Hin; lia|]. destruct (Hinj i); lia.
  - intros j Hj Hne. rewrite list_lookup_total_insert_ne.
    + apply Hout; [done|]. intros i Hi. apply Hne. lia.
    + specialize (Hne n). lia.
Qed.

Lemma clear_line_ok r s :
  length s.(cells) = 2000%nat → 0 ≤ r < 25 →
  ∃ l, clear_line r s = Ret (set_cells l s) ∧
       painted (fun c => r * 80 + c) (fun _ => mkCell 0x20 s.(writer).(color)) 80 s.(cells) l.
Proof.
  intros Hl Hr. unfold clear_line. destruct (Z.leb_spec HEIGHT r); [unfold HEIGHT in *; lia|].
  destruct (for_range_inv (fun n s' => s' = set_cells s'.(cells) s ∧
      painted (fun c => r * 80 + c) (fun _ => mkCell 0x20 s.(writer).(color)) n s.(cells) s'.(cells)) 0 WIDTH s
      (fun c s => write_cell (r * WIDTH + c) 0x20 s.(writer).(color) s)) as (s' & -> & Hs' & Hp).
  - unfold WIDTH. lia.
  - split; [by destruct s|apply painted_0].
  - intros n s1 Hn [Hs1 Hp]. unfold WIDTH in *. pose proof Hp as (Hl1 & _).
    rewrite write_cell_ok by lia. eexists. split; [reflexivity|]. split; [by rewrite Hs1|].
    assert (s1.(writer) = s.(writer)) as -> by (by rewrite Hs1).
    apply (painted_S (fun c => r * 80 + c) (fun _ => mkCell 0x20 s.(writer).(color))); [done|lia|lia|lia].
  - exists s'.(cells). rewrite <- Hs'. done.
Qed.

Lemma scroll_row_ok r s :
  length s.(cells) = 2000%nat → 1 ≤ r < 25 →
  ∃ l, scroll_row r s = Ret (set_cells l s) ∧
       painted (fun c => (r - 1) * 80 + c) (fun c => mkCell (char_at s r c) s.(writer).(color)) 80 s.(cells) l.
Proof.
  intros Hl Hr. unfold scroll_row.
  destruct (for_range_inv (fun n s' => s' = set_cells s'.(cells) s ∧
      painted (fun c => (r - 1) * 80 + c) (fun c => mkCell (char_at s r c) s.(writer).(color)) n s.(cells) s'.(cells))
      0 WIDTH s (fun c s => ch ← read_cell (r * WIDTH + c) s; write_cell ((r - 1) * WIDTH + c) ch s.(writer).(color) s))
    as (s' & -> & Hs' & Hp).
  - unfold WIDTH. lia.
  - split; [by destruct s|apply painted_0].
  - intros n s1 Hn [Hs1 Hp]. unfold WIDTH in *. pose proof Hp as (Hl1 & _ & Hout).
    rewrite read_cell_ok by lia. cbn [mbind Res_bind]. rewrite Hout by lia.
    rewrite write_cell_ok by lia. eexists. split; [reflexivity|]. split; [by rewrite Hs1|].
    assert (s1.(writer) = s.(writer)) as -> by (by rewrite Hs1).
    apply (painted_S (fun c => (r - 1) * 80 + c) (fun c => mkCell (char_at s r c) s.(writer).(color))); [done|lia|lia|lia].
  - exists s'.(cells). rewrite <- Hs'. done.
Qed.

(** The buffer [l] is the buffer of [s] moved up one row, blank below. *)
Definition scrolled (s : C) (l : list Cell) : Prop :=
  length l = 2000%nat ∧
  ∀ r c, 0 ≤ r < 25 → 0 ≤ c < 80 →
    l !!! Z.to_nat (r * 80 + c) =
      mkCell (if r =? 24 then 0x20 else char_at s (r + 1) c) s.(writer).(color).

Lemma scroll_up_ok s :
  length s.(cells) = 2000%nat → ∃ l, scroll_up s = Ret (set_cells l s) ∧ scrolled s l.
Proof.
  intros Hl. unfold scroll_up.
  destruct (for_range_inv (fun n s' => s' = set_cells s'.(cells) s ∧ length s'.(cells) = 2000%nat ∧
      ∀ r c, 0 ≤ r < 25 → 0 ≤ c < 80 → s'.(cells) !!! Z.to_nat (r * 80 + c) =
        if r <? n - 1 then mkCell (char_at s (r + 1) c) s.(writer).(color) else s.(cells) !!! Z.to_nat (r * 80 + c))
      1 HEIGHT s scroll_row) as (s1 & -> & Hs1 & Hl1 & Hc1).
  - unfold HEIGHT. lia.
  - split; [by destruct s|]. split; [done|]. intros r c Hr Hc. by destruct (Z.ltb_spec r (1 - 1)); [lia|].
  - intros n s1 Hn (Hs1 & Hl1 & Hc1). unfold HEIGHT in *.
    destruct (scroll_row_ok n s1 Hl1 Hn) as (l & -> & Hll & Hin & Hout). eexists. split; [reflexivity|].
    cbn [cells set_cells]. split; [by rewrite Hs1|]. split; [lia|]. intros r c Hr Hc.
    assert (s1.(writer) = s.(writer)) as Hw by (by rewrite Hs1).
    destruct (decide (r = n - 1)) as [->|Hne].
    + rewrite Hin by lia. unfold char_at. rewrite Hc1 by lia. rewrite Hw.
      destruct (Z.ltb_spec n (n - 1)), (Z.ltb_spec (n - 1) (n + 1 - 1)); try lia. by replace (n - 1 + 1) with n by lia.
    + rewrite Hout by lia. rewrite Hc1 by lia.
      destruct (Z.ltb_spec r (n - 1)), (Z.ltb_spec r (n + 1 - 1)); try lia; done.
  - cbn [mbind Res_bind]. unfold HEIGHT in *. change (25 - 1) with 24 in *.
    destruct (clear_line_ok 24 s1 Hl1 ltac:(lia)) as (l & -> & Hll & Hin & Hout).
    assert (s1.(writer) = s.(writer)) as Hw by (by rewrite Hs1).
    exists l. split; [by rewrite Hs1|]. split; [lia|]. intros r c Hr Hc. destruct (Z.eqb_spec r 24) as [->|Hne].
    + rewrite Hin by lia. by rewrite Hw.
    + rewrite Hout by lia. rewrite Hc1 by lia. by destruct (Z.ltb_spec r 24); [|lia].
Qed.

(** [init] blanks the screen and homes the cursor. *)
Lemma vga_init_ok s :
  length s.(cells) = 2000%nat →
  ∃ s', init s = Ret s' ∧ vga_inv s' ∧ s'.(writer).(row) = 0 ∧ s'.(writer).(column) = 0 ∧
    ∀ r c, 0 ≤ r < 25 → 0 ≤ c < 80 → char_at s' r c = 0x20.
Proof.
  intros Hl. unfold init, clear_screen, WIDTH, HEIGHT.
  destruct (for_range_inv (fun n s' => length s'.(cells) = 2000%nat ∧ ∀ i, 0 ≤ i < n → (s'.(cells) !!! Z.to_nat i).(ascii) = 0x20)
    0 (80 * 25) s (fun i s => write_cell i 0x20 s.(writer).(color) s)) as (s1 & -> & Hl1 & Hc1).
  - lia.
  - split; [done|lia].
  - intros i s' Hi [Hl' Hc']. rewrite write_cell_ok by (done || lia). eexists. split; [reflexivity|]. cbn [set_cells cells].
    split; [by rewrite length_insert|]. intros j Hj. destruct (decide (j = i)) as [->|].
    + by rewrite list_lookup_total_insert_eq by lia.
    + rewrite list_lookup_total_insert_ne by lia. apply Hc'. lia.
  - cbn [mbind Res_bind]. eexists. split; [reflexivity|]. split; [split; [done|cbn; lia]|]. split; [done|]. split; [done|].
    intros r c Hr Hc. unfold char_at. cbn. apply Hc1. lia.
Qed.

(** Everything but the ports and the buffer. *)
Lemma new_line_ok s :
  vga_inv s →
  ∃ s', new_line s = Ret s' ∧ vga_inv s' ∧ s'.(writer).(column) = 0 ∧ s'.(writer).(color) = s.(writer).(color) ∧
    if s.(writer).(row) <? 24
    then s'.(writer).(row) = s.(writer).(row) + 1 ∧ s'.(cells) = s.(cells)
    else s'.(writer).(row) = 24 ∧ scrolled s s'.(cells).
Proof.
  intros (Hl & Hr & Hc). unfold new_line, HEIGHT. cbn [set_cursor set_writer writer row].
  change (25 - 1) with 24. destruct (Z.ltb_spec s.(writer).(row) 24).
  - cbn [mbind Res_bind]. eexists. split; [reflexivity|]. split; [split; [done|]; cbn; lia|]. done.
  - destruct (scroll_up_ok (set_cursor s.(writer).(row) 0 s) Hl) as (l & -> & Hs). cbn [mbind Res_bind].
    eexists. split; [reflexivity|]. destruct Hs as (Hlen & Hcells). split; [split; [done|]; cbn; lia|].
    split; [done|]. split; [done|]. split; [cbn; lia|]. by split.
Qed.

Lemma put_ok a s :
  vga_inv s →
  ∃ s', put a s = Ret s' ∧ vga_inv s' ∧ s'.(writer).(color) = s.(writer).(color) ∧
    (s.(writer).(column) < 80 →
       s'.(writer).(row) = s.(writer).(row) ∧ s'.(writer).(column) = s.(writer).(column) + 1 ∧
       s'.(cells) = <[Z.to_nat (s.(writer).(row) * 80 + s.(writer).(column)) := mkCell a s.(writer).(color)]> s.(cells)).
Proof.
  intros Hi. unfold put.
  assert (∃ s1, (if WIDTH <=? s.(writer).(column) then new_line s else Ret s) = Ret s1 ∧ vga_inv s1 ∧
    s1.(writer).(column) < 80 ∧ s1.(writer).(color) = s.(writer).(color) ∧ (s.(writer).(column) < 80 → s1 = s)) as
    (s1 & -> & (Hl & Hr & Hc) & Hlt & Hcol & Heq).
  { unfold WIDTH. destruct (Z.leb_spec 80 s.(writer).(column)).
    - destruct (new_line_ok s Hi) as (s1 & -> & Hi1 & Hc1 & Hcol & _). exists s1. split; [done|]. split; [done|].
      split; [lia|]. split; [done|lia].
    - by exists s. }
  cbn [mbind Res_bind]. unfold WIDTH. rewrite write_cell_ok by lia. cbn [mbind Res_bind].
  eexists. split; [reflexivity|].
  split; [split; [cbn; by rewrite length_insert|]; cbn; lia|]. split; [done|].
  intros Hs. rewrite (Heq Hs). done.
Qed.

Lemma erase_ok s : vga_inv s → s.(writer).(column) < 80 → ∃ s', erase s = Ret s' ∧ vga_inv s'.
Proof.
  intros (Hl & Hr & Hc) Hlt. unfold erase, WIDTH. rewrite write_cell_ok by lia. cbn [mbind Res_bind].
  eexists. split; [reflexivity|]. split; [cbn; by rewrite length_insert|]. done.
Qed.

Lemma write_byte_ok b s : vga_inv s → ∃ s', write_byte b s = Ret s' ∧ vga_inv s'.
Proof.
  intros Hi. pose proof Hi as (Hl & Hr & Hc). unfold write_byte.
  destruct (b =? 0x0A); [destruct (new_line_ok s Hi) as (s' & -> & ? & _); eauto|].
  destruct (b =? 0x0D); [eexists; split; [reflexivity|]; split; [done|]; cbn; lia|].
  destruct (b =? 0x08).
  { unfold backspace. destruct (Z.ltb_spec 0 s.(writer).(column)).
    - apply erase_ok; [split; [done|]|]; cbn; lia.
    - destruct (Z.ltb_spec 0 s.(writer).(row)); [|by exists s].
      apply erase_ok; [split; [done|]|]; cbn; unfold WIDTH; lia. }
  destruct (b =? 0x09).
  { eexists. split; [reflexivity|]. split; [done|]. cbn [set_cursor set_writer writer row column]. split; [lia|].
    unfold WIDTH. split; [|lia]. apply Z.min_glb; [|lia]. apply Z.land_nonneg. left. lia. }
  destruct (_ || _)%bool.
  - destruct (put_ok 0x5E s Hi) as (s1 & -> & Hi1 & _). cbn [mbind Res_bind].
    destruct (put_ok ((b + 0x40) mod 256) s1 Hi1) as (s2 & -> & Hi2 & _). eauto.
  - destruct (put_ok b s Hi) as (s1 & -> & Hi1 & _). eauto.
Qed.

Lemma write_str_ok bs s : vga_inv s → ∃ s', write_str bs s = Ret s' ∧ vga_inv s'.
Proof.
  unfold write_str. revert s. induction bs as [|b bs IH]; intros s Hi; cbn [for_list]; [by exists s|].
  destruct (write_byte_ok (if b <? 128 then b else 0x3F) s Hi) as (s1 & -> & Hi1). cbn [mbind Res_bind]. by apply IH.
Qed.

(** The console writer stays on the screen.  From any state with the
    cursor on the screen, writing any byte string (control bytes, long lines,
    non-ASCII bytes, backspaces at the origin) succeeds, every cell it touches is
    one of the 2000, and the cursor ends on the screen or just past the end of
    its row. *)
Theorem vga_write_safe bs s :
  vga_inv s → ∃ s', write_str bs s = Ret s' ∧ vga_inv s'.
Proof. apply write_str_ok. Qed.

(** ** Text and rows *)

Definition printable (b : Z) : Prop := 0x20 ≤ b < 0x7F.

(** The characters of a row. *)
Definition row_text (s : C) (r : Z) : list Z := char_at s r <$> seqZ 0 80.

Lemma write_byte_printable b s : printable b → write_byte b s = put b s.
Proof.
  unfold printable, write_byte. intros Hb.
  repeat match goal with |- context [b =? ?k] => destruct (Z.eqb_spec b k); [lia|] end.
  destruct (Z.ltb_spec b 0x20); [lia|]. done.
Qed.

Lemma write_text bs s :
  Forall printable bs → vga_inv s → s.(writer).(column) + Z.of_nat (length bs) ≤ 80 →
  ∃ s', write_str bs s = Ret s' ∧ vga_inv s' ∧ s'.(writer).(row) = s.(writer).(row) ∧
    s'.(writer).(column) = s.(writer).(column) + Z.of_nat (length bs) ∧
    s'.(writer).(color) = s.(writer).(color) ∧
    ∀ r c, 0 ≤ r < 25 → 0 ≤ c < 80 →
      s'.(cells) !!! Z.to_nat (r * 80 + c) =
        if (r =? s.(writer).(row)) && (s.(writer).(column) <=? c) && (c <? s.(writer).(column) + Z.of_nat (length bs))
        then mkCell (bs !!! Z.to_nat (c - s.(writer).(column))) s.(writer).(color)
        else s.(cells) !!! Z.to_nat (r * 80 + c).
Proof.
  unfold write_str. revert s. induction bs as [|b bs IH]; intros s Hb Hi Hlen; cbn [for_list length] in *.
  { exists s. split; [done|]. split; [done|]. split; [done|]. split; [lia|]. split; [done|]. intros r c Hr Hc.
    destruct (Z.leb_spec s.(writer).(column) c), (Z.ltb_spec c (s.(writer).(column) + Z.of_nat 0)); try lia;
      by rewrite ?andb_false_r. }
  inversion_clear Hb as [|? ? Hp Hbs]. pose proof Hp as Hp'. unfold printable in Hp'.
  destruct (Z.ltb_spec b 128); [|lia]. rewrite write_byte_printable by done.
  destruct (put_ok b s Hi) as (s1 & -> & Hi1 & Hcol1 & Hs1). destruct (Hs1 ltac:(lia)) as (Hr1 & Hc1 & Hl1).
  cbn [mbind Res_bind]. destruct (IH s1 Hbs Hi1) as (s2 & -> & Hi2 & Hr2 & Hc2 & Hcol2 & Hcells); [lia|].
  exists s2. split; [done|]. split; [done|]. split; [congruence|]. split; [lia|]. split; [congruence|].
  intros r c Hr Hc. rewrite Hcells, Hr1, Hc1, Hcol1 by done. pose proof Hi as (Hlen' & Hrow & Hcolr).
  destruct (Z.eqb_spec r s.(writer).(row)) as [->|Hne]; cbn [andb].
  - destruct (decide (c = s.(writer).(column))) as [->|Hne].
    + destruct (Z.leb_spec (s.(writer).(column) + 1) s.(writer).(column)); [lia|]. cbn [andb].
      rewrite Hl1, list_lookup_total_insert_eq by lia.
      destruct (Z.leb_spec s.(writer).(column) s.(writer).(column)),
        (Z.ltb_spec s.(writer).(column) (s.(writer).(column) + Z.of_nat (S (length bs)))); try lia.
      cbn [andb]. rewrite Z.sub_diag. done.
    + rewrite Hl1, list_lookup_total_insert_ne by lia.
      destruct (Z.leb_spec (s.(writer).(column) + 1) c), (Z.leb_spec s.(writer).(column) c); try lia; cbn [andb]; [|done].
      destruct (Z.ltb_spec c (s.(writer).(column) + 1 + Z.of_nat (length bs))),
        (Z.ltb_spec c (s.(writer).(column) + Z.of_nat (S (length bs)))); try lia; [|done].
      replace (Z.to_nat (c - s.(writer).(column))) with (S (Z.to_nat (c - (s.(writer).(column) + 1)))) by lia. done.
  - rewrite Hl1, list_lookup_total_insert_ne by lia. done.
Qed.

Lemma row_text_lookup s r i : (i < 80)%nat → row_text s r !! i = Some (char_at s r (Z.of_nat i)).
Proof. intros Hi. unfold row_text. rewrite list_lookup_fmap, lookup_seqZ_lt by lia. done. Qed.

Lemma length_row_text s r : length (row_text s r) = 80%nat.
Proof. unfold row_text. by rewrite length_fmap, length_seqZ. Qed.

Lemma read_row_ok r s : length s.(cells) = 2000%nat → 0 ≤ r < 25 → read_row r s = Ret (row_text s r).
Proof.
  intros Hl Hr. unfold read_row, HEIGHT, WIDTH. destruct (Z.ltb_spec r 25); [|lia].
  destruct (for_range_inv (fun n out => length out = 80%nat ∧ ∀ i, (Z.of_nat i < n) → out !! i = Some (char_at s r (Z.of_nat i)))
      0 80 (replicate 80 0x20) (fun c out => a ← read_cell (r * 80 + c) s; lset out c a)) as (out & -> & Hlen & Hout).
  - lia.
  - split; [apply length_replicate|lia].
  - intros n out Hn [Hlen Hout]. rewrite read_cell_ok by lia. cbn [mbind Res_bind]. rewrite lset_ok by lia.
    eexists. split; [reflexivity|]. split; [by rewrite length_insert|]. intros i Hin.
    destruct (decide (Z.of_nat i = n)) as [<-|].
    + rewrite Nat2Z.id, list_lookup_insert_eq by lia. done.
    + rewrite list_lookup_insert_ne by lia. apply Hout. lia.
  - f_equal. apply list_eq_same_length with 80%nat; [by rewrite length_row_text|done|].
    intros i x y Hi. rewrite Hout, row_text_lookup by lia. congruence.
Qed.

(** C38: text comes back.  Printable text that fits the rest of the current row
    is written where the cursor is and nowhere else, moves the cursor past it,
    and [read_row] returns the row with exactly that text spliced in. *)
Theorem text_reads_back bs s :
  Forall printable bs → vga_inv s → s.(writer).(column) + Z.of_nat (length bs) ≤ 80 →
  let r := s.(writer).(row) in let c := Z.to_nat s.(writer).(column) in
  ∃ s', write_str bs s = Ret s' ∧ position s' = (r, s.(writer).(column) + Z.of_nat (length bs)) ∧
    read_row r s' = Ret (take c (row_text s r) ++ bs ++ drop (c + length bs) (row_text s r)) ∧
    (∀ r', 0 ≤ r' < 25 → r' ≠ r → read_row r' s' = Ret (row_text s r')).
Proof.
  intros Hb Hi Hlen. cbn zeta. destruct (write_text bs s Hb Hi Hlen) as (s' & -> & Hi' & Hr & Hc & _ & Hcells).
  pose proof Hi as (Hl & Hrow & Hcol). pose proof Hi' as (Hl' & _).
  exists s'. split; [done|]. split; [unfold position; by rewrite Hr, Hc|].
  assert (∀ r c, 0 ≤ r < 25 → 0 ≤ c < 80 → char_at s' r c =
    if (r =? s.(writer).(row)) && (s.(writer).(column) <=? c) && (c <? s.(writer).(column) + Z.of_nat (length bs))
    then bs !!! Z.to_nat (c - s.(writer).(column)) else char_at s r c) as Hch.
  { intros r c Hrr Hcc. unfold char_at. rewrite Hcells by done. by destruct (_ && _ && _)%bool. }
  split.
  - rewrite read_row_ok by done. f_equal. apply list_eq_same_length with 80%nat.
    + rewrite !length_app, length_take, length_drop, length_row_text. lia.
    + apply length_row_text.
    + intros i x y Hi80. rewrite row_text_lookup by lia. rewrite Hch by lia. rewrite Z.eqb_refl. cbn [andb].
      intros [= <-]. rewrite !lookup_app, length_take, length_row_text, lookup_take.
      destruct (Z.leb_spec s.(writer).(column) (Z.of_nat i)); cbn [andb].
      * rewrite decide_False by lia. rewrite Nat.min_l by lia.
        destruct (Z.ltb_spec (Z.of_nat i) (s.(writer).(column) + Z.of_nat (length bs))).
        -- replace (Z.to_nat (Z.of_nat i - s.(writer).(column))) with (i - Z.to_nat s.(writer).(column))%nat by lia.
           destruct (lookup_lt_is_Some_2 bs (i - Z.to_nat s.(writer).(column))) as [z Hz]; [lia|].
           rewrite Hz. intros [= <-]. by apply list_lookup_total_correct.
        -- rewrite (lookup_ge_None_2 bs) by lia. rewrite lookup_drop.
           replace (Z.to_nat s.(writer).(column) + length bs + (i - Z.to_nat s.(writer).(column) - length bs))%nat with i by lia.
           rewrite row_text_lookup by lia. congruence.
      * rewrite decide_True by lia. rewrite row_text_lookup by lia. congruence.
  - intros r' Hr' Hne. rewrite read_row_ok by done. f_equal. unfold row_text. apply list_fmap_ext.
    intros i c Hci. apply lookup_seqZ in Hci as [-> Hci]. rewrite Hch by lia.
    destruct (Z.eqb_spec r' s.(writer).(row)); [done|]. done.
Qed.

(** Scrolling.  A new line on the last row moves every row up by one,
    blanks the last row and keeps the cursor there; the text of the other rows
    survives, their colours do not: every cell takes the writer's current
    colour, so the severity colours of the log are lost as soon as it scrolls. *)
Theorem new_line_scrolls s :
  vga_inv s → s.(writer).(row) = 24 →
  ∃ s', new_line s = Ret s' ∧ position s' = (24, 0) ∧
    (∀ r, 0 ≤ r < 24 → row_text s' r = row_text s (r + 1)) ∧
    row_text s' 24 = replicate 80 0x20 ∧
    (∀ r c, 0 ≤ r < 25 → 0 ≤ c < 80 → attr_at s' r c = s.(writer).(color)).
Proof.
  intros Hi Hrow. destruct (new_line_ok s Hi) as (s' & -> & Hi' & Hc & Hcol & H). rewrite Hrow in H. cbn in H.
  destruct H as (Hr & Hlen & Hcells). exists s'. split; [done|]. split; [unfold position; by rewrite Hr, Hc|].
  assert (∀ r c, 0 ≤ r < 25 → 0 ≤ c < 80 → char_at s' r c = if r =? 24 then 0x20 else char_at s (r + 1) c) as Hch.
  { intros r c Hrr Hcc. unfold char_at at 1. by rewrite Hcells. }
  split; [|split].
  - intros r Hrr. unfold row_text. apply list_fmap_ext. intros i c Hci. apply lookup_seqZ in Hci as [-> Hci].
    rewrite Hch by lia. by destruct (Z.eqb_spec r 24); [lia|].
  - apply list_eq_same_length with 80%nat; [apply length_replicate|apply length_row_text|].
    intros i x y Hi80. rewrite row_text_lookup by lia. rewrite Hch by lia. intros [= <-].
    rewrite lookup_replicate. naive_solver.
  - intros r c Hrr Hcc. unfold attr_at. by rewrite Hcells.
Qed.

(** ** Ports

    The writer touches no port but the two of the CRT controller. *)

Definition crtc (e : pevent) : Prop := match e with POut p _ => p = 0x3D4 ∨ p = 0x3D5 | PIn _ _ => False end.

Lemma write_cell_hw i a col s s' : write_cell i a col s = Ret s' → s'.(hw) = s.(hw).
Proof. unfold write_cell. intros (l & _ & [= <-])%bind_Ret. done. Qed.

Lemma clear_line_hw r s s' : clear_line r s = Ret s' → s'.(hw) = s.(hw).
Proof.
  unfold clear_line. destruct (HEIGHT <=? r); [by intros [= <-]|].
  apply (for_range_inv_partial (fun _ x => x.(hw) = s.(hw))); [unfold WIDTH; lia|done|].
  intros i x y _ <- H. by eapply write_cell_hw.
Qed.

Lemma scroll_row_hw r s s' : scroll_row r s = Ret s' → s'.(hw) = s.(hw).
Proof.
  apply (for_range_inv_partial (fun _ x => x.(hw) = s.(hw))); [unfold WIDTH; lia|done|].
  intros i x y _ <- (ch & _ & H)%bind_Ret. by eapply write_cell_hw.
Qed.

Lemma scroll_up_hw s s' : scroll_up s = Ret s' → s'.(hw) = s.(hw).
Proof.
  unfold scroll_up. intros (s1 & H1 & H2)%bind_Ret. rewrite (clear_line_hw _ _ _ H2).
  revert H1. apply (for_range_inv_partial (fun _ x => x.(hw) = s.(hw))); [unfold HEIGHT; lia|done|].
  intros i x y _ <- H. by eapply scroll_row_hw.
Qed.

Lemma update_hw_cursor_adds s : adds crtc s.(hw) (update_hw_cursor s).(hw).
Proof. unfold update_hw_cursor. cbn [hw]. do 4 (etrans; [|by apply adds_outb; cbn; auto]). reflexivity. Qed.

Lemma new_line_adds s s' : new_line s = Ret s' → adds crtc s.(hw) s'.(hw).
Proof.
  unfold new_line. intros (s1 & H1 & [= <-])%bind_Ret. etrans; [|apply update_hw_cursor_adds].
  cbn [set_cursor set_writer writer row] in H1. destruct (_ <? _).
  - by injection H1 as <-.
  - apply scroll_up_hw in H1. by rewrite H1.
Qed.

Lemma put_adds a s s' : put a s = Ret s' → adds crtc s.(hw) s'.(hw).
Proof.
  unfold put. intros (s1 & H1 & (s2 & H2 & [= <-])%bind_Ret)%bind_Ret. etrans; [|apply update_hw_cursor_adds].
  cbn [set_cursor set_writer hw]. apply write_cell_hw in H2. rewrite H2.
  destruct (_ <=? _); [by apply new_line_adds|]. by injection H1 as <-.
Qed.

Lemma erase_adds s s' : erase s = Ret s' → adds crtc s.(hw) s'.(hw).
Proof.
  unfold erase. intros (s1 & H1 & [= <-])%bind_Ret. etrans; [|apply update_hw_cursor_adds].
  apply write_cell_hw in H1. by rewrite H1.
Qed.

Lemma write_byte_adds b s s' : write_byte b s = Ret s' → adds crtc s.(hw) s'.(hw).
Proof.
  unfold write_byte. repeat match goal with |- context [if b =? ?k then _ else _] => destruct (b =? k) end.
  - apply new_line_adds.
  - by intros [= <-].
  - unfold backspace. destruct (_ <? _); [apply (erase_adds (set_cursor _ _ s))|].
    destruct (_ <? _); [apply (erase_adds (set_cursor _ _ s))|by intros [= <-]].
  - by intros [= <-].
  - destruct (_ || _)%bool; [|apply put_adds].
    intros (s1 & H1 & H2)%bind_Ret. etrans; by eapply put_adds.
Qed.

Lemma write_str_adds bs s s' : write_str bs s = Ret s' → adds crtc s.(hw) s'.(hw).
Proof.
  unfold write_str. revert s. induction bs as [|b bs IH]; intros s; cbn [for_list]; [by intros [= <-]|].
  intros (s1 & H1 & H2)%bind_Ret. etrans; [by eapply write_byte_adds|by apply IH].
Qed.

End Vga.

(** ** Witnesses *)

Definition demo_console (r c : Z) : Console (list Z) :=
  mkConsole (mkVga c r 0x07) (replicate 2000 (mkCell 0x41 0x4F)) (mkHw [] []).

Lemma demo_console_inv r c : 0 ≤ r < 25 → 0 ≤ c ≤ 80 → @vga_inv _ (demo_console r c).
Proof. intros Hr Hc. split; [apply length_replicate|]. done. Qed.

Lemma vga_write_safe_witness :
  ∃ s', @write_str _ script_bus [0x08; 0x09; 0x0A; 0xC3; 0x41] (demo_console 24 80) = Ret s' ∧ vga_inv s'.
Proof. apply (@vga_write_safe _ script_bus). apply demo_console_inv; lia. Defined.

Lemma text_reads_back_witness :
  ∃ s', @write_str _ script_bus [0x4F; 0x4B] (demo_console 3 5) = Ret s' ∧ position s' = (3, 7).
Proof.
  destruct (@text_reads_back _ script_bus [0x4F; 0x4B] (demo_console 3 5)) as (s' & E & Hp & _).
  - repeat constructor; lia.
  - apply demo_console_inv; lia.
  - cbn. lia.
  - exists s'. split; [exact E|exact Hp].
Defined.

Lemma new_line_scrolls_witness :
  ∃ s', @new_line _ script_bus (demo_console 24 0) = Ret s' ∧ attr_at s' 0 0 = 0x07.
Proof.
  destruct (@new_line_scrolls _ script_bus (demo_console 24 0)) as (s' & E & _ & _ & _ & Ha).
  - apply demo_console_inv; lia.
  - reflexivity.
  - exists s'. split; [exact E|]. apply (Ha 0 0); lia.
Defined.
