(* ===== verification/Serial.v ===== *)
(** * The 16550 UART (kernel/src/console/serial.rs)

    Initialisation with the loopback self-test, bounded transmission, reception,
    and the CRLF expansion of [write_str].  The device is the [Bus] of Ports.v. *)

From stdpp Require Import base list strings.
From Stdlib Require Import ZArith Lia.
From S2P Require Import Prelude Ports.
#[local] Open Scope Z_scope.

Definition COM1 : Z := 0x3F8.
Definition REG_DATA : Z := 0.
Definition REG_INT_ENABLE : Z := 1.
Definition REG_FIFO_CTRL : Z := 2.
Definition REG_LINE_CTRL : Z := 3.
Definition REG_MODEM_CTRL : Z := 4.
Definition REG_LINE_STATUS : Z := 5.
Definition LSR_THRE : Z := Z.shiftl 1 5.
Definition LSR_DR : Z := Z.shiftl 1 0.
Definition LINE_CTRL_8N1 : Z := 0x03.
Definition LINE_CTRL_DLAB : Z := 0x80.

Record Serial : Type := mkSerial { base : Z; initialised : bool }.
Definition Serial_new (b : Z) : Serial := mkSerial b false.

Section Uart.
Context {D : Type} `{B : Bus D}.

(** [for _ in 0..n]: wait for the looped-back byte. *)
Fixpoint loopback (n : nat) (b : Z) (h : Hw D) : bool * Hw D :=
  match n with
  | O => (false, h)
  | S n' =>
      let '(s, h) := inb (b + REG_LINE_STATUS) h in
      if negb (Z.land s LSR_DR =? 0)
      then let '(v, h) := inb (b + REG_DATA) h in (v =? 0xAE, h)
      else loopback n' b h
  end.

Definition init (u : Serial) (h : Hw D) : Serial * Hw D :=
  let b := u.(base) in
  let h := outb (b + REG_INT_ENABLE) 0x00 h in
  let h := outb (b + REG_LINE_CTRL) LINE_CTRL_DLAB h in
  let h := outb (b + REG_DATA) 0x01 h in
  let h := outb (b + REG_INT_ENABLE) 0x00 h in
  let h := outb (b + REG_LINE_CTRL) LINE_CTRL_8N1 h in
  let h := outb (b + REG_FIFO_CTRL) 0xC7 h in
  let h := outb (b + REG_MODEM_CTRL) 0x0B h in
  let h := outb (b + REG_MODEM_CTRL) 0x1E h in
  let h := outb (b + REG_DATA) 0xAE h in
  let '(ok, h) := loopback (Z.to_nat 100000) b h in
  let h := outb (b + REG_MODEM_CTRL) 0x0F h in
  (mkSerial b ok, h).

Definition present (u : Serial) : bool := u.(initialised).

(** Spin until the transmitter is ready; [n] spins are allowed before the wait
    gives up. *)
Fixpoint tx_wait (n : nat) (b : Z) (h : Hw D) : bool * Hw D :=
  let '(s, h) := inb (b + REG_LINE_STATUS) h in
  if negb (Z.land s LSR_THRE =? 0) then (true, h)
  else match n with O => (false, h) | S n' => tx_wait n' b h end.

Definition SPIN_LIMIT : Z := 10000000.

Definition write_byte (byte : Z) (u : Serial) (h : Hw D) : Serial * Hw D :=
  if negb u.(initialised) then (u, h)
  else
    let '(ready, h) := tx_wait (Z.to_nat SPIN_LIMIT) u.(base) h in
    if ready then (u, outb (u.(base) + REG_DATA) byte h)
    else (mkSerial u.(base) false, h).

Definition try_read_byte (u : Serial) (h : Hw D) : option Z * Hw D :=
  if negb u.(initialised) then (None, h)
  else
    let '(s, h) := inb (u.(base) + REG_LINE_STATUS) h in
    if Z.land s LSR_DR =? 0 then (None, h)
    else let '(v, h) := inb (u.(base) + REG_DATA) h in (Some v, h).

Fixpoint write_str (bs : list Z) (u : Serial) (h : Hw D) : Serial * Hw D :=
  match bs with
  | [] => (u, h)
  | b :: bs' =>
      let '(u, h) := if b =? 0x0A then write_byte 0x0D u h else (u, h) in
      let '(u, h) := write_byte b u h in
      write_str bs' u h
  end.

(** ** What reaches the wire *)

(** The CRLF expansion. *)
Fixpoint crlf (bs : list Z) : list Z :=
  match bs with
  | [] => []
  | b :: bs' => (if b =? 0x0A then [0x0D] else []) ++ [b] ++ crlf bs'
  end.

(** The bytes written to the data register of [b] by a log of accesses. *)
Definition wire (b : Z) (l : list pevent) : list Z := writes_to (b + REG_DATA) l.

Lemma tx_wait_io n b (h : Hw D) :
  ∃ l, io (tx_wait n b h).2 = io h ++ l ∧ (length l ≤ S n)%nat ∧ ∀ p, writes_to p l = [].
Proof.
  revert h. induction n as [|n IH]; intros h; cbn [tx_wait];
    pose proof (io_inb (b + REG_LINE_STATUS) h) as E; destruct (inb (b + REG_LINE_STATUS) h) as [s h1]; cbn [fst snd] in E;
    (destruct (negb _); [exists [PIn (b + REG_LINE_STATUS) s]; split; [exact E|]; split; [cbn; lia|done]|]).
  - exists [PIn (b + REG_LINE_STATUS) s]. split; [exact E|]. split; [cbn; lia|done].
  - destruct (IH h1) as (l & El & Hl & Hw). exists (PIn (b + REG_LINE_STATUS) s :: l).
    rewrite El, E, <- app_assoc. split; [done|]. split; [cbn; lia|]. exact Hw.
Qed.

(** One byte: it goes out, or the port was or becomes disabled. *)
Lemma write_byte_wire byte u (h : Hw D) :
  let '(u', h') := write_byte byte u h in
  ∃ l, io h' = io h ++ l ∧ u'.(base) = u.(base) ∧ (u'.(initialised) = true → u.(initialised) = true) ∧
    wire u.(base) l = if u'.(initialised) then [byte] else [].
Proof.
  unfold write_byte. destruct (initialised u) eqn:Ei; cbn [negb].
  - destruct (tx_wait_io (Z.to_nat SPIN_LIMIT) u.(base) h) as (l & E & _ & Hw).
    destruct (tx_wait (Z.to_nat SPIN_LIMIT) u.(base) h) as [ready h1]. cbn [snd] in E. destruct ready.
    + exists (l ++ [POut (u.(base) + REG_DATA) byte]). rewrite io_outb, E, app_assoc. split; [done|]. split; [done|].
      split; [done|]. rewrite Ei. unfold wire. rewrite writes_to_app, Hw. cbn. by rewrite Z.eqb_refl.
    + exists l. split; [done|]. split; [done|]. split; [done|]. apply Hw.
  - exists []. rewrite app_nil_r, Ei. done.
Qed.

Lemma write_str_wire bs u (h : Hw D) :
  let '(u', h') := write_str bs u h in
  ∃ l k, io h' = io h ++ l ∧ u'.(base) = u.(base) ∧ (u'.(initialised) = true → u.(initialised) = true) ∧
    wire u.(base) l = take k (crlf bs) ∧ (u'.(initialised) = true → wire u.(base) l = crlf bs) ∧
    (u.(initialised) = false → wire u.(base) l = []).
Proof.
  revert u h. induction bs as [|b bs IH]; intros u h; cbn [write_str].
  { exists [], 0%nat. rewrite app_nil_r. done. }
  assert (let '(u1, h1) := if b =? 0x0A then write_byte 0x0D u h else (u, h) in
    ∃ l, io h1 = io h ++ l ∧ u1.(base) = u.(base) ∧ (u1.(initialised) = true → u.(initialised) = true) ∧
      wire u.(base) l = if u1.(initialised) then (if b =? 0x0A then [0x0D] else []) else []) as H1.
  { destruct (b =? 0x0A).
    - pose proof (write_byte_wire 0x0D u h) as H. destruct (write_byte 0x0D u h) as [u1 h1]. exact H.
    - exists []. rewrite app_nil_r. split; [done|]. split; [done|]. split; [done|]. by destruct (initialised u). }
  destruct (if b =? 0x0A then write_byte 0x0D u h else (u, h)) as [u1 h1]. destruct H1 as (l1 & E1 & B1 & I1 & W1).
  pose proof (write_byte_wire b u1 h1) as H2. destruct (write_byte b u1 h1) as [u2 h2]. destruct H2 as (l2 & E2 & B2 & I2 & W2).
  specialize (IH u2 h2). destruct (write_str bs u2 h2) as [u3 h3].
  destruct IH as (l3 & k & E3 & B3 & I3 & W3 & F3 & N3). rewrite B1 in *. rewrite B2 in *.
  assert (wire u.(base) (l1 ++ l2 ++ l3) = wire u.(base) l1 ++ wire u.(base) l2 ++ wire u.(base) l3) as Ew
    by (unfold wire; by rewrite !writes_to_app).
  exists (l1 ++ l2 ++ l3). rewrite Ew. cbn [crlf].
  assert (∃ k, wire u.(base) l1 ++ wire u.(base) l2 ++ wire u.(base) l3 =
    take k ((if b =? 0x0A then [0x0D] else []) ++ [b] ++ crlf bs)) as [k' Hk].
  { rewrite W1, W2. destruct (initialised u1) eqn:Ei1; [|
      destruct (initialised u2) eqn:Ei2; [by specialize (I2 eq_refl)|]; rewrite N3 by done; by exists 0%nat].
    destruct (initialised u2) eqn:Ei2.
    - rewrite W3. by destruct (b =? 0x0A); [exists (S (S k))|exists (S k)].
    - rewrite N3 by done. by destruct (b =? 0x0A); [exists 1%nat|exists 0%nat]. }
  exists k'. rewrite E3, E2, E1, <- !app_assoc. split; [done|]. split; [done|].
  split; [auto|]. split; [exact Hk|]. split.
  - intros Hi. rewrite F3 by done. rewrite W1, W2. rewrite (I3 Hi), (I2 (I3 Hi)). done.
  - intros Hu. assert (u1.(initialised) = false) as Hu1 by (destruct (initialised u1); [by rewrite I1 in Hu|done]).
    assert (u2.(initialised) = false) as Hu2 by (destruct (initialised u2); [by rewrite I2 in Hu1|done]).
    rewrite W1, W2, Hu1, Hu2. by rewrite N3.
Qed.

(** What [write_str] puts on the wire is always a prefix of the text with
    every line feed expanded to CR LF, and all of it unless the port timed out,
    in which case (or when no UART answered the loopback test) the port is
    disabled and nothing more is sent. *)
Theorem serial_write_prefix bs u (h : Hw D) :
  let '(u', h') := write_str bs u h in
  ∃ l k, io h' = io h ++ l ∧ wire u.(base) l = take k (crlf bs) ∧
    (u'.(initialised) = true → wire u.(base) l = crlf bs) ∧
    (u.(initialised) = false → wire u.(base) l = [] ∧ u'.(initialised) = false).
Proof.
  pose proof (write_str_wire bs u h) as H. destruct (write_str bs u h) as [u' h'].
  destruct H as (l & k & E & _ & I & W & F & N). exists l, k. split; [done|]. split; [done|]. split; [done|].
  intros Hu. split; [by apply N|]. destruct (initialised u'); [by rewrite I in Hu|done].
Qed.

End Uart.

(** The log's record terminator "\r\n", written through [write_str], reaches the
    wire as CR CR LF. *)
Lemma crlf_doubled : crlf [0x0D; 0x0A] = [0x0D; 0x0D; 0x0A].
Proof. reflexivity. Qed.

Lemma serial_write_prefix_witness :
  ∃ l, io (@write_str _ script_bus [0x41; 0x0A] (mkSerial COM1 false) (mkHw [] [])).2 = [] ++ l ∧ wire COM1 l = [].
Proof.
  pose proof (@serial_write_prefix _ script_bus [0x41; 0x0A] (mkSerial COM1 false) (mkHw [] [])) as H.
  destruct (@write_str _ script_bus [0x41; 0x0A] (mkSerial COM1 false) (mkHw [] [])) as [u' h'] eqn:E.
  destruct H as (l & k & El & _ & _ & Hn). exists l. split; [exact El|]. apply Hn. reflexivity.
Defined.
