(* ===== verification/Raw.v ===== *)
(** * The lock-free console of the panic path (kernel/src/console/raw.rs)

    The UART without the mutex, the VGA cells without the writer's cursor, and
    the fixed 512-byte buffer a message is formatted into.  The theorems: the
    path always terminates and never leaves the screen or the buffer, whatever
    state it is entered in, and what it prints is the first 512 bytes of the
    message. *)

From stdpp Require Import base list list_numbers strings.
From Stdlib Require Import ZArith Lia.
From S2P Require Import Prelude Ports BootInfo Multiboot Serial Vga.
#[local] Open Scope Z_scope.

Definition FATAL_ATTR : Z := 0x4F.

Record Raw (D : Type) : Type := mkRaw {
  RAW_ROW : Z; RAW_COL : Z; SERIAL_OK : bool; screen : list Cell; rhw : Hw D }.
Arguments mkRaw {D} _ _ _ _ _.
Arguments RAW_ROW {D} _.
Arguments RAW_COL {D} _.
Arguments SERIAL_OK {D} _.
Arguments screen {D} _.
Arguments rhw {D} _.

(** ** The message buffer *)

Record SliceWriter : Type := mkSlice { sbuf : bytes; slen : Z }.

Definition SliceWriter_new : SliceWriter := mkSlice (replicate 512 0) 0.

(** [buf[len..len+n].copy_from_slice(&src[..n])]; the slices are in bounds. *)
Definition splice (w : SliceWriter) (src : bytes) (n : Z) : Res SliceWriter :=
  if (n <=? Z.of_nat (length src)) && (w.(slen) + n <=? Z.of_nat (length w.(sbuf))) then
    Ret (mkSlice (take (Z.to_nat w.(slen)) w.(sbuf) ++ take (Z.to_nat n) src ++
                  drop (Z.to_nat (w.(slen) + n)) w.(sbuf)) (w.(slen) + n))
  else Panic OutOfBounds.

Definition TAIL : bytes := lit "...[truncated]".

Definition SliceWriter_write_str (s : bytes) (w : SliceWriter) : Res SliceWriter :=
  room ← sub64 (Z.of_nat (length w.(sbuf))) w.(slen);
  let n := Z.min (Z.of_nat (length s)) room in
  w ← splice w s n;
  if n <? Z.of_nat (length s) then
    room ← sub64 (Z.of_nat (length w.(sbuf))) w.(slen);
    let m := Z.min (Z.of_nat (length TAIL)) room in
    splice w TAIL m
  else Ret w.

(** [write_fmt]: a message is a sequence of [write_str] calls. *)
Definition write_fmt (pieces : list bytes) (w : SliceWriter) : Res SliceWriter :=
  for_list pieces w SliceWriter_write_str.

(** The bytes [&w.buf[..w.len]]. *)
Definition written (w : SliceWriter) : bytes := take (Z.to_nat w.(slen)) w.(sbuf).

Section Raw.
Context {D : Type} `{B : Bus D}.
Abbreviation R := (Raw D).

Definition set_serial_ok (v : bool) (r : R) : R :=
  mkRaw r.(RAW_ROW) r.(RAW_COL) v r.(screen) r.(rhw).
Definition set_rhw (h : Hw D) (r : R) : R := mkRaw r.(RAW_ROW) r.(RAW_COL) r.(SERIAL_OK) r.(screen) h.
Definition set_screen (l : list Cell) (r : R) : R := mkRaw r.(RAW_ROW) r.(RAW_COL) r.(SERIAL_OK) l r.(rhw).

(** *** Serial *)

Definition RAW_SPINS : Z := 2000000.

Definition serial_byte (b : Z) (r : R) : R :=
  if negb r.(SERIAL_OK) then r
  else
    let '(ready, h) := tx_wait (Z.to_nat RAW_SPINS) COM1 r.(rhw) in
    set_rhw (if ready then outb (COM1 + REG_DATA) b h else h) r.

Fixpoint serial_str (s : bytes) (r : R) : R :=
  match s with
  | [] => r
  | b :: s' =>
      let r := if b =? 0x0A then serial_byte 0x0D r else r in
      serial_str s' (serial_byte b r)
  end.

(** *** VGA *)

(** One cell is its character byte and its attribute byte. *)
Definition vga_cell (row col a at_ : Z) (r : R) : Res R :=
  if (HEIGHT <=? row) || (WIDTH <=? col) then Ret r
  else l ← lset r.(screen) (row * WIDTH + col) (mkCell a at_); Ret (set_screen l r).

(** [ptr::copy] of the rows below the first, then a blank last row. *)
Definition vga_scroll (r : R) : R :=
  set_screen (take (Z.to_nat (WIDTH * (HEIGHT - 1))) (drop (Z.to_nat WIDTH) r.(screen)) ++
              replicate (Z.to_nat WIDTH) (mkCell 0x20 FATAL_ATTR)) r.

Definition is_ascii_graphic (c : Z) : bool := (0x21 <=? c) && (c <=? 0x7E).

(** The match of [vga_byte]: the new row and column, before wrapping. *)
Definition vga_match (b row col : Z) (r : R) : Res (Z * Z * R) :=
  if b =? 0x0A then Ret (row + 1, 0, r)
  else if b =? 0x0D then Ret (row, 0, r)
  else if b =? 0x08 then
    if 0 <? col then r ← vga_cell row (col - 1) 0x20 FATAL_ATTR r; Ret (row, col - 1, r)
    else Ret (row, col, r)
  else
    r ← vga_cell row col (if is_ascii_graphic b || (b =? 0x20) then b else 0x3F) FATAL_ATTR r;
    Ret (row, col + 1, r).

(** The [while row >= HEIGHT] loop runs at most once: it leaves row 24. *)
Definition vga_byte (b : Z) (r : R) : Res R :=
  '(row, col, r) ← vga_match b r.(RAW_ROW) r.(RAW_COL) r;
  let '(row, col) := if WIDTH <=? col then (row + 1, 0) else (row, col) in
  let '(row, r) := if HEIGHT <=? row then (HEIGHT - 1, vga_scroll r) else (row, r) in
  Ret (mkRaw row col r.(SERIAL_OK) r.(screen) r.(rhw)).

(** *** Public API *)

Definition print_str (s : bytes) (r : R) : Res R := for_list s (serial_str s r) vga_byte.

Definition print (pieces : list bytes) (r : R) : Res R :=
  w ← write_fmt pieces SliceWriter_new;
  let s := if is_utf8 (written w) then written w else lit "<utf8 error>" in
  print_str s r.

(** ** The buffer holds a prefix *)

Definition slice_ok (w : SliceWriter) : Prop := length w.(sbuf) = 512%nat ∧ 0 ≤ w.(slen) ≤ 512.

Lemma splice_ok w src n :
  slice_ok w → 0 ≤ n ≤ Z.of_nat (length src) → w.(slen) + n ≤ 512 →
  ∃ w', splice w src n = Ret w' ∧ slice_ok w' ∧ w'.(slen) = w.(slen) + n ∧
        written w' = written w ++ take (Z.to_nat n) src.
Proof.
  intros [Hl Hs] Hn Hfit. unfold splice.
  destruct (Z.leb_spec n (Z.of_nat (length src))), (Z.leb_spec (w.(slen) + n) (Z.of_nat (length w.(sbuf)))); try lia.
  cbn [andb]. eexists. split; [reflexivity|]. split; [|split; [done|]].
  - split; cbn [sbuf slen]; [|lia]. rewrite !length_app, !length_take, length_drop. lia.
  - unfold written. cbn [sbuf slen]. rewrite app_assoc, take_app_length'; [done|].
    rewrite length_app, !length_take. lia.
Qed.

Lemma write_str_prefix s w t :
  slice_ok w → written w = take 512 t → w.(slen) = Z.min 512 (Z.of_nat (length t)) →
  ∃ w', SliceWriter_write_str s w = Ret w' ∧ slice_ok w' ∧ written w' = take 512 (t ++ s) ∧
        w'.(slen) = Z.min 512 (Z.of_nat (length (t ++ s))).
Proof.
  intros Hok Hw Hlen. pose proof Hok as [Hl Hs]. unfold SliceWriter_write_str. rewrite Hl.
  rewrite sub64_ok by lia. cbn [mbind Res_bind]. change (Z.of_nat 512) with 512.
  destruct (splice_ok w s (Z.min (Z.of_nat (length s)) (512 - w.(slen))) Hok) as (w1 & -> & Hok1 & Hl1 & Hw1); [lia|lia|].
  cbn [mbind Res_bind].
  assert (written w1 = take 512 (t ++ s)) as Hpre.
  { rewrite Hw1, Hw. rewrite take_app.
    destruct (decide (512 ≤ length t)%nat).
    - replace (512 - length t)%nat with 0%nat by lia. replace (Z.to_nat _) with 0%nat by lia. done.
    - f_equal. destruct (decide (length s ≤ 512 - length t)%nat).
      + rewrite !take_ge; [done|lia|lia].
      + f_equal. lia. }
  assert (w1.(slen) = Z.min 512 (Z.of_nat (length (t ++ s)))) as Hlen1 by (rewrite Hl1, length_app; lia).
  destruct (Z.ltb_spec (Z.min (Z.of_nat (length s)) (512 - w.(slen))) (Z.of_nat (length s))); [|by exists w1].
  pose proof Hok1 as [Hb1 _]. rewrite Hb1. rewrite sub64_ok by lia. cbn [mbind Res_bind]. change (Z.of_nat 512) with 512.
  destruct (splice_ok w1 TAIL (Z.min (Z.of_nat (length TAIL)) (512 - w1.(slen))) Hok1) as (w2 & -> & Hok2 & Hl2 & Hw2); [lia|lia|].
  exists w2. split; [done|]. split; [done|]. replace (512 - w1.(slen)) with 0 in * by lia.
  rewrite Z.min_r in * by lia. rewrite Hw2, Hl2, Z.add_0_r. split; [|done]. rewrite app_nil_r. done.
Qed.

Lemma write_fmt_prefix pieces w t :
  slice_ok w → written w = take 512 t → w.(slen) = Z.min 512 (Z.of_nat (length t)) →
  ∃ w', write_fmt pieces w = Ret w' ∧ slice_ok w' ∧ written w' = take 512 (t ++ concat pieces).
Proof.
  unfold write_fmt. revert w t. induction pieces as [|p ps IH]; intros w t Hok Hw Hl; cbn [for_list concat].
  - exists w. rewrite app_nil_r. done.
  - destruct (write_str_prefix p w t Hok Hw Hl) as (w1 & -> & Hok1 & Hw1 & Hl1). cbn [mbind Res_bind].
    destruct (IH w1 (t ++ p) Hok1 Hw1 Hl1) as (w2 & -> & Hok2 & Hw2). exists w2. by rewrite app_assoc.
Qed.

Lemma SliceWriter_new_ok : slice_ok SliceWriter_new ∧ written SliceWriter_new = [].
Proof. split; [|done]. split; [apply length_replicate|cbn; lia]. Qed.

(** ** The screen *)

Definition raw_inv (r : R) : Prop :=
  length r.(screen) = 2000%nat ∧ 0 ≤ r.(RAW_ROW) < 25 ∧ 0 ≤ r.(RAW_COL) < 80.

Lemma serial_byte_keeps b r :
  (serial_byte b r).(screen) = r.(screen) ∧ (serial_byte b r).(RAW_ROW) = r.(RAW_ROW) ∧
  (serial_byte b r).(RAW_COL) = r.(RAW_COL).
Proof. unfold serial_byte. destruct (negb _); [done|]. by destruct (tx_wait _ _ _). Qed.

Lemma serial_str_keeps s r :
  (serial_str s r).(screen) = r.(screen) ∧ (serial_str s r).(RAW_ROW) = r.(RAW_ROW) ∧
  (serial_str s r).(RAW_COL) = r.(RAW_COL).
Proof.
  revert r. induction s as [|b s IH]; intros r; cbn [serial_str]; [done|].
  destruct (IH (serial_byte b (if b =? 0x0A then serial_byte 0x0D r else r))) as (-> & -> & ->).
  destruct (serial_byte_keeps b (if b =? 0x0A then serial_byte 0x0D r else r)) as (-> & -> & ->).
  destruct (b =? 0x0A); [apply serial_byte_keeps|done].
Qed.

Lemma vga_cell_ok row col a at_ r :
  length r.(screen) = 2000%nat → 0 ≤ row → 0 ≤ col →
  ∃ r', vga_cell row col a at_ r = Ret r' ∧ length r'.(screen) = 2000%nat.
Proof.
  intros Hl Hr Hc. unfold vga_cell, HEIGHT, WIDTH.
  destruct (Z.leb_spec 25 row), (Z.leb_spec 80 col); cbn [orb]; try by exists r.
  rewrite lset_ok by lia. cbn [mbind Res_bind]. eexists. split; [reflexivity|]. cbn. by rewrite length_insert.
Qed.

Lemma vga_byte_ok b r : raw_inv r → ∃ r', vga_byte b r = Ret r' ∧ raw_inv r'.
Proof.
  intros (Hl & Hr & Hc). unfold vga_byte.
  assert (∃ row col r1, vga_match b r.(RAW_ROW) r.(RAW_COL) r = Ret (row, col, r1) ∧ length r1.(screen) = 2000%nat ∧
    0 ≤ row ≤ 25 ∧ 0 ≤ col ≤ 80) as (row & col & r1 & -> & Hl1 & Hr1 & Hc1).
  { unfold vga_match. destruct (b =? 0x0A); [eexists _, _, _; split; [reflexivity|]; split; [done|lia]|].
    destruct (b =? 0x0D); [eexists _, _, _; split; [reflexivity|]; split; [done|lia]|].
    destruct (b =? 0x08).
    - destruct (Z.ltb_spec 0 r.(RAW_COL)); [|eexists _, _, _; split; [reflexivity|]; split; [done|lia]].
      destruct (vga_cell_ok r.(RAW_ROW) (r.(RAW_COL) - 1) 0x20 FATAL_ATTR r) as (r1 & -> & Hl1); [done|lia|lia|].
      eexists _, _, _. split; [reflexivity|]. split; [done|lia].
    - destruct (vga_cell_ok r.(RAW_ROW) r.(RAW_COL) (if is_ascii_graphic b || (b =? 0x20) then b else 0x3F) FATAL_ATTR r)
        as (r1 & -> & Hl1); [done|lia|lia|]. eexists _, _, _. split; [reflexivity|]. split; [done|lia]. }
  cbn [mbind Res_bind]. unfold WIDTH, HEIGHT.
  assert (∀ row' col' : Z, 0 ≤ row' ≤ 26 → 0 ≤ col' < 80 → ∃ r', (let '(row, r) := if 25 <=? row' then (25 - 1, vga_scroll r1) else (row', r1) in
    Ret (mkRaw row col' r.(SERIAL_OK) r.(screen) r.(rhw))) = Ret r' ∧ raw_inv r') as Hend.
  { intros row' col' Hrow Hcol. destruct (Z.leb_spec 25 row'); eexists; (split; [reflexivity|]); split; [|cbn; lia|done|cbn; lia].
    cbn [screen vga_scroll set_screen]. rewrite length_app, length_take, length_drop, length_replicate.
    change (Z.to_nat (WIDTH * (HEIGHT - 1))) with 1920%nat. change (Z.to_nat WIDTH) with 80%nat. lia. }
  destruct (Z.leb_spec 80 col); apply Hend; lia.
Qed.

Lemma vga_bytes_ok s r : raw_inv r → ∃ r', for_list s r vga_byte = Ret r' ∧ raw_inv r'.
Proof.
  revert r. induction s as [|b s IH]; intros r Hi; cbn [for_list]; [by exists r|].
  destruct (vga_byte_ok b r Hi) as (r1 & -> & Hi1). cbn [mbind Res_bind]. by apply IH.
Qed.

Lemma print_str_ok s r : raw_inv r → ∃ r', print_str s r = Ret r' ∧ raw_inv r'.
Proof.
  intros Hi. unfold print_str. apply vga_bytes_ok. destruct (serial_str_keeps s r) as (E1 & E2 & E3).
  unfold raw_inv. by rewrite E1, E2, E3.
Qed.

(** What is left of a message after the buffer. *)
Definition shown (s : bytes) : bytes :=
  let cut := take 512 s in if is_utf8 cut then cut else lit "<utf8 error>".

Lemma print_shown pieces r : print pieces r = print_str (shown (concat pieces)) r.
Proof.
  unfold print, shown. destruct SliceWriter_new_ok as [Hok Hw].
  destruct (write_fmt_prefix pieces SliceWriter_new [] Hok Hw eq_refl) as (w & -> & _ & Hww). cbn [mbind Res_bind app] in *.
  by rewrite Hww.
Qed.

(** C39: the panic path cannot fail.  [raw::print] returns for every message
    and every device behaviour (a wedged UART included), touches only the 2000
    cells of the screen, and prints exactly the first 512 bytes of the message,
    or the text "<utf8 error>" when that cut splits a character.  The
    "...[truncated]" marker is never part of it: a message is cut only when the
    buffer is full, and then there is no room for the marker. *)
Theorem raw_print_total pieces r :
  raw_inv r →
  ∃ r', print pieces r = Ret r' ∧ raw_inv r' ∧
    let cut := take 512 (concat pieces) in
    print pieces r = print_str (if is_utf8 cut then cut else lit "<utf8 error>") r.
Proof.
  intros Hi. rewrite print_shown. destruct (print_str_ok (shown (concat pieces)) r Hi) as (r' & E & Hi').
  exists r'. done.
Qed.

(** [raw_println!] *)
Definition println (s : bytes) (r : R) : Res R := r ← print [s] r; print_str [10] r.

(** ** What reaches the wire

    With a UART whose transmitter is ready at every poll. *)

Section Wire.
Hypothesis uart_ready : ∀ d : D, Z.land (bus_in (COM1 + REG_LINE_STATUS) d).1 LSR_THRE ≠ 0.

(** From [r] to [r'] the path printed [t], whole, on the serial line. *)
Definition prints (t : bytes) (r r' : R) : Prop :=
  raw_inv r' ∧ r'.(SERIAL_OK) = r.(SERIAL_OK) ∧
  ∃ l, io r'.(rhw) = io r.(rhw) ++ l ∧ (r.(SERIAL_OK) = true → wire COM1 l = crlf t).

Lemma prints_nil r : raw_inv r → prints [] r r.
Proof. intros Hi. split; [done|]. split; [done|]. exists []. by rewrite app_nil_r. Qed.

Lemma crlf_app a b : crlf (a ++ b) = crlf a ++ crlf b.
Proof. induction a as [|x a IH]; cbn [crlf app]; [done|]. rewrite IH. by destruct (x =? 10). Qed.

Lemma prints_trans a b r1 r2 r3 : prints a r1 r2 → prints b r2 r3 → prints (a ++ b) r1 r3.
Proof.
  intros (_ & S1 & l1 & E1 & W1) (I2 & S2 & l2 & E2 & W2). split; [done|]. split; [congruence|].
  exists (l1 ++ l2). rewrite E2, E1, app_assoc. split; [done|]. intros Hs. unfold wire in *.
  rewrite writes_to_app, W1, W2, crlf_app by congruence. done.
Qed.

Lemma tx_wait_ready n (h : Hw D) : ∃ v, tx_wait n COM1 h = (true, (inb (COM1 + REG_LINE_STATUS) h).2) ∧
  (inb (COM1 + REG_LINE_STATUS) h).1 = v.
Proof.
  exists (inb (COM1 + REG_LINE_STATUS) h).1. split; [|done]. pose proof (uart_ready (dev h)) as Hr.
  destruct n; cbn [tx_wait]; unfold inb; destruct (bus_in _ (dev h)) as [v d]; cbn [fst snd] in *;
    by rewrite (proj2 (Z.eqb_neq _ _) Hr).
Qed.

Lemma serial_byte_wire b r :
  (serial_byte b r).(SERIAL_OK) = r.(SERIAL_OK) ∧
  ∃ l, io (serial_byte b r).(rhw) = io r.(rhw) ++ l ∧ (r.(SERIAL_OK) = true → wire COM1 l = [b]).
Proof.
  unfold serial_byte. destruct (SERIAL_OK r) eqn:Es; cbn [negb].
  - destruct (tx_wait_ready (Z.to_nat RAW_SPINS) r.(rhw)) as (v & -> & Ev). cbn [set_rhw SERIAL_OK rhw].
    split; [done|]. eexists. rewrite io_outb, io_inb, <- app_assoc. split; [reflexivity|]. intros _. done.
  - split; [done|]. exists []. by rewrite app_nil_r.
Qed.

Lemma serial_str_wire s r :
  (serial_str s r).(SERIAL_OK) = r.(SERIAL_OK) ∧
  ∃ l, io (serial_str s r).(rhw) = io r.(rhw) ++ l ∧ (r.(SERIAL_OK) = true → wire COM1 l = crlf s).
Proof.
  revert r. induction s as [|b s IH]; intros r; cbn [serial_str crlf].
  { split; [done|]. exists []. by rewrite app_nil_r. }
  set (r1 := if b =? 10 then serial_byte 13 r else r).
  assert (r1.(SERIAL_OK) = r.(SERIAL_OK) ∧
    ∃ l, io r1.(rhw) = io r.(rhw) ++ l ∧ (r.(SERIAL_OK) = true → wire COM1 l = if b =? 10 then [13] else [])) as (S1 & l1 & E1 & W1).
  { unfold r1. destruct (b =? 10); [apply serial_byte_wire|]. split; [done|]. exists []. by rewrite app_nil_r. }
  clearbody r1. destruct (serial_byte_wire b r1) as (S2 & l2 & E2 & W2).
  destruct (IH (serial_byte b r1)) as (S3 & l3 & E3 & W3). split; [congruence|].
  exists (l1 ++ l2 ++ l3). rewrite E3, E2, E1, <- !app_assoc. split; [done|]. intros Hs. unfold wire in *.
  rewrite !writes_to_app, W1, W2, W3 by congruence. done.
Qed.

Lemma vga_cell_hw row col a at_ r r' :
  vga_cell row col a at_ r = Ret r' → r'.(rhw) = r.(rhw) ∧ r'.(SERIAL_OK) = r.(SERIAL_OK).
Proof. unfold vga_cell. destruct (_ || _); [by intros [= <-]|]. intros H. apply bind_Ret in H as (l & _ & [= <-]). done. Qed.

Lemma vga_match_hw b row col r x y r' :
  vga_match b row col r = Ret (x, y, r') → r'.(rhw) = r.(rhw) ∧ r'.(SERIAL_OK) = r.(SERIAL_OK).
Proof.
  unfold vga_match. repeat case_match; try by intros [= <- <- <-].
  all: intros H'; apply bind_Ret in H' as (r1 & E%vga_cell_hw & [= <- <- <-]); done.
Qed.

Lemma vga_byte_hw b r r' : vga_byte b r = Ret r' → r'.(rhw) = r.(rhw) ∧ r'.(SERIAL_OK) = r.(SERIAL_OK).
Proof.
  unfold vga_byte. intros H. apply bind_Ret in H as ([[x y] r1] & E%vga_match_hw & H).
  destruct (WIDTH <=? y), (HEIGHT <=? x + 1), (HEIGHT <=? x); injection H as <-; done.
Qed.

Lemma print_str_prints s r : raw_inv r → ∃ r', print_str s r = Ret r' ∧ prints s r r'.
Proof.
  intros Hi. destruct (print_str_ok s r Hi) as (r' & E & Hi'). exists r'. split; [done|]. split; [done|].
  unfold print_str in E. destruct (serial_str_wire s r) as (S1 & l & El & W).
  assert (∀ bs q q', for_list bs q vga_byte = Ret q' → q'.(rhw) = q.(rhw) ∧ q'.(SERIAL_OK) = q.(SERIAL_OK)) as Hbs.
  { clear. induction bs as [|b bs IH]; intros q q'; cbn [for_list]; [by intros [= <-]|].
    intros H. apply bind_Ret in H as (q1 & E%vga_byte_hw & H%IH). destruct E, H. split; congruence. }
  destruct (Hbs _ _ _ E) as [Eh Es]. split; [congruence|]. exists l. by rewrite Eh.
Qed.

Lemma println_prints s r : raw_inv r → ∃ r', println s r = Ret r' ∧ prints (shown s ++ [10]) r r'.
Proof.
  intros Hi. unfold println. rewrite print_shown. cbn [concat]. rewrite app_nil_r.
  destruct (print_str_prints (shown s) r Hi) as (r1 & -> & P1). cbn [mbind Res_bind].
  destruct (print_str_prints [10] r1 (proj1 P1)) as (r2 & -> & P2). exists r2. split; [done|]. by eapply prints_trans.
Qed.

End Wire.

End Raw.

Definition demo_raw : Raw (list Z) := mkRaw 24 79 true (replicate 2000 (mkCell 0x20 0x07)) (mkHw [0x20; 0x20] []).

Lemma raw_print_total_witness :
  ∃ r', @print _ script_bus [replicate 511 0x41; [0xC3; 0xA9]] demo_raw = Ret r' ∧ raw_inv r'.
Proof.
  destruct (@raw_print_total _ script_bus [replicate 511 0x41; [0xC3; 0xA9]] demo_raw) as (r' & E & Hi & _).
  - split; [apply length_replicate|]. cbn. lia.
  - exists r'. split; [exact E|exact Hi].
Defined.

(** The message above is cut inside its last character, so none of it is
    printed. *)
Lemma cut_character_loses_message :
  is_utf8 (concat [replicate 511 0x41; [0xC3; 0xA9]]) = true ∧
  is_utf8 (take 512 (concat [replicate 511 0x41; [0xC3; 0xA9]])) = false.
Proof. by vm_compute. Qed.
