(* ===== verification/ConsoleLog.v ===== *)
(** * The kernel log (kernel/src/console/log.rs)

    The level filter and its counters, the wire format of a record on the serial
    port and its coloured rendering on the screen, and the redaction of secrets.
    A record's message is the list of bytes its format arguments produce. *)

From stdpp Require Import base list list_numbers strings.
From Stdlib Require Import ZArith Lia.
From S2P Require Import Prelude Ports BootInfo Params Pit Serial Vga.
#[local] Open Scope Z_scope.

Record LogConfig : Type := mkLogConfig {
  level : Level; target : Target; show_location : bool; emitted : Z; filtered : Z }.

(** [CONFIG]: [show_location] is [cfg!(debug_assertions)]. *)
Definition CONFIG (debug : bool) : LogConfig := mkLogConfig Info Both debug 0 0.

Definition configure (l : option Level) (t : option Target) (c : LogConfig) : LogConfig :=
  let c := match l with Some x => mkLogConfig x c.(target) c.(show_location) c.(emitted) c.(filtered) | None => c end in
  match t with Some x => mkLogConfig c.(level) x c.(show_location) c.(emitted) c.(filtered) | None => c end.

(** [str::split_once] with the separator "::". *)
Fixpoint split_colons (s : bytes) : option (bytes * bytes) :=
  match s with
  | [] => None
  | x :: s' =>
      match s' with
      | y :: rest => if (x =? 0x3A) && (y =? 0x3A) then Some ([], rest)
                     else '(a, b) ← split_colons s'; Some (x :: a, b)
      | [] => None
      end
  end.

Definition shorten (subsys : bytes) : bytes :=
  match split_colons subsys with
  | Some (crate_name, rest) => if bytes_eqb crate_name (lit "orin_kernel") then rest else subsys
  | None => subsys
  end.

(** [{:>w}], [{:0w}] and [{:w}] *)
Definition pad_left (w : nat) (fill : Z) (s : bytes) : bytes := replicate (w - length s) fill ++ s.
Definition pad_right (w : nat) (s : bytes) : bytes := s ++ replicate (w - length s) 0x20.

(** The bytes [write_serial] hands to the UART. *)
Definition serial_record (l : Level) (ts : Z) (subsys location : bytes) (show_loc : bool) (msg : bytes) : bytes :=
  lit "ORIN|" ++ lit (letter l) ++ lit "|" ++ pad_left 6 0x20 (dec (ts / 1000000)) ++ lit "." ++
  pad_left 6 0x30 (dec (ts mod 1000000)) ++ lit "|" ++ pad_right 18 (shorten subsys) ++
  (if show_loc then lit "|" ++ location else []) ++ lit "|" ++ msg ++ [0x0D; 0x0A].

(** The colours of [write_vga]. *)
Definition level_colors (l : Level) : Color * Color :=
  match l with
  | Trace | Debug => (DarkGray, Black)
  | Info => (LightGray, Black)
  | Warn => (Yellow, Black)
  | Error | Critical | PanicLevel => (White, Red)
  end.

(** The log's world: its configuration, the UART and the screen (whose ports the
    UART shares). *)
Record Sink (D : Type) : Type := mkSink { cfg : LogConfig; com1 : Serial.Serial; vga : Console D }.
Arguments mkSink {D} _ _ _.
Arguments cfg {D} _.
Arguments com1 {D} _.
Arguments vga {D} _.

Section Log.
Context {D : Type} `{B : Bus D}.
Abbreviation S := (Sink D).

Definition set_hw (h : Hw D) (c : Console D) : Console D := mkConsole c.(writer) c.(cells) h.

Definition write_serial (l : Level) (ts : Z) (subsys location : bytes) (show_loc : bool) (msg : bytes) (s : S) : S :=
  let '(u, h) := Serial.write_str (serial_record l ts subsys location show_loc msg) s.(com1) s.(vga).(hw) in
  mkSink s.(cfg) u (set_hw h s.(vga)).

Definition write_vga (l : Level) (subsys msg : bytes) (s : S) : Res S :=
  let '(fg, bg) := level_colors l in
  let v := set_color fg bg s.(vga) in
  v ← Vga.write_str (lit "[" ++ shorten subsys ++ lit "] ") v;
  v ← Vga.write_str msg v;
  let v := set_color LightGray Black v in
  v ← Vga.write_str [0x0A] v;
  Ret (mkSink s.(cfg) s.(com1) v).

(** [level < c.level && level != Panic] *)
Definition dropped_by (c : LogConfig) (l : Level) : bool :=
  (level_code l <? level_code c.(level)) && negb (bool_decide (l = PanicLevel)).

Definition count_filtered (c : LogConfig) : Res LogConfig :=
  n ← add64 c.(filtered) 1; Ret (mkLogConfig c.(level) c.(target) c.(show_location) c.(emitted) n).
Definition count_emitted (c : LogConfig) : Res LogConfig :=
  n ← add64 c.(emitted) 1; Ret (mkLogConfig c.(level) c.(target) c.(show_location) n c.(filtered)).

(** [log]; [now] is [pit::micros_since_boot()]. *)
Definition log (now : Z) (l : Level) (subsys location msg : bytes) (s : S) : Res S :=
  if dropped_by s.(cfg) l then
    c ← count_filtered s.(cfg);
    Ret (mkSink c s.(com1) s.(vga))
  else
    c ← count_emitted s.(cfg);
    let s := mkSink c s.(com1) s.(vga) in
    let s := match c.(target) with
             | BootInfo.Serial | Both => write_serial l now subsys location c.(show_location) msg s
             | BootInfo.Vga => s
             end in
    match c.(target) with
    | BootInfo.Vga | Both => write_vga l subsys msg s
    | _ => Ret s
    end.

Definition effective_level (s : S) : Level := s.(cfg).(level).
Definition stats (s : S) : Z * Z := (s.(cfg).(emitted), s.(cfg).(filtered)).

(** ** Facts *)

(** The UART hears nothing of what goes to the screen. *)
Lemma crtc_wire l : Forall crtc l → wire COM1 l = [].
Proof.
  unfold wire. induction 1 as [|e l He Hl IH]; [done|]. destruct e as [p v|p v]; [done|]. cbn [writes_to].
  change (COM1 + REG_DATA) with 0x3F8. destruct (Z.eqb_spec p 0x3F8); [|done]. destruct He; lia.
Qed.

Lemma write_vga_ok l subsys msg (s : S) :
  vga_inv s.(vga) →
  ∃ s', write_vga l subsys msg s = Ret s' ∧ vga_inv s'.(vga) ∧ s'.(cfg) = s.(cfg) ∧ s'.(com1) = s.(com1) ∧
        adds crtc s.(vga).(hw) s'.(vga).(hw).
Proof.
  intros Hi. unfold write_vga. destruct (level_colors l) as [fg bg].
  destruct (write_str_ok (lit "[" ++ shorten subsys ++ lit "] ") (set_color fg bg s.(vga))) as (v1 & E1 & H1); [exact Hi|].
  destruct (write_str_ok msg v1 H1) as (v2 & E2 & H2).
  destruct (write_str_ok [0x0A] (set_color LightGray Black v2)) as (v3 & E3 & H3); [exact H2|].
  rewrite E1. cbn [mbind Res_bind]. rewrite E2. cbn [mbind Res_bind]. rewrite E3. cbn [mbind Res_bind].
  eexists. split; [reflexivity|]. split; [done|]. split; [done|]. split; [done|].
  apply write_str_adds in E1, E2, E3. cbn [vga]. etrans; [exact E1|]. etrans; [exact E2|]. exact E3.
Qed.

Lemma write_serial_ok l ts subsys location show_loc msg (s : S) :
  s.(com1).(base) = COM1 → vga_inv s.(vga) →
  let s' := write_serial l ts subsys location show_loc msg s in
  vga_inv s'.(vga) ∧ s'.(cfg) = s.(cfg) ∧ s'.(com1).(base) = COM1 ∧
  (s'.(com1).(initialised) = true → s.(com1).(initialised) = true) ∧
  ∃ w k, io s'.(vga).(hw) = io s.(vga).(hw) ++ w ∧
    wire COM1 w = take k (crlf (serial_record l ts subsys location show_loc msg)) ∧
    (s'.(com1).(initialised) = true → wire COM1 w = crlf (serial_record l ts subsys location show_loc msg)).
Proof.
  intros Hb Hi. cbn zeta. unfold write_serial.
  pose proof (write_str_wire (serial_record l ts subsys location show_loc msg) s.(com1) s.(vga).(hw)) as H.
  destruct (Serial.write_str _ s.(com1) s.(vga).(hw)) as [u h]. destruct H as (w & k & E & Hb' & Hmono & W & F & _).
  rewrite Hb in Hb', W, F. split; [exact Hi|]. split; [done|]. split; [done|]. split; [done|]. exists w, k. done.
Qed.

Lemma log_ok now l subsys location msg (s : S) :
  vga_inv s.(vga) → s.(com1).(base) = COM1 →
  s.(cfg).(emitted) + 1 < U64 → s.(cfg).(filtered) + 1 < U64 →
  let c := s.(cfg) in
  dropped_by c PanicLevel = false ∧
  ∃ s', log now l subsys location msg s = Ret s' ∧ vga_inv s'.(vga) ∧ s'.(com1).(base) = COM1 ∧
    (s'.(com1).(initialised) = true → s.(com1).(initialised) = true) ∧
    if dropped_by c l then s' = mkSink (mkLogConfig c.(level) c.(target) c.(show_location) c.(emitted) (c.(filtered) + 1)) s.(com1) s.(vga)
    else
      s'.(cfg) = mkLogConfig c.(level) c.(target) c.(show_location) (c.(emitted) + 1) c.(filtered) ∧
      ∃ w k, io s'.(vga).(hw) = io s.(vga).(hw) ++ w ∧
        let record := crlf (serial_record l now subsys location c.(show_location) msg) in
        wire COM1 w = (if bool_decide (c.(target) = BootInfo.Vga) then [] else take k record) ∧
        (c.(target) ≠ BootInfo.Vga → s'.(com1).(initialised) = true → wire COM1 w = record).
Proof.
  intros Hi Hb He Hf. cbn zeta. split; [by unfold dropped_by; rewrite bool_decide_eq_true_2, andb_false_r|].
  unfold log. destruct (dropped_by s.(cfg) l).
  { unfold count_filtered. rewrite add64_ok by done. cbn [mbind Res_bind]. eexists. split; [reflexivity|]. split; [done|]. split; [done|]. done. }
  unfold count_emitted. rewrite add64_ok by done. cbn [mbind Res_bind target show_location].
  set (s1 := mkSink _ s.(com1) s.(vga)).
  destruct (write_serial_ok l now subsys location s.(cfg).(show_location) msg s1 Hb Hi) as (Hi2 & Hc2 & Hb2 & Hm2 & w & k & E & W & F).
  set (s2 := write_serial _ _ _ _ _ _ s1) in *. clearbody s2.
  destruct (target s.(cfg)) eqn:Et.
  - exists s2. split; [done|]. split; [done|]. split; [done|]. split; [done|]. split; [by rewrite Hc2|]. by exists w, k.
  - destruct (write_vga_ok l subsys msg s1 Hi) as (s3 & -> & Hi3 & Hc3 & Hu3 & (x & Ex & Hx)). exists s3.
    split; [done|]. split; [done|]. rewrite Hu3. split; [done|]. split; [done|]. split; [by rewrite Hc3|]. exists x, 0%nat.
    split; [exact Ex|]. split; [by apply crtc_wire|done].
  - destruct (write_vga_ok l subsys msg s2 Hi2) as (s3 & -> & Hi3 & Hc3 & Hu3 & (x & Ex & Hx)). exists s3.
    split; [done|]. split; [done|]. rewrite Hu3. split; [done|]. split; [done|]. split; [by rewrite Hc3, Hc2|]. exists (w ++ x), k.
    split; [by rewrite Ex, E, app_assoc|]. unfold wire in *. rewrite writes_to_app.
    pose proof (crtc_wire x Hx) as Hxw. unfold wire in Hxw. rewrite Hxw, app_nil_r. split; [exact W|].
    intros _. exact F.
Qed.

(** The levels a threshold hides, in the order of severity Trace, Debug, Info,
    Warn, Error, Critical, Panic. *)
Definition hidden (threshold : Level) : list Level :=
  match threshold with
  | Trace => []
  | Debug => [Trace]
  | Info => [Trace; Debug]
  | Warn => [Trace; Debug; Info]
  | Error => [Trace; Debug; Info; Warn]
  | Critical => [Trace; Debug; Info; Warn; Error]
  | PanicLevel => [Trace; Debug; Info; Warn; Error; Critical]
  end.

Lemma dropped_hidden c l : dropped_by c l = bool_decide (l ∈ hidden c.(level)).
Proof. unfold dropped_by. by destruct c.(level), l. Qed.

(** C37: [log] never panics (short of 2^64 records) and the filter is exact.  A
    record whose level is hidden by the configured threshold (Trace, Debug, Info,
    Warn, Error, Critical, Panic in this order, so a panic record never is) only
    bumps [filtered] and touches neither device.  Any other record bumps
    [emitted], leaves the screen writer on the screen, and puts on the serial
    wire nothing when the target is the screen alone, and otherwise a prefix of its
    wire format: all of it when the UART is still answering at the end of the call. *)
Theorem log_correct now l subsys location msg (s : S) :
  vga_inv s.(vga) → s.(com1).(base) = COM1 →
  s.(cfg).(emitted) + 1 < U64 → s.(cfg).(filtered) + 1 < U64 →
  let c := s.(cfg) in
  ∃ s', log now l subsys location msg s = Ret s' ∧ vga_inv s'.(vga) ∧
    (l ∈ hidden c.(level) →
       s' = mkSink (mkLogConfig c.(level) c.(target) c.(show_location) c.(emitted) (c.(filtered) + 1)) s.(com1) s.(vga)) ∧
    (l ∉ hidden c.(level) →
       s'.(cfg) = mkLogConfig c.(level) c.(target) c.(show_location) (c.(emitted) + 1) c.(filtered) ∧
       ∃ w k, io s'.(vga).(hw) = io s.(vga).(hw) ++ w ∧
         let record := crlf (serial_record l now subsys location c.(show_location) msg) in
         wire COM1 w = (if bool_decide (c.(target) = BootInfo.Vga) then [] else take k record) ∧
         (c.(target) ≠ BootInfo.Vga → s'.(com1).(initialised) = true → wire COM1 w = record)).
Proof.
  intros Hi Hb He Hf. destruct (log_ok now l subsys location msg s Hi Hb He Hf) as (_ & s' & E & H1 & _ & _ & H2).
  exists s'. split; [exact E|]. split; [exact H1|]. rewrite dropped_hidden in H2. by case_bool_decide; split; intros.
Qed.

(** The log can take [n] more records. *)
Definition sink_ok (n : Z) (s : S) : Prop :=
  vga_inv s.(vga) ∧ s.(com1).(base) = COM1 ∧ 0 ≤ s.(cfg).(emitted) ∧ 0 ≤ s.(cfg).(filtered) ∧
  s.(cfg).(emitted) + s.(cfg).(filtered) + n < U64.

Lemma sink_less n m (s : S) : m ≤ n → sink_ok n s → sink_ok m s.
Proof. unfold sink_ok. intros Hn H. destruct_and! H. split_and!; done || lia. Qed.

Lemma log_step now l subsys location msg (s : S) n :
  0 ≤ n → sink_ok (n + 1) s →
  ∃ s', log now l subsys location msg s = Ret s' ∧ sink_ok n s' ∧ s'.(cfg).(level) = s.(cfg).(level) ∧
    s'.(cfg).(target) = s.(cfg).(target) ∧ s'.(cfg).(show_location) = s.(cfg).(show_location) ∧
    (s'.(com1).(initialised) = true → s.(com1).(initialised) = true).
Proof.
  intros Hn (Hi & Hb & He & Hf & Hs). destruct (log_ok now l subsys location msg s Hi Hb) as (_ & s' & E & Hi' & Hb' & Hm & H); [lia|lia|].
  exists s'. split; [exact E|]. unfold sink_ok. destruct (dropped_by _ _).
  - subst s'. cbn in *. split_and!; done || lia.
  - destruct H as [-> _]. cbn in *. split_and!; done || lia.
Qed.

End Log.

(** ** Redaction *)

(** [Secret] prints its length and never its bytes. *)
Definition Secret_fmt (secret : bytes) : bytes := lit "[REDACTED:" ++ dec (Z.of_nat (length secret)) ++ lit "]".

Lemma secret_redacted a b : length a = length b → Secret_fmt a = Secret_fmt b.
Proof. unfold Secret_fmt. by intros ->. Qed.

Definition demo_sink : Sink (list Z) := mkSink (CONFIG true) (mkSerial COM1 false) (demo_console 3 0).

(** A warning passes the default threshold, a debug record does not. *)
Lemma log_correct_witness :
  (∃ s', @log _ script_bus 1500000 Warn (lit "orin_kernel::memory::pmm") (lit "x.rs:1") (lit "low") demo_sink = Ret s' ∧
    stats s' = (1, 0)) ∧
  ∃ s', @log _ script_bus 1500000 Debug (lit "orin_kernel::memory::pmm") (lit "x.rs:1") (lit "low") demo_sink = Ret s' ∧
    stats s' = (0, 1) ∧ s'.(vga) = demo_sink.(vga).
Proof.
  split.
  - destruct (@log_correct _ script_bus 1500000 Warn (lit "orin_kernel::memory::pmm") (lit "x.rs:1") (lit "low") demo_sink)
      as (s' & E & _ & _ & H); [apply demo_console_inv; lia|reflexivity|by vm_compute|by vm_compute|].
    destruct H as [Hc _]; [by apply (bool_decide_unpack _)|].
    exists s'. split; [exact E|]. unfold stats. rewrite Hc. reflexivity.
  - destruct (@log_correct _ script_bus 1500000 Debug (lit "orin_kernel::memory::pmm") (lit "x.rs:1") (lit "low") demo_sink)
      as (s' & E & _ & H & _); [apply demo_console_inv; lia|reflexivity|by vm_compute|by vm_compute|].
    exists s'. split; [exact E|]. rewrite H; [|by apply (bool_decide_unpack _)]. split; reflexivity.
Defined.

Example record_example :
  serial_record Warn 1500000 (lit "orin_kernel::memory::pmm") (lit "x.rs:1") true (lit "low") =
    lit "ORIN|W|     1.500000|memory::pmm       |x.rs:1|low" ++ [0x0D; 0x0A].
Proof. vm_compute. reflexivity. Qed.
