(* ===== verification/Gdt.v ===== *)
(** * Descriptor tables and interrupt stacks (kernel/src/interrupts/gdt.rs)

    The GDT built through the x86_64 crate's [append], the TSS with its five
    interrupt stacks, and the layout of those stacks.  The crate's table is the
    parameter [GdtCrate].  The last theorem puts the stacks together with the
    address space of AddressSpace.v. *)

From stdpp Require Import base gmap sets list list_numbers strings.
From Stdlib Require Import ZArith Lia.
From S2P Require Import Prelude Arch BootInfo Bitmap Pmm PmmSpec Vmm PageTables VmmSpec AddressSpace VmmWitness.
#[local] Open Scope Z_scope.

Definition KERNEL_CODE_SEL : Z := 0x08.
Definition KERNEL_DATA_SEL : Z := 0x10.
Definition USER_DATA_SEL : Z := 0x1B.
Definition USER_CODE_SEL : Z := 0x23.
Definition TSS_SEL : Z := 0x28.

Definition ist_DOUBLE_FAULT : Z := 1.
Definition ist_NMI : Z := 2.
Definition ist_MACHINE_CHECK : Z := 3.
Definition ist_DEBUG : Z := 4.
Definition ist_PAGE_FAULT : Z := 5.
Definition ist_COUNT : Z := 5.

Definition IST_STACK_SIZE : Z := 16 * 1024.
Definition SLOT_BYTES : Z := PAGE_SIZE + IST_STACK_SIZE.

Inductive Descriptor : Type :=
  | kernel_code_segment | kernel_data_segment | user_data_segment | user_code_segment | tss_segment.

(** Privilege level and width (in table entries) of a descriptor. *)
Definition dpl (d : Descriptor) : Z :=
  match d with user_data_segment | user_code_segment => 3 | _ => 0 end.
Definition width (d : Descriptor) : Z := match d with tss_segment => 2 | _ => 1 end.

(** The crate's table: entry 0 is the null descriptor, [append] returns
    [index << 3 | DPL] and panics when the table of eight entries is full. *)
Class GdtCrate : Type := {
  Table : Type;
  Table_new : Table;
  used : Table → Z;
  append : Table → Descriptor → Res (Z * Table);
  used_new : used Table_new = 1;
  append_ok g d : 0 < used g → used g + width d ≤ 8 →
    ∃ g', append g d = Ret (Z.lor (Z.shiftl (used g) 3) (dpl d), g') ∧ used g' = used g + width d;
}.

(** A table that satisfies the laws. *)
#[refine] Definition gdt_ref : GdtCrate := {|
  Table := Z;
  Table_new := 1;
  used g := g;
  append g d := if g + width d <=? 8 then Ret (Z.lor (Z.shiftl g 3) (dpl d), g + width d)
                else Panic (PanicMsg "GDT full");
|}.
Proof. - done. - intros g d _ H. destruct (Z.leb_spec (g + width d) 8); [eauto|lia]. Defined.

Record Selectors : Type := mkSelectors {
  kernel_code : Z; kernel_data : Z; user_code : Z; user_data : Z; tss : Z }.

(** The TSS fields [init] fills in. *)
Record Tss : Type := mkTss { interrupt_stack_table : list Z; iomap_base : Z }.

Definition Tss_new : Tss := mkTss (replicate 7 0) 0.
Definition TSS_BYTES : Z := 104.

Record Gdt `{G : GdtCrate} : Type := mkGdt { INIT_DONE : bool; TSS_STORAGE : Tss; GDT_STORAGE : Table }.
Arguments mkGdt {G} _ _ _.
Arguments INIT_DONE {G} _.
Arguments TSS_STORAGE {G} _.
Arguments GDT_STORAGE {G} _.

Section Gdt.
Context `{X : X86Crate} `{G : GdtCrate}.
(** The address of [IST_STACKS.slots]. *)
Context (ist_base : Z).

Definition ist_stack_top (slot : Z) : Res Z :=
  _ ← rassert ((1 <=? slot) && (slot <=? ist_COUNT)) "ist: bad slot";
  a ← add64 (ist_base + (slot - 1) * SLOT_BYTES) SLOT_BYTES;
  VirtAddr_new a.

Definition ist_guard_addr (slot : Z) : Res Z := VirtAddr_new (ist_base + (slot - 1) * SLOT_BYTES).

Definition ist_total_bytes : Z := ist_COUNT * SLOT_BYTES.

(** The loop that fills the interrupt stack table. *)
Definition fill_tss (t : Tss) : Res Tss :=
  l ← for_range 1 (ist_COUNT + 1) t.(interrupt_stack_table)
        (fun slot l => top ← ist_stack_top slot; lset l (slot - 1) top);
  Ret (mkTss l TSS_BYTES).

Definition check_selectors (s : Selectors) : Res unit :=
  _ ← rassert (s.(kernel_code) =? KERNEL_CODE_SEL) "gdt: kernel code selector";
  _ ← rassert (s.(user_data) =? USER_DATA_SEL) "gdt: user data selector mismatch";
  _ ← rassert (s.(user_code) =? USER_CODE_SEL) "gdt: user code selector mismatch";
  _ ← rassert (s.(tss) =? TSS_SEL) "gdt: TSS selector mismatch";
  rassert (s.(kernel_data) =? KERNEL_DATA_SEL) "gdt: kernel data selector mismatch".

Definition build_gdt (g : Table) : Res (Selectors * Table) :=
  '(kcode, g) ← append g kernel_code_segment;
  '(kdata, g) ← append g kernel_data_segment;
  '(udata, g) ← append g user_data_segment;
  '(ucode, g) ← append g user_code_segment;
  '(tss_s, g) ← append g tss_segment;
  Ret (mkSelectors kcode kdata ucode udata tss_s, g).

Definition init (s : Gdt) : Res (Selectors * Gdt) :=
  s ← (if s.(INIT_DONE) then Ret s
       else
         t ← fill_tss s.(TSS_STORAGE);
         '(sels, g) ← build_gdt s.(GDT_STORAGE);
         _ ← check_selectors sels;
         Ret (mkGdt true t g));
  Ret (mkSelectors KERNEL_CODE_SEL KERNEL_DATA_SEL USER_CODE_SEL USER_DATA_SEL TSS_SEL, s).

(** ** Facts *)

(** The stacks are in the kernel half. *)
Definition ist_ok : Prop := KERNEL_VMA ≤ ist_base ∧ ist_base + ist_total_bytes < U64.

Lemma ist_stack_top_ok slot :
  ist_ok → 1 ≤ slot ≤ 5 → ist_stack_top slot = Ret (ist_base + slot * SLOT_BYTES).
Proof.
  intros [Hlo Hhi] Hs. unfold ist_stack_top, ist_COUNT.
  destruct (Z.leb_spec 1 slot), (Z.leb_spec slot 5); try lia. cbn [andb rassert mbind Res_bind].
  unfold ist_total_bytes, ist_COUNT, SLOT_BYTES, IST_STACK_SIZE, PAGE_SIZE in *.
  rewrite add64_ok by lia. cbn [mbind Res_bind]. rewrite VirtAddr_new_ok; [f_equal; lia|].
  apply canonical_iff. unfold KERNEL_VMA in *. rewrite U64_val in *. lia.
Qed.

Lemma fill_tss_ok t :
  ist_ok → length t.(interrupt_stack_table) = 7%nat →
  ∃ l, fill_tss t = Ret (mkTss l TSS_BYTES) ∧ length l = 7%nat ∧
       ∀ slot, 1 ≤ slot ≤ 5 → l !! Z.to_nat (slot - 1) = Some (ist_base + slot * SLOT_BYTES).
Proof.
  intros Hok Hlen. unfold fill_tss, ist_COUNT.
  destruct (for_range_inv (fun n l => length l = 7%nat ∧
      ∀ slot, 1 ≤ slot < n → l !! Z.to_nat (slot - 1) = Some (ist_base + slot * SLOT_BYTES))
      1 (5 + 1) t.(interrupt_stack_table) (fun slot l => top ← ist_stack_top slot; lset l (slot - 1) top))
    as (l & -> & Hl & Hs).
  - lia.
  - split; [done|lia].
  - intros n l Hn [Hl Hs]. rewrite ist_stack_top_ok by (done || lia). cbn [mbind Res_bind].
    rewrite lset_ok by lia. eexists. split; [reflexivity|]. split; [by rewrite length_insert|].
    intros slot Hslot. destruct (decide (slot = n)) as [->|].
    + apply list_lookup_insert_eq. lia.
    + rewrite list_lookup_insert_ne by lia. apply Hs. lia.
  - cbn [mbind Res_bind]. exists l. split; [done|]. split; [done|]. intros slot Hslot. apply Hs. lia.
Qed.

Lemma build_gdt_ok :
  ∃ g, build_gdt Table_new = Ret (mkSelectors KERNEL_CODE_SEL KERNEL_DATA_SEL USER_CODE_SEL USER_DATA_SEL TSS_SEL, g).
Proof.
  pose proof used_new as H0. unfold build_gdt.
  destruct (append_ok Table_new kernel_code_segment) as (g1 & -> & H1); [lia|cbn; lia|]. cbn [mbind Res_bind].
  destruct (append_ok g1 kernel_data_segment) as (g2 & -> & H2); [cbn in *; lia|cbn in *; lia|]. cbn [mbind Res_bind].
  destruct (append_ok g2 user_data_segment) as (g3 & -> & H3); [cbn in *; lia|cbn in *; lia|]. cbn [mbind Res_bind].
  destruct (append_ok g3 user_code_segment) as (g4 & -> & H4); [cbn in *; lia|cbn in *; lia|]. cbn [mbind Res_bind].
  destruct (append_ok g4 tss_segment) as (g5 & -> & H5); [cbn in *; lia|cbn in *; lia|]. cbn [mbind Res_bind].
  exists g5. cbn [width dpl] in *. rewrite H4, H3, H2, H1, H0. reflexivity.
Qed.

Lemma gdt_init_ok s :
  ist_ok → (s.(INIT_DONE) = false → length s.(TSS_STORAGE).(interrupt_stack_table) = 7%nat ∧ s.(GDT_STORAGE) = Table_new) →
  ∃ s', init s = Ret (mkSelectors KERNEL_CODE_SEL KERNEL_DATA_SEL USER_CODE_SEL USER_DATA_SEL TSS_SEL, s') ∧
    s'.(INIT_DONE) = true ∧
    (s.(INIT_DONE) = false → ∀ slot, 1 ≤ slot ≤ 5 →
       s'.(TSS_STORAGE).(interrupt_stack_table) !! Z.to_nat (slot - 1) = Some (ist_base + slot * SLOT_BYTES)).
Proof.
  intros Hok Hfresh. unfold init. destruct (INIT_DONE s) eqn:Ed.
  - cbn [mbind Res_bind]. exists s. done.
  - destruct (Hfresh eq_refl) as [Hlen Hg]. destruct (fill_tss_ok s.(TSS_STORAGE) Hok Hlen) as (l & -> & Hl & Hs).
    cbn [mbind Res_bind]. rewrite Hg. destruct build_gdt_ok as [g ->]. cbn [mbind Res_bind].
    eexists. split; [reflexivity|]. split; [done|]. intros _. exact Hs.
Qed.

(** C36: [gdt::init] succeeds, never trips its selector assertions, and is
    idempotent; it returns the selectors the syscall ABI fixes, and gives the TSS
    five interrupt stacks of 16 KiB that neither overlap each other nor any
    slot's guard page. *)
Theorem gdt_init_correct :
  ist_ok →
  ∃ sels s1, init (mkGdt false Tss_new Table_new) = Ret (sels, s1) ∧ init s1 = Ret (sels, s1) ∧
    sels = mkSelectors 0x08 0x10 0x23 0x1B 0x28 ∧
    ∀ slot, 1 ≤ slot ≤ 5 → ∃ top, s1.(TSS_STORAGE).(interrupt_stack_table) !! Z.to_nat (slot - 1) = Some top ∧
      ∀ slot' guard, 1 ≤ slot' ≤ 5 → ist_guard_addr slot' = Ret guard →
        (guard + PAGE_SIZE ≤ top - IST_STACK_SIZE ∨ top ≤ guard) ∧
        (∀ top', slot' ≠ slot → s1.(TSS_STORAGE).(interrupt_stack_table) !! Z.to_nat (slot' - 1) = Some top' →
           top' ≤ top - IST_STACK_SIZE ∨ top ≤ top' - IST_STACK_SIZE).
Proof.
  intros Hok. destruct (gdt_init_ok (mkGdt false Tss_new Table_new) Hok) as (s1 & E & Hd & Hs).
  { intros _. split; [apply length_replicate|done]. }
  eexists _, s1. split; [exact E|]. split; [|split; [done|]].
  { unfold init. rewrite Hd. done. }
  intros slot Hslot. exists (ist_base + slot * SLOT_BYTES). split; [by apply Hs|]. intros slot' guard Hslot' Hguard.
  assert (guard = ist_base + (slot' - 1) * SLOT_BYTES) as ->.
  { unfold ist_guard_addr in Hguard. destruct Hok as [Hlo Hhi].
    unfold ist_total_bytes, ist_COUNT, SLOT_BYTES, IST_STACK_SIZE, PAGE_SIZE in *.
    rewrite VirtAddr_new_ok in Hguard; [by injection Hguard|].
    apply canonical_iff. unfold KERNEL_VMA in *. rewrite U64_val in *. lia. }
  unfold SLOT_BYTES, IST_STACK_SIZE, PAGE_SIZE in *. split; [nia|].
  intros top' Hne Htop. rewrite Hs in Htop by done. injection Htop as <-. unfold SLOT_BYTES, IST_STACK_SIZE, PAGE_SIZE. nia.
Qed.

End Gdt.

Lemma gdt_init_correct_witness :
  ∃ sels s1, @init x86_ref gdt_ref 0xFFFFFFFF81000000 (@mkGdt gdt_ref false Tss_new 1) = Ret (sels, s1) ∧
    sels.(user_code) = 0x23.
Proof.
  destruct (@gdt_init_correct x86_ref gdt_ref 0xFFFFFFFF81000000) as (sels & s1 & E & _ & Hs & _).
  - split; [by vm_compute|by vm_compute].
  - exists sels, s1. split; [exact E|]. rewrite Hs. reflexivity.
Defined.

(** ** The guard pages

    The source says that the guard page below each interrupt stack is not
    mapped.  The stacks are in .bss, and [vmm::init] maps all of .bss. *)

Section Guards.
Context {S : Type} `{FS : FrameSource S} `{X : X86Crate} (debug : bool).

(** After [vmm::init] the guard page below each interrupt stack, anywhere in
    .bss the stacks may lie, is mapped like the rest of .bss, so an overflowing
    interrupt stack runs into it without a fault. *)
Theorem ist_guard_pages_mapped k bp lo hi (s : Vmm S) ist_base slot :
  init_env k bp lo hi s →
  k.(bss_start) ≤ ist_base → ist_base + ist_total_bytes ≤ k.(bss_end) → k.(bss_end) ≤ k.(virt_end) → 1 ≤ slot ≤ 5 →
  ∃ info s' e, Vmm.init debug k bp s = Ret (info, s') ∧
    let guard := ist_base + (slot - 1) * SLOT_BYTES in
    translate debug s' guard = Ret (Some (guard - KERNEL_VMA, e)).
Proof.
  intros Henv Hlo Hhi Hend Hslot.
  destruct (AddressSpace.init_ok debug k bp lo hi s Henv) as (info & s' & path & E & _ & _ & _ & _ & Htr & _).
  pose proof (ie_sections _ _ _ _ _ Henv) as Hsec. destruct (image_top_bounds k Hsec) as [Htop _].
  assert (k.(virt_end) ≤ image_top k) as Hve.
  { unfold image_top, LP, LARGE_PAGE_SIZE. zlia. }
  destruct Hsec as [_ Hs1 [[Hs2 Hs3] Hs4] [Hs5 Hs6] [Hs7 Hs8] [Hs9 Hs10] Hs11].
  unfold ist_total_bytes, ist_COUNT, SLOT_BYTES, IST_STACK_SIZE, PAGE_SIZE in *.
  unfold KERNEL_VMA, LP, LARGE_PAGE_SIZE in *. rewrite U64_val in *.
  set (guard := ist_base + (slot - 1) * (4096 + 16 * 1024)). assert (k.(bss_start) ≤ guard < k.(virt_end)) as Hg by lia.
  clearbody guard. exists info, s', (page_entry s.(NX_AVAILABLE) k.(bss_start) (k.(bss_start) - 0xFFFFFFFF80000000) guard DataRwNx).
  split; [done|]. cbn zeta. rewrite Htr by lia. do 2 f_equal.
  cbn [kernel_regions layout in_region r_va r_len r_pa r_perm]. unfold in_region. cbn [r_va r_len].
  repeat match goal with |- context [(?a <=? ?b) && (?c <? ?d)] =>
    destruct (Z.leb_spec a b), (Z.ltb_spec c d); cbn [andb]; try lia end.
  f_equal. f_equal. unfold KERNEL_VMA. lia.
Qed.

End Guards.

#[local] Existing Instance list_source.
#[local] Existing Instance x86_ref.

Lemma ist_guard_pages_mapped_witness :
  ∃ info s' e, Vmm.init false demo_syms 0x500 (demo 0) = Ret (info, s') ∧
    translate false s' (KERNEL_VMA + 0x800000) = Ret (Some (0x800000, e)).
Proof.
  destruct (ist_guard_pages_mapped false demo_syms 0x500 0x1000000 0x1004000 (demo 0) (KERNEL_VMA + 0x800000) 1 demo_init_env)
    as (info & s' & e & E & H); [by vm_compute|by vm_compute|by vm_compute|lia|].
  exists info, s', e. split; [exact E|]. exact H.
Defined.
