(* ===== verification/Idt.v ===== *)
(** * Interrupt dispatch (kernel/src/interrupts/idt.rs)

    The interrupt descriptor table as [init] leaves it (a catch-all in the vectors
    that the macro [set_general_handler!] of the x86_64 crate writes, a parameter,
    then the purposeful handlers over it) and the handlers themselves over
    the state of the drivers they call.  A handler that ends in a Rust panic
    returns [Panic]; what the handlers print, and the locks they take for it, is
    modelled in Exceptions.v and Irqs.v. *)

From stdpp Require Import base list list_numbers strings relations.
From Stdlib Require Import ZArith Lia.
From S2P Require Import Prelude Ports Arch Gdt Pic Pit Ring Keyboard KeyboardSpec.
#[local] Open Scope Z_scope.

Definition SYSCALL_VECTOR : Z := 0x40.
Definition SPURIOUS_VECTOR : Z := 0xFF.

(** ** Counters *)

Record Counters : Type := mkCounters {
  timer_ticks : Z; key_events : Z; spurious : Z; exceptions : Z; unassigned : Z; syscalls : Z }.

Definition Counters_initial : Counters := mkCounters 0 0 0 0 0 0.

Inductive Counter : Type := TimerTicks | KeyEvents | Spurious | Exceptions | Unassigned | Syscalls.

Definition bump (which : Counter) (c : Counters) : Res Counters :=
  match which with
  | TimerTicks => n ← add64 c.(timer_ticks) 1;
      Ret (mkCounters n c.(key_events) c.(spurious) c.(exceptions) c.(unassigned) c.(syscalls))
  | KeyEvents => n ← add64 c.(key_events) 1;
      Ret (mkCounters c.(timer_ticks) n c.(spurious) c.(exceptions) c.(unassigned) c.(syscalls))
  | Spurious => n ← add64 c.(spurious) 1;
      Ret (mkCounters c.(timer_ticks) c.(key_events) n c.(exceptions) c.(unassigned) c.(syscalls))
  | Exceptions => n ← add64 c.(exceptions) 1;
      Ret (mkCounters c.(timer_ticks) c.(key_events) c.(spurious) n c.(unassigned) c.(syscalls))
  | Unassigned => n ← add64 c.(unassigned) 1;
      Ret (mkCounters c.(timer_ticks) c.(key_events) c.(spurious) c.(exceptions) n c.(syscalls))
  | Syscalls => n ← add64 c.(syscalls) 1;
      Ret (mkCounters c.(timer_ticks) c.(key_events) c.(spurious) c.(exceptions) c.(unassigned) n)
  end.

Definition counters (c : Counters) : Z * Z * Z * Z * Z * Z :=
  (c.(timer_ticks), c.(key_events), c.(spurious), c.(exceptions), c.(unassigned), c.(syscalls)).

(** ** The table *)

Inductive Handler : Type :=
  | on_unassigned_general
  | on_divide_error | on_debug | on_nmi | on_breakpoint | on_overflow | on_bound_range | on_invalid_opcode
  | on_device_not_available | on_double_fault | on_invalid_tss | on_segment_not_present | on_stack_segment
  | on_general_protection | on_page_fault | on_x87_fault | on_alignment_check | on_machine_check
  | on_simd_fault | on_virtualization | on_vmm_comm | on_security_exception
  | on_irq_timer | on_irq_keyboard | on_irq_cascade | on_irq_unexpected
  | on_syscall_vector | on_spurious.

#[export] Instance Handler_eq_dec : EqDecision Handler.
Proof. solve_decision. Defined.

(** An entry: its handler and the interrupt stack it switches to (0: none). *)
Record Entry : Type := mkEntry { handler : Handler; stack_index : Z }.

(** [None] is a gate that is not present. *)
Definition Idt : Type := list (option Entry).

Definition set_handler (vec : Z) (h : Handler) (t : Idt) : Res Idt := lset t vec (Some (mkEntry h 0)).
Definition set_handler_ist (vec : Z) (h : Handler) (ist : Z) (t : Idt) : Res Idt :=
  lset t vec (Some (mkEntry h ist)).

(** [idt[pic::vector_for_irq(irq)].set_handler_fn(h)] *)
Definition set_irq (irq : Z) (h : Handler) (t : Idt) : Res Idt := v ← vector_for_irq irq; set_handler v h t.

Definition install_exceptions (t : Idt) : Res Idt :=
  t ← set_handler 0x00 on_divide_error t;
  t ← set_handler 0x01 on_debug t;
  t ← set_handler_ist 0x02 on_nmi ist_NMI t;
  t ← set_handler 0x03 on_breakpoint t;
  t ← set_handler 0x04 on_overflow t;
  t ← set_handler 0x05 on_bound_range t;
  t ← set_handler 0x06 on_invalid_opcode t;
  t ← set_handler 0x07 on_device_not_available t;
  t ← set_handler_ist 0x08 on_double_fault ist_DOUBLE_FAULT t;
  t ← set_handler 0x0A on_invalid_tss t;
  t ← set_handler 0x0B on_segment_not_present t;
  t ← set_handler 0x0C on_stack_segment t;
  t ← set_handler 0x0D on_general_protection t;
  t ← set_handler_ist 0x0E on_page_fault ist_PAGE_FAULT t;
  t ← set_handler 0x10 on_x87_fault t;
  t ← set_handler 0x11 on_alignment_check t;
  t ← set_handler_ist 0x12 on_machine_check ist_MACHINE_CHECK t;
  t ← set_handler 0x13 on_simd_fault t;
  t ← set_handler 0x14 on_virtualization t;
  t ← set_handler 0x1D on_vmm_comm t;
  set_handler 0x1E on_security_exception t.

Definition unexpected_irqs : list Z := [3; 4; 5; 6; 7; 8; 9; 10; 11; 12; 13; 14; 15].

Definition install_purposeful_handlers (t : Idt) : Res Idt :=
  t ← install_exceptions t;
  t ← set_irq irq_TIMER on_irq_timer t;
  t ← set_irq irq_KEYBOARD on_irq_keyboard t;
  t ← set_irq irq_CASCADE on_irq_cascade t;
  t ← for_list unexpected_irqs t (fun irq_num t => set_irq irq_num on_irq_unexpected t);
  t ← set_handler SYSCALL_VECTOR on_syscall_vector t;
  set_handler SPURIOUS_VECTOR on_spurious t.

(** [set_general_handler!(idt, CATCH_ALL, 0..=255u8)] is a macro of the x86_64
    crate; [fills v] says whether it writes the entry of vector [v]. *)
Definition blanket (fills : Z → bool) : Idt :=
  (fun v => if fills v then Some (mkEntry on_unassigned_general 0) else None) <$> seqZ 0 256.

Definition idt_init (fills : Z → bool) : Res Idt := install_purposeful_handlers (blanket fills).

Definition is_assigned (v : Z) : bool :=
  (v <? 32) || ((0x20 <=? v) && (v <? 0x30)) || (v =? SYSCALL_VECTOR) || (v =? SPURIOUS_VECTOR).

(** ** The handlers *)

(** The state interrupt handlers work on. *)
Record Machine (D : Type) : Type := mkMachine {
  ctr : Counters; pic : Pic; pit : Pit; ring : Ring; mhw : Hw D }.
Arguments mkMachine {D} _ _ _ _ _.
Arguments ctr {D} _.
Arguments pic {D} _.
Arguments pit {D} _.
Arguments ring {D} _.
Arguments mhw {D} _.

Section Handlers.
Context {D : Type} `{B : Bus D}.
(** [cpu::debugger_attached()] *)
Context (debugger_attached : bool).
Abbreviation M := (Machine D).

Definition set_ctr (c : Counters) (m : M) : M := mkMachine c m.(pic) m.(pit) m.(ring) m.(mhw).

Definition bump_m (w : Counter) (m : M) : Res M := c ← bump w m.(ctr); Ret (set_ctr c m).

(** [fatal_exception]: count, report, panic. *)
Definition fatal_exception (name : string) (m : M) : Res M :=
  _ ← bump_m Exceptions m; Panic (PanicMsg name).

(** [#DB] returns to an attached debugger. *)
Definition run_debug (m : M) : Res M :=
  if debugger_attached then bump_m Exceptions m else fatal_exception "debug (#DB)" m.

(** Handlers that count an exception and panic with a message of their own. *)
Definition count_and_panic (msg : string) (m : M) : Res M :=
  _ ← bump_m Exceptions m; Panic (PanicMsg msg).

(** [pic::end_of_interrupt(pic::vector_for_irq(irq))] *)
Definition eoi (irq : Z) (m : M) : Res M :=
  v ← vector_for_irq irq;
  Ret (mkMachine m.(ctr) m.(pic) m.(pit) m.(ring) (end_of_interrupt v m.(mhw))).

Definition run_irq_timer (m : M) : Res M :=
  m ← bump_m TimerTicks m;
  eoi irq_TIMER (mkMachine m.(ctr) m.(pic) (tick m.(pit)) m.(ring) m.(mhw)).

Definition run_irq_keyboard (m : M) : Res M :=
  m ← bump_m KeyEvents m;
  '(r, h) ← interrupt_handler m.(ring) m.(mhw);
  eoi irq_KEYBOARD (mkMachine m.(ctr) m.(pic) m.(pit) r h).

Definition run_irq_cascade (m : M) : Res M := eoi irq_CASCADE m.

Definition mask_m (irq_num : Z) (m : M) : Res M :=
  '(p, h) ← mask irq_num m.(pic) m.(mhw);
  Ret (mkMachine m.(ctr) p m.(pit) m.(ring) h).

Definition run_irq_unexpected (m : M) : Res M :=
  m ← bump_m Unassigned m;
  m ← for_list unexpected_irqs m mask_m;
  eoi 8 m.

Definition run_syscall_vector (m : M) : Res M := bump_m Syscalls m.
Definition run_spurious (m : M) : Res M := bump_m Spurious m.

Definition run_unassigned (m : M) : Res M :=
  _ ← bump_m Unassigned m; Panic (PanicMsg "interrupt on unassigned vector").

(** What each handler does. *)
Definition run_handler (h : Handler) (m : M) : Res M :=
  match h with
  | on_unassigned_general => run_unassigned m
  | on_divide_error => fatal_exception "divide-error (#DE)" m
  | on_debug => run_debug m
  | on_nmi => count_and_panic "non-maskable interrupt" m
  | on_breakpoint => bump_m Exceptions m
  | on_overflow => fatal_exception "overflow (#OF)" m
  | on_bound_range => fatal_exception "bound-range-exceeded (#BR)" m
  | on_invalid_opcode => fatal_exception "invalid-opcode (#UD)" m
  | on_device_not_available => fatal_exception "device-not-available (#NM)" m
  | on_double_fault => count_and_panic "double fault" m
  | on_invalid_tss => fatal_exception "invalid-TSS (#TS)" m
  | on_segment_not_present => fatal_exception "segment-not-present (#NP)" m
  | on_stack_segment => fatal_exception "stack-segment-fault (#SS)" m
  | on_general_protection => fatal_exception "general-protection (#GP)" m
  | on_page_fault => fatal_exception "page-fault (#PF)" m
  | on_x87_fault => fatal_exception "x87-floating-point (#MF)" m
  | on_alignment_check => fatal_exception "alignment-check (#AC)" m
  | on_machine_check => count_and_panic "machine check" m
  | on_simd_fault => fatal_exception "simd-floating-point (#XF)" m
  | on_virtualization => fatal_exception "virtualization (#VE)" m
  | on_vmm_comm => fatal_exception "vmm-communication (#VC)" m
  | on_security_exception => fatal_exception "security-exception (#SX)" m
  | on_irq_timer => run_irq_timer m
  | on_irq_keyboard => run_irq_keyboard m
  | on_irq_cascade => run_irq_cascade m
  | on_irq_unexpected => run_irq_unexpected m
  | on_syscall_vector => run_syscall_vector m
  | on_spurious => run_spurious m
  end.

(** The CPU delivers vector [vec] through the table; a gate that is not
    present raises #NP instead. *)
Definition dispatch (t : Idt) (vec : Z) (m : M) : Res M :=
  e ← lget t vec;
  match e with
  | Some e => run_handler e.(handler) m
  | None =>
      np ← lget t 0x0B;
      match np with Some e => run_handler e.(handler) m | None => Panic (PanicMsg "triple fault") end
  end.

End Handlers.

(** ** The table [init] loads *)

Lemma bounded16 i : 0 ≤ i < 16 →
  i = 0 ∨ i = 1 ∨ i = 2 ∨ i = 3 ∨ i = 4 ∨ i = 5 ∨ i = 6 ∨ i = 7 ∨ i = 8 ∨ i = 9 ∨ i = 10 ∨ i = 11 ∨ i = 12 ∨ i = 13 ∨ i = 14 ∨ i = 15.
Proof. lia. Qed.

Section Table.
Context (fills : Z → bool).

(** The vectors with a purposeful handler. *)
Definition purposeful : list (Z * Entry) :=
  [(0, mkEntry on_divide_error 0); (1, mkEntry on_debug 0); (2, mkEntry on_nmi 2); (3, mkEntry on_breakpoint 0);
   (4, mkEntry on_overflow 0); (5, mkEntry on_bound_range 0); (6, mkEntry on_invalid_opcode 0);
   (7, mkEntry on_device_not_available 0); (8, mkEntry on_double_fault 1); (10, mkEntry on_invalid_tss 0);
   (11, mkEntry on_segment_not_present 0); (12, mkEntry on_stack_segment 0);
   (13, mkEntry on_general_protection 0); (14, mkEntry on_page_fault 5); (16, mkEntry on_x87_fault 0);
   (17, mkEntry on_alignment_check 0); (18, mkEntry on_machine_check 3); (19, mkEntry on_simd_fault 0);
   (20, mkEntry on_virtualization 0); (29, mkEntry on_vmm_comm 0); (30, mkEntry on_security_exception 0);
   (32, mkEntry on_irq_timer 0); (33, mkEntry on_irq_keyboard 0); (34, mkEntry on_irq_cascade 0)]
  ++ ((fun v => (v, mkEntry on_irq_unexpected 0)) <$> seqZ 35 13)
  ++ [(64, mkEntry on_syscall_vector 0); (255, mkEntry on_spurious 0)].

Fixpoint assoc (v : Z) (l : list (Z * Entry)) : option Entry :=
  match l with [] => None | (w, e) :: l' => if w =? v then Some e else assoc v l' end.

Definition expected (v : Z) : option Entry :=
  match assoc v purposeful with
  | Some e => Some e
  | None => if fills v then Some (mkEntry on_unassigned_general 0) else None
  end.

Lemma idt_init_eq : idt_init fills = Ret (expected <$> seqZ 0 256).
Proof. vm_compute. reflexivity. Qed.

Lemma lget_expected v : 0 ≤ v < 256 → lget (expected <$> seqZ 0 256) v = Ret (expected v).
Proof.
  intros Hv. unfold lget. destruct (Z.leb_spec 0 v); [|lia]. rewrite list_lookup_fmap, lookup_seqZ_lt by lia. cbn [fmap option_fmap option_map].
  do 2 f_equal. lia.
Qed.

(** *** Facts about the list of purposeful vectors *)

Lemma assoc_In v l e : assoc v l = Some e → (v, e) ∈ l.
Proof.
  induction l as [|[w x] l IH]; cbn [assoc]; [done|]. destruct (Z.eqb_spec w v) as [->|].
  - intros [= ->]. left.
  - intros H. right. by apply IH.
Qed.

Lemma assoc_None v l : v ∉ l.*1 → assoc v l = None.
Proof.
  induction l as [|[w x] l IH]; cbn [assoc fmap list_fmap fst]; [done|].
  intros [Hne Hl]%not_elem_of_cons. destruct (Z.eqb_spec w v); [congruence|]. by apply IH.
Qed.

Lemma assoc_NoDup v e l : NoDup l.*1 → (v, e) ∈ l → assoc v l = Some e.
Proof.
  induction l as [|[w x] l IH]; cbn [assoc fmap list_fmap fst]; [intros _ H; by apply elem_of_nil in H|].
  intros [Hw Hn]%NoDup_cons [Heq | Hin]%elem_of_cons.
  - injection Heq as -> ->. by rewrite Z.eqb_refl.
  - destruct (Z.eqb_spec w v) as [->|]; [|by apply IH].
    destruct Hw. apply list_elem_of_fmap. by exists (v, e).
Qed.

Lemma purposeful_NoDup : NoDup purposeful.*1.
Proof. by apply (bool_decide_unpack _). Qed.

Lemma purposeful_range v e : (v, e) ∈ purposeful → 0 ≤ v < 256.
Proof.
  assert (Forall (fun p : Z * Entry => 0 ≤ p.1 < 256) purposeful) as H by (repeat constructor; cbn; lia).
  rewrite Forall_forall in H. intros Hin. exact (H _ Hin).
Qed.

(** The stack gdt.rs reserves for a vector, 0 for the stack in use: only #NMI,
    #DF, #PF and #MC switch, each to a stack of its own. *)
Definition ist_of (v : Z) : Z :=
  if v =? 2 then ist_NMI else if v =? 8 then ist_DOUBLE_FAULT
  else if v =? 14 then ist_PAGE_FAULT else if v =? 18 then ist_MACHINE_CHECK else 0.

Lemma purposeful_ist v e : (v, e) ∈ purposeful → e.(stack_index) = ist_of v.
Proof.
  assert (Forall (fun p : Z * Entry => p.2.(stack_index) = ist_of p.1) purposeful) as H
    by (by apply (bool_decide_unpack _)).
  rewrite Forall_forall in H. intros Hin. exact (H _ Hin).
Qed.

Lemma ist_of_other v : assoc v purposeful = None → ist_of v = 0.
Proof.
  unfold ist_of. destruct (Z.eqb_spec v 2) as [->|]; [done|]. destruct (Z.eqb_spec v 8) as [->|]; [done|].
  destruct (Z.eqb_spec v 14) as [->|]; [done|]. by destruct (Z.eqb_spec v 18) as [->|].
Qed.

Lemma assoc_absent v l : assoc v l = None → v ∉ l.*1.
Proof.
  induction l as [|[w x] l IH]; cbn [assoc fmap list_fmap fst]; [intros _; apply not_elem_of_nil|].
  destruct (Z.eqb_spec w v); [done|]. intros H%IH. by apply not_elem_of_cons.
Qed.

(** C35: [idt::init] never panics, whichever vectors the [set_general_handler!]
    macro of the x86_64 crate writes.  Every purposeful handler is at its
    architectural vector, none of them overwritten by the catch-all, which holds
    exactly the other vectors the macro writes; a vector is left without a gate
    exactly when it has no purposeful handler and the macro skips it.  All 16 PIC
    lines have a handler of their own at the vector the controllers deliver them
    on; every gate runs on the stack in use but those of #NMI, #DF, #PF and #MC,
    each of which switches to the stack gdt.rs reserves for it. *)
Theorem idt_init_table :
  ∃ t, idt_init fills = Ret t ∧ length t = 256%nat ∧
    (∀ v e, (v, e) ∈ purposeful → lget t v = Ret (Some e)) ∧
    (∀ v, 0 ≤ v < 256 → v ∉ purposeful.*1 →
       lget t v = Ret (if fills v then Some (mkEntry on_unassigned_general 0) else None)) ∧
    (∀ v, 0 ≤ v < 256 → (lget t v = Ret None ↔ (v ∉ purposeful.*1) ∧ fills v = false)) ∧
    (∀ irq, 0 ≤ irq < 16 → ∃ v h, vector_for_irq irq = Ret v ∧ v = 0x20 + irq ∧ lget t v = Ret (Some (mkEntry h 0)) ∧
       h = if irq =? irq_TIMER then on_irq_timer else if irq =? irq_KEYBOARD then on_irq_keyboard
           else if irq =? irq_CASCADE then on_irq_cascade else on_irq_unexpected) ∧
    (∀ v e, 0 ≤ v < 256 → lget t v = Ret (Some e) → e.(stack_index) = ist_of v).
Proof.
  exists (expected <$> seqZ 0 256). split; [apply idt_init_eq|]. split; [by rewrite length_fmap, length_seqZ|]. split_and!.
  - intros v e Hin. rewrite lget_expected by (by eapply purposeful_range). unfold expected.
    by rewrite (assoc_NoDup _ _ _ purposeful_NoDup Hin).
  - intros v Hv Hn. rewrite lget_expected by done. unfold expected. by rewrite assoc_None.
  - intros v Hv. rewrite lget_expected by done. unfold expected. split.
    + destruct (assoc v purposeful) eqn:Ha; [done|]. destruct (fills v); [done|]. intros _.
      split; [by apply assoc_absent|done].
    + intros [Hn Hf]. by rewrite assoc_None, Hf.
  - intros irq Hirq. destruct (irq_vector irq Hirq) as [-> _]. eexists _, _. split; [done|]. split; [done|]. split; [|reflexivity].
    rewrite lget_expected by (unfold MASTER_OFFSET; lia).
    by destruct (bounded16 irq Hirq) as [->|[->|[->|[->|[->|[->|[->|[->|[->|[->|[->|[->|[->|[->|[->| ->]]]]]]]]]]]]]]].
  - intros v e Hv. rewrite lget_expected by done. unfold expected. destruct (assoc v purposeful) eqn:Ha.
    + intros [= ->]. apply assoc_In in Ha. by apply purposeful_ist.
    + rewrite (ist_of_other _ Ha). by destruct (fills v); intros [= <-].
Qed.

(** [is_assigned] answers yes for vectors that keep the catch-all. *)
Lemma is_assigned_overclaims :
  (∀ v e, (v, e) ∈ purposeful → is_assigned v = true) ∧
  filter (fun v => is_assigned v = true ∧ v ∉ purposeful.*1) (seqZ 0 256) =
    [9; 15; 21; 22; 23; 24; 25; 26; 27; 28; 31].
Proof.
  split; [|by vm_compute].
  assert (Forall (fun p : Z * Entry => is_assigned p.1 = true) purposeful) as H by (by apply (bool_decide_unpack _)).
  rewrite Forall_forall in H. intros v e Hin. exact (H _ Hin).
Qed.

End Table.
