(* ===== verification/Interrupts.v ===== *)
(** * The interrupt subsystem as a whole (kernel/src/interrupts/mod.rs)

    [interrupts::init] composes the descriptor tables, the controllers and the
    timer; the last section follows an arbitrary sequence of interrupts through
    the table it loads, with the two 8259A automata of Pic.v driven by the port
    log. *)

From stdpp Require Import base list list_numbers strings.
From Stdlib Require Import ZArith Lia.
From S2P Require Import Prelude Ports Arch Gdt Pic Pit Ring Keyboard KeyboardSpec Idt.
#[local] Open Scope Z_scope.

(** ** Bring-up *)

Record InterruptInfo : Type := mkInfo {
  selectors : Selectors; pit_divisor : Z; tick_hz_num : Z; tick_hz_den : Z;
  unmasked_irqs : Z; nxe_enabled : bool; vectors_installed : Z }.

(** The EFER register, the VMM's NX flag, the tables and the drivers. *)
Record Kernel (D : Type) `{G : GdtCrate} : Type := mkKernel {
  efer : Z; nx_available : bool; gdt : Gdt; idt : Idt; machine : Machine D }.
Arguments mkKernel {D G} _ _ _ _ _.
Arguments efer {D G} _.
Arguments nx_available {D G} _.
Arguments gdt {D G} _.
Arguments idt {D G} _.
Arguments machine {D G} _.

Section Init.
Context {D : Type} `{B : Bus D} `{X : X86Crate} `{G : GdtCrate}.
(** CPUID's NX bit, the address of the interrupt stacks, the crate's macro. *)
Context (cpuid_nx : bool) (ist_base : Z) (fills : Z → bool).

Definition EFER_NXE : Z := Z.shiftl 1 11.

Definition enable_nx (k : Kernel D) : bool * Kernel D :=
  if negb cpuid_nx then (false, mkKernel k.(efer) false k.(gdt) k.(idt) k.(machine))
  else
    let e := Z.lor k.(efer) EFER_NXE in
    let on := negb (Z.land e EFER_NXE =? 0) in
    (on, mkKernel e on k.(gdt) k.(idt) k.(machine)).

(** The loop over the lines that have a handler. *)
Definition unmask_lines (l : list Z) (st : Z * Pic * Hw D) : Res (Z * Pic * Hw D) :=
  for_list l st (fun irq_num st =>
    let '(unmasked, p, h) := st in
    '(p, h) ← unmask irq_num p h;
    Ret (Z.lor unmasked (Z.shiftl 1 irq_num), p, h)).

Definition init (k : Kernel D) : Res (InterruptInfo * Kernel D) :=
  let '(nxe, k) := enable_nx k in
  '(sels, g) ← Gdt.init ist_base k.(gdt);
  t ← idt_init fills;
  let m := k.(machine) in
  let '(p, h) := remap m.(pic) m.(mhw) in
  let '(pt, h) := Pit.init m.(pit) h in
  '(unmasked, p, h) ← unmask_lines [irq_TIMER; irq_KEYBOARD] (0, p, h);
  Ret (mkInfo sels DIVISOR ACTUAL_TICK_HZ_NUM ACTUAL_TICK_HZ_DEN unmasked nxe 256,
       mkKernel k.(efer) k.(nx_available) g t (mkMachine m.(ctr) p pt m.(ring) h)).

(** *** The timer does not disturb the controllers *)

Lemma pit_init_pics p (h : Hw D) :
  ∃ l, io (Pit.init p h).2 = io h ++ l ∧ writes_to PIT_CHANNEL0_DATA l = [0xA9; 0x04] ∧
    writes_to PIT_COMMAND l = [CMD_CHANNEL0_MODE3] ∧ ∀ c, run_master c l = c ∧ run_slave c l = c.
Proof.
  eexists. unfold Pit.init. cbn [snd]. split; [rewrite !io_outb, <- !app_assoc; cbn [app]; reflexivity|].
  split; [done|]. split; done.
Qed.

Lemma remap_all_masked irq : 0 ≤ irq < 16 → line_masked irq (0xFF, 0xFF) = true.
Proof.
  intros Hi. by destruct (bounded16 irq Hi)
    as [->|[->|[->|[->|[->|[->|[->|[->|[->|[->|[->|[->|[->|[->|[->| ->]]]]]]]]]]]]]]].
Qed.

Lemma unmask_lines_ok p (h : Hw D) m s :
  pics_match p m s → p.(MASKS) = (0xFF, 0xFF) →
  ∃ p' h' l, unmask_lines [irq_TIMER; irq_KEYBOARD] (0, p, h) = Ret (3, p', h') ∧ io h' = io h ++ l ∧
    pics_match p' (run_master m l) (run_slave s l) ∧
    (∀ irq, 0 ≤ irq < 16 → line_masked irq p'.(MASKS) = negb (Z.testbit 3 irq)) ∧ Forall pic_event l.
Proof.
  intros Hm Hk. unfold unmask_lines. cbn [for_list].
  destruct (unmask_correct irq_TIMER p h m s ltac:(done) Hm) as (p1 & h1 & l1 & -> & E1 & M1 & D1 & K1 & F1).
  cbn [mbind Res_bind].
  destruct (unmask_correct irq_KEYBOARD p1 h1 _ _ ltac:(done) M1) as (p2 & h2 & l2 & -> & E2 & M2 & D2 & K2 & F2).
  cbn [mbind Res_bind]. exists p2, h2, (l1 ++ l2). split; [done|]. rewrite E2, E1, <- app_assoc. split; [done|].
  unfold run_master, run_slave in *. rewrite !pic_run_app. split; [done|].
  split; [|by apply Forall_app]. intros irq Hi.
  unfold irq_TIMER, irq_KEYBOARD, deliverable in *. cbn [Z.ltb Z.compare orb] in D1, D2. rewrite andb_true_r in D1, D2.
  apply negb_true_iff in D1, D2.
  destruct (Z.eqb_spec irq 1) as [->|]; [by rewrite D2|].
  rewrite K2 by (done || lia). destruct (Z.eqb_spec irq 0) as [->|]; [by rewrite D1|].
  rewrite K1, Hk, remap_all_masked by (done || lia).
  by destruct (bounded16 irq Hi) as [->|[->|[->|[->|[->|[->|[->|[->|[->|[->|[->|[->|[->|[->|[->| ->]]]]]]]]]]]]]]].
Qed.

Lemma enable_nx_ok (k : Kernel D) :
  ∃ k', enable_nx k = (cpuid_nx, k') ∧ k'.(nx_available) = cpuid_nx ∧ k'.(gdt) = k.(gdt) ∧ k'.(machine) = k.(machine) ∧
    k'.(efer) = if cpuid_nx then Z.lor k.(efer) EFER_NXE else k.(efer).
Proof.
  unfold enable_nx. destruct cpuid_nx; cbn [negb]; [|by eexists].
  assert ((Z.land (Z.lor k.(efer) EFER_NXE) EFER_NXE =? 0) = false) as ->; [|by eexists].
  apply Z.eqb_neq. intros E. assert (Z.testbit (Z.land (Z.lor k.(efer) EFER_NXE) EFER_NXE) 11 = true) as H.
  { rewrite Z.land_spec, Z.lor_spec. apply andb_true_iff. split; [apply orb_true_r|done]. }
  by rewrite E in H.
Qed.

(** The open lines and their entries. *)
Lemma lines_bound irq ms :
  0 ≤ irq < 16 → (∀ j, 0 ≤ j < 16 → line_masked j ms = negb (Z.testbit 3 j)) →
  deliverable irq ms = true ↔ irq = irq_TIMER ∨ irq = irq_KEYBOARD.
Proof.
  intros Hi Hl. unfold deliverable, irq_TIMER, irq_KEYBOARD. rewrite !Hl by (done || lia).
  destruct (bounded16 irq Hi) as [->|[->|[->|[->|[->|[->|[->|[->|[->|[->|[->|[->|[->|[->|[->| ->]]]]]]]]]]]]]]];
    (split; [try done; intros _; lia|try done; lia]).
Qed.

Lemma interrupts_init_ok (k : Kernel D) m s :
  ist_ok ist_base → k.(gdt) = mkGdt false Tss_new Table_new →
  ∃ info k' l, init k = Ret (info, k') ∧ io k'.(machine).(mhw) = io k.(machine).(mhw) ++ l ∧
    pics_match k'.(machine).(pic) (run_master m l) (run_slave s l) ∧
    (∀ irq, 0 ≤ irq < 16 →
       deliverable irq k'.(machine).(pic).(MASKS) = true ↔ irq = irq_TIMER ∨ irq = irq_KEYBOARD) ∧
    (info.(unmasked_irqs) = 3 ∧ info.(pit_divisor) = 1193 ∧ writes_to PIT_CHANNEL0_DATA l = [0xA9; 0x04] ∧
     lget k'.(idt) 0x20 = Ret (Some (mkEntry on_irq_timer 0)) ∧
     lget k'.(idt) 0x21 = Ret (Some (mkEntry on_irq_keyboard 0))) ∧
    k'.(machine).(pit) = mkPit k.(machine).(pit).(TICKS) true ∧
    info.(nxe_enabled) = cpuid_nx ∧ k'.(nx_available) = cpuid_nx ∧ k'.(gdt).(INIT_DONE) = true ∧
    k'.(efer) = if cpuid_nx then Z.lor k.(efer) EFER_NXE else k.(efer).
Proof.
  intros Hist Hg. unfold init. destruct (enable_nx_ok k) as (k1 & -> & Hn1 & Hg1 & Hm1 & He1). rewrite Hg1, Hg.
  destruct (gdt_init_ok ist_base (mkGdt false Tss_new Table_new) Hist) as (g' & -> & Hd & _).
  { intros _. split; [apply length_replicate|done]. }
  cbn [mbind Res_bind]. rewrite idt_init_eq, Hm1. cbn [mbind Res_bind].
  pose proof (remap_programs_pics k.(machine).(pic) k.(machine).(mhw) m s) as Hr.
  destruct (remap _ _) as [p1 h1]. destruct Hr as (l1 & E1 & M1 & K1 & F1).
  destruct (pit_init_pics k.(machine).(pit) h1) as (l2 & E2 & W2 & _ & R2).
  destruct (Pit.init _ _) as [pt h2] eqn:Ep. cbn [snd] in E2.
  assert (pt = mkPit k.(machine).(pit).(TICKS) true) as -> by (by unfold Pit.init in Ep; injection Ep as <- _).
  destruct (unmask_lines_ok p1 h2 _ _ M1 K1) as (p3 & h3 & l3 & -> & E3 & M3 & L3 & F3). cbn [mbind Res_bind].
  eexists _, _, (l1 ++ l2 ++ l3). split; [reflexivity|]. cbn [machine mhw pic pit idt gdt nx_available unmasked_irqs pit_divisor nxe_enabled].
  rewrite E3, E2, E1, <- !app_assoc. split; [done|].
  split; [unfold run_master, run_slave in *; rewrite !pic_run_app; by rewrite (proj1 (R2 _)), (proj2 (R2 _))|].
  split; [intros irq Hi; by apply lines_bound|]. split; [|done]. split; [done|]. split; [done|].
  rewrite !writes_to_app, (pic_only _ l1), (pic_only _ l3), W2 by (done || by apply (bool_decide_unpack _)).
  split; [done|]. by rewrite !lget_expected by lia.
Qed.

(** C14: [interrupts::init] succeeds from a fresh GDT whatever state firmware
    left the interrupt controllers in, given IST stacks in the kernel half below
    the top of the address space.  It returns with both controllers
    initialised at vectors 0x20-0x2F, a line open exactly when it is the timer's
    or the keyboard's ([unmasked_irqs] reports the mask 3), the two bytes of the
    divisor 1193 written to the timer, which counts, and vectors 0x20 and 0x21
    bound to the timer's and the keyboard's handler; the NX flag it reports is the
    one it gave the VMM and holds exactly when the CPU has NX, in which case alone
    EFER changes, by NXE. *)
Theorem interrupts_init_correct (k : Kernel D) m s :
  ist_ok ist_base → k.(gdt) = mkGdt false Tss_new Table_new →
  ∃ info k' l, init k = Ret (info, k') ∧ io k'.(machine).(mhw) = io k.(machine).(mhw) ++ l ∧
    pics_match k'.(machine).(pic) (run_master m l) (run_slave s l) ∧
    (∀ irq, 0 ≤ irq < 16 →
       deliverable irq k'.(machine).(pic).(MASKS) = true ↔ irq = irq_TIMER ∨ irq = irq_KEYBOARD) ∧
    (info.(unmasked_irqs) = 3 ∧ info.(pit_divisor) = 1193 ∧ writes_to PIT_CHANNEL0_DATA l = [0xA9; 0x04] ∧
     lget k'.(idt) 0x20 = Ret (Some (mkEntry on_irq_timer 0)) ∧
     lget k'.(idt) 0x21 = Ret (Some (mkEntry on_irq_keyboard 0))) ∧
    k'.(machine).(pit) = mkPit k.(machine).(pit).(TICKS) true ∧
    info.(nxe_enabled) = cpuid_nx ∧ k'.(nx_available) = cpuid_nx ∧ k'.(gdt).(INIT_DONE) = true ∧
    k'.(efer) = if cpuid_nx then Z.lor k.(efer) EFER_NXE else k.(efer).
Proof. apply interrupts_init_ok. Qed.

End Init.

(** ** Any sequence of interrupts *)

(** The number of vectors of [vs] that satisfy [f]. *)
Fixpoint hits (f : Z → bool) (vs : list Z) : Z :=
  match vs with [] => 0 | v :: vs' => (if f v then 1 else 0) + hits f vs' end.

Definition is_irq (v : Z) : bool := (0x20 <=? v) && (v <? 0x30).
(** The thirteen lines without a driver. *)
Definition is_unexpected (v : Z) : bool := (0x23 <=? v) && (v <? 0x30).

(** The vectors a running kernel survives: the PIC's lines, a system call, a
    spurious interrupt and a breakpoint. *)
Definition benign (v : Z) : bool := is_irq v || (v =? SYSCALL_VECTOR) || (v =? SPURIOUS_VECTOR) || (v =? 3).

(** The counters after one, or a sequence of, such vectors. *)
Definition counted (vs : list Z) (c : Counters) : Counters :=
  mkCounters (c.(timer_ticks) + hits (Z.eqb 0x20) vs) (c.(key_events) + hits (Z.eqb 0x21) vs)
    (c.(spurious) + hits (Z.eqb SPURIOUS_VECTOR) vs) (c.(exceptions) + hits (Z.eqb 3) vs)
    (c.(unassigned) + hits is_unexpected vs) (c.(syscalls) + hits (Z.eqb SYSCALL_VECTOR) vs).

(** No counter overflows in the next [n] interrupts. *)
Definition room (n : Z) (c : Counters) : Prop :=
  let ok x := 0 ≤ x ∧ x + n < U64 in
  ok c.(timer_ticks) ∧ ok c.(key_events) ∧ ok c.(spurious) ∧ ok c.(exceptions) ∧ ok c.(unassigned) ∧ ok c.(syscalls).

Lemma hits_bounds f vs : 0 ≤ hits f vs ≤ Z.of_nat (length vs).
Proof. induction vs as [|v vs IH]; cbn [hits length]; [lia|]. destruct (f v); lia. Qed.

Lemma counted_cons v vs c : counted vs (counted [v] c) = counted (v :: vs) c.
Proof. unfold counted. cbn [timer_ticks key_events spurious exceptions unassigned syscalls hits]. f_equal; lia. Qed.

Lemma room_counted v n c : room (n + 1) c → 0 ≤ n → room n (counted [v] c).
Proof.
  intros (H1 & H2 & H3 & H4 & H5 & H6) Hn.
  unfold room, counted. cbn [timer_ticks key_events spurious exceptions unassigned syscalls].
  pose proof (fun f => hits_bounds f [v]) as Hb. cbn [length] in Hb.
  repeat split; match goal with |- context [hits ?f ?l] => pose proof (Hb f); lia end.
Qed.

Section Sequence.
Context {D : Type} `{B : Bus D} (debugger_attached : bool).
Abbreviation M := (Machine D).

(** From [m] to [m'] the controllers, run over the accesses in between, stay in
    step with the driver and receive [nm] and [ns] acknowledgements. *)
Definition advances (nm ns : Z) (m m' : M) : Prop :=
  ∃ l, io m'.(mhw) = io m.(mhw) ++ l ∧
    ∀ mast slv, pics_match m.(pic) mast slv →
      pics_match m'.(pic) (run_master mast l) (run_slave slv l) ∧
      Z.of_nat (run_master mast l).(eois) = Z.of_nat mast.(eois) + nm ∧
      Z.of_nat (run_slave slv l).(eois) = Z.of_nat slv.(eois) + ns.

(** The driverless lines only get masked; lines 0-2 do not change. *)
Definition keeps_lines (m m' : M) : Prop :=
  (∀ j, 0 ≤ j < 16 → line_masked j m.(pic).(MASKS) = true → line_masked j m'.(pic).(MASKS) = true) ∧
  (∀ j, 0 ≤ j < 3 → line_masked j m'.(pic).(MASKS) = line_masked j m.(pic).(MASKS)).

#[export] Instance keeps_lines_preorder : PreOrder keeps_lines.
Proof.
  split; [by split|]. intros m1 m2 m3 [A1 A2] [B1 B2].
  split; [by auto|]. intros j Hj. by rewrite B2, A2.
Qed.

Lemma keeps_lines_pic m m1 m2 : keeps_lines m m1 → m2.(pic) = m1.(pic) → keeps_lines m m2.
Proof. unfold keeps_lines. by intros H ->. Qed.

Lemma advances_refl m : advances 0 0 m m.
Proof. exists []. split; [by rewrite app_nil_r|]. intros. cbn. split; [done|]. lia. Qed.

Lemma advances_trans n1 s1 n2 s2 m1 m2 m3 :
  advances n1 s1 m1 m2 → advances n2 s2 m2 m3 → advances (n1 + n2) (s1 + s2) m1 m3.
Proof.
  intros (l1 & E1 & H1) (l2 & E2 & H2). exists (l1 ++ l2). rewrite E2, E1, <- app_assoc. split; [done|].
  intros mast slv Hm. destruct (H1 _ _ Hm) as (P1 & A1 & B1). destruct (H2 _ _ P1) as (P2 & A2 & B2).
  unfold run_master, run_slave in *. rewrite !pic_run_app. split; [done|]. lia.
Qed.

(** Changing neither the controllers' driver nor the port log. *)
Lemma advances_quiet m m' : m'.(pic) = m.(pic) → io m'.(mhw) = io m.(mhw) → advances 0 0 m m'.
Proof. intros Hp Hio. exists []. rewrite Hio, Hp, app_nil_r. split; [done|]. intros. cbn. split; [done|]. lia. Qed.

(** *** The pieces of the handlers *)

Definition counter_of (v : Z) : option Counter :=
  if v =? 0x20 then Some TimerTicks else if v =? 0x21 then Some KeyEvents
  else if is_unexpected v then Some Unassigned else if v =? SYSCALL_VECTOR then Some Syscalls
  else if v =? SPURIOUS_VECTOR then Some Spurious else if v =? 3 then Some Exceptions else None.

Lemma bump_counted w v c : room 1 c → counter_of v = Some w → bump w c = Ret (counted [v] c).
Proof.
  intros (H1 & H2 & H3 & H4 & H5 & H6). unfold counter_of, counted, is_unexpected, SYSCALL_VECTOR, SPURIOUS_VECTOR, bump.
  rewrite !add64_ok by lia. cbn [mbind Res_bind hits]. destruct c as [a b d e f g]. cbn [timer_ticks key_events spurious exceptions unassigned syscalls].
  zbool; cbn [andb]; intros [= <-]; try lia; do 2 f_equal; lia.
Qed.

Lemma counted_none c : counted [0x22] c = c.
Proof. destruct c. unfold counted. cbn. f_equal; lia. Qed.

Lemma bump_m_ok w v (m : M) : room 1 m.(ctr) → counter_of v = Some w → bump_m w m = Ret (set_ctr (counted [v] m.(ctr)) m).
Proof. intros Hr Hw. unfold bump_m. by rewrite (bump_counted w v). Qed.

Lemma eoi_ok irq (m : M) :
  0 ≤ irq < 16 →
  ∃ h, eoi irq m = Ret (mkMachine m.(ctr) m.(pic) m.(pit) m.(ring) h) ∧
    advances 1 (if irq <? 8 then 0 else 1) m (mkMachine m.(ctr) m.(pic) m.(pit) m.(ring) h).
Proof.
  intros Hi. unfold eoi. destruct (irq_vector irq Hi) as [-> Hv]. cbn [mbind Res_bind]. eexists. split; [reflexivity|].
  unfold end_of_interrupt. rewrite Hv. destruct (Z.leb_spec 8 irq), (Z.ltb_spec irq 8); try lia;
    (eexists; split; [cbn [mhw]; rewrite !io_out_wait, <- ?app_assoc; reflexivity|]);
    intros mast slv Hm; (split; [exact Hm|]);
    unfold run_master, run_slave, pic_run; cbn -[Z.of_nat Z.add];
    change (Z.land CMD_END_OF_INTERRUPT 248 =? 32) with true; cbn [eois]; lia.
Qed.

(** The controllers are initialised and agree with the driver. *)
Definition pics_ready (m : M) : Prop := ∃ mast slv, pics_match m.(pic) mast slv.

Lemma advances_ready nm ns m m' : advances nm ns m m' → pics_ready m → pics_ready m'.
Proof. intros (l & _ & H) (a & b & Hm). destruct (H a b Hm) as [H' _]. by eexists _, _. Qed.

Lemma mask_m_ok irq (m : M) :
  3 ≤ irq < 16 → pics_ready m →
  ∃ p h, let m' := mkMachine m.(ctr) p m.(pit) m.(ring) h in
    mask_m irq m = Ret m' ∧ advances 0 0 m m' ∧ keeps_lines m m'.
Proof.
  intros Hi (a & b & Hm). pose proof (fun a b H => mask_correct irq m.(pic) m.(mhw) a b ltac:(lia) H) as Hok.
  destruct (Z.ltb_spec irq 16); [|lia]. destruct (Hok a b Hm) as (p & h & l & E & El & _ & _ & _ & Hk & Hj).
  exists p, h. cbn zeta. unfold mask_m. rewrite E. split; [done|]. split.
  - exists l. split; [exact El|]. intros mast slv Hms.
    destruct (Hok mast slv Hms) as (p' & h' & l' & E' & El' & P & A1 & A2 & _). rewrite E in E'. injection E' as <- <-.
    rewrite El in El'. apply app_inv_head in El' as <-. split; [exact P|]. lia.
  - split; cbn [pic].
    + intros j Hjr Hmk. destruct (decide (j = irq)) as [->|]; [done|]. by rewrite Hj.
    + intros j Hjr. apply Hj; lia.
Qed.

Lemma mask_all_ok l (m : M) :
  Forall (fun i => 3 ≤ i < 16) l → pics_ready m →
  ∃ p h, let m' := mkMachine m.(ctr) p m.(pit) m.(ring) h in
    for_list l m mask_m = Ret m' ∧ advances 0 0 m m' ∧ keeps_lines m m'.
Proof.
  intros Hl. revert m. induction Hl as [|i l Hi Hl IH]; intros m Hm; cbn [for_list].
  - exists m.(pic), m.(mhw). cbn zeta. destruct m. split; [done|]. split; [apply advances_refl|reflexivity].
  - destruct (mask_m_ok i m Hi Hm) as (p & h & -> & A & K). cbn [mbind Res_bind].
    destruct (IH _ (advances_ready _ _ _ _ A Hm)) as (p' & h' & -> & A' & K').
    exists p', h'. cbn zeta. split; [done|]. split; [exact (advances_trans _ _ _ _ _ _ _ A A')|].
    etrans; [exact K|exact K'].
Qed.

(** *** One interrupt *)

(** What serving vector [v] does. *)
Record served (v : Z) (m m' : M) : Prop := {
  s_advances : advances (if is_irq v then 1 else 0) (if is_unexpected v then 1 else 0) m m';
  s_lines : keeps_lines m m';
  s_ring : ring_inv m'.(ring);
  s_queue : contents m.(ring) `prefix_of` contents m'.(ring);
  s_ctr : m'.(ctr) = counted [v] m.(ctr);
  s_pit : m'.(pit) = if v =? 0x20 then tick m.(pit) else m.(pit);
}.

Lemma timer_ok m : room 1 m.(ctr) → ring_inv m.(ring) → ∃ m', run_irq_timer m = Ret m' ∧ served 0x20 m m'.
Proof.
  intros Hr Hi. unfold run_irq_timer. rewrite (bump_m_ok _ 0x20) by done. cbn [mbind Res_bind].
  destruct (eoi_ok irq_TIMER (mkMachine (counted [0x20] m.(ctr)) m.(pic) (tick m.(pit)) m.(ring) m.(mhw)) ltac:(done))
    as (h & E & A). eexists. split; [exact E|]. split; try done.
Qed.

(** Reads leave the controllers alone. *)
Lemma advances_reads m m' l :
  m'.(pic) = m.(pic) → io m'.(mhw) = io m.(mhw) ++ l → (∀ p, writes_to p l = []) → advances 0 0 m m'.
Proof.
  intros Hp Hio Hw. exists l. rewrite Hp. split; [done|].
  assert (∀ cmd dat c, pic_run cmd dat c l = c) as Hrun.
  { clear Hio. induction l as [|[p v|p v] l IH]; intros cmd dat c; [done|apply IH; intros p'; apply (Hw p')|].
    specialize (Hw p). cbn [writes_to] in Hw. by rewrite Z.eqb_refl in Hw. }
  intros mast slv Hm. unfold run_master, run_slave. rewrite !Hrun. split; [done|]. lia.
Qed.

Lemma keyboard_ok m :
  room 1 m.(ctr) → ring_inv m.(ring) → ∃ m', run_irq_keyboard m = Ret m' ∧ served 0x21 m m'.
Proof.
  intros Hr Hi. unfold run_irq_keyboard. rewrite (bump_m_ok _ 0x21) by done. rewrite Ret_bind. cbn [set_ctr ring mhw].
  destruct (interrupt_handler_correct m.(ring) m.(mhw) Hi) as (r' & h' & l & -> & Hi' & Hio & Hw & _ & Hq).
  rewrite Ret_bind. cbn [set_ctr ctr pic pit].
  destruct (eoi_ok irq_KEYBOARD (mkMachine (counted [0x21] m.(ctr)) m.(pic) m.(pit) r' h') ltac:(done)) as (h & E & A).
  eexists. split; [exact E|]. split; try done.
  - eapply (advances_trans 0 0 1 0); [|exact A]. eapply (advances_reads m); [done|exact Hio|]. intros p. apply Hw.
  - cbn [ring]. cbv zeta in Hq.
    match type of Hq with (if ?b then _ else _) => destruct b end; destruct Hq as [-> _]; [by eexists|done].
Qed.

Lemma cascade_ok m : ring_inv m.(ring) → ∃ m', run_irq_cascade m = Ret m' ∧ served 0x22 m m'.
Proof.
  intros Hi. unfold run_irq_cascade. destruct (eoi_ok irq_CASCADE m ltac:(done)) as (h & E & A).
  eexists. split; [exact E|]. split; try done. cbn [ctr]. by rewrite counted_none.
Qed.

Lemma quiet_ok w v m :
  counter_of v = Some w → is_irq v = false → is_unexpected v = false → room 1 m.(ctr) → ring_inv m.(ring) →
  ∃ m', bump_m w m = Ret m' ∧ served v m m'.
Proof.
  intros Hw H1 H2 Hr Hi. rewrite (bump_m_ok _ v) by done. eexists. split; [reflexivity|]. split; try done.
  - rewrite H1, H2. by apply advances_quiet.
  - cbn [set_ctr pit]. destruct (Z.eqb_spec v 0x20) as [->|]; done.
Qed.

Lemma unexpected_vector v :
  is_unexpected v = true → is_irq v = true ∧ (v =? 0x20) = false ∧ counter_of v = Some Unassigned.
Proof.
  intros Hv. unfold counter_of. rewrite Hv. unfold is_unexpected, is_irq in *. by zbool; try lia.
Qed.

Lemma unexpected_ok v m :
  is_unexpected v = true → room 1 m.(ctr) → ring_inv m.(ring) → pics_ready m →
  ∃ m', run_irq_unexpected m = Ret m' ∧ served v m m'.
Proof.
  intros Hv Hr Hi Hm. unfold run_irq_unexpected.
  destruct (unexpected_vector v Hv) as (Hq & H20 & Hc). rewrite (bump_m_ok _ v m Hr Hc), Ret_bind.
  set (m1 := set_ctr _ m). assert (advances 0 0 m m1) as A0 by (by apply advances_quiet).
  assert (keeps_lines m m1) as K0 by (by split).
  assert (m1.(ctr) = counted [v] m.(ctr) ∧ m1.(pit) = m.(pit) ∧ m1.(ring) = m.(ring)) as (E1 & E2 & E3) by done.
  clearbody m1. destruct (mask_all_ok unexpected_irqs m1) as (p & h & -> & A1 & K1);
    [repeat constructor; lia|by eapply advances_ready|]. rewrite Ret_bind.
  destruct (eoi_ok 8 (mkMachine m1.(ctr) p m1.(pit) m1.(ring) h) ltac:(lia)) as (h' & E & A2).
  eexists. split; [exact E|]. constructor.
  - rewrite Hq, Hv. pose proof (advances_trans _ _ _ _ _ _ _ A0 A1) as A.
    apply (advances_trans _ _ 1 1 _ _ _ A). exact A2.
  - etrans; [exact K0|]. by apply (keeps_lines_pic _ _ _ K1).
  - by rewrite E3.
  - by rewrite E3.
  - exact E1.
  - by rewrite H20.
Qed.

Lemma benign_cases v :
  benign v = true → is_unexpected v = false →
  v = 0x20 ∨ v = 0x21 ∨ v = 0x22 ∨ v = SYSCALL_VECTOR ∨ v = SPURIOUS_VECTOR ∨ v = 3.
Proof. unfold benign, is_irq, is_unexpected, SYSCALL_VECTOR, SPURIOUS_VECTOR. zbool; intros; (lia || done). Qed.

Lemma expected_unexpected fills v :
  is_unexpected v = true → expected fills v = Some (mkEntry on_irq_unexpected 0).
Proof.
  intros Hv. unfold expected. rewrite (assoc_NoDup v (mkEntry on_irq_unexpected 0)); [done|apply purposeful_NoDup|].
  unfold purposeful. apply elem_of_app. right. apply elem_of_app. left. apply list_elem_of_fmap. exists v. split; [done|].
  apply elem_of_seqZ. unfold is_unexpected in Hv. zbool; (lia || done).
Qed.

(** Vector [v] reaches its handler. *)
Lemma dispatch_ok fills v m :
  benign v = true → room 1 m.(ctr) → ring_inv m.(ring) → pics_ready m →
  ∃ m', dispatch debugger_attached (expected fills <$> seqZ 0 256) v m = Ret m' ∧ served v m m'.
Proof.
  intros Hv Hr Hi Hm. unfold dispatch.
  assert (0 ≤ v < 256) as Hb by (unfold benign, is_irq, SYSCALL_VECTOR, SPURIOUS_VECTOR in Hv; zbool; (lia || done)).
  rewrite (lget_expected fills v), Ret_bind by done.
  destruct (is_unexpected v) eqn:Hu.
  { rewrite (expected_unexpected fills v Hu). by apply unexpected_ok. }
  destruct (benign_cases v Hv Hu) as [->|[->|[->|[->|[->| ->]]]]]; cbn [expected assoc purposeful app Z.eqb Pos.eqb handler run_handler].
  - by apply timer_ok.
  - by apply keyboard_ok.
  - by apply cascade_ok.
  - by apply quiet_ok.
  - by apply quiet_ok.
  - by apply quiet_ok.
Qed.

(** A tick per timer interrupt. *)
Definition ticked (vs : list Z) (p : Pit) : Pit := Nat.iter (Z.to_nat (hits (Z.eqb 0x20) vs)) tick p.

Lemma ticked_cons v vs p : ticked vs (if v =? 0x20 then tick p else p) = ticked (v :: vs) p.
Proof.
  unfold ticked. cbn [hits]. rewrite (Z.eqb_sym 0x20 v). destruct (v =? 0x20); [|done].
  pose proof (hits_bounds (Z.eqb 0x20) vs). rewrite Z2Nat.inj_add by lia. cbn [Z.to_nat Pos.to_nat Pos.iter_op Nat.add].
  generalize (Z.to_nat (hits (Z.eqb 32) vs)) as n. intros n. cbn. symmetry. apply Nat.iter_succ_r.
Qed.

Lemma served_all fills vs (m : M) :
  Forall (fun v => benign v = true) vs → pics_ready m → ring_inv m.(ring) → room (Z.of_nat (length vs)) m.(ctr) →
  ∃ m', for_list vs m (dispatch debugger_attached (expected fills <$> seqZ 0 256)) = Ret m' ∧
    advances (hits is_irq vs) (hits is_unexpected vs) m m' ∧ keeps_lines m m' ∧ m'.(ctr) = counted vs m.(ctr) ∧
    m'.(pit) = ticked vs m.(pit) ∧ ring_inv m'.(ring) ∧ contents m.(ring) `prefix_of` contents m'.(ring).
Proof.
  intros Hvs. revert m. induction Hvs as [|v vs Hv Hvs IH]; intros m Hm Hi Hr; cbn [for_list].
  - exists m. split; [done|]. split; [apply advances_refl|]. split; [done|].
    split; [|done]. destruct m as [[] ? ? ? ?]. unfold counted. cbn. f_equal; lia.
  - cbn [length] in Hr. destruct (dispatch_ok fills v m Hv) as (m1 & -> & [A K R Q C P]); [|done|done|].
    { unfold room in *. lia. }
    rewrite Ret_bind. destruct (IH m1) as (m' & E & A' & K' & C' & P' & R' & Q').
    + by eapply advances_ready.
    + done.
    + rewrite C. apply room_counted; [|lia]. by rewrite Z.add_1_r, <- Nat2Z.inj_succ.
    + exists m'. split; [exact E|]. split; [exact (advances_trans _ _ _ _ _ _ _ A A')|].
      split; [by etrans|]. rewrite C', C, P', P, counted_cons, ticked_cons. do 3 (split; [done|]). by etrans.
Qed.

(** C13: take any sequence of interrupts among the 16 PIC lines, the system call
    vector, the spurious vector and breakpoints, from a state in which the
    controllers are initialised and the scancode queue is well formed.  No
    handler panics; the controllers stay in step with the driver, and every PIC
    interrupt is acknowledged exactly once at the master (the slave's
    acknowledgements are those of the thirteen lines without a driver); timer,
    keyboard and cascade keep their masks and no line is ever opened; every
    counter is the number of interrupts it counts; the clock advances by one tick
    per timer interrupt; bytes already queued stay queued, in order. *)
Theorem interrupts_never_panic fills t vs (m : M) mast slv :
  idt_init fills = Ret t → Forall (fun v => benign v = true) vs →
  pics_match m.(pic) mast slv → ring_inv m.(ring) → room (Z.of_nat (length vs)) m.(ctr) →
  ∃ m' l, for_list vs m (dispatch debugger_attached t) = Ret m' ∧ io m'.(mhw) = io m.(mhw) ++ l ∧
    pics_match m'.(pic) (run_master mast l) (run_slave slv l) ∧
    Z.of_nat (run_master mast l).(eois) = Z.of_nat mast.(eois) + hits is_irq vs ∧
    Z.of_nat (run_slave slv l).(eois) = Z.of_nat slv.(eois) + hits is_unexpected vs ∧
    keeps_lines m m' ∧ m'.(ctr) = counted vs m.(ctr) ∧ m'.(pit) = ticked vs m.(pit) ∧
    ring_inv m'.(ring) ∧ contents m.(ring) `prefix_of` contents m'.(ring).
Proof.
  intros Ht Hvs Hm Hi Hr. rewrite idt_init_eq in Ht. injection Ht as <-.
  assert (∃ m', for_list vs m (dispatch debugger_attached (expected fills <$> seqZ 0 256)) = Ret m' ∧
    advances (hits is_irq vs) (hits is_unexpected vs) m m' ∧ keeps_lines m m' ∧ m'.(ctr) = counted vs m.(ctr) ∧
    m'.(pit) = ticked vs m.(pit) ∧ ring_inv m'.(ring) ∧ contents m.(ring) `prefix_of` contents m'.(ring))
    as (m' & E & (l & Hl & A) & H).
  { by apply served_all; [|eexists _, _| |]. }
  exists m', l. destruct (A _ _ Hm) as (P & A1 & A2). split; [done|]. split; [done|]. split; [done|]. split; [done|].
  split; [done|]. exact H.
Qed.

(** A spurious interrupt of the 8259A arrives on the vector of its line 7 or 15,
    not on [SPURIOUS_VECTOR]: [on_irq_unexpected] serves it and acknowledges both
    controllers. *)
Lemma pic_spurious_acknowledged fills v (m : M) :
  v = 0x27 ∨ v = 0x2F → room 1 m.(ctr) → ring_inv m.(ring) → pics_ready m →
  ∃ m', dispatch debugger_attached (expected fills <$> seqZ 0 256) v m = Ret m' ∧ advances 1 1 m m' ∧
    m'.(ctr).(spurious) = m.(ctr).(spurious).
Proof.
  intros Hv Hr Hi Hm. destruct (dispatch_ok fills v m) as (m' & E & [A _ _ _ C _]); [by destruct Hv as [-> | ->]|done..|].
  exists m'. split; [exact E|]. rewrite C. unfold counted. cbn [spurious hits].
  destruct Hv as [-> | ->]; (split; [exact A|]); cbn; lia.
Qed.

End Sequence.

(** ** Witnesses *)

Definition demo_machine : Machine (list Z) :=
  mkMachine Counters_initial (mkPic (0xFC, 0xFF) true) (mkPit 0 true) Ring_new (mkHw [0x21; 0x1E] []).

Lemma interrupts_never_panic_witness :
  ∃ m', for_list [0x20; 0x21; 0x27; 0x40; 0xFF; 3; 0x20] demo_machine
          (@dispatch _ script_bus false (expected (fun _ => true) <$> seqZ 0 256)) = Ret m' ∧
    m'.(ctr) = mkCounters 2 1 1 1 1 1.
Proof.
  destruct (@interrupts_never_panic _ script_bus false (fun _ => true) _ [0x20; 0x21; 0x27; 0x40; 0xFF; 3; 0x20]
    demo_machine (mk8259 Ready false true 0x20 4 true 0xFC 0) (demo_8259 0x28 2) (idt_init_eq (fun _ => true)))
    as (m' & l & E & _ & _ & _ & _ & _ & C & _).
  - by repeat constructor.
  - done.
  - exact (proj1 Ring_new_inv).
  - unfold room. rewrite U64_val. cbn. lia.
  - exists m'. split; [exact E|]. rewrite C. reflexivity.
Defined.

Definition demo_kernel : @Kernel (list Z) gdt_ref :=
  mkKernel 0 false (@mkGdt gdt_ref false Tss_new 1) [] demo_machine.

Lemma interrupts_init_correct_witness :
  ∃ info k', @init _ script_bus x86_ref gdt_ref true 0xFFFFFFFF81000000 (fun _ => true) demo_kernel = Ret (info, k') ∧
    info.(nxe_enabled) = true ∧ k'.(machine).(pit) = mkPit 0 true ∧ deliverable 1 k'.(machine).(pic).(MASKS) = true.
Proof.
  destruct (@interrupts_init_correct _ script_bus x86_ref gdt_ref true 0xFFFFFFFF81000000 (fun _ => true) demo_kernel
    (demo_8259 0x08 4) (demo_8259 0x70 2)) as (info & k' & l & E & _ & _ & D & _ & P & N & _).
  - split; by vm_compute.
  - reflexivity.
  - exists info, k'. split; [exact E|]. split; [exact N|]. split; [exact P|]. apply (D 1); [lia|by right].
Defined.
