(* ===== verification/Syscall.v ===== *)
(** * The system call ABI (kernel/src/syscall/mod.rs)

    Numbers, number blocks, error codes, the STAR value and the dispatcher that
    refuses every call.  The theorems put the STAR arithmetic together with the
    descriptor table [gdt::init] builds. *)

From stdpp Require Import base list list_numbers strings.
From Stdlib Require Import ZArith Lia.
From S2P Require Import Prelude Arch Gdt Idt.
#[local] Open Scope Z_scope.

(** ** Numbers *)

(** [core::ops::Range<u16>] *)
Record Range : Type := mkRange { start : Z; stop : Z }.

Module nr.
Definition BLOCK_PROCESS : Range := mkRange 1 32.
Definition BLOCK_MEMORY : Range := mkRange 32 64.
Definition BLOCK_IO : Range := mkRange 64 128.
Definition BLOCK_IPC : Range := mkRange 128 192.
Definition BLOCK_CAPABILITY : Range := mkRange 192 224.
Definition BLOCK_TIME : Range := mkRange 224 240.
Definition BLOCK_SYSTEM : Range := mkRange 240 256.

Definition EXIT : Z := 1.
Definition EXIT_GROUP : Z := 2.
Definition WAIT : Z := 3.
Definition SLEEP : Z := 4.
Definition SPAWN : Z := 5.
Definition YIELD : Z := 6.
Definition MMAP : Z := 32.
Definition MUNMAP : Z := 33.
Definition MPROTECT : Z := 34.
Definition OPEN : Z := 64.
Definition READ : Z := 65.
Definition WRITE : Z := 66.
Definition CLOSE : Z := 67.
Definition SEEK : Z := 68.
Definition STAT : Z := 69.
Definition IPC_SEND : Z := 128.
Definition IPC_RECEIVE : Z := 129.
Definition IPC_CONNECT : Z := 130.
Definition CAP_GRANT : Z := 192.
Definition CAP_REVOKE : Z := 193.
Definition CAP_QUERY : Z := 194.
Definition OKI_CALL : Z := 195.
Definition CLOCK_GET : Z := 224.
Definition SYSTEM_POWER : Z := 240.

Definition blocks : list Range :=
  [BLOCK_PROCESS; BLOCK_MEMORY; BLOCK_IO; BLOCK_IPC; BLOCK_CAPABILITY; BLOCK_TIME; BLOCK_SYSTEM].
End nr.

Definition name_of (n : Z) : string :=
  if n =? nr.EXIT then "exit" else if n =? nr.EXIT_GROUP then "exit_group" else if n =? nr.WAIT then "wait"
  else if n =? nr.SLEEP then "sleep" else if n =? nr.SPAWN then "spawn" else if n =? nr.YIELD then "yield"
  else if n =? nr.MMAP then "mmap" else if n =? nr.MUNMAP then "munmap" else if n =? nr.MPROTECT then "mprotect"
  else if n =? nr.OPEN then "open" else if n =? nr.READ then "read" else if n =? nr.WRITE then "write"
  else if n =? nr.CLOSE then "close" else if n =? nr.SEEK then "seek" else if n =? nr.STAT then "stat"
  else if n =? nr.IPC_SEND then "ipc_send" else if n =? nr.IPC_RECEIVE then "ipc_receive"
  else if n =? nr.IPC_CONNECT then "ipc_connect" else if n =? nr.CAP_GRANT then "cap_grant"
  else if n =? nr.CAP_REVOKE then "cap_revoke" else if n =? nr.CAP_QUERY then "cap_query"
  else if n =? nr.OKI_CALL then "oki_call" else if n =? nr.CLOCK_GET then "clock_get"
  else if n =? nr.SYSTEM_POWER then "system_power" else "<unknown>".

(** ** Errors *)

Inductive Errno : Type :=
  | EOk | Perm | NoEnt | IO | BadF | Again | NoMem | Access | Busy | Exist | NoDev | NotDir | IsDir | Inval
  | FileTooBig | NoSpace | Pipe | CapMissing | SignatureBad | CallUnknown | Nosys.

#[export] Instance Errno_eq_dec : EqDecision Errno.
Proof. solve_decision. Defined.

(** The [repr(i32)] discriminant. *)
Definition errno_code (e : Errno) : Z :=
  match e with
  | EOk => 0 | Perm => 1 | NoEnt => 2 | IO => 5 | BadF => 9 | Again => 11 | NoMem => 12 | Access => 13 | Busy => 16
  | Exist => 17 | NoDev => 19 | NotDir => 20 | IsDir => 21 | Inval => 22 | FileTooBig => 27 | NoSpace => 28
  | Pipe => 32 | CapMissing => 4000 | SignatureBad => 4001 | CallUnknown => 4002 | Nosys => 4003
  end.

Definition as_negated (e : Errno) : Z := - errno_code e.

Definition name (e : Errno) : string :=
  match e with
  | EOk => "OK" | Perm => "EPERM" | NoEnt => "ENOENT" | IO => "EIO" | BadF => "EBADF" | Again => "EAGAIN"
  | NoMem => "ENOMEM" | Access => "EACCES" | Busy => "EBUSY" | Exist => "EEXIST" | NoDev => "ENODEV"
  | NotDir => "ENOTDIR" | IsDir => "EISDIR" | Inval => "EINVAL" | FileTooBig => "EFBIG" | NoSpace => "ENOSPC"
  | Pipe => "EPIPE" | CapMissing => "ORIN_ECAPMISSING" | SignatureBad => "ORIN_ESIGBAD"
  | CallUnknown => "ORIN_ECALLUNKNOWN" | Nosys => "ORIN_ENOSYS"
  end.

(** ** Registers and STAR *)

Definition REG_NR : string := "rax".
Definition REG_ARGS : list string := ["rdi"; "rsi"; "rdx"; "r10"; "r8"; "r9"]%string.
Definition REG_CLOBBERED : list string := ["rcx"; "r11"]%string.
Definition INT_VECTOR : Z := 0x40.

(** [user_cs.wrapping_sub(16)] on [u16]. *)
Definition star_value (kernel_cs user_cs_after_sysret : Z) : Z :=
  let sysret_base := (user_cs_after_sysret - 16) mod 2 ^ 16 in
  Z.lor (Z.shiftl (Z.land sysret_base 0xFFFF) 48) (Z.shiftl (Z.land kernel_cs 0xFFFF) 32).

Definition dispatch (n : Z) (args : list Z) : Z + Errno := inr Nosys.

(** ** What the CPU does with STAR

    SYSCALL loads CS from STAR[47:32] with its RPL cleared and SS from the next
    descriptor; SYSRET to 64-bit code loads CS from STAR[63:48] + 16 and SS from
    STAR[63:48] + 8, both with RPL 3. *)

Definition star_field (lo : Z) (star : Z) : Z := Z.land (Z.shiftr star lo) 0xFFFF.
Definition syscall_cs (star : Z) : Z := Z.land (star_field 32 star) 0xFFFC.
Definition syscall_ss (star : Z) : Z := Z.land (star_field 32 star) 0xFFFC + 8.
Definition sysret_cs (star : Z) : Z := Z.lor (star_field 48 star + 16) 3.
Definition sysret_ss (star : Z) : Z := Z.lor (star_field 48 star + 8) 3.

Lemma land_ffff x : 0 ≤ x < 2 ^ 16 → Z.land x 0xFFFF = x.
Proof. intros H. change 0xFFFF with (Z.ones 16). rewrite Z.land_ones by lia. apply Z.mod_small. lia. Qed.

(** The two fields of [star_value] do not overlap. *)
Lemma star_fields kcs ucs :
  0 ≤ kcs < 2 ^ 16 → 0 ≤ ucs < 2 ^ 16 →
  star_field 48 (star_value kcs ucs) = (ucs - 16) mod 2 ^ 16 ∧ star_field 32 (star_value kcs ucs) = kcs.
Proof.
  intros Hk Hu. pose proof (Z.mod_pos_bound (ucs - 16) (2 ^ 16)) as Hb.
  unfold star_field, star_value. rewrite (land_ffff kcs), (land_ffff (_ mod _)) by lia. set (b := (ucs - 16) mod 2 ^ 16) in *.
  assert (Z.lor (Z.shiftl b 48) (Z.shiftl kcs 32) = b * 2 ^ 48 + kcs * 2 ^ 32) as ->.
  { rewrite !Z.shiftl_mul_pow2 by lia. symmetry. rewrite <- Z.lxor_lor, <- Z.add_nocarry_lxor; [done|..];
      apply Z.bits_inj'; intros n Hn; rewrite Z.land_spec, Z.bits_0, <- !Z.shiftl_mul_pow2, !Z.shiftl_spec by lia;
      (destruct (Z.ltb_spec n 48); [by rewrite (Z.testbit_neg_r b (n - 48)) by lia|]);
      by rewrite (testbit_high 16 kcs (n - 32)), andb_false_r by lia. }
  rewrite !Z.shiftr_div_pow2 by lia. change 0xFFFF with (Z.ones 16). rewrite !Z.land_ones by lia.
  split; zlia.
Qed.

(** The selectors work out.  With the STAR value computed from the GDT's
    own selectors, SYSCALL enters the kernel on its code and data segments and
    SYSRET returns to the user segments, each at the index [gdt::init] installed
    it at: the descriptor order and the STAR arithmetic agree. *)
Theorem sysret_selectors `{X : X86Crate} `{G : GdtCrate} ist_base :
  ist_ok ist_base →
  ∃ sels g, Gdt.init ist_base (mkGdt false Tss_new Table_new) = Ret (sels, g) ∧
    let star := star_value sels.(kernel_code) sels.(user_code) in
    syscall_cs star = sels.(kernel_code) ∧ syscall_ss star = sels.(kernel_data) ∧
    sysret_cs star = sels.(user_code) ∧ sysret_ss star = sels.(user_data).
Proof.
  intros Hok. destruct (gdt_init_ok ist_base (mkGdt false Tss_new Table_new) Hok) as (g & -> & _).
  { intros _. split; [apply length_replicate|done]. }
  eexists _, g. split; [reflexivity|]. cbn zeta. cbn [kernel_code kernel_data user_code user_data].
  unfold syscall_cs, syscall_ss, sysret_cs, sysret_ss.
  by destruct (star_fields KERNEL_CODE_SEL USER_CODE_SEL) as [-> ->].
Qed.

Lemma sysret_selectors_witness :
  ∃ sels g, @Gdt.init x86_ref gdt_ref 0xFFFFFFFF81000000 (@mkGdt gdt_ref false Tss_new 1) = Ret (sels, g) ∧
    sysret_cs (star_value sels.(kernel_code) sels.(user_code)) = sels.(user_code).
Proof.
  destruct (@sysret_selectors x86_ref gdt_ref 0xFFFFFFFF81000000) as (sels & g & E & _ & _ & H & _).
  - split; by vm_compute.
  - exists sels, g. split; [exact E|exact H].
Defined.

(** ** The numbering *)

Definition in_block (n : Z) (b : Range) : bool := (b.(start) <=? n) && (n <? b.(stop)).

Definition named : list Z :=
  [1; 2; 3; 4; 5; 6; 32; 33; 34; 64; 65; 66; 67; 68; 69; 128; 129; 130; 192; 193; 194; 195; 224; 240].

Lemma name_of_known n : name_of n ≠ "<unknown>"%string → n ∈ named.
Proof.
  unfold name_of. repeat (case_match; [intros _; apply Z.eqb_eq in H as ->; by apply (bool_decide_unpack _)|clear H]).
  done.
Qed.

(** C40: The number space.  Every number from 1 to 255 belongs to exactly one
    block and 0 to none; the numbers with a name belong to a block and no two
    share a name; and no call, named or not, does anything but fail with ENOSYS,
    whose negated code is in the range the ABI reserves for errors, as is every
    error's, no two of them equal. *)
Theorem numbers_sound :
  (∀ n, 0 ≤ n < 2 ^ 16 → length (List.filter (in_block n) nr.blocks) = if (1 <=? n) && (n <? 256) then 1%nat else 0%nat) ∧
  (∀ n m, name_of n ≠ "<unknown>"%string → name_of n = name_of m → n = m) ∧
  (∀ n, name_of n ≠ "<unknown>"%string → ∃ b, b ∈ nr.blocks ∧ in_block n b = true) ∧
  (∀ n args, dispatch n args = inr Nosys) ∧
  (∀ e, e ≠ EOk → -4095 ≤ as_negated e ≤ -1) ∧
  (∀ e e', as_negated e = as_negated e' → e = e').
Proof.
  split; [|split; [|split; [|split; [done|split]]]].
  - intros n Hn. destruct (Z.ltb_spec n 256).
    + assert (Forall (fun n => length (List.filter (in_block n) nr.blocks) = if 1 <=? n then 1%nat else 0%nat) (seqZ 0 256)) as H1
        by (apply (bool_decide_unpack _); by vm_compute).
      rewrite Forall_forall in H1. rewrite andb_true_r. apply H1, elem_of_seqZ. lia.
    + rewrite andb_false_r. unfold nr.blocks, in_block. cbn [List.filter start stop nr.BLOCK_PROCESS nr.BLOCK_MEMORY
        nr.BLOCK_IO nr.BLOCK_IPC nr.BLOCK_CAPABILITY nr.BLOCK_TIME nr.BLOCK_SYSTEM].
      rewrite !(proj2 (Z.ltb_ge n _)), !andb_false_r by lia. done.
  - intros n m Hn E. pose proof Hn as Hm. rewrite E in Hm. apply name_of_known in Hn, Hm.
    assert (Forall (fun n => Forall (fun m => name_of n = name_of m → n = m) named) named) as H
      by (apply (bool_decide_unpack _); by vm_compute).
    rewrite Forall_forall in H. pose proof (H n Hn) as H'. rewrite Forall_forall in H'. by apply H'.
  - intros n Hn%name_of_known.
    assert (Forall (fun n => Exists (fun b => in_block n b = true) nr.blocks) named) as H by (apply (bool_decide_unpack _); by vm_compute).
    rewrite Forall_forall in H. pose proof (H n Hn) as H'. by rewrite Exists_exists in H'.
  - intros [] He; done || (cbn; lia).
  - by intros [] [].
Qed.
