(* ===== verification/Cpuid.v ===== *)
(** * CPU feature detection (kernel/src/cpu/cpuid.rs)

    The CPUID instruction is the parameter [cpuid], a function from leaf and
    subleaf to the four registers; RDRAND is a parameter too.  Detection runs
    once and its result is cached.  The theorems: detection depends only on the
    leaves the CPU says it has, decodes the strings it is given, and [report]
    stops the boot exactly on a missing hard requirement. *)

From stdpp Require Import base sets list list_numbers strings.
From Stdlib Require Import ZArith Lia.
From S2P Require Import Prelude BootInfo Multiboot MultibootSpec.
#[local] Open Scope Z_scope.

Record CpuidResult : Type := mkCpuid { eax : Z; ebx : Z; ecx : Z; edx : Z }.

(** [CpuidResult::default()] *)
Definition CpuidResult_default : CpuidResult := mkCpuid 0 0 0 0.

Record CpuFeatures : Type := mkFeatures {
  vendor : bytes; family : Z; model : Z; stepping : Z; brand : bytes; max_leaf : Z; max_ext_leaf : Z;
  nx : bool; pdpe1gb : bool; la57 : bool; smep : bool; smap : bool; invpcid : bool; rdseed : bool; rdrand : bool;
  rdrand_present_but_unverified : bool; x2apic : bool; apic : bool; tsc : bool; tsc_invariant : bool;
  tsc_khz : option Z; hypervisor_present : bool; hypervisor_vendor : bytes; sse2 : bool; syscall : bool;
  fsgsbase : bool; avx : bool; avx2 : bool }.

(** [buf[off..off + src.len()].copy_from_slice(src)] *)
Definition copy_at (buf : bytes) (off : Z) (src : bytes) : Res bytes :=
  if off + Z.of_nat (length src) <=? Z.of_nat (length buf) then
    Ret (take (Z.to_nat off) buf ++ src ++ drop (Z.to_nat off + length src) buf)
  else Panic OutOfBounds.

(** [buf[off..off + 4].copy_from_slice(&r.to_le_bytes())] *)
Definition copy_reg (off r : Z) (buf : bytes) : Res bytes := copy_at buf off (le_bytes 4 r).

Definition bit (n r : Z) : bool := negb (Z.land r (Z.shiftl 1 n) =? 0).

Section Detect.
Context (cpuid : Z → Z → CpuidResult).

Definition raw (leaf subleaf : Z) : CpuidResult := cpuid leaf subleaf.

Definition leaf_if (present : bool) (leaf : Z) : CpuidResult :=
  if present then raw leaf 0 else CpuidResult_default.

Definition vendor_bytes (leaf0 : CpuidResult) : Res bytes :=
  v ← copy_reg 0 leaf0.(ebx) (replicate 13 0);
  v ← copy_reg 4 leaf0.(edx) v;
  copy_reg 8 leaf0.(ecx) v.

Definition brand_leaf (i leaf : Z) (b : bytes) : Res bytes :=
  let r := raw leaf 0 in
  b ← copy_reg (i * 16) r.(eax) b;
  b ← copy_reg (i * 16 + 4) r.(ebx) b;
  b ← copy_reg (i * 16 + 8) r.(ecx) b;
  copy_reg (i * 16 + 12) r.(edx) b.

Definition brand_bytes (max_ext : Z) : Res bytes :=
  if 0x80000004 <=? max_ext then
    for_list [(0, 0x80000002); (1, 0x80000003); (2, 0x80000004)] (replicate 49 0)
      (fun il b => brand_leaf il.1 il.2 b)
  else Ret (replicate 49 0).

Definition hypervisor_bytes (present : bool) : Res bytes :=
  if present then
    let hv := raw 0x40000000 0 in
    v ← copy_reg 0 hv.(ebx) (replicate 13 0);
    v ← copy_reg 4 hv.(ecx) v;
    copy_reg 8 hv.(edx) v
  else Ret (replicate 13 0).

Definition family_of (a : Z) : Z :=
  let base_family := Z.land (Z.shiftr a 8) 0xF in
  let ext_family := Z.land (Z.shiftr a 20) 0xFF in
  if base_family =? 0xF then base_family + ext_family else base_family.

Definition model_of (a : Z) : Z :=
  let base_family := Z.land (Z.shiftr a 8) 0xF in
  let base_model := Z.land (Z.shiftr a 4) 0xF in
  let ext_model := Z.land (Z.shiftr a 16) 0xF in
  if (base_family =? 0x6) || (base_family =? 0xF) then Z.shiftl ext_model 4 + base_model else base_model.

Definition tsc_khz_of (leaf15 : CpuidResult) : Res (option Z) :=
  if negb (leaf15.(ebx) =? 0) && negb (leaf15.(eax) =? 0) then
    let nominal := if negb (leaf15.(ecx) =? 0) then leaf15.(ecx) else 0 in
    if negb (nominal =? 0) then
      m ← mul64 nominal leaf15.(ebx); Ret (Some (m / leaf15.(eax) / 1000))
    else Ret None
  else Ret None.

(** The closure [detect] runs once. *)
Definition detect_once : Res CpuFeatures :=
  let leaf0 := raw 0 0 in
  let ml := leaf0.(eax) in
  vend ← vendor_bytes leaf0;
  let leaf1 := leaf_if (1 <=? ml) 1 in
  let leaf7 := leaf_if (7 <=? ml) 7 in
  let leaf15 := leaf_if (0x15 <=? ml) 0x15 in
  let ext := raw 0x80000000 0 in
  let mel := ext.(eax) in
  let ext1 := leaf_if (0x80000001 <=? mel) 0x80000001 in
  let ext7 := leaf_if (0x80000007 <=? mel) 0x80000007 in
  brnd ← brand_bytes mel;
  let hv := bit 31 leaf1.(ecx) in
  hvv ← hypervisor_bytes hv;
  khz ← tsc_khz_of leaf15;
  Ret {| vendor := vend; family := family_of leaf1.(eax); model := model_of leaf1.(eax);
         stepping := Z.land leaf1.(eax) 0xF; brand := brnd; max_leaf := ml; max_ext_leaf := mel;
         nx := bit 20 ext1.(edx); pdpe1gb := bit 26 ext1.(edx); la57 := bit 16 leaf7.(ecx);
         smep := bit 7 leaf7.(ebx); smap := bit 20 leaf7.(ebx); invpcid := bit 10 leaf7.(ebx);
         rdseed := bit 18 leaf7.(ebx); rdrand := bit 30 leaf1.(ecx);
         rdrand_present_but_unverified := bit 30 leaf1.(ecx); x2apic := bit 21 leaf1.(ecx);
         apic := bit 9 leaf1.(edx); tsc := bit 4 leaf1.(edx); tsc_invariant := bit 8 ext7.(edx);
         tsc_khz := khz; hypervisor_present := hv; hypervisor_vendor := hvv; sse2 := bit 26 leaf1.(edx);
         syscall := bit 11 ext1.(edx); fsgsbase := bit 0 leaf7.(ebx); avx := bit 28 leaf1.(ecx);
         avx2 := bit 5 leaf7.(ebx) |}.

(** [FEATURES.call_once] *)
Definition detect (cache : option CpuFeatures) : Res (CpuFeatures * option CpuFeatures) :=
  match cache with
  | Some f => Ret (f, cache)
  | None => f ← detect_once; Ret (f, Some f)
  end.

End Detect.

(** [buf.iter().position(|&b| b == 0)] then [from_utf8]. *)
Definition cstr (buf : bytes) : bytes :=
  let s := trim_nul buf in if is_utf8 s then s else lit "<non-ascii>".

(** ** RDRAND *)

Definition U64_MAX : Z := 2 ^ 64 - 1.

(** The probe loop over the answers of successive RDRANDs: carry flag and value. *)
Fixpoint probe (answers : list (bool * Z)) : bool :=
  match answers with
  | [] => true
  | (ok, v) :: rest =>
      if negb ok then probe rest
      else if negb (v =? U64_MAX) && negb (v =? 0) then false else probe rest
  end.

(** [entropy_probe]: the verdict and [RDRAND_SUSPECT]; [answer i] is the [i]th
    RDRAND. *)
Definition entropy_probe (f : CpuFeatures) (answer : nat → bool * Z) (suspect : bool) : bool * bool :=
  if negb f.(rdrand) then (false, suspect)
  else let s := probe (answer <$> seq 0 8) in (s, s).

(** ** The report *)

Inductive Degraded : Type := NoSmep | NoSmap | TscNotInvariant.

(** [report]: the hard requirements panic; the soft ones it warns about. *)
Definition report (f : CpuFeatures) : Res (list Degraded) :=
  _ ← rassert f.(sse2) "cpuid: SSE2 is mandatory on x86_64 but CPUID says otherwise";
  _ ← rassert f.(nx) "cpuid: NX support is required for Orin's W^X memory policy";
  _ ← rassert f.(syscall) "cpuid: SYSCALL/SYSRET is required for the M5 syscall ABI";
  Ret ((if negb f.(smep) then [NoSmep] else []) ++ (if negb f.(smap) then [NoSmap] else []) ++
       (if negb f.(tsc_invariant) && f.(tsc) then [TscNotInvariant] else [])).

(** ** Facts *)

Definition is_u32 (r : Z) : Prop := 0 ≤ r < 2 ^ 32.
Definition regs_u32 (r : CpuidResult) : Prop := is_u32 r.(eax) ∧ is_u32 r.(ebx) ∧ is_u32 r.(ecx) ∧ is_u32 r.(edx).

Lemma vendor_bytes_ok r : vendor_bytes r = Ret (le_bytes 4 r.(ebx) ++ le_bytes 4 r.(edx) ++ le_bytes 4 r.(ecx) ++ [0]).
Proof. reflexivity. Qed.

Lemma hypervisor_bytes_ok c :
  hypervisor_bytes c true =
    let hv := c 0x40000000 0 in Ret (le_bytes 4 hv.(ebx) ++ le_bytes 4 hv.(ecx) ++ le_bytes 4 hv.(edx) ++ [0]).
Proof. reflexivity. Qed.

(** The sixteen bytes of a brand leaf. *)
Definition leaf_bytes (r : CpuidResult) : bytes :=
  le_bytes 4 r.(eax) ++ le_bytes 4 r.(ebx) ++ le_bytes 4 r.(ecx) ++ le_bytes 4 r.(edx).

Lemma brand_bytes_ok c m :
  brand_bytes c m =
    Ret (if 0x80000004 <=? m then leaf_bytes (c 0x80000002 0) ++ leaf_bytes (c 0x80000003 0) ++ leaf_bytes (c 0x80000004 0) ++ [0]
         else replicate 49 0).
Proof. unfold brand_bytes. destruct (0x80000004 <=? m); reflexivity. Qed.

Lemma tsc_khz_ok r : regs_u32 r → ∃ k, tsc_khz_of r = Ret k.
Proof.
  intros (Ha & Hb & Hc & _). unfold is_u32 in *. unfold tsc_khz_of. destruct (_ && _); [|eauto].
  destruct (negb (ecx r =? 0)); cbv zeta; [|eauto]. destruct (negb _); [|eauto].
  rewrite mul64_ok by (rewrite U64_val; nia). eauto.
Qed.

Section Supported.
Context (c : Z → Z → CpuidResult).

(** The leaves the CPU says it implements. *)
Definition supported (leaf : Z) : Prop :=
  0 ≤ leaf ≤ (c 0 0).(eax) ∨ leaf = 0 ∨ leaf = 0x80000000 ∨ 0x80000000 ≤ leaf ≤ (c 0x80000000 0).(eax) ∨
  leaf = 0x40000000 ∧ 1 ≤ (c 0 0).(eax) ∧ bit 31 (c 1 0).(ecx) = true.

Lemma leaf_if_eq (c' : Z → Z → CpuidResult) (present : bool) leaf :
  (present = true → c' leaf 0 = c leaf 0) → leaf_if c' present leaf = leaf_if c present leaf.
Proof. unfold leaf_if, raw. destruct present; auto. Qed.

Lemma brand_bytes_eq (c' : Z → Z → CpuidResult) :
  (∀ leaf, supported leaf → c' leaf 0 = c leaf 0) →
  brand_bytes c' (c 0x80000000 0).(eax) = brand_bytes c (c 0x80000000 0).(eax).
Proof.
  intros Hs. rewrite !brand_bytes_ok. destruct (Z.leb_spec 0x80000004 (c 0x80000000 0).(eax)); [|done].
  by rewrite (Hs 0x80000002), (Hs 0x80000003), (Hs 0x80000004) by (unfold supported; lia).
Qed.

Lemma hypervisor_bytes_eq (c' : Z → Z → CpuidResult) :
  (∀ leaf, supported leaf → c' leaf 0 = c leaf 0) →
  let hv := bit 31 (leaf_if c (1 <=? (c 0 0).(eax)) 1).(ecx) in
  hypervisor_bytes c' hv = hypervisor_bytes c hv.
Proof.
  intros Hs. cbn zeta. unfold leaf_if, raw. destruct (Z.leb_spec 1 (c 0 0).(eax)); [|done].
  destruct (bit 31 (c 1 0).(ecx)) eqn:Hb; [|done]. rewrite !hypervisor_bytes_ok. cbn zeta.
  rewrite (Hs 0x40000000); [done|]. unfold supported. rewrite Hb. lia.
Qed.

Lemma detect_once_eq (c' : Z → Z → CpuidResult) :
  (∀ leaf, supported leaf → c' leaf 0 = c leaf 0) → detect_once c' = detect_once c.
Proof.
  intros Hs. unfold detect_once, raw. cbv zeta.
  rewrite (Hs 0), (Hs 0x80000000), brand_bytes_eq by (done || unfold supported; lia).
  rewrite !(leaf_if_eq c' (1 <=? (c 0 0).(eax)) 1), !(leaf_if_eq c' (7 <=? (c 0 0).(eax)) 7),
    !(leaf_if_eq c' (0x15 <=? (c 0 0).(eax)) 0x15),
    !(leaf_if_eq c' (0x80000001 <=? (c 0x80000000 0).(eax)) 0x80000001),
    !(leaf_if_eq c' (0x80000007 <=? (c 0x80000000 0).(eax)) 0x80000007)
    by (intros ?%Z.leb_le; apply Hs; unfold supported; lia).
  by rewrite (hypervisor_bytes_eq c' Hs).
Qed.

Lemma detect_once_ok : (∀ leaf, regs_u32 (c leaf 0)) → ∃ f, detect_once c = Ret f.
Proof.
  intros Hu. unfold detect_once. rewrite vendor_bytes_ok, brand_bytes_ok. cbn [mbind Res_bind].
  assert (∃ b, hypervisor_bytes c (bit 31 (leaf_if c (1 <=? (raw c 0 0).(eax)) 1).(ecx)) = Ret b) as [b ->].
  { destruct (bit _ _); [rewrite hypervisor_bytes_ok|]; eauto. }
  destruct (tsc_khz_ok (leaf_if c (0x15 <=? (raw c 0 0).(eax)) 0x15)) as [k ->]; [|eauto].
  unfold leaf_if. destruct (_ <=? _); [apply Hu|]. repeat split; cbn; lia.
Qed.

(** Detection succeeds on every CPU, never looks at a leaf the CPU does not
    report (two CPUs that agree on the reported leaves give the same answer,
    whatever the other leaves hold), and is cached: later calls return the same
    features without executing CPUID. *)
Theorem detect_supported_only (c' : Z → Z → CpuidResult) :
  (∀ leaf, regs_u32 (c leaf 0)) → (∀ leaf, supported leaf → c' leaf 0 = c leaf 0) →
  ∃ f, detect c None = Ret (f, Some f) ∧ detect c' None = Ret (f, Some f) ∧ ∀ c'', detect c'' (Some f) = Ret (f, Some f).
Proof.
  intros Hu Hs. destruct (detect_once_ok Hu) as [f E]. exists f. unfold detect. by rewrite (detect_once_eq c' Hs), E.
Qed.

(** Bytes packed into a register come back. *)
Lemma le_bytes_from s : Forall is_u8 s → le_bytes (length s) (from_le_bytes s) = s.
Proof.
  induction 1 as [|x s Hx Hs IH]; cbn [length le_bytes from_le_bytes]; [done|]. unfold is_u8 in Hx.
  replace ((x + 256 * from_le_bytes s) mod 256) with x by zlia.
  replace ((x + 256 * from_le_bytes s) / 256) with (from_le_bytes s) by zlia. by rewrite IH.
Qed.

Lemma le_bytes_4 s : Forall is_u8 s → length s = 4%nat → le_bytes 4 (from_le_bytes s) = s.
Proof. intros Hs <-. by apply le_bytes_from. Qed.

Lemma cstr_ok s k : is_utf8 s = true → 0 ∉ s → cstr (s ++ 0 :: k) = s.
Proof. intros Hu H0. unfold cstr. rewrite trim_nul_app_no by done. cbn [trim_nul Z.eqb]. by rewrite app_nil_r, Hu. Qed.

Lemma land_bounds x k : 0 ≤ k → 0 ≤ Z.land x (Z.ones k) < 2 ^ k.
Proof. intros Hk. rewrite Z.land_ones by lia. apply Z.mod_pos_bound. lia. Qed.

(** The vendor string round trips: a CPU that answers leaf 0 with the
    twelve characters of a name in EBX, EDX and ECX is reported under that name,
    and its family and model are displayed as the vendors' algorithm defines
    them, within 0 to 270 and 0 to 255. *)
Theorem vendor_round_trip v1 v2 v3 f k :
  Forall is_u8 (v1 ++ v2 ++ v3) → length v1 = 4%nat → length v2 = 4%nat → length v3 = 4%nat →
  is_utf8 (v1 ++ v2 ++ v3) = true → 0 ∉ v1 ++ v2 ++ v3 →
  (c 0 0).(ebx) = from_le_bytes v1 → (c 0 0).(edx) = from_le_bytes v2 → (c 0 0).(ecx) = from_le_bytes v3 →
  detect c None = Ret (f, k) →
  cstr f.(vendor) = v1 ++ v2 ++ v3 ∧ 0 ≤ f.(family) ≤ 270 ∧ 0 ≤ f.(model) ≤ 255.
Proof.
  intros Hu L1 L2 L3 Hs H0 E1 E2 E3 E. apply Forall_app in Hu as [U1 [U2 U3]%Forall_app].
  unfold detect in E. apply bind_Ret in E as (f' & E & [= -> _]). unfold detect_once in E.
  rewrite vendor_bytes_ok, brand_bytes_ok in E. cbn [mbind Res_bind] in E.
  apply bind_Ret in E as (hvv & _ & E). apply bind_Ret in E as (khz & _ & E). apply Ret_inj in E. rewrite <- E. cbn [vendor family model].
  unfold raw. rewrite E1, E2, E3, !le_bytes_4 by done.
  split; [|split].
  - replace (v1 ++ v2 ++ v3 ++ [0]) with ((v1 ++ v2 ++ v3) ++ 0 :: []) by (by rewrite <- !app_assoc). by apply cstr_ok.
  - unfold family_of. set (a := eax _). change 0xF with (Z.ones 4). change 0xFF with (Z.ones 8).
    pose proof (land_bounds (Z.shiftr a 8) 4). pose proof (land_bounds (Z.shiftr a 20) 8).
    destruct (_ =? _); cbn in *; lia.
  - unfold model_of. set (a := eax _). change 0xF with (Z.ones 4).
    pose proof (land_bounds (Z.shiftr a 4) 4). pose proof (land_bounds (Z.shiftr a 16) 4).
    rewrite Z.shiftl_mul_pow2 by lia. destruct (_ || _); cbn in *; lia.
Qed.

End Supported.

(** [entropy_probe] flags RDRAND exactly when none of its eight answers was both
    flagged valid and not all zeroes or all ones. *)
Lemma entropy_probe_spec f answer s :
  f.(rdrand) = true →
  entropy_probe f answer s = (true, true) ↔ ∀ i, (i < 8)%nat → (answer i).1 = true → (answer i).2 = 0 ∨ (answer i).2 = U64_MAX.
Proof.
  intros Hf. unfold entropy_probe. rewrite Hf. cbn [negb]. cbv zeta.
  assert (∀ l, probe l = true ↔ Forall (fun p : bool * Z => p.1 = true → p.2 = 0 ∨ p.2 = U64_MAX) l) as H.
  { induction l as [|[ok v] l IH]; cbn [probe]; [done|]. rewrite Forall_cons, <- IH. cbn [fst snd].
    destruct ok; cbn [negb]; [|naive_solver]. destruct (Z.eqb_spec v U64_MAX), (Z.eqb_spec v 0); cbn [negb andb]; naive_solver. }
  specialize (H (answer <$> seq 0 8)). rewrite Forall_fmap, Forall_seq in H. unfold compose in H.
  split.
  - intros [= E]. intros i Hi. apply H; [done|lia].
  - intros Ha. assert (probe (answer <$> seq 0 8) = true) as ->; [|done]. apply H. intros j Hj. apply Ha. lia.
Qed.

(** [report] stops the boot exactly when a hard requirement (SSE2, NX,
    SYSCALL) is missing; otherwise it warns about precisely the protections the
    machine lacks. *)
Theorem report_gates f :
  ((∃ e, report f = Panic e) ↔ f.(sse2) = false ∨ f.(nx) = false ∨ f.(syscall) = false) ∧
  ∀ w, report f = Ret w →
    (NoSmep ∈ w ↔ f.(smep) = false) ∧ (NoSmap ∈ w ↔ f.(smap) = false) ∧
    (TscNotInvariant ∈ w ↔ f.(tsc_invariant) = false ∧ f.(tsc) = true).
Proof.
  unfold report. split.
  - destruct (sse2 f), (nx f), (syscall f); cbn; naive_solver.
  - intros w E. repeat (apply bind_Ret in E as (? & _ & E)). injection E as <-.
    rewrite !elem_of_app. destruct (smep f), (smap f), (tsc_invariant f), (tsc f); cbn; set_solver.
Qed.

(** ** Witnesses *)

(** An Intel CPU with everything the kernel requires. *)
Definition demo_cpuid (leaf sub : Z) : CpuidResult :=
  if leaf =? 0 then mkCpuid 7 (from_le_bytes (lit "Genu")) (from_le_bytes (lit "ntel")) (from_le_bytes (lit "ineI"))
  else if leaf =? 1 then mkCpuid 0x306A9 0 0 (2 ^ 26)
  else if leaf =? 7 then mkCpuid 0 (2 ^ 7) 0 0
  else if leaf =? 0x80000000 then mkCpuid 0x80000001 0 0 0
  else if leaf =? 0x80000001 then mkCpuid 0 0 0 (2 ^ 20 + 2 ^ 11)
  else mkCpuid 0 0 0 0.

Lemma demo_cpuid_u32 leaf : regs_u32 (demo_cpuid leaf 0).
Proof. unfold demo_cpuid. repeat case_match; split_and!; split; by vm_compute. Qed.

Lemma detect_supported_only_witness :
  ∃ f, detect demo_cpuid None = Ret (f, Some f) ∧ f.(max_leaf) = 7.
Proof.
  destruct (detect_supported_only demo_cpuid demo_cpuid demo_cpuid_u32 (fun _ _ => eq_refl)) as (f & E & _).
  exists f. split; [exact E|]. vm_compute in E. injection E as <-. reflexivity.
Defined.

Lemma vendor_round_trip_witness :
  ∃ f, detect demo_cpuid None = Ret (f, Some f) ∧ cstr f.(vendor) = lit "Genu" ++ lit "ineI" ++ lit "ntel".
Proof.
  eexists. split; [vm_compute; reflexivity|].
  refine (proj1 (vendor_round_trip demo_cpuid (lit "Genu") (lit "ineI") (lit "ntel") _ _ _ eq_refl eq_refl eq_refl _ _ eq_refl eq_refl eq_refl _)).
  - apply (bool_decide_unpack _). by vm_compute.
  - by vm_compute.
  - apply (bool_decide_unpack _). by vm_compute.
  - vm_compute. reflexivity.
Defined.
