(* ===== verification/Fmt.v ===== *)
(** * Number formatting of the kernel's reports

    [core::fmt]'s [{}], [{:#x}] and [{:#018x}] on unsigned 64-bit values, as the
    diagnostics of regs.rs, panic.rs and idt.rs use them. *)

From stdpp Require Import base list list_numbers strings.
From Stdlib Require Import ZArith Lia.
From S2P Require Import Prelude BootInfo Params.
#[local] Open Scope Z_scope.

(** [{}] of a [u64]: at most twenty digits. *)
Definition udec (n : Z) : bytes := dec_fuel 20 n.

Definition hex_digit (d : Z) : Z := if d <? 10 then 48 + d else 87 + d.

(** The lower-case hexadecimal digits, most significant first. *)
Fixpoint hex_fuel (fuel : nat) (n : Z) : bytes :=
  match fuel with
  | O => []
  | S f => if n <? 16 then [hex_digit n] else hex_fuel f (n / 16) ++ [hex_digit (n mod 16)]
  end.

Definition hex_digits (n : Z) : bytes := hex_fuel 16 n.

(** [{:#x}] and [{:#018x}] *)
Definition hex (n : Z) : bytes := lit "0x" ++ hex_digits n.
Definition hex018 (n : Z) : bytes := lit "0x" ++ replicate (16 - length (hex_digits n)) 48 ++ hex_digits n.

Lemma length_hex_fuel f n : (length (hex_fuel f n) ≤ f)%nat.
Proof.
  revert n. induction f as [|f IH]; intros n; cbn [hex_fuel]; [done|]. destruct (n <? 16); [cbn; lia|].
  rewrite length_app. specialize (IH (n / 16)). cbn. lia.
Qed.

(** A register column is eighteen characters wide. *)
Lemma length_hex018 n : length (hex018 n) = 18%nat.
Proof.
  unfold hex018. rewrite !length_app, length_replicate. pose proof (length_hex_fuel 16 n) as H.
  unfold hex_digits. change (length (lit "0x")) with 2%nat. lia.
Qed.

(** *** Reading the digits back *)

Definition digit_value (c : Z) : Z := if c <? 58 then c - 48 else c - 87.
Definition hex_value (s : bytes) : Z := foldl (fun acc c => 16 * acc + digit_value c) 0 s.

Lemma digit_value_hex d : 0 ≤ d < 16 → digit_value (hex_digit d) = d.
Proof. intros Hd. unfold digit_value, hex_digit. zbool; lia. Qed.

Lemma hex_value_fuel f n : 0 ≤ n < 16 ^ Z.of_nat (S f) → hex_value (hex_fuel (S f) n) = n.
Proof.
  revert n. induction f as [|f IH]; intros n Hn; cbn [hex_fuel]; destruct (Z.ltb_spec n 16).
  - unfold hex_value. cbn [foldl]. rewrite digit_value_hex; lia.
  - change (16 ^ Z.of_nat 1) with 16 in Hn. lia.
  - unfold hex_value. cbn [foldl]. rewrite digit_value_hex; lia.
  - change (hex_value (hex_fuel (S f) (n / 16) ++ [hex_digit (n mod 16)]) = n).
    unfold hex_value in *. rewrite foldl_app, IH; cbn [foldl]; [rewrite digit_value_hex; zlia|].
    rewrite (Nat2Z.inj_succ (S f)), Z.pow_succ_r in Hn by lia. zlia.
Qed.

Lemma hex_value_replicate k acc : foldl (fun acc c => 16 * acc + digit_value c) acc (replicate k 48) = 16 ^ Z.of_nat k * acc.
Proof.
  revert acc. induction k as [|k IH]; intros acc; cbn [replicate foldl]; [cbn; lia|].
  rewrite IH, (Nat2Z.inj_succ k), Z.pow_succ_r by lia. change (digit_value 48) with 0. lia.
Qed.

(** The padded form loses nothing: it reads back as the register. *)
Lemma hex018_value n : 0 ≤ n < U64 → hex_value (drop 2 (hex018 n)) = n.
Proof.
  intros Hn. unfold hex018. change (drop 2 (lit "0x" ++ ?x)) with x. unfold hex_value.
  rewrite foldl_app, hex_value_replicate, Z.mul_0_r. apply hex_value_fuel. exact Hn.
Qed.
