(* ===== verification/Msr.v ===== *)
(** * Model-specific registers (kernel/src/cpu/msr.rs)

    The registers are a finite map from numbers to 64-bit values; [rdmsr] and
    [wrmsr] move the two 32-bit halves the instructions use.  That a register
    exists is the callers' contract (the [SAFETY] comments of the source): one that
    was never written reads as 0 here, where the CPU would raise #GP.  The trace
    line of [write] is not modelled. *)

From stdpp Require Import base gmap list strings numbers.
From Stdlib Require Import ZArith Lia.
From S2P Require Import Prelude.
#[local] Open Scope Z_scope.

(** ** Numbers and bits *)

Module addr.
Definition EFER : Z := 0xC0000080.
Definition STAR : Z := 0xC0000081.
Definition LSTAR : Z := 0xC0000082.
Definition CSTAR : Z := 0xC0000083.
Definition SFMASK : Z := 0xC0000084.
Definition FS_BASE : Z := 0xC0000100.
Definition GS_BASE : Z := 0xC0000101.
Definition KERNEL_GS_BASE : Z := 0xC0000102.
Definition PAT : Z := 0x00000277.
Definition APIC_BASE : Z := 0x0000001B.
Definition MCG_CAP : Z := 0x00000179.
Definition U_CET : Z := 0x000006A0.
Definition S_CET : Z := 0x000006A2.
Definition PL0_SSP : Z := 0x000006A4.
End addr.

Module efer.
Definition SCE : Z := Z.shiftl 1 0.
Definition LME : Z := Z.shiftl 1 8.
Definition LMA : Z := Z.shiftl 1 10.
Definition NXE : Z := Z.shiftl 1 11.
Definition SVME : Z := Z.shiftl 1 12.
Definition LMSLE : Z := Z.shiftl 1 13.
Definition FFXSR : Z := Z.shiftl 1 14.
End efer.

(** ** The instructions *)

Abbreviation Msrs := (gmap Z Z).

Definition rdmsr (ecx : Z) (m : Msrs) : Z * Z :=
  let v := default 0 (m !! ecx) in (v mod 2 ^ 32, v / 2 ^ 32).

Definition wrmsr (ecx eax edx : Z) (m : Msrs) : Msrs := <[ecx := edx * 2 ^ 32 + eax]> m.

(** ** The module's operations *)

Definition read (msr : Z) (m : Msrs) : Z :=
  let '(lo, hi) := rdmsr msr m in Z.lor (Z.shiftl hi 32) lo.

Definition write (msr value : Z) (m : Msrs) : Msrs :=
  let lo := Z.land value 0xFFFFFFFF in
  let hi := Z.shiftr value 32 in
  wrmsr msr lo hi m.

(** The new value, and the registers: written only if the value changed. *)
Definition update (msr : Z) (f : Z → Z) (m : Msrs) : Z * Msrs :=
  let old := read msr m in
  let new := f old in
  (new, if negb (new =? old) then write msr new m else m).

Definition exists_msg : string :=
  "msr::exists is not implemented in M1 (see docs/DRIVERS.md §5); gate MSR access on a CPUID feature bit instead".

Definition exists_ (msr : Z) : string + bool := inl exists_msg.

(** ** Facts *)

Definition msrs_ok (m : Msrs) : Prop := map_Forall (fun _ v => 0 ≤ v < U64) m.

Lemma halves v : 0 ≤ v → Z.lor (Z.shiftl (v / 2 ^ 32) 32) (v mod 2 ^ 32) = v.
Proof.
  intros Hv. rewrite <- Z.shiftr_div_pow2, <- Z.land_ones by lia. apply Z.bits_inj'. intros n Hn.
  rewrite Z.lor_spec, Z.shiftl_spec, Z.land_spec, Z.testbit_ones_nonneg by lia.
  destruct (Z.ltb_spec n 32).
  - rewrite (Z.testbit_neg_r _ (n - 32)) by lia. by rewrite andb_true_r.
  - rewrite andb_false_r, orb_false_r, Z.shiftr_spec by lia. f_equal. lia.
Qed.

Lemma read_lookup a m : msrs_ok m → read a m = default 0 (m !! a).
Proof.
  intros Hm. unfold read, rdmsr. cbv zeta beta. apply halves. destruct (m !! a) as [v|] eqn:E; [|done].
  apply (Hm _ _ E).
Qed.

Lemma write_insert a v m : write a v m = <[a := v]> m.
Proof.
  unfold write, wrmsr. cbv zeta. f_equal. change 0xFFFFFFFF with (Z.ones 32).
  rewrite Z.land_ones, Z.shiftr_div_pow2 by lia. zlia.
Qed.

Lemma write_ok a v m : 0 ≤ v < U64 → msrs_ok m → msrs_ok (write a v m).
Proof. intros Hv Hm. rewrite write_insert. by apply map_Forall_insert_2. Qed.

Lemma read_write a b v m : 0 ≤ v < U64 → msrs_ok m → read b (write a v m) = if a =? b then v else read b m.
Proof.
  intros Hv Hm. rewrite !read_lookup by (try apply write_ok; done). rewrite write_insert.
  destruct (Z.eqb_spec a b) as [->|Hn]; [by rewrite lookup_insert_eq|by rewrite lookup_insert_ne].
Qed.

(** The two 32-bit halves lose nothing: after [write] the register reads back as
    written and every other register as before, and [update] leaves the register
    at [f] of its value, returns that value, and touches no register at all when
    [f] does not change it. *)
Theorem update_exact a f m :
  msrs_ok m → 0 ≤ f (read a m) < U64 →
  let '(new, m') := update a f m in
  new = f (read a m) ∧ read a m' = new ∧ (∀ b, b ≠ a → read b m' = read b m) ∧ msrs_ok m' ∧
  (f (read a m) = read a m → m' = m).
Proof.
  intros Hm Hf. unfold update. cbv zeta. destruct (Z.eqb_spec (f (read a m)) (read a m)) as [E|E]; cbn [negb].
  - done.
  - split; [done|]. split; [by rewrite read_write, Z.eqb_refl|]. split; [|split; [by apply write_ok|done]].
    intros b Hb. rewrite read_write by done. by destruct (Z.eqb_spec a b).
Qed.

(** EFER with LME and LMA set; turning NXE on. *)
Lemma update_exact_witness :
  read addr.EFER (update addr.EFER (fun e => Z.lor e efer.NXE) {[addr.EFER := 0x500]}).2 = 0xD00.
Proof.
  pose proof (update_exact addr.EFER (fun e => Z.lor e efer.NXE) {[addr.EFER := 0x500]}) as H.
  destruct (update addr.EFER (fun e => Z.lor e efer.NXE) {[addr.EFER := 0x500]}) as [new m'] eqn:E.
  destruct H as (H1 & H2 & _).
  - apply map_Forall_singleton. by vm_compute.
  - by vm_compute.
  - cbn [snd]. rewrite H2, H1. reflexivity.
Defined.
