(* ===== verification/Regs.v ===== *)
(** * Register reports (kernel/src/cpu/regs.rs)

    The register snapshot, its formatted dumps and the audit of the control
    registers.  Reading the registers is the hardware's business: a snapshot is
    a value of [CpuRegs]. *)

From stdpp Require Import base list list_numbers strings.
From Stdlib Require Import ZArith Lia.
From S2P Require Import Prelude BootInfo Cpuid Fmt.
#[local] Open Scope Z_scope.

Record CpuRegs : Type := mkRegs {
  rip : Z; rsp : Z; rflags : Z; cs : Z; ss : Z;
  rax : Z; rbx : Z; rcx : Z; rdx : Z; rsi : Z; rdi : Z; rbp : Z;
  r8 : Z; r9 : Z; r10 : Z; r11 : Z; r12 : Z; r13 : Z; r14 : Z; r15 : Z;
  cr0 : Z; cr2 : Z; cr3 : Z; cr4 : Z; efer : Z }.

(** [CpuRegs::default()] *)
Definition CpuRegs_default : CpuRegs :=
  mkRegs 0 0 0 0 0 0 0 0 0 0 0 0 0 0 0 0 0 0 0 0 0 0 0 0 0.

(** ** Capture

    [hw] are the registers of the machine.  [mov {0:x}, cs] writes the low 16
    bits of its destination only: the rest of the field is what the register held
    before, [stale]. *)

Definition selector_into (stale sel : Z) : Z := Z.lor (Z.ldiff stale 0xFFFF) (Z.land sel 0xFFFF).

Record InterruptStackFrame : Type := mkFrame {
  instruction_pointer : Z; stack_pointer : Z; cpu_flags : Z; code_segment : Z; stack_segment : Z }.

Definition read_around (frame : InterruptStackFrame) (hw : CpuRegs) : CpuRegs :=
  {| rip := frame.(instruction_pointer); rsp := frame.(stack_pointer); rflags := frame.(cpu_flags);
     cs := frame.(code_segment); ss := frame.(stack_segment);
     rax := hw.(rax); rbx := hw.(rbx); rcx := hw.(rcx); rdx := hw.(rdx); rsi := hw.(rsi); rdi := hw.(rdi);
     rbp := hw.(rbp); r8 := hw.(r8); r9 := hw.(r9); r10 := hw.(r10); r11 := hw.(r11); r12 := hw.(r12);
     r13 := hw.(r13); r14 := hw.(r14); r15 := hw.(r15);
     cr0 := hw.(cr0); cr2 := hw.(cr2); cr3 := hw.(cr3); cr4 := hw.(cr4); efer := hw.(efer) |}.

Definition current (stale_cs stale_ss : Z) (hw : CpuRegs) : CpuRegs :=
  {| rip := hw.(rip); rsp := hw.(rsp); rflags := hw.(rflags);
     cs := selector_into stale_cs hw.(cs); ss := selector_into stale_ss hw.(ss);
     rax := hw.(rax); rbx := hw.(rbx); rcx := hw.(rcx); rdx := hw.(rdx); rsi := hw.(rsi); rdi := hw.(rdi);
     rbp := hw.(rbp); r8 := hw.(r8); r9 := hw.(r9); r10 := hw.(r10); r11 := hw.(r11); r12 := hw.(r12);
     r13 := hw.(r13); r14 := hw.(r14); r15 := hw.(r15);
     cr0 := hw.(cr0); cr2 := hw.(cr2); cr3 := hw.(cr3); cr4 := hw.(cr4); efer := hw.(efer) |}.

(** ** The general registers *)

(** One row of three registers. *)
Definition row (n1 n2 n3 : string) (v1 v2 v3 : Z) : bytes :=
  lit "  " ++ lit n1 ++ hex018 v1 ++ lit "  " ++ lit n2 ++ hex018 v2 ++ lit "  " ++ lit n3 ++ hex018 v3 ++ [10].

(** [Display for RegDump]; a quotation mark is byte 34. *)
Definition RegDump_fmt (r : CpuRegs) : bytes :=
  lit "  --- registers as seen INSIDE the handler ---" ++ [10] ++
  lit "  (the faulting instruction's own register state is NOT recoverable via" ++ [10] ++
  lit "   extern " ++ [34] ++ lit "x86-interrupt" ++ [34] ++
  lit "; RIP/RSP/RFLAGS/CS/SS above ARE the interrupted values)" ++ [10] ++
  row "rax " "rbx " "rcx " r.(rax) r.(rbx) r.(rcx) ++
  row "rdx " "rsi " "rdi " r.(rdx) r.(rsi) r.(rdi) ++
  row "rbp " "r8  " "r9  " r.(rbp) r.(r8) r.(r9) ++
  row "r10 " "r11 " "r12 " r.(r10) r.(r11) r.(r12) ++
  row "r13 " "r14 " "r15 " r.(r13) r.(r14) r.(r15).

(** ** The control registers *)

(** The names of the set bits, each followed by a space. *)
Definition flag_names (v : Z) (l : list (Z * string)) : bytes :=
  concat ((fun p => if bit p.1 v then lit p.2 else []) <$> l).

Definition cr0_flags : list (Z * string) := [(0, "PE "); (16, "WP "); (29, "NW "); (30, "CD "); (31, "PG ")]%string.
Definition cr4_flags : list (Z * string) :=
  [(5, "PAE "); (7, "PGE "); (11, "UMIP "); (16, "FSGSBASE "); (17, "PCIDE "); (20, "SMEP "); (21, "SMAP ")]%string.
Definition efer_flags : list (Z * string) :=
  [(0, "SCE "); (8, "LME "); (10, "LMA "); (11, "NXE "); (12, "SVME ")]%string.

Definition format_control (r : CpuRegs) : bytes :=
  lit "  cr0 " ++ hex018 r.(cr0) ++ lit " [" ++ flag_names r.(cr0) cr0_flags ++ lit "]" ++ [10] ++
  lit "  cr4 " ++ hex018 r.(cr4) ++ lit " [" ++ flag_names r.(cr4) cr4_flags ++ lit "]" ++ [10] ++
  lit "  efer " ++ hex018 r.(efer) ++ lit " [" ++ flag_names r.(efer) efer_flags ++ lit "]" ++ [10] ++
  lit "  cr2 " ++ hex018 r.(cr2) ++ lit "  cr3 " ++ hex018 r.(cr3).

Definition msg_WP : string := "CR0.WP is CLEAR: the kernel can write to read-only pages, so W^X and .rodata protection do not hold".
Definition msg_PG : string := "CR0.PG is CLEAR: paging is off, so there is no memory protection at all".
Definition msg_NXE : string := "EFER.NXE is CLEAR: NX bits in page tables are ignored, so no page can be made non-executable".
Definition msg_LMA : string := "EFER.LMA is CLEAR: the CPU is not in long mode".
Definition msg_SMEP : string := "CR4.SMEP is CLEAR despite CPUID.SMEP: the kernel can execute user-space code, removing a major ret2usr mitigation".
Definition msg_SMAP : string := "CR4.SMAP is CLEAR despite CPUID.SMAP: the kernel can read user memory without an explicit copy_*_user, so a stray pointer is not caught".

(** The [add!] macro: [out.get_mut(n)] then [n += 1]. *)
Definition add_problem (cond : bool) (msg : string) (st : list string * Z) : list string * Z :=
  let '(out, n) := st in
  if cond then
    match out !! Z.to_nat n with Some _ => (<[Z.to_nat n := msg]> out, n + 1) | None => (out, n) end
  else (out, n).

Definition control_register_problems (feats : CpuFeatures) (r : CpuRegs) : list string :=
  let st := (replicate 6 ""%string, 0) in
  let st := add_problem (negb (bit 16 r.(cr0))) msg_WP st in
  let st := add_problem (negb (bit 31 r.(cr0))) msg_PG st in
  let st := add_problem (negb (bit 11 r.(efer))) msg_NXE st in
  let st := add_problem (negb (bit 10 r.(efer))) msg_LMA st in
  let st := add_problem (feats.(smep) && negb (bit 20 r.(cr4))) msg_SMEP st in
  let st := add_problem (feats.(smap) && negb (bit 21 r.(cr4))) msg_SMAP st in
  st.1.

(** ** Facts *)

(** Filling the array is filtering a list. *)
Definition listed (l : list (bool * string)) : list string :=
  concat ((fun p : bool * string => if p.1 then [p.2] else []) <$> l).

Lemma problems_listed feats r :
  filter (.≠ ""%string) (control_register_problems feats r) =
  listed [(negb (bit 16 r.(cr0)), msg_WP); (negb (bit 31 r.(cr0)), msg_PG); (negb (bit 11 r.(efer)), msg_NXE);
          (negb (bit 10 r.(efer)), msg_LMA); (feats.(smep) && negb (bit 20 r.(cr4)), msg_SMEP);
          (feats.(smap) && negb (bit 21 r.(cr4)), msg_SMAP)].
Proof.
  unfold control_register_problems.
  destruct (bit 16 _), (bit 31 _), (bit 11 _), (bit 10 _), (smep _ && _), (smap _ && _); reflexivity.
Qed.

Lemma listed_cons_nil b m l : listed ((b, m) :: l) = [] ↔ b = false ∧ listed l = [].
Proof. unfold listed. destruct b; cbn; naive_solver. Qed.

Lemma elem_of_listed x b m l : x ∈ listed ((b, m) :: l) ↔ (b = true ∧ x = m) ∨ x ∈ listed l.
Proof. unfold listed. destruct b; cbn; rewrite ?elem_of_cons; naive_solver. Qed.

Lemma problems_none feats r :
  filter (.≠ ""%string) (control_register_problems feats r) = [] ↔
     bit 16 r.(cr0) = true ∧ bit 31 r.(cr0) = true ∧ bit 11 r.(efer) = true ∧ bit 10 r.(efer) = true ∧
     (feats.(smep) = true → bit 20 r.(cr4) = true) ∧ (feats.(smap) = true → bit 21 r.(cr4) = true).
Proof.
  rewrite problems_listed, !listed_cons_nil, !negb_false_iff, !andb_false_iff, !negb_false_iff. unfold listed. cbn.
  destruct (smep feats), (smap feats); naive_solver.
Qed.

(** The audit is exact: no problem is reported if and only if write
    protection, paging, no-execute and long mode are on and SMEP and SMAP are on
    wherever the CPU has them; and the six slots are always enough for every
    problem present. *)
Theorem control_problems_exact feats r :
  (filter (.≠ ""%string) (control_register_problems feats r) = [] ↔
     bit 16 r.(cr0) = true ∧ bit 31 r.(cr0) = true ∧ bit 11 r.(efer) = true ∧ bit 10 r.(efer) = true ∧
     (feats.(smep) = true → bit 20 r.(cr4) = true) ∧ (feats.(smap) = true → bit 21 r.(cr4) = true)) ∧
  ∀ msg, msg ∈ filter (.≠ ""%string) (control_register_problems feats r) ↔
    (bit 16 r.(cr0) = false ∧ msg = msg_WP) ∨ (bit 31 r.(cr0) = false ∧ msg = msg_PG) ∨
    (bit 11 r.(efer) = false ∧ msg = msg_NXE) ∨ (bit 10 r.(efer) = false ∧ msg = msg_LMA) ∨
    (feats.(smep) = true ∧ bit 20 r.(cr4) = false ∧ msg = msg_SMEP) ∨
    (feats.(smap) = true ∧ bit 21 r.(cr4) = false ∧ msg = msg_SMAP).
Proof.
  split; [apply problems_none|]. rewrite problems_listed.
  intros msg. rewrite !elem_of_listed, !negb_true_iff, !andb_true_iff, !negb_true_iff. unfold listed. cbn.
  rewrite elem_of_nil. tauto.
Qed.

(** The dump of the general registers is 566 bytes long. *)
Lemma length_row n1 n2 n3 v1 v2 v3 :
  length (row n1 n2 n3 v1 v2 v3) = (61 + (length (lit n1) + length (lit n2) + length (lit n3)))%nat.
Proof.
  unfold row. rewrite !length_app, !length_hex018. cbn [length].
  change (length (lit "  ")) with 2%nat. lia.
Qed.

Lemma length_RegDump r : length (RegDump_fmt r) = 566%nat.
Proof. unfold RegDump_fmt. rewrite !length_app, !length_row. reflexivity. Qed.
