(* ===== verification/Heap.v ===== *)
(** * The kernel heap (kernel/src/memory/heap.rs)

    [init] hands the allocator its region and records the statistics; the
    allocator itself is the linked_list_allocator crate. *)

From stdpp Require Import base list strings.
From Stdlib Require Import ZArith Lia.
From S2P Require Import Prelude Arch.
#[local] Open Scope Z_scope.

(** [HeapStats] *)
Record HeapStats : Type := mkHeapStats { hbase : Z; hsize : Z; hinit : bool }.

(** The statics: the region the allocator manages (empty before [init]) and
    [STATS]. *)
Record Heap : Type := mkHeap { REGION : option (Z * Z); STATS : HeapStats }.

Definition Heap_new : Heap := mkHeap None (mkHeapStats 0 0 false).

Definition init (h : Heap) : Res (Z * Heap) :=
  let start := HEAP_VIRT_START in
  end_ ← add64 start HEAP_SIZE;
  _ ← rassert (start <? end_) "heap: linker script produced an empty heap region";
  size ← sub64 end_ start;
  Ret (size, mkHeap (Some (start, size)) (mkHeapStats start size true)).

Definition stats (h : Heap) : HeapStats := h.(STATS).

Lemma init_eq h :
  init h = Ret (HEAP_SIZE, mkHeap (Some (HEAP_VIRT_START, HEAP_SIZE)) (mkHeapStats HEAP_VIRT_START HEAP_SIZE true)).
Proof. by vm_compute. Qed.
