(* ===== verification/Panic.v ===== *)
(** * The panic handler (kernel/src/panic.rs)

    The handler as a program over the lock-free console of Raw.v.  Three things
    can happen to it besides printing: an allocation or a memory access fails and
    control leaves for [alloc_error] or the page-fault handler ([format_control]
    builds a [String], [backtrace] follows frame pointers), a lock it asks for is
    held by the interrupted code (the CPU then spins for ever), and
    [triple_fault]'s division by zero, which Rust checks, raises a panic again.  What the handler reads
    (registers, statistics, which locks are held, which stack words are mapped)
    is the record [World]. *)

From stdpp Require Import base list list_numbers strings.
From Stdlib Require Import ZArith Lia.
From S2P Require Import Prelude Ports Arch BootInfo Pmm Multiboot Serial Vga Raw Keyboard Heap Cpuid Fmt Regs Idt.
#[local] Open Scope Z_scope.

(** ** State *)

(** What the handler reads. *)
Record World : Type := mkWorld {
  message : bytes; location : option (bytes * Z * Z);
  hw : CpuRegs; stale_cs : Z; stale_ss : Z; feats : CpuFeatures; text_start : Z; text_end : Z;
  load : Z → option Z;                          (** a word of memory; [None]: not mapped *)
  heap_ok : bool;                               (** allocations succeed *)
  pmm_held : bool; kbd_held : bool; log_held : bool;  (** locks the panicking code holds *)
  pmm_ready : bool; pmm_stats : Stats; heap_stats : HeapStats; irqs : Counters;
  kbd_presence : Presence; kbd_events : Z; kbd_pending : Z; kbd_dropped : Z;
  emitted : Z; filtered : Z }.

(** [current_regs]: like [CpuRegs::current], but RSP is never read. *)
Definition current_regs (stale_cs stale_ss : Z) (hw : CpuRegs) : CpuRegs :=
  {| rip := hw.(rip); rsp := CpuRegs_default.(rsp); rflags := hw.(rflags);
     cs := selector_into stale_cs hw.(cs); ss := selector_into stale_ss hw.(ss);
     rax := hw.(rax); rbx := hw.(rbx); rcx := hw.(rcx); rdx := hw.(rdx); rsi := hw.(rsi); rdi := hw.(rdi);
     rbp := hw.(rbp); r8 := hw.(r8); r9 := hw.(r9); r10 := hw.(r10); r11 := hw.(r11); r12 := hw.(r12);
     r13 := hw.(r13); r14 := hw.(r14); r15 := hw.(r15);
     cr0 := hw.(cr0); cr2 := hw.(cr2); cr3 := hw.(cr3); cr4 := hw.(cr4); efer := hw.(efer) |}.

Definition regs (w : World) : CpuRegs := current_regs w.(stale_cs) w.(stale_ss) w.(hw).

Record Panicking (D : Type) : Type := mkPanicking {
  PANICKING : bool; PANIC_COUNT : Z; ACTION : Z; raw : Raw D }.
Arguments mkPanicking {D} _ _ _ _.
Arguments PANICKING {D} _.
Arguments PANIC_COUNT {D} _.
Arguments ACTION {D} _.
Arguments raw {D} _.

(** [PanicAction as u64] *)
Definition action_code (a : PanicAction) : Z := match a with Halt => 0 | Reboot => 1 | Triple => 2 end.

Definition show_bool (b : bool) : bytes := if b then lit "true" else lit "false".
Definition show_presence (p : Presence) : bytes :=
  match p with Unknown => lit "Unknown" | Controller => lit "Controller" | Keyboard => lit "Keyboard" | Absent => lit "Absent" end.

(** [{:<2}] *)
Definition udec2 (n : Z) : bytes := let s := udec n in s ++ replicate (2 - length s) 32.

(** Control: go on, leave for another handler, or spin for ever. *)
Inductive Ctl (A : Type) : Type := Go (a : A) | Leave | Stuck.
Arguments Go {A} a.
Arguments Leave {A}.
Arguments Stuck {A}.

Inductive Outcome : Type := Halted | Deadlocked | StackExhausted
  | Escaped.  (** control left for [alloc_error] or the page-fault handler *)

#[export] Instance Outcome_eq_dec : EqDecision Outcome.
Proof. solve_decision. Defined.

Section Handler.
Context {D : Type} `{B : Bus D}.
Abbreviation S := (Panicking D).

Definition set_raw (r : Raw D) (s : S) : S := mkPanicking s.(PANICKING) s.(PANIC_COUNT) s.(ACTION) r.

Definition set_panic_action (a : PanicAction) (s : S) : S :=
  mkPanicking s.(PANICKING) s.(PANIC_COUNT) (action_code a) s.(raw).

Definition panic_action (s : S) : PanicAction :=
  if s.(ACTION) =? action_code Reboot then Reboot
  else if s.(ACTION) =? action_code Triple then Triple else Halt.

Definition panic_count (s : S) : Z := s.(PANIC_COUNT).

(** *** A program of the handler *)

Definition Prog (A : Type) : Type := S → Ctl A * S.

Definition pret {A} (a : A) : Prog A := fun s => (Go a, s).
Definition pbind {A B} (m : Prog A) (k : A → Prog B) : Prog B := fun s =>
  match m s with
  | (Go a, s') => k a s'
  | (Leave, s') => (Leave, s')
  | (Stuck, s') => (Stuck, s')
  end.

(** [raw_println!] *)
Definition say (line : bytes) : Prog unit := fun s =>
  match println line s.(raw) with
  | Ret r => (Go tt, set_raw r s)
  | Panic _ => (Leave, s)
  end.

Fixpoint says (lines : list bytes) : Prog unit :=
  match lines with
  | [] => pret tt
  | l :: ls => pbind (say l) (fun _ => says ls)
  end.

(** An allocation; on failure [alloc_error] takes over. *)
Definition alloc (ok : bool) : Prog unit := fun s => (if ok then Go tt else Leave, s).

(** [spin::Mutex::lock] on a lock the interrupted code may hold. *)
Definition lock (held : bool) : Prog unit := fun s => (if held then Stuck else Go tt, s).

(** A read of a mapped word; any other read is a page fault. *)
Definition read_word (w : World) (a : Z) : Prog Z := fun s =>
  match w.(load) a with Some v => (Go v, s) | None => (Leave, s) end.

(** *** Backtrace *)

Definition MAX_FRAMES : nat := 24.

Definition valid_frame_pointer (rbp : Z) : bool :=
  (KERNEL_VMA <=? rbp) && (rbp mod 16 =? 0) && (rbp <? U64_MAX - 16).

Definition line_bad_frame (depth rbp : Z) : bytes :=
  lit "ORIN|P|PANIC|  #" ++ udec2 depth ++ lit " frame pointer " ++ hex rbp ++
  lit " is not a plausible kernel stack address; stopping rather than faulting inside the panic handler".
Definition line_frame (depth ret_addr saved_rbp : Z) (in_text : bool) : bytes :=
  lit "ORIN|P|PANIC|  #" ++ udec2 depth ++ lit " " ++ hex018 ret_addr ++
  (if in_text then [] else lit " [NOT in .text]") ++ lit " (rbp " ++ hex saved_rbp ++ lit ")".
Definition line_outside (text_start text_end : Z) : bytes :=
  lit "ORIN|P|PANIC|       -> return address outside .text [" ++ hex text_start ++ lit ".." ++ hex text_end ++
  lit "): corrupted stack, or an indirect call through a bad pointer".
Definition line_not_increasing : bytes :=
  lit "ORIN|P|PANIC|       -> frame pointer did not increase; chain corrupt, stopping".
Definition line_truncated : bytes := lit "ORIN|P|PANIC|  truncated at MAX_FRAMES=24".

(** The loop from depth [depth], [n] iterations left. *)
Fixpoint frames (w : World) (n : nat) (depth rbp : Z) : Prog unit :=
  match n with
  | O => say line_truncated
  | Datatypes.S n' =>
      if negb (valid_frame_pointer rbp) then say (line_bad_frame depth rbp)
      else
        pbind (read_word w rbp) (fun saved_rbp =>
        pbind (read_word w (rbp + 8)) (fun ret_addr =>
        let in_text := (w.(text_start) <=? ret_addr) && (ret_addr <? w.(text_end)) in
        pbind (say (line_frame depth ret_addr saved_rbp in_text)) (fun _ =>
        if negb in_text then say (line_outside w.(text_start) w.(text_end))
        else if saved_rbp <=? rbp then say line_not_increasing
        else frames w n' (depth + 1) saved_rbp)))
  end.

Definition backtrace (w : World) (rbp : Z) : Prog unit := frames w MAX_FRAMES 0 rbp.

(** *** The report *)

Definition head_lines (w : World) : list bytes :=
  [[10] ++ lit "ORIN-PANIC-BEGIN"; lit "ORIN|P|PANIC|" ++ w.(message)] ++
  match w.(location) with
  | Some (file, line, column) =>
      [lit "ORIN|P|PANIC|  at " ++ file ++ lit ":" ++ udec line ++ lit ":" ++ udec column]
  | None => []
  end ++
  [lit "ORIN|P|PANIC|  rip " ++ hex018 (regs w).(rip) ++ lit "  rsp " ++ hex018 (regs w).(rsp) ++
   lit "  rflags " ++ hex018 (regs w).(rflags) ++ lit "  cs " ++ hex (regs w).(cs) ++ lit "  ss " ++ hex (regs w).(ss);
   lit "ORIN|P|PANIC|" ++ RegDump_fmt (regs w)].

Definition problem_lines (w : World) : list bytes :=
  (fun p => lit "ORIN|P|PANIC|  SECURITY: " ++ lit p) <$>
  filter (.≠ ""%string) (control_register_problems w.(feats) (regs w)).

Definition where_lines (w : World) : list bytes :=
  let rip := (regs w).(rip) in
  if KERNEL_VMA <=? rip then
    [lit "ORIN|P|PANIC|  rip offset from .text: " ++ hex (wrap64 (rip - w.(text_start)));
     lit "ORIN|P|PANIC|  resolve: llvm-addr2line -e build/orin_kernel.elf -f -C -i " ++ hex rip]
  else
    [lit "ORIN|P|PANIC|  rip " ++ hex rip ++
     lit " is BELOW the kernel half " ++ [226; 128; 148] ++
     lit " execution left kernel space. Corrupted return address or a jump through a bad function pointer, not an ordinary kernel bug."].

Definition line_pmm (w : World) : bytes :=
  let ps := w.(pmm_stats) in
  lit "ORIN|P|PANIC|  pmm: " ++ udec ps.(s_free_frames) ++ lit " free / " ++ udec ps.(s_total_frames) ++
  lit " total frames, " ++ udec ps.(s_reserved_frames) ++ lit " reserved, " ++ udec ps.(s_bad_frames) ++
  lit " bad, " ++ udec (ps.(s_unmapped_bytes) / (1024 * 1024)) ++ lit " MiB unmapped".
Definition line_heap (w : World) : bytes :=
  lit "ORIN|P|PANIC|  heap: " ++ udec w.(heap_stats).(hsize) ++ lit " bytes at " ++ hex w.(heap_stats).(hbase) ++
  lit ", initialised=" ++ show_bool w.(heap_stats).(hinit).
Definition line_irqs (w : World) : bytes :=
  let c := w.(irqs) in
  lit "ORIN|P|PANIC|  interrupts: ticks=" ++ udec c.(timer_ticks) ++ lit " keys=" ++ udec c.(key_events) ++
  lit " spurious=" ++ udec c.(spurious) ++ lit " exceptions=" ++ udec c.(exceptions) ++
  lit " unassigned=" ++ udec c.(unassigned) ++ lit " syscalls=" ++ udec c.(syscalls).
Definition line_kbd (w : World) : bytes :=
  lit "ORIN|P|PANIC|  keyboard: presence=" ++ show_presence w.(kbd_presence) ++ lit " events=" ++ udec w.(kbd_events) ++
  lit " pending=" ++ udec w.(kbd_pending) ++ lit " dropped=" ++ udec w.(kbd_dropped).

(** The body between the re-entrancy guard and the action. *)
Definition report (w : World) (n : Z) : Prog unit :=
  pbind (says (head_lines w)) (fun _ =>
  pbind (alloc w.(heap_ok)) (fun _ =>
  pbind (say (lit "ORIN|P|PANIC|" ++ format_control (regs w))) (fun _ =>
  pbind (says (problem_lines w)) (fun _ =>
  pbind (says (where_lines w)) (fun _ =>
  pbind (say (lit "ORIN|P|PANIC|  --- backtrace (frame pointers) ---")) (fun _ =>
  pbind (backtrace w (regs w).(rbp)) (fun _ =>
  pbind (say (lit "ORIN|P|PANIC|  --- subsystem state ---")) (fun _ =>
  pbind (lock w.(pmm_held)) (fun _ =>
  pbind (says [lit "ORIN|P|PANIC|  pmm initialised: " ++ show_bool w.(pmm_ready); line_pmm w; line_heap w; line_irqs w]) (fun _ =>
  pbind (lock w.(kbd_held)) (fun _ =>
  pbind (say (line_kbd w)) (fun _ =>
  pbind (lock w.(log_held)) (fun _ =>
  says [lit "ORIN|P|PANIC|  log: " ++ udec w.(emitted) ++ lit " records emitted, " ++ udec w.(filtered) ++ lit " filtered";
        lit "ORIN|P|PANIC|  panic #" ++ udec n;
        lit "ORIN-PANIC-END"]))))))))))))).

(** *** The action *)

Fixpoint poll_reset (n : nat) (h : Hw D) : Hw D :=
  match n with
  | O => h
  | Datatypes.S n' => let '(v, h) := inb 0x64 h in if Z.land v 0x02 =? 0 then h else poll_reset n' h
  end.

(** The keyboard-controller reset pulse. *)
Definition pulse : Prog unit := fun s =>
  let r := s.(raw) in
  (Go tt, set_raw (mkRaw r.(RAW_ROW) r.(RAW_COL) r.(SERIAL_OK) r.(screen) (outb 0x64 0xFE (poll_reset 16 r.(rhw)))) s).

Definition line_halt : bytes := lit "ORIN|P|PANIC|action=halt; system stopped, will not reboot".
Definition line_reboot : bytes := lit "ORIN|P|PANIC|action=reboot; pulsing the keyboard-controller reset line".
Definition line_triple : bytes := lit "ORIN|P|PANIC|action=triple; deliberately inducing a triple fault".

(** [action]: what happens before the CPU stops, or before [triple_fault] runs. *)
Definition action (a : PanicAction) : Prog unit :=
  match a with
  | Halt => say line_halt
  | Reboot => pbind (say line_reboot) (fun _ => pulse)
  | Triple => say line_triple
  end.

Definition recursive_lines : list bytes :=
  [lit "ORIN|P|RECURSIVE|panic handler panicked; halting"; lit "ORIN-PANIC-END"].

(** [#[panic_handler]]; the panic count wraps.  [stack] is the number of nested handler calls the kernel
    stack has room for.  [again] runs the handler for the panic [triple_fault]
    raises: its [1u32 / zero] is a checked division. *)
Definition perform (again : S → Outcome * S) (s : S) : Outcome * S :=
  match action (panic_action s) s with
  | (Go _, s') => match panic_action s with Halt => (Halted, s') | _ => again s' end
  | (Leave, s') => (Escaped, s')
  | (Stuck, s') => (Deadlocked, s')
  end.

Fixpoint panic (stack : nat) (w : World) (s : S) : Outcome * S :=
  match stack with
  | O => (StackExhausted, s)
  | Datatypes.S stack' =>
      let n := wrap64 (s.(PANIC_COUNT) + 1) in
      let s1 := mkPanicking true n s.(ACTION) s.(raw) in
      match (if s.(PANICKING) then says recursive_lines else report w n) s1 with
      | (Go _, s2) => perform (panic stack' w) s2
      | (Leave, s2) => (Escaped, s2)
      | (Stuck, s2) => (Deadlocked, s2)
      end
  end.

(** ** Facts *)

(** The text of a sequence of lines, each cut by the message buffer. *)
Definition text (lines : list bytes) : bytes := concat ((fun l => shown l ++ [10]) <$> lines).

Lemma text_app a b : text (a ++ b) = text a ++ text b.
Proof. unfold text. by rewrite fmap_app, concat_app. Qed.

Section Ready.
Hypothesis uart_ready : ∀ d : D, Z.land (bus_in (COM1 + REG_LINE_STATUS) d).1 LSR_THRE ≠ 0.

(** The program prints [lines] and ends with [c], changing nothing else. *)
Definition outputs {A} (p : Ctl A * S) (s : S) (c : Ctl A) (lines : list bytes) : Prop :=
  ∃ r, p = (c, set_raw r s) ∧ prints (text lines) s.(raw) r.

Lemma set_raw_raw r r' (s : S) : set_raw r' (set_raw r s) = set_raw r' s.
Proof. done. Qed.

Lemma outputs_say line s : raw_inv s.(raw) → outputs (say line s) s (Go tt) [line].
Proof.
  intros Hi. unfold outputs, say. destruct (println_prints uart_ready line s.(raw) Hi) as (r & -> & P).
  exists r. split; [done|]. unfold text. cbn [fmap list_fmap concat]. by rewrite app_nil_r.
Qed.

(** Started anywhere on the screen, [m] ends with a control and lines that
    satisfy [Q]. *)
Definition runs {A} (m : Prog A) (Q : Ctl A → list bytes → Prop) : Prop :=
  ∀ s, raw_inv s.(raw) → ∃ c lines, outputs (m s) s c lines ∧ Q c lines.

Lemma runs_weaken {A} (m : Prog A) (Q Q' : Ctl A → list bytes → Prop) :
  (∀ c l, Q c l → Q' c l) → runs m Q → runs m Q'.
Proof. intros HQ H s Hi. destruct (H s Hi) as (c & l & Ho & Hq). exists c, l. split; [done|by apply HQ]. Qed.

(** Sequencing. *)
Lemma runs_bind {A A'} (m : Prog A) (k : A → Prog A') (Q : Ctl A' → list bytes → Prop) :
  runs m (fun c l => match c with
                     | Go a => runs (k a) (fun c' l' => Q c' (l ++ l'))
                     | Leave => Q Leave l
                     | Stuck => Q Stuck l
                     end) →
  runs (pbind m k) Q.
Proof.
  intros Hm s Hi. destruct (Hm s Hi) as (c & l & (r & E & P) & HQ). unfold pbind. rewrite E. destruct c as [a| |].
  - destruct (HQ (set_raw r s) (proj1 P)) as (c' & l' & (r' & E' & P') & HQ'). exists c', (l ++ l').
    split; [|done]. exists r'. split; [exact E'|]. rewrite text_app. by eapply prints_trans.
  - exists Leave, l. split; [by exists r|done].
  - exists Stuck, l. split; [by exists r|done].
Qed.

Lemma runs_quiet {A} (c : Ctl A) (Q : Ctl A → list bytes → Prop) : Q c [] → runs (fun s => (c, s)) Q.
Proof. intros HQ s Hi. exists c, []. split; [|done]. exists s.(raw). split; [by destruct s|]. by apply prints_nil. Qed.

Lemma runs_say line (Q : Ctl unit → list bytes → Prop) : Q (Go tt) [line] → runs (say line) Q.
Proof. intros HQ s Hi. exists (Go tt), [line]. split; [by apply outputs_say|done]. Qed.

Lemma runs_says lines (Q : Ctl unit → list bytes → Prop) : Q (Go tt) lines → runs (says lines) Q.
Proof.
  revert Q. induction lines as [|l ls IH]; intros Q HQ; cbn [says]; [by apply runs_quiet|].
  apply runs_bind, runs_say. by apply IH.
Qed.

(** *** The backtrace *)

(** A line of the report proper. *)
Definition tagged (l : bytes) : Prop := lit "ORIN|P|PANIC|" `prefix_of` l.

Ltac tag := repeat constructor; match goal with |- tagged _ => eexists; reflexivity end.

(** Every word the backtrace may look at is mapped. *)
Definition frames_mapped (w : World) : Prop :=
  ∀ a, valid_frame_pointer a = true → is_Some (w.(load) a) ∧ is_Some (w.(load) (a + 8)).

(** With [n] iterations left the backtrace prints at most [n + 2] lines; it
    faults only on an unmapped word. *)
Definition walked (w : World) (n : nat) (c : Ctl unit) (lines : list bytes) : Prop :=
  Forall tagged lines ∧ (length lines ≤ n + 2)%nat ∧ (c = Go tt ∨ c = Leave ∧ ¬ frames_mapped w).

Lemma walked_one w n l : tagged l → walked w n (Go tt) [l].
Proof. intros Hl. split; [by constructor|]. split; [cbn; lia|by left]. Qed.

Lemma runs_frames w n depth rbp : runs (frames w n depth rbp) (walked w n).
Proof.
  revert depth rbp. induction n as [|n IH]; intros depth rbp; cbn [frames].
  { apply runs_say, walked_one. tag. }
  destruct (valid_frame_pointer rbp) eqn:Hv; cbn [negb]; [|apply runs_say, walked_one; tag].
  apply runs_bind. unfold read_word. destruct (load w rbp) as [saved|] eqn:E1.
  2:{ apply runs_quiet. split; [done|]. split; [cbn; lia|]. right. split; [done|]. intros Hm.
      destruct (Hm rbp Hv) as [[x Hx] _]. congruence. }
  apply runs_quiet. apply runs_bind. destruct (load w (rbp + 8)) as [ret|] eqn:E2.
  2:{ apply runs_quiet. split; [done|]. split; [cbn; lia|]. right. split; [done|]. intros Hm.
      destruct (Hm rbp Hv) as [_ [x Hx]]. congruence. }
  apply runs_quiet. cbv zeta. apply runs_bind, runs_say. cbn [app].
  assert (∀ m : Prog unit, runs m (walked w n) → runs m (fun c l =>
    walked w (Datatypes.S n) c (line_frame depth ret saved ((text_start w <=? ret) && (ret <? text_end w)) :: l))) as Hw.
  { intros m. apply runs_weaken. intros c l (Hf & Hl & Hc). split; [constructor; [|done]|]; [|split; [cbn; lia|done]].
    eexists. reflexivity. }
  apply Hw. destruct (negb _); [apply runs_say, walked_one; tag|].
  destruct (saved <=? rbp); [apply runs_say, walked_one; tag|]. apply IH.
Qed.

(** *** The report *)

Definition BEGIN : bytes := [10] ++ lit "ORIN-PANIC-BEGIN".
Definition END : bytes := lit "ORIN-PANIC-END".

(** The lines of a whole report, [bt] being those of the backtrace. *)
Definition full_lines (w : World) (n : Z) (bt : list bytes) : list bytes :=
  head_lines w ++ [lit "ORIN|P|PANIC|" ++ format_control (regs w)] ++ problem_lines w ++ where_lines w ++
  [lit "ORIN|P|PANIC|  --- backtrace (frame pointers) ---"] ++ bt ++
  [lit "ORIN|P|PANIC|  --- subsystem state ---"] ++
  [lit "ORIN|P|PANIC|  pmm initialised: " ++ show_bool w.(pmm_ready); line_pmm w; line_heap w; line_irqs w] ++
  [line_kbd w] ++
  [lit "ORIN|P|PANIC|  log: " ++ udec w.(emitted) ++ lit " records emitted, " ++ udec w.(filtered) ++ lit " filtered";
   lit "ORIN|P|PANIC|  panic #" ++ udec n; END].

(** A report that has begun and not ended. *)
Definition unfinished (l : list bytes) : Prop := ∃ mid, l = BEGIN :: mid ∧ Forall tagged mid.

Lemma unfinished_app l l' : unfinished l → Forall tagged l' → unfinished (l ++ l').
Proof. intros (mid & -> & H) H'. exists (mid ++ l'). split; [done|]. by apply Forall_app. Qed.

Lemma unfinished_head w : unfinished (head_lines w).
Proof. eexists. split; [reflexivity|]. destruct (location w) as [[[f l] c]|]; tag. Qed.

Lemma tagged_problems w : Forall tagged (problem_lines w).
Proof. apply Forall_fmap, Forall_true. intros p. by eexists. Qed.

Lemma tagged_where w : Forall tagged (where_lines w).
Proof. unfold where_lines. destruct (_ <=? _); tag. Qed.

Definition any_lock (w : World) : bool := w.(pmm_held) || w.(kbd_held) || w.(log_held).

(** The end of the report that the first held lock keeps back. *)
Definition behind_lock (w : World) (n : Z) : list bytes :=
  (if w.(pmm_held) then
     [lit "ORIN|P|PANIC|  pmm initialised: " ++ show_bool w.(pmm_ready); line_pmm w; line_heap w; line_irqs w]
   else []) ++
  (if w.(pmm_held) || w.(kbd_held) then [line_kbd w] else []) ++
  [lit "ORIN|P|PANIC|  log: " ++ udec w.(emitted) ++ lit " records emitted, " ++ udec w.(filtered) ++ lit " filtered";
   lit "ORIN|P|PANIC|  panic #" ++ udec n; END].

Definition reported (w : World) (n : Z) (c : Ctl unit) (l : list bytes) : Prop :=
  match c with
  | Go _ => ∃ bt, walked w MAX_FRAMES (Go tt) bt ∧ l = full_lines w n bt ∧ any_lock w = false ∧ w.(heap_ok) = true
  | Leave => unfinished l ∧ (w.(heap_ok) = false ∨ ¬ frames_mapped w)
  | Stuck => (unfinished l ∧ ∃ bt, walked w MAX_FRAMES (Go tt) bt ∧ full_lines w n bt = l ++ behind_lock w n) ∧
      any_lock w = true
  end.

Lemma runs_lock held (Q : Ctl unit → list bytes → Prop) :
  (held = true → Q Stuck []) → (held = false → Q (Go tt) []) → runs (lock held) Q.
Proof. intros H1 H2. unfold lock. destruct held; apply runs_quiet; auto. Qed.

Ltac unfin := repeat first [assumption | apply unfinished_head | apply tagged_problems | apply tagged_where
  | apply unfinished_app | tag].

(** The report is what was printed and what is behind the lock. *)
Ltac cut := unfold full_lines, behind_lock; rewrite <- !app_assoc;
  repeat match goal with H : pmm_held _ = _ |- _ => rewrite H; clear H | H : kbd_held _ = _ |- _ => rewrite H; clear H end;
  reflexivity.

Lemma runs_report w n : runs (report w n) (reported w n).
Proof.
  unfold report. apply runs_bind, runs_says, runs_bind. unfold alloc. destruct (heap_ok w) eqn:Eh; apply runs_quiet;
    [|split; [rewrite app_nil_r; unfin|by left]].
  apply runs_bind, runs_say, runs_bind, runs_says, runs_bind, runs_says, runs_bind, runs_say, runs_bind.
  eapply runs_weaken; [|apply runs_frames]. intros c bt Hw. pose proof Hw as (Ht & _ & [-> | [-> Hm]]);
    [|split; [rewrite !app_assoc; unfin|by right]].
  apply runs_bind, runs_say, runs_bind, runs_lock; intros Hp;
    [split; [split; [rewrite !app_assoc; unfin|exists bt; split; [exact Hw|cut]]|unfold any_lock; by rewrite Hp]|].
  apply runs_bind, runs_says, runs_bind, runs_lock; intros Hk;
    [split; [split; [rewrite !app_assoc; unfin|exists bt; split; [exact Hw|cut]]|unfold any_lock; by rewrite Hp, Hk]|].
  apply runs_bind, runs_say, runs_bind, runs_lock; intros Hl;
    [split; [split; [rewrite !app_assoc; unfin|exists bt; split; [exact Hw|cut]]|unfold any_lock; by rewrite Hp, Hk, Hl]|].
  apply runs_says. exists bt. split; [exact Hw|]. split; [reflexivity|]. split; [unfold any_lock; by rewrite Hp, Hk, Hl|done].
Qed.

(** *** The action *)

Lemma poll_reset_io n (h : Hw D) : ∃ l, io (poll_reset n h) = io h ++ l ∧ (length l ≤ n)%nat ∧ ∀ p, writes_to p l = [].
Proof.
  revert h. induction n as [|n IH]; intros h; cbn [poll_reset].
  { exists []. rewrite app_nil_r. split; [done|]. split; [cbn; lia|done]. }
  pose proof (io_inb 0x64 h) as E. destruct (inb 0x64 h) as [v h1]. cbn [fst snd] in E. destruct (_ =? 0).
  - exists [PIn 0x64 v]. split; [exact E|]. split; [cbn; lia|done].
  - destruct (IH h1) as (l & El & Hl & Hw). exists (PIn 0x64 v :: l). rewrite El, E, <- app_assoc. split; [done|].
    split; [cbn; lia|exact Hw].
Qed.

Lemma runs_pulse : runs pulse (fun c l => c = Go tt ∧ l = []).
Proof.
  intros s Hi. exists (Go tt), []. split; [|done]. eexists. split; [reflexivity|]. split; [exact Hi|]. split; [done|].
  destruct (poll_reset_io 16 s.(raw).(rhw)) as (l & E & _ & Hw). exists (l ++ [POut 0x64 0xFE]).
  cbn [rhw]. rewrite io_outb, E, app_assoc. split; [done|]. intros _. unfold wire. rewrite writes_to_app, Hw. done.
Qed.

Definition action_line (a : PanicAction) : bytes :=
  match a with Halt => line_halt | Reboot => line_reboot | Triple => line_triple end.

Lemma runs_action a : runs (action a) (fun c l => c = Go tt ∧ l = [action_line a]).
Proof.
  destruct a; cbn [action action_line]; [by apply runs_say| |by apply runs_say].
  apply runs_bind, runs_say. eapply runs_weaken; [|exact runs_pulse]. by intros c l [-> ->].
Qed.

Lemma perform_ok again s :
  raw_inv s.(raw) →
  ∃ r, perform again s = (if bool_decide (panic_action s = Halt) then (Halted, set_raw r s) else again (set_raw r s)) ∧
    prints (text [action_line (panic_action s)]) s.(raw) r.
Proof.
  intros Hi. destruct (runs_action (panic_action s) s Hi) as (c & l & (r & E & P) & -> & ->).
  exists r. split; [|exact P]. unfold perform. rewrite E. by destruct (panic_action s).
Qed.

(** The state after the guard: [PANICKING] set, the panic counted. *)
Definition entered (s : S) : S := mkPanicking true (wrap64 (s.(PANIC_COUNT) + 1)) s.(ACTION) s.(raw).

Lemma panic_recursive k w s :
  raw_inv s.(raw) → s.(PANICKING) = true →
  ∃ r, panic (Datatypes.S k) w s = perform (panic k w) (set_raw r (entered s)) ∧ prints (text recursive_lines) s.(raw) r.
Proof.
  intros Hi Hp. cbn [panic]. rewrite Hp. destruct (runs_says recursive_lines (fun c l => c = Go tt ∧ l = recursive_lines)
    (conj eq_refl eq_refl) (entered s) Hi) as (c & l & (r & E & P) & -> & ->).
  exists r. unfold entered in E. rewrite E. split; [done|exact P].
Qed.

(** A panic raised while the handler runs halts the machine at once. *)
Lemma panic_recursive_halts k w s :
  raw_inv s.(raw) → s.(PANICKING) = true → panic_action s = Halt →
  ∃ r, panic (Datatypes.S k) w s = (Halted, set_raw r (entered s)) ∧
    prints (text (recursive_lines ++ [line_halt])) s.(raw) r.
Proof.
  intros Hi Hp Ha. destruct (panic_recursive k w s Hi Hp) as (r & -> & P1).
  destruct (perform_ok (panic k w) (set_raw r (entered s)) (proj1 P1)) as (r2 & -> & P2).
  change (panic_action (set_raw r (entered s))) with (panic_action s) in *. rewrite Ha in *. exists r2.
  rewrite text_app. split; [by rewrite bool_decide_eq_true_2|]. by eapply prints_trans.
Qed.

Lemma END_unfinished l : unfinished l → END ∉ l.
Proof.
  intros (mid & -> & Hm) [Hb|Hin]%elem_of_cons; [done|].
  rewrite Forall_forall in Hm. destruct (Hm _ Hin) as [x Hx]. discriminate Hx.
Qed.

Lemma panic_first k w s :
  raw_inv s.(raw) → s.(PANICKING) = false →
  ∃ c r lines, prints (text lines) s.(raw) r ∧ reported w (wrap64 (s.(PANIC_COUNT) + 1)) c lines ∧
    panic (Datatypes.S k) w s =
      match c with
      | Go _ => perform (panic k w) (set_raw r (entered s))
      | Leave => (Escaped, set_raw r (entered s))
      | Stuck => (Deadlocked, set_raw r (entered s))
      end.
Proof.
  intros Hi Hp. cbn [panic]. rewrite Hp.
  destruct (runs_report w (wrap64 (s.(PANIC_COUNT) + 1)) (entered s) Hi) as (c & l & (r & E & P) & HQ).
  exists c, r, l. unfold entered in E. rewrite E. split; [exact P|]. split; [exact HQ|]. by destruct c.
Qed.

(** A complete report is its markers around report lines. *)
Lemma full_split w n bt : Forall tagged bt → ∃ mid, full_lines w n bt = (BEGIN :: mid) ++ [END] ∧ unfinished (BEGIN :: mid).
Proof.
  intros Hbt. destruct (unfinished_head w) as (hd & Eh & Hh). unfold full_lines. rewrite Eh.
  eexists (hd ++ [_] ++ problem_lines w ++ where_lines w ++ [_] ++ bt ++ [_] ++ [_; _; _; _] ++ [_] ++ [_; _]).
  split; [cbn [app]; f_equal; rewrite <- !app_assoc; f_equal; cbn [app]; f_equal; rewrite <- !app_assoc; do 2 f_equal;
          cbn [app]; f_equal; rewrite <- !app_assoc; f_equal; reflexivity|].
  eexists. split; [reflexivity|]. rewrite !Forall_app. split_and!; try done; try tag; [apply tagged_problems|apply tagged_where].
Qed.

Lemma not_END_unfinished mid : unfinished (BEGIN :: mid) → END ∉ mid.
Proof. intros H%END_unfinished. by apply not_elem_of_cons in H as [_ H]. Qed.

(** C28: A healthy panic is reported in full, once.  In a first panic, with the
    action Halt, a UART that answers, no lock held, a working heap and mapped frame
    pointers, the machine halts after one handler call, and the serial line carries, in this order: the opening
    marker, message, location, registers, control-register audit, at most 26
    lines of backtrace, the state of every subsystem, the panic's number, the
    closing marker (printed nowhere else) and the action. *)
Theorem panic_reports_all k w s :
  raw_inv s.(raw) → s.(raw).(SERIAL_OK) = true → s.(PANICKING) = false → panic_action s = Halt → any_lock w = false →
  w.(heap_ok) = true → frames_mapped w →
  ∃ s' l bt mid, panic (Datatypes.S k) w s = (Halted, s') ∧ s'.(PANIC_COUNT) = wrap64 (s.(PANIC_COUNT) + 1) ∧
    io s'.(raw).(rhw) = io s.(raw).(rhw) ++ l ∧ (length bt ≤ 26)%nat ∧
    full_lines w s'.(PANIC_COUNT) bt = ((BEGIN :: mid) ++ [END]) ∧ (END ∉ mid) ∧
    wire COM1 l = crlf (text (full_lines w s'.(PANIC_COUNT) bt ++ [line_halt])).
Proof.
  intros Hi Hs Hp Ha Hl Hh Hm. destruct (panic_first k w s Hi Hp) as (c & r & lines & P & Hr & ->).
  destruct c as [[]| |]; cbn [reported] in Hr; [|destruct Hr as [_ [?|?]]; congruence|destruct Hr; congruence].
  destruct Hr as (bt & (Hbt & Hlen & _) & -> & _). destruct (full_split w (wrap64 (s.(PANIC_COUNT) + 1)) bt Hbt) as (mid & E & Hu).
  destruct (perform_ok (panic k w) (set_raw r (entered s)) (proj1 P)) as (r2 & -> & P2).
  change (panic_action (set_raw r (entered s))) with (panic_action s) in *. rewrite Ha in *.
  destruct (prints_trans _ _ _ _ _ P P2) as (_ & _ & l & El & W). eexists _, l, bt, mid.
  split; [by rewrite bool_decide_eq_true_2|]. split; [done|]. split; [exact El|]. split; [exact Hlen|].
  split; [exact E|]. split; [by apply not_END_unfinished|]. rewrite W by done. by rewrite text_app.
Qed.

(** The re-entrancy guard.  A panic raised while the handler is already
    running prints the recursion notice and the closing marker, so the report is
    bracketed even when the handler itself broke, and halts without touching the
    heap, the stack of frames or any lock. *)
Theorem recursive_panic_halts k w s :
  raw_inv s.(raw) → s.(raw).(SERIAL_OK) = true → s.(PANICKING) = true → panic_action s = Halt →
  ∃ s' l, panic (Datatypes.S k) w s = (Halted, s') ∧ io s'.(raw).(rhw) = io s.(raw).(rhw) ++ l ∧
    wire COM1 l = crlf (text (recursive_lines ++ [line_halt])).
Proof.
  intros Hi Hs Hp Ha. destruct (panic_recursive_halts k w s Hi Hp Ha) as (r & -> & _ & _ & l & El & W).
  eexists _, l. split; [reflexivity|]. split; [exact El|]. by apply W.
Qed.

(** C31: A lock held by the panicking code silences the handler.  Take a first
    panic, on a machine whose UART answers, with a working heap and frame pointers
    that lead to mapped memory.  If the frame allocator's, the keyboard's or the
    log's lock is held (as the allocator's is in every panic of
    [pmm::deallocate_frame]), the handler spins on the first of them, in this
    order: it has printed the report up to that lock and not one line more, so the
    sections behind it are missing, the panic's number and the closing marker
    among them, and the configured action, a reboot included, never happens. *)
Theorem held_lock_hangs k w s :
  raw_inv s.(raw) → s.(raw).(SERIAL_OK) = true → s.(PANICKING) = false → any_lock w = true →
  w.(heap_ok) = true → frames_mapped w →
  ∃ s' l bt lines, panic (Datatypes.S k) w s = (Deadlocked, s') ∧ io s'.(raw).(rhw) = io s.(raw).(rhw) ++ l ∧
    wire COM1 l = crlf (text lines) ∧ (length bt ≤ 26)%nat ∧
    full_lines w (wrap64 (s.(PANIC_COUNT) + 1)) bt = lines ++ behind_lock w (wrap64 (s.(PANIC_COUNT) + 1)) ∧
    head lines = Some BEGIN ∧ (END ∉ lines) ∧ last (behind_lock w (wrap64 (s.(PANIC_COUNT) + 1))) = Some END.
Proof.
  intros Hi Hs Hp Hl Hh Hm. destruct (panic_first k w s Hi Hp) as (c & r & lines & P & Hr & ->).
  destruct c as [[]| |]; cbn [reported] in Hr.
  - destruct Hr as (bt & _ & _ & Hf & _). congruence.
  - destruct Hr as [_ [?|?]]; congruence.
  - destruct Hr as [[Hu (bt & (_ & Hlen & _) & Hf)] _]. destruct P as (_ & _ & l & El & W). eexists _, l, bt, lines. split; [reflexivity|].
    split; [exact El|]. split; [by apply W|]. split; [exact Hlen|]. split; [exact Hf|].
    split; [by destruct Hu as (mid & -> & _)|]. split; [by apply END_unfinished|].
    unfold behind_lock. by destruct (pmm_held w), (kbd_held w).
Qed.

(** *** Reboot and triple fault *)

Lemma wrap64_step a k : wrap64 (wrap64 (a + 1) + Z.of_nat k) = wrap64 (a + Z.of_nat (Datatypes.S k)).
Proof. unfold wrap64, U64. rewrite Zplus_mod_idemp_l. f_equal. lia. Qed.

Lemma recursion_exhausts k w s :
  raw_inv s.(raw) → s.(PANICKING) = true → panic_action s ≠ Halt → 0 ≤ s.(PANIC_COUNT) < 2 ^ 64 →
  ∃ s', panic k w s = (StackExhausted, s') ∧ s'.(PANIC_COUNT) = wrap64 (s.(PANIC_COUNT) + Z.of_nat k).
Proof.
  revert s. induction k as [|k IH]; intros s Hi Hp Ha Hc.
  { exists s. split; [done|]. rewrite Z.add_0_r. unfold wrap64, U64. by rewrite Z.mod_small. }
  destruct (panic_recursive k w s Hi Hp) as (r & -> & P1).
  destruct (perform_ok (panic k w) (set_raw r (entered s)) (proj1 P1)) as (r2 & -> & P2).
  change (panic_action (set_raw r (entered s))) with (panic_action s). rewrite bool_decide_eq_false_2 by done.
  destruct (IH (set_raw r2 (set_raw r (entered s)))) as (s' & E & Ec); [exact (proj1 P2)|done|done|apply Z.mod_pos_bound; lia|].
  exists s'. split; [exact E|]. rewrite Ec. apply wrap64_step.
Qed.

(** [triple_fault] does not fault, it panics.  With [orin.panic=reboot] or
    [orin.panic=triple], once the report is out the division meant to raise #DE is
    Rust's checked division, whose panic re-enters the handler, which performs the
    same action again: whatever the size of the stack, the handler uses all of
    it, one counted panic per call. *)
Theorem triple_fault_recurses stack w s :
  raw_inv s.(raw) → s.(PANICKING) = false → panic_action s ≠ Halt → any_lock w = false → w.(heap_ok) = true → frames_mapped w →
  0 ≤ s.(PANIC_COUNT) < 2 ^ 64 →
  ∃ s', panic stack w s = (StackExhausted, s') ∧ s'.(PANIC_COUNT) = wrap64 (s.(PANIC_COUNT) + Z.of_nat stack).
Proof.
  intros Hi Hp Ha Hl Hh Hm Hc. destruct stack as [|k].
  { exists s. split; [done|]. rewrite Z.add_0_r. unfold wrap64, U64. by rewrite Z.mod_small. }
  destruct (panic_first k w s Hi Hp) as (c & r & lines & P & Hr & ->).
  destruct c as [[]| |]; cbn [reported] in Hr; [|destruct Hr as [_ [?|?]]; congruence|destruct Hr; congruence].
  destruct (perform_ok (panic k w) (set_raw r (entered s)) (proj1 P)) as (r2 & -> & P2).
  change (panic_action (set_raw r (entered s))) with (panic_action s). rewrite bool_decide_eq_false_2 by done.
  destruct (recursion_exhausts k w (set_raw r2 (set_raw r (entered s)))) as (s' & E & Ec);
    [exact (proj1 P2)|done|done|apply Z.mod_pos_bound; lia|].
  exists s'. split; [exact E|]. rewrite Ec. apply wrap64_step.
Qed.

End Ready.

End Handler.

(** ** What the report loses *)

(** The dump up to the name of r13. *)
Definition dump_head (r : CpuRegs) : bytes :=
  take 201 (RegDump_fmt CpuRegs_default) ++
  Regs.row "rax " "rbx " "rcx " r.(rax) r.(rbx) r.(rcx) ++
  Regs.row "rdx " "rsi " "rdi " r.(rdx) r.(rsi) r.(rdi) ++
  Regs.row "rbp " "r8  " "r9  " r.(rbp) r.(r8) r.(r9) ++
  Regs.row "r10 " "r11 " "r12 " r.(r10) r.(r11) r.(r12) ++ lit "  " ++ lit "r13 ".

Lemma length_dump_head r : length (dump_head r) = 499%nat.
Proof. unfold dump_head. rewrite !length_app, !length_row, length_take, length_RegDump. reflexivity. Qed.

Lemma RegDump_split r : ∃ rest, RegDump_fmt r = dump_head r ++ rest.
Proof.
  eexists. unfold dump_head. rewrite <- !app_assoc. reflexivity.
Qed.

(** The register dump and its tag are 579 bytes, the message buffer holds 512:
    whatever r13, r14 and r15 hold, the console shows the same text. *)
Lemma r13_r15_not_reported r : take 512 (lit "ORIN|P|PANIC|" ++ RegDump_fmt r) = lit "ORIN|P|PANIC|" ++ dump_head r.
Proof.
  destruct (RegDump_split r) as [rest ->]. rewrite app_assoc, take_app_length'; [done|].
  rewrite length_app, length_dump_head. reflexivity.
Qed.

(** The stack pointer of every panic report is zero. *)
Lemma rsp_reported_zero w : ∃ a b, (a ++ lit "  rsp 0x0000000000000000" ++ b) ∈ head_lines w.
Proof.
  exists (lit "ORIN|P|PANIC|  rip " ++ hex018 (regs w).(rip)), (lit "  rflags " ++ hex018 (regs w).(rflags) ++
    lit "  cs " ++ hex (regs w).(cs) ++ lit "  ss " ++ hex (regs w).(ss)).
  unfold head_lines. apply elem_of_app. right. apply elem_of_app. right. left.
Qed.

(** ** Witnesses *)

Definition ready_in (p : Z) (d : unit) : Z * unit := (0x60, d).
Definition ready_out (p v : Z) (d : unit) : unit := d.

Lemma ready_byte p d : 0 ≤ (ready_in p d).1 < 256.
Proof. cbn. lia. Qed.

(** A machine whose ports always read 0x60. *)
#[export] Instance ready_bus : Bus unit := {| bus_in := ready_in; bus_out := ready_out; bus_in_byte := ready_byte |}.

Lemma ready_uart (d : unit) : Z.land (bus_in (COM1 + REG_LINE_STATUS) d).1 LSR_THRE ≠ 0.
Proof. vm_compute. discriminate. Qed.

Definition no_features : CpuFeatures :=
  mkFeatures [] 0 0 0 [] 0 0 false false false false false false false false false false false false false None false []
    false false false false false.

Definition demo_world (held : bool) : World := {|
  message := lit "kernel out of memory"; location := Some (lit "memory/heap.rs", 118, 5);
  hw := CpuRegs_default; stale_cs := 0; stale_ss := 0; feats := no_features; text_start := KERNEL_VMA; text_end := KERNEL_VMA + 0x1000;
  load := fun _ => Some 0; heap_ok := true; pmm_held := held; kbd_held := false; log_held := false;
  pmm_ready := true; pmm_stats := mkStats 0 0 0 0 0 0 0; heap_stats := mkHeapStats 0 0 false; irqs := Counters_initial;
  kbd_presence := Absent; kbd_events := 0; kbd_pending := 0; kbd_dropped := 0; emitted := 0; filtered := 0 |}.

Definition demo_panicking (again : bool) (a : PanicAction) : Panicking unit :=
  mkPanicking again 0 (action_code a) (mkRaw 0 0 true (replicate 2000 (mkCell 0 0)) (mkHw tt [])).

Lemma demo_frames held : frames_mapped (demo_world held).
Proof. intros a _. split; by eexists. Qed.

Lemma demo_raw_inv again a : raw_inv (demo_panicking again a).(raw).
Proof. split; [by vm_compute|cbn; lia]. Qed.

Lemma panic_reports_all_witness : ∃ s' l bt mid, panic 1 (demo_world false) (demo_panicking false Halt) = (Halted, s') ∧
  s'.(PANIC_COUNT) = 1 ∧ io s'.(raw).(rhw) = l ∧ (length bt ≤ 26)%nat ∧
  full_lines (demo_world false) s'.(PANIC_COUNT) bt = ((BEGIN :: mid) ++ [END]) ∧ (END ∉ mid) ∧
  wire COM1 l = crlf (text (full_lines (demo_world false) s'.(PANIC_COUNT) bt ++ [line_halt])).
Proof.
  exact (panic_reports_all ready_uart 0 (demo_world false) (demo_panicking false Halt) (demo_raw_inv _ _)
    eq_refl eq_refl eq_refl eq_refl eq_refl (demo_frames false)).
Defined.

Lemma recursive_panic_halts_witness : ∃ s' l, panic 1 (demo_world true) (demo_panicking true Halt) = (Halted, s') ∧
  io s'.(raw).(rhw) = l ∧ wire COM1 l = crlf (text (recursive_lines ++ [line_halt])).
Proof.
  exact (recursive_panic_halts ready_uart 0 (demo_world true) (demo_panicking true Halt) (demo_raw_inv _ _)
    eq_refl eq_refl eq_refl).
Defined.

Lemma held_lock_hangs_witness :
  ∃ s' l bt lines, panic 1 (demo_world true) (demo_panicking false Reboot) = (Deadlocked, s') ∧
    io s'.(raw).(rhw) = l ∧ wire COM1 l = crlf (text lines) ∧
    full_lines (demo_world true) 1 bt = lines ++ behind_lock (demo_world true) 1 ∧ END ∉ lines.
Proof.
  destruct (held_lock_hangs ready_uart 0 (demo_world true) (demo_panicking false Reboot) (demo_raw_inv _ _)
    eq_refl eq_refl eq_refl eq_refl (demo_frames true)) as (s' & l & bt & lines & E & El & W & _ & Hf & _ & He & _).
  exists s', l, bt, lines. split; [exact E|]. split; [exact El|]. split; [exact W|]. split; [exact Hf|exact He].
Defined.

Lemma triple_fault_recurses_witness : ∃ s', panic 3 (demo_world false) (demo_panicking false Triple) = (StackExhausted, s') ∧
  s'.(PANIC_COUNT) = 3.
Proof.
  refine (triple_fault_recurses ready_uart 3 (demo_world false) (demo_panicking false Triple) (demo_raw_inv _ _)
    eq_refl _ eq_refl eq_refl (demo_frames false) _); [by vm_compute|cbn; lia].
Defined.
