(* ===== verification/Exceptions.v ===== *)
(** * CPU exceptions (kernel/src/interrupts/idt.rs)

    The exception handlers with everything they print: critical records through
    the log, the fatal block through the lock-free console, then the Rust panic
    and with it the handler of Panic.v.  The two consoles share the screen and the
    ports.  [TrapEnv] is what a handler reads: the locks the interrupted code
    holds, the registers, the clock. *)

From stdpp Require Import base list list_numbers strings.
From Stdlib Require Import ZArith Lia.
From S2P Require Import Prelude Ports Arch BootInfo Params Pic Pit Ring Serial Vga Raw ConsoleLog Idt Cpuid Fmt Regs Heap Panic.
#[local] Open Scope Z_scope.

(** ** Messages *)

(** [{:#04x}] of a [u8]. *)
Definition hex04 (n : Z) : bytes := lit "0x" ++ replicate (2 - length (hex_digits n)) 48 ++ hex_digits n.

(** [{:?}] of an [Option<u64>]. *)
Definition show_option (o : option Z) : bytes :=
  match o with Some v => lit "Some(" ++ udec v ++ lit ")" | None => lit "None" end.

(** The [bit!] macro of [format_pf_bits]. *)
Definition pf_bit (code n : Z) (label : string) (s : bytes) : bytes :=
  if bit n code then (match s with [] => s | _ => s ++ [32] end) ++ lit label else s.

Definition format_pf_bits (code : Z) : bytes :=
  let s := pf_bit code 0 "PRESENT(protection-violation)" [] in
  let s := if Z.land code 1 =? 0 then s ++ lit " NOT-PRESENT" else s in
  let s := pf_bit code 1 "WRITE" s in
  let s := if Z.land code 2 =? 0 then s ++ lit " READ" else s in
  let s := pf_bit code 2 "USER" s in
  let s := pf_bit code 3 "RESERVED-BITS" s in
  let s := pf_bit code 4 "INSTRUCTION-FETCH" s in
  let s := pf_bit code 5 "PK(protection-key)" s in
  let s := pf_bit code 6 "SHADOW-STACK" s in
  let s := pf_bit code 7 "SGX" s in
  pf_bit code 15 "NX-USER-ACCESS-FILTER" s.

(** [rsp + 0x1000] is checked; [boot_top] and [kern_top] are the linker symbols. *)
Definition near (rsp top : Z) : Res bool :=
  a ← add64 rsp 0x1000;
  Ret ((Z.max 0 (top - 0x100) <=? a) && (rsp <? top)).

Definition is_probable_stack_overflow (boot_top kern_top rsp : Z) : Res bool :=
  b ← near rsp boot_top;
  if (b : bool) then Ret true
  else k ← near rsp kern_top; if (k : bool) then Ret true else Ret (rsp <? 0x1000).

(** ** State *)

(** What a handler reads.  [site] gives the [file!():line!()] of a log macro. *)
Record TrapEnv : Type := mkTrapEnv {
  outer : World; com1_held : bool; vga_held : bool; pit_held : bool; now : Z; site : Z → bytes;
  here : CpuRegs; boot_top : Z; kern_top : Z; debugger_attached : bool }.

(** The statics: the panic handler's, the UART and the screen writer of the log,
    the log's configuration, the interrupt counters. *)
Record Trap (D : Type) : Type := mkTrap {
  sys : Panicking D; uart : Serial.Serial; pen : VgaWriter; lcfg : LogConfig; ctrs : Counters }.
Arguments mkTrap {D} _ _ _ _ _.
Arguments sys {D} _.
Arguments uart {D} _.
Arguments pen {D} _.
Arguments lcfg {D} _.
Arguments ctrs {D} _.

(** A handler goes on, panics, faults in turn, or waits for a lock for ever. *)
Inductive Flow (A : Type) : Type := On (a : A) | Raise (msg : bytes) | Fault | Spin.
Arguments On {A} a.
Arguments Raise {A} msg.
Arguments Fault {A}.
Arguments Spin {A}.

Inductive Trapped : Type := Resumed | Died (o : Outcome).

Section Handlers.
Context {D : Type} `{B : Bus D}.
Context (e : TrapEnv).
Abbreviation T := (Trap D).

Definition TProg (A : Type) : Type := T → Flow A * T.

#[local] Instance TProg_ret : MRet TProg := fun A a t => (On a, t).
#[local] Instance TProg_bind : MBind TProg := fun A A' k m t =>
  match m t with
  | (On a, t') => k a t'
  | (Raise msg, t') => (Raise msg, t')
  | (Fault, t') => (Fault, t')
  | (Spin, t') => (Spin, t')
  end.

Definition set_sys (s : Panicking D) (t : T) : T := mkTrap s t.(uart) t.(pen) t.(lcfg) t.(ctrs).
Definition set_cfg (c : LogConfig) (t : T) : T := mkTrap t.(sys) t.(uart) t.(pen) c t.(ctrs).
Definition set_ctrs (c : Counters) (t : T) : T := mkTrap t.(sys) t.(uart) t.(pen) t.(lcfg) c.

(** The log's view of the shared screen and ports, and back. *)
Definition view (t : T) : Sink D :=
  mkSink t.(lcfg) t.(uart) (mkConsole t.(pen) t.(sys).(raw).(screen) t.(sys).(raw).(rhw)).
Definition unview (s : Sink D) (t : T) : T :=
  let r := t.(sys).(raw) in
  let v := s.(vga) in
  mkTrap (Panic.set_raw (mkRaw r.(RAW_ROW) r.(RAW_COL) r.(SERIAL_OK) v.(cells) v.(Vga.hw)) t.(sys))
    s.(com1) v.(writer) s.(cfg) t.(ctrs).

(** A Rust panic inside the handler. *)
Definition rust {A} (m : Res A) : TProg A := fun t =>
  match m with
  | Ret a => (On a, t)
  | Panic (PanicMsg msg) => (Raise (lit msg), t)
  | Panic _ => (Raise (lit "attempt to add with overflow"), t)
  end.

Definition lift {A} (p : Prog A) : TProg A := fun t =>
  let '(c, s) := p t.(sys) in
  (match c with Go a => On a | Leave => Fault | Stuck => Spin end, set_sys s t).

Definition modify (f : T → T) : TProg unit := fun t => (On tt, f t).
Definition get {A} (f : T → A) : TProg A := fun t => (On (f t), t).
Definition raise (msg : bytes) : TProg unit := fun t => (Raise msg, t).

(** [log::log]; each lock is asked for where the source does ([now_micros] asks
    for the timer's). *)
Definition klog (subsys : bytes) (l : Level) (line : Z) (msg : bytes) : TProg unit :=
  lift (lock e.(outer).(log_held)) ;;
  c ← get lcfg;
  if dropped_by c l then c ← rust (count_filtered c); modify (set_cfg c)
  else
    c ← rust (count_emitted c);
    modify (set_cfg c) ;;
    lift (lock e.(pit_held)) ;;
    (match c.(target) with
     | BootInfo.Serial | Both =>
         lift (lock e.(com1_held)) ;;
         modify (fun t => unview (write_serial l e.(now) subsys (e.(site) line) c.(show_location) msg (view t)) t)
     | BootInfo.Vga => mret tt
     end) ;;
    match c.(target) with
    | BootInfo.Vga | Both =>
        lift (lock e.(vga_held)) ;;
        s ← get view;
        s ← rust (write_vga l subsys msg s);
        modify (unview s)
    | BootInfo.Serial => mret tt
    end.

Definition idt_module : bytes := lit "orin_kernel::interrupts::idt".

(** A sequence of [kcrit!]s: source line and message. *)
Fixpoint kcrits (notes : list (Z * bytes)) : TProg unit :=
  match notes with
  | [] => mret tt
  | (line, msg) :: rest => klog idt_module Critical line msg ;; kcrits rest
  end.

Definition count (w : Counter) : TProg unit :=
  c ← get ctrs; c ← rust (bump w c); modify (set_ctrs c).

(** ** [fatal_exception] *)

Definition tag : bytes := lit "ORIN|C|EXCEPTION|".

(** No handler passes the name of the first branch (whose text would be
    allocated). *)
Definition code_lines (name : string) (c : Z) : list bytes :=
  [tag ++ lit "  error code: " ++ hex c;
   if bool_decide (name = "page-fault"%string) then tag ++ lit "  pf bits: " ++ format_pf_bits c
   else tag ++ lit "  (error code is a selector index or 0 for this vector)"].

Definition cr2_lines (a : Z) : list bytes :=
  (tag ++ lit "  faulting address (CR2): " ++ hex a) ::
  (if a <? KERNEL_VMA then
     [tag ++ lit "    -> below the kernel half (" ++ hex KERNEL_VMA ++
      lit "): a low/identity-map or user address, not a kernel VA. Kernel code used a physical address as a pointer."]
   else []).

Definition frame_lines (r : CpuRegs) : list bytes :=
  [tag ++ lit "  rip " ++ hex018 r.(rip) ++ lit "  rsp " ++ hex018 r.(rsp) ++ lit "  rflags " ++ hex018 r.(rflags) ++
   lit "  cs " ++ hex r.(cs) ++ lit "  ss " ++ hex r.(ss);
   tag ++ lit "  privilege: " ++ (if Z.land r.(cs) 3 =? 0 then lit "ring 0 (kernel)" else lit "ring 3 (user)") ++
   lit "   interrupts: " ++ (if bit 9 r.(rflags) then lit "enabled" else lit "disabled");
   tag ++ RegDump_fmt r].

Definition audit_lines (r : CpuRegs) : list bytes :=
  ((fun p => tag ++ lit "  SECURITY: " ++ lit p) <$>
     filter (.≠ ""%string) (control_register_problems e.(outer).(feats) r)) ++
  (if KERNEL_VMA <=? r.(rip) then
     [tag ++ lit "  resolve: llvm-addr2line -e build/orin_kernel.elf -f -C -i " ++ hex r.(rip)]
   else []).

Definition opt_lines {A} (f : A → list bytes) (o : option A) : list bytes := match o with Some a => f a | None => [] end.

Definition fatal_head (name : string) (vector : Z) (r : CpuRegs) (code cr2 : option Z) : list bytes :=
  [[10] ++ lit "ORIN-FATAL-BEGIN"; tag ++ lit name ++ lit " (vector " ++ hex04 vector ++ lit ")"] ++
  opt_lines (code_lines name) code ++ opt_lines cr2_lines cr2 ++ frame_lines r.

Definition fatal_tail (r : CpuRegs) : list bytes :=
  [tag ++ format_control r] ++ audit_lines r ++ [lit "ORIN-FATAL-END"].

Definition unhandled (name : string) (vector : Z) : bytes :=
  lit "unhandled " ++ lit name ++ lit " (vector " ++ hex04 vector ++ lit ")".

Definition fatal_exception (name : string) (vector : Z) (frame : InterruptStackFrame) (code cr2 : option Z) : TProg unit :=
  count Exceptions ;;
  let r := read_around frame e.(here) in
  lift (says (fatal_head name vector r code cr2)) ;;
  lift (alloc e.(outer).(heap_ok)) ;;
  lift (says (fatal_tail r)) ;;
  raise (unhandled name vector).

(** ** The handlers *)

Definition do_divide_error (frame : InterruptStackFrame) : TProg unit :=
  fatal_exception "divide-error (#DE)" 0x00 frame None None.

Definition do_debug (frame : InterruptStackFrame) : TProg unit :=
  if e.(debugger_attached) then
    count Exceptions ;;
    klog idt_module Debug 410 (lit "debug exception at rip " ++ hex frame.(instruction_pointer) ++ lit "; returning to the debugger")
  else fatal_exception "debug (#DB)" 0x01 frame None None.

Definition nmi_notes (frame : InterruptStackFrame) : list (Z * bytes) :=
  [(421, lit "NMI received at rip " ++ hex frame.(instruction_pointer));
   (422, lit "  M1 has no NMI source registered (M7 adds IPMI/PCIe SERR/thermal). Halting rather than continuing on possibly-corrupt hardware.")].

Definition do_nmi (frame : InterruptStackFrame) : TProg unit :=
  count Exceptions ;; kcrits (nmi_notes frame) ;; raise (lit "non-maskable interrupt").

Definition do_breakpoint (frame : InterruptStackFrame) : TProg unit :=
  count Exceptions ;; klog idt_module Debug 434 (lit "breakpoint (#BP) at rip " ++ hex frame.(instruction_pointer)).

Definition do_overflow (frame : InterruptStackFrame) : TProg unit := fatal_exception "overflow (#OF)" 0x04 frame None None.
Definition do_bound_range (frame : InterruptStackFrame) : TProg unit :=
  fatal_exception "bound-range-exceeded (#BR)" 0x05 frame None None.

Definition invalid_opcode_notes (frame : InterruptStackFrame) : list (Z * bytes) :=
  [(450, lit "invalid opcode at rip " ++ hex frame.(instruction_pointer) ++
    lit ": either an unreachable!() executed, or the binary was built for a newer instruction level than this CPU (check -C target-cpu against cpuid)")].

Definition do_invalid_opcode (frame : InterruptStackFrame) : TProg unit :=
  kcrits (invalid_opcode_notes frame) ;; fatal_exception "invalid-opcode (#UD)" 0x06 frame None None.

Definition do_device_not_available (frame : InterruptStackFrame) : TProg unit :=
  fatal_exception "device-not-available (#NM)" 0x07 frame None None.

Definition double_fault_notes (frame : InterruptStackFrame) (code : Z) : list (Z * bytes) :=
  [(482, lit "DOUBLE FAULT (#DF) at rip " ++ hex frame.(instruction_pointer) ++ lit ", error code " ++ hex code);
   (483, lit "  rsp " ++ hex frame.(stack_pointer))].
Definition overflow_notes (b : bool) : list (Z * bytes) :=
  (if b then
     [(485, lit "  -> rsp is at or below a stack guard boundary. This is almost certainly KERNEL STACK OVERFLOW: unbounded recursion or a large stack frame. Increase the stack or make the recursion explicit.")]
   else []) ++
  [(491, lit "  IST1 stack in use, so this report survived the broken stack.")].

Definition do_double_fault (frame : InterruptStackFrame) (code : Z) : TProg unit :=
  count Exceptions ;;
  kcrits (double_fault_notes frame code) ;;
  b ← rust (is_probable_stack_overflow e.(boot_top) e.(kern_top) frame.(stack_pointer));
  kcrits (overflow_notes b) ;;
  raise (lit "double fault").

Definition invalid_tss_notes (code : Z) : list (Z * bytes) := [(521, lit "invalid TSS, selector index " ++ hex code)].

Definition do_invalid_tss (frame : InterruptStackFrame) (code : Z) : TProg unit :=
  kcrits (invalid_tss_notes code) ;; fatal_exception "invalid-TSS (#TS)" 0x0A frame (Some code) None.

Definition do_segment_not_present (frame : InterruptStackFrame) (code : Z) : TProg unit :=
  fatal_exception "segment-not-present (#NP)" 0x0B frame (Some code) None.
Definition do_stack_segment (frame : InterruptStackFrame) (code : Z) : TProg unit :=
  fatal_exception "stack-segment-fault (#SS)" 0x0C frame (Some code) None.

Definition general_protection_notes (code : Z) : list (Z * bytes) :=
  [(538, lit "general protection fault, error code " ++ hex code ++
    lit ". Usual causes: invalid MSR address, null segment selector load, misaligned SSE/AVX operand, or a privileged instruction executed at ring 3.")].

Definition do_general_protection (frame : InterruptStackFrame) (code : Z) : TProg unit :=
  kcrits (general_protection_notes code) ;; fatal_exception "general-protection (#GP)" 0x0D frame (Some code) None.

(** The diagnosis of a page fault at [addr] with error code [raw]. *)
Definition page_fault_notes (addr raw : Z) : list (Z * bytes) :=
  (559, lit "PAGE FAULT at " ++ hex addr ++ lit ": " ++ format_pf_bits raw) ::
  (if addr =? 0 then [(564, lit "  -> NULL dereference.")]
   else if addr <? KERNEL_VMA then
     [(566, lit "  -> address is below the kernel half (" ++ hex KERNEL_VMA ++
       lit "). Kernel code used a physical address (or a user address) as a pointer. Use vmm::boot_alias()/arch::phys_to_virt() instead of a raw cast.")]
   else if Z.land raw 0x1 =? 0 then [(573, lit "  -> page NOT PRESENT. Nothing was ever mapped here.")]
   else
     (575, lit "  -> page present but protected: a permission violation.") ::
     (if negb (Z.land raw 0x2 =? 0) && negb (Z.land raw 0x10 =? 0) then
        [(577, lit "  -> WRITE to a non-writable page via an INSTRUCTION FETCH path. Check for a self-modifying-code pattern or a corrupted page table.")]
      else [])).

(** CR2 is taken as it is, canonical or not; [format_pf_bits] allocates. *)
Definition do_page_fault (frame : InterruptStackFrame) (code : Z) : TProg unit :=
  let addr := e.(here).(cr2) in
  lift (alloc e.(outer).(heap_ok)) ;;
  kcrits (page_fault_notes addr code) ;;
  fatal_exception "page-fault (#PF)" 0x0E frame (Some code) (Some addr).

Definition do_x87_fault (frame : InterruptStackFrame) : TProg unit :=
  fatal_exception "x87-floating-point (#MF)" 0x10 frame None None.
Definition do_alignment_check (frame : InterruptStackFrame) (code : Z) : TProg unit :=
  fatal_exception "alignment-check (#AC)" 0x11 frame (Some code) None.

Definition machine_check_notes (frame : InterruptStackFrame) : list (Z * bytes) :=
  [(604, lit "MACHINE CHECK (#MC) at rip " ++ hex frame.(instruction_pointer));
   (605, lit "  Hardware reported an uncorrectable error. M1 cannot decode MCi_STATUS (M7 adds MCA bank parsing). Halting immediately; continuing risks acting on corrupt data.")].

Definition do_machine_check (frame : InterruptStackFrame) : TProg unit :=
  count Exceptions ;; kcrits (machine_check_notes frame) ;; raise (lit "machine check").

Definition do_simd_fault (frame : InterruptStackFrame) : TProg unit :=
  fatal_exception "simd-floating-point (#XF)" 0x13 frame None None.
Definition do_virtualization (frame : InterruptStackFrame) : TProg unit :=
  fatal_exception "virtualization (#VE)" 0x14 frame None None.

Definition vmm_comm_notes (code : Z) : list (Z * bytes) :=
  [(625, lit "#VC (SEV-ES VMM communication) with code " ++ hex code ++
    lit ": Orin has no GHCB driver. M1 does not support running as an SEV-ES guest; see docs/SECURITY.md.")].

Definition do_vmm_comm (frame : InterruptStackFrame) (code : Z) : TProg unit :=
  kcrits (vmm_comm_notes code) ;; fatal_exception "vmm-communication (#VC)" 0x1D frame (Some code) None.
Definition do_security_exception (frame : InterruptStackFrame) (code : Z) : TProg unit :=
  fatal_exception "security-exception (#SX)" 0x1E frame (Some code) None.

Definition unassigned_notes (rip : Z) : list (Z * bytes) :=
  [(737, lit "interrupt on an UNASSIGNED vector at rip " ++ hex rip ++
    lit ". Either the PIC delivered a vector outside its remapped range (check pic::remap), or something wrote the IDT. Halting.")].

Definition unassigned_vector (rip : Z) : TProg unit :=
  kcrits (unassigned_notes rip) ;; raise (lit "interrupt on unassigned vector").

Definition do_unassigned_general (frame : InterruptStackFrame) (vector : Z) (code : option Z) : TProg unit :=
  count Unassigned ;;
  klog idt_module Critical 274 (lit "UNASSIGNED VECTOR " ++ hex04 vector ++ lit " (error code " ++ show_option code ++ lit ") at rip " ++
    hex frame.(instruction_pointer)) ;;
  unassigned_vector frame.(instruction_pointer).

(** The handler of an exception; [None]: an interrupt handler of Idt.v.  [code]
    is the error code the CPU pushes for some vectors. *)
Definition exception (h : Handler) (frame : InterruptStackFrame) (vector : Z) (code : option Z) : option (TProg unit) :=
  match h with
  | on_unassigned_general => Some (do_unassigned_general frame vector code)
  | on_divide_error => Some (do_divide_error frame)
  | on_debug => Some (do_debug frame)
  | on_nmi => Some (do_nmi frame)
  | on_breakpoint => Some (do_breakpoint frame)
  | on_overflow => Some (do_overflow frame)
  | on_bound_range => Some (do_bound_range frame)
  | on_invalid_opcode => Some (do_invalid_opcode frame)
  | on_device_not_available => Some (do_device_not_available frame)
  | on_double_fault => Some (do_double_fault frame (default 0 code))
  | on_invalid_tss => Some (do_invalid_tss frame (default 0 code))
  | on_segment_not_present => Some (do_segment_not_present frame (default 0 code))
  | on_stack_segment => Some (do_stack_segment frame (default 0 code))
  | on_general_protection => Some (do_general_protection frame (default 0 code))
  | on_page_fault => Some (do_page_fault frame (default 0 code))
  | on_x87_fault => Some (do_x87_fault frame)
  | on_alignment_check => Some (do_alignment_check frame (default 0 code))
  | on_machine_check => Some (do_machine_check frame)
  | on_simd_fault => Some (do_simd_fault frame)
  | on_virtualization => Some (do_virtualization frame)
  | on_vmm_comm => Some (do_vmm_comm frame (default 0 code))
  | on_security_exception => Some (do_security_exception frame (default 0 code))
  | on_irq_timer | on_irq_keyboard | on_irq_cascade | on_irq_unexpected | on_syscall_vector | on_spurious => None
  end.

(** [heap::oom], reached from [alloc_error]. *)
Definition oom (size align : Z) : TProg unit :=
  let s := e.(outer).(heap_stats) in
  klog (lit "orin_kernel::memory::heap") Critical 111
    (lit "kernel heap exhausted: requested " ++ udec size ++ lit " bytes (align " ++ udec align ++ lit ") with " ++
     udec s.(hsize) ++ lit " byte heap at " ++ hex s.(hbase)) ;;
  raise (lit "kernel out of memory").

(** What the panic handler then reads: the panic's message, and the counters as
    the exception handler left them. *)
Definition panic_world (msg : bytes) (t : T) : World :=
  let w := e.(outer) in
  {| message := msg; location := w.(location); hw := w.(hw); stale_cs := w.(stale_cs); stale_ss := w.(stale_ss);
     feats := w.(feats); text_start := w.(text_start); text_end := w.(text_end); load := w.(load); heap_ok := w.(heap_ok);
     pmm_held := w.(pmm_held); kbd_held := w.(kbd_held); log_held := w.(log_held); pmm_ready := w.(pmm_ready);
     pmm_stats := w.(pmm_stats); heap_stats := w.(heap_stats); irqs := t.(ctrs); kbd_presence := w.(kbd_presence);
     kbd_events := w.(kbd_events); kbd_pending := w.(kbd_pending); kbd_dropped := w.(kbd_dropped);
     emitted := t.(lcfg).(ConsoleLog.emitted); filtered := t.(lcfg).(ConsoleLog.filtered) |}.

(** Run a handler, and the panic handler if it panics. *)
Definition enter (stack : nat) (p : TProg unit) (t : T) : Trapped * T :=
  match p t with
  | (On _, t') => (Resumed, t')
  | (Raise msg, t') => let '(o, s) := panic stack (panic_world msg t') t'.(sys) in (Died o, set_sys s t')
  | (Fault, t') => (Died Escaped, t')
  | (Spin, t') => (Died Deadlocked, t')
  end.

(** ** What a handler does when the machine can still speak

    Both consoles answer, nobody holds a lock, the heap works. *)

Section Healthy.
Hypothesis uart_ready : ∀ d : D, Z.land (bus_in (COM1 + REG_LINE_STATUS) d).1 LSR_THRE ≠ 0.
Hypothesis no_log_lock : e.(outer).(log_held) = false.
Hypothesis no_com1_lock : e.(com1_held) = false.
Hypothesis no_vga_lock : e.(vga_held) = false.
Hypothesis no_pit_lock : e.(pit_held) = false.
Hypothesis heap_works : e.(outer).(heap_ok) = true.

Definition trap_ok (t : T) : Prop :=
  raw_inv t.(sys).(raw) ∧ vga_inv (view t).(vga) ∧ t.(uart) = mkSerial COM1 true ∧ t.(sys).(raw).(SERIAL_OK) = true ∧
  0 ≤ t.(lcfg).(ConsoleLog.emitted) ∧ 0 ≤ t.(lcfg).(ConsoleLog.filtered).

(** The part of the configuration that no record changes. *)
Definition style (t : T) : LogConfig :=
  mkLogConfig t.(lcfg).(level) t.(lcfg).(target) t.(lcfg).(show_location) 0 0.

(** Room for the counters [cs] and for [k] records. *)
Definition fits (cs : list Counter) (k : Z) (t : T) : Prop :=
  0 ≤ k ∧ t.(lcfg).(ConsoleLog.emitted) + t.(lcfg).(ConsoleLog.filtered) + k < U64 ∧
  ∃ c, for_list cs t.(ctrs) bump = Ret c.

(** From [t] to [t'] the counters [cs] went up, [k] records were handled and the
    bytes [w] went out on the serial line. *)
Definition moves (cs : list Counter) (k : Z) (w : bytes) (t t' : T) : Prop :=
  trap_ok t' ∧ style t' = style t ∧
  t'.(sys).(PANICKING) = t.(sys).(PANICKING) ∧ t'.(sys).(PANIC_COUNT) = t.(sys).(PANIC_COUNT) ∧
  t'.(sys).(ACTION) = t.(sys).(ACTION) ∧
  for_list cs t.(ctrs) bump = Ret t'.(ctrs) ∧
  t'.(lcfg).(ConsoleLog.emitted) + t'.(lcfg).(ConsoleLog.filtered) =
    t.(lcfg).(ConsoleLog.emitted) + t.(lcfg).(ConsoleLog.filtered) + k ∧
  ∃ l, io t'.(sys).(raw).(rhw) = io t.(sys).(raw).(rhw) ++ l ∧ wire COM1 l = w.

Definition yields {A} (p : TProg A) (f : Flow A) (cs : list Counter) (k : Z) (w : LogConfig → bytes) : Prop :=
  ∀ t, trap_ok t → fits cs k t → ∃ t', p t = (f, t') ∧ moves cs k (w (style t)) t t'.

Lemma yields_bind {A A'} (p : TProg A) (k : A → TProg A') a f cs1 cs2 n1 n2 w1 w2 :
  0 ≤ n1 → 0 ≤ n2 →
  yields p (On a) cs1 n1 w1 → yields (k a) f cs2 n2 w2 →
  yields (p ≫= k) f (cs1 ++ cs2) (n1 + n2) (fun c => w1 c ++ w2 c).
Proof.
  intros H1 H2 Hp Hk t Ht (_ & Hr & c & Hc). rewrite for_list_app in Hc. apply bind_Ret in Hc as (c1 & Hc1 & Hc2).
  destruct (Hp t Ht) as (t1 & E1 & M1). { split; [done|]. split; [lia|]. by exists c1. }
  destruct M1 as (Ht1 & S1 & P1 & N1 & A1 & C1 & L1 & l1 & I1 & W1).
  assert (c1 = t1.(ctrs)) as -> by congruence.
  destruct (Hk t1 Ht1) as (t2 & E2 & M2). { split; [done|]. split; [lia|]. by exists c. }
  destruct M2 as (Ht2 & S2 & P2 & N2 & A2 & C2 & L2 & l2 & I2 & W2). exists t2.
  unfold mbind, TProg_bind. rewrite E1. split; [exact E2|]. split; [done|]. split; [congruence|].
  split; [congruence|]. split; [congruence|]. split; [congruence|]. split; [by rewrite for_list_app, C1|]. split; [lia|].
  exists (l1 ++ l2). rewrite I2, I1, app_assoc. split; [done|]. unfold wire in *.
  rewrite writes_to_app, W1, W2. by rewrite S1.
Qed.

Lemma moves_refl t : trap_ok t → moves [] 0 [] t t.
Proof. intros Ht. repeat (split; [done || cbn; lia|]). exists []. by rewrite app_nil_r. Qed.

Lemma yields_pure {A} (a : A) f : (∀ t, f t = (On a, t)) → yields f (On a) [] 0 (fun _ => []).
Proof. intros Hf t Ht _. exists t. split; [apply Hf|by apply moves_refl]. Qed.

Lemma yields_raise msg : yields (raise msg) (Raise msg) [] 0 (fun _ => []).
Proof. intros t Ht _. exists t. split; [done|by apply moves_refl]. Qed.

Lemma yields_count w : yields (count w) (On tt) [w] 0 (fun _ => []).
Proof.
  intros t Ht (_ & _ & c & Hc). cbn [for_list] in Hc. apply bind_Ret in Hc as (c' & Hb & [= ->]).
  exists (set_ctrs c t). unfold count, mbind, TProg_bind, get, rust, modify. rewrite Hb. split; [done|].
  repeat (split; [done|]). split; [cbn [for_list]; by rewrite Hb|]. split; [cbn; lia|]. exists []. by rewrite app_nil_r.
Qed.

(** The raw console prints its lines. *)
Lemma yields_says lines : yields (lift (says lines)) (On tt) [] 0 (fun _ => crlf (text lines)).
Proof.
  intros t (Hr & Hv & Hu & Hs & He & Hf) _.
  destruct (runs_says uart_ready lines (fun c l => c = Go tt ∧ l = lines) (conj eq_refl eq_refl) t.(sys) Hr)
    as (c & l & (r & E & P) & -> & ->).
  unfold lift. rewrite E. eexists. split; [reflexivity|]. destruct P as (Hr' & Hs' & l & El & W).
  split. { split; [done|]. split; [|split; [done|]; split; [cbn; congruence|done]].
    destruct Hv as (_ & Hrow & Hcol). split; [exact (proj1 Hr')|done]. }
  repeat (split; [done|]). split; [cbn; lia|]. exists l. split; [exact El|]. by apply W.
Qed.

Lemma yields_free : yields (lift (alloc e.(outer).(heap_ok))) (On tt) [] 0 (fun _ => []).
Proof. apply yields_pure. intros t. unfold lift, alloc. rewrite heap_works. by destruct t. Qed.

(** *** The log *)

Lemma write_byte_ready b (h : Hw D) : (Serial.write_byte b (mkSerial COM1 true) h).1 = mkSerial COM1 true.
Proof.
  unfold Serial.write_byte. cbn [Serial.initialised negb Serial.base].
  destruct (tx_wait_ready uart_ready (Z.to_nat Serial.SPIN_LIMIT) h) as (v & -> & _). done.
Qed.

Lemma write_str_ready bs (h : Hw D) : (Serial.write_str bs (mkSerial COM1 true) h).1 = mkSerial COM1 true.
Proof.
  revert h. induction bs as [|b bs IH]; intros h; cbn [Serial.write_str]; [done|].
  assert ((if b =? 0x0A then Serial.write_byte 0x0D (mkSerial COM1 true) h else (mkSerial COM1 true, h)).1 = mkSerial COM1 true) as E1
    by (destruct (b =? 0x0A); [apply write_byte_ready|done]).
  destruct (if b =? 0x0A then _ else _) as [u1 h1]. cbn [fst] in E1. subst u1.
  pose proof (write_byte_ready b h1) as E2. destruct (Serial.write_byte b _ h1) as [u2 h2]. cbn [fst] in E2. subst u2. apply IH.
Qed.

(** What a record puts on the serial line. *)
Definition record_wire (subsys : bytes) (l : Level) (line : Z) (msg : bytes) (c : LogConfig) : bytes :=
  if dropped_by c l || bool_decide (c.(target) = BootInfo.Vga) then []
  else crlf (serial_record l e.(now) subsys (e.(site) line) c.(show_location) msg).

(** With no lock held [klog] is [log]. *)
Lemma lock_free t : lift (lock false) t = (On tt, t).
Proof. by destruct t. Qed.

Lemma view_unview s t : view (unview s t) = s.
Proof. by destruct s as [? ? []]. Qed.

Lemma unview_cfg c t : unview (mkSink c t.(uart) (view t).(vga)) t = set_cfg c t.
Proof. by destruct t as [[? ? ? []] ? ? ? ?]. Qed.

Lemma klog_log subsys l line msg t s :
  log e.(now) l subsys (e.(site) line) msg (view t) = Ret s → klog subsys l line msg t = (On tt, unview s t).
Proof.
  unfold klog, log. rewrite no_log_lock, no_com1_lock, no_vga_lock, no_pit_lock. change (cfg (view t)) with t.(lcfg).
  unfold mbind, TProg_bind. rewrite lock_free. unfold get at 1. destruct (dropped_by t.(lcfg) l).
  { destruct (count_filtered t.(lcfg)) as [c|]; [|done]. intros [= <-]. unfold modify, rust. by rewrite unview_cfg. }
  destruct (count_emitted t.(lcfg)) as [c|]; [|done]. cbn [rust Res_bind]. change (com1 (view t)) with t.(uart).
  set (s1 := mkSink c t.(uart) (view t).(vga)). unfold modify at 1. rewrite lock_free, <- (unview_cfg c t). fold s1.
  clearbody s1. destruct (target c).
  - intros [= <-]. rewrite lock_free. unfold modify. by rewrite view_unview.
  - intros H. unfold mret, TProg_ret. rewrite lock_free. unfold get, rust, modify. by rewrite view_unview, H.
  - intros H. rewrite lock_free. unfold get, rust, modify. rewrite view_unview, lock_free, view_unview, H. done.
Qed.

Lemma write_serial_uart l ts subsys loc b msg (s : Sink D) :
  s.(com1) = mkSerial COM1 true → (write_serial l ts subsys loc b msg s).(com1) = mkSerial COM1 true.
Proof.
  intros Hu. unfold write_serial. rewrite Hu.
  pose proof (write_str_ready (serial_record l ts subsys loc b msg) s.(vga).(Vga.hw)) as H.
  by destruct (Serial.write_str _ _ _).
Qed.

Lemma write_vga_uart l subsys msg (s s' : Sink D) : write_vga l subsys msg s = Ret s' → s'.(com1) = s.(com1).
Proof. unfold write_vga. destruct (level_colors l). intros H. res_inv. by subst s'. Qed.

(** The UART that answers stays enabled. *)
Lemma log_uart ts l subsys loc msg (s s' : Sink D) :
  log ts l subsys loc msg s = Ret s' → s.(com1) = mkSerial COM1 true → s'.(com1) = mkSerial COM1 true.
Proof.
  unfold log. intros H Hu. destruct (dropped_by _ _); [res_inv; by subst s'|].
  apply bind_Ret in H as (c & _ & H). destruct (target c).
  - injection H as <-. by apply write_serial_uart.
  - by apply write_vga_uart in H as ->.
  - apply write_vga_uart in H as ->. by apply write_serial_uart.
Qed.

Lemma trap_ok_unview s t :
  trap_ok t → vga_inv s.(vga) → s.(com1) = mkSerial COM1 true →
  0 ≤ s.(cfg).(ConsoleLog.emitted) → 0 ≤ s.(cfg).(ConsoleLog.filtered) → trap_ok (unview s t).
Proof.
  intros ((_ & Hr & Hc) & _ & _ & Hs & _ & _) Hv Hu He Hf. split; [split; [exact (proj1 Hv)|by split]|].
  rewrite view_unview. done.
Qed.

Lemma yields_klog subsys l line msg : yields (klog subsys l line msg) (On tt) [] 1 (record_wire subsys l line msg).
Proof.
  intros t (Hr & Hv & Hu & Hs & He & Hf) (_ & Hroom & _).
  destruct (log_ok e.(now) l subsys (e.(site) line) msg (view t) Hv) as (_ & s & E & Hv' & Hb & _ & H);
    [by rewrite (eq_refl : com1 (view t) = t.(uart)), Hu|cbn; lia|cbn; lia|].
  pose proof (log_uart _ _ _ _ _ _ _ E Hu) as Hu'. exists (unview s t). split; [by apply klog_log|].
  change (cfg (view t)) with t.(lcfg) in H. cbn zeta in H. unfold record_wire.
  change (dropped_by (style t) l) with (dropped_by t.(lcfg) l). cbn [style target show_location].
  destruct (dropped_by t.(lcfg) l); cbn [orb].
  - subst s. split; [apply trap_ok_unview; cbn; done || lia|]. repeat (split; [done|]). split; [cbn; lia|].
    exists []. by rewrite app_nil_r.
  - destruct H as (Hc & w & k & Ew & W & F). split; [apply trap_ok_unview; rewrite ?Hc; cbn; done || lia|].
    split; [unfold style; cbn; by rewrite Hc|]. repeat (split; [done|]). split; [cbn; rewrite Hc; cbn; lia|].
    exists w. split; [exact Ew|]. case_bool_decide; [done|]. apply F; [done|by rewrite Hu'].
Qed.

Fixpoint notes_wire (notes : list (Z * bytes)) (c : LogConfig) : bytes :=
  match notes with
  | [] => []
  | (line, msg) :: rest => record_wire idt_module Critical line msg c ++ notes_wire rest c
  end.

Lemma yields_kcrits notes : yields (kcrits notes) (On tt) [] (Z.of_nat (length notes)) (notes_wire notes).
Proof.
  induction notes as [|[line msg] notes IH]; cbn [kcrits notes_wire length]; [by apply yields_pure|].
  replace (Z.of_nat (S (length notes))) with (1 + Z.of_nat (length notes)) by lia.
  apply (yields_bind (klog idt_module Critical line msg) (fun _ => kcrits notes) tt (On tt) [] []);
    [lia|lia|apply yields_klog|exact IH].
Qed.

(** *** The fatal block *)

Definition fatal_lines (name : string) (vector : Z) (frame : InterruptStackFrame) (code cr2 : option Z) : list bytes :=
  let r := read_around frame e.(here) in fatal_head name vector r code cr2 ++ fatal_tail r.

Lemma yields_weaken {A} (p : TProg A) f cs k k' w w' :
  yields p f cs k w → k = k' → (∀ c, w c = w' c) → yields p f cs k' w'.
Proof. intros H <- Hw t Ht Hf. destruct (H t Ht Hf) as (t' & E & M). exists t'. by rewrite <- Hw. Qed.

Lemma yields_fatal name vector frame code cr2 :
  yields (fatal_exception name vector frame code cr2) (Raise (unhandled name vector)) [Exceptions] 0
    (fun _ => crlf (text (fatal_lines name vector frame code cr2))).
Proof.
  eapply yields_weaken with (k := 0 + (0 + (0 + (0 + 0)))).
  - unfold fatal_exception. apply (yields_bind _ _ tt _ [Exceptions] []); [lia|lia|apply yields_count|].
    apply (yields_bind _ _ tt _ [] []); [lia|lia|apply yields_says|].
    apply (yields_bind _ _ tt _ [] []); [lia|lia|apply yields_free|].
    apply (yields_bind _ _ tt _ [] []); [lia|lia|apply yields_says|apply yields_raise].
  - done.
  - intros c. unfold fatal_lines. by rewrite text_app, crlf_app, app_nil_r.
Qed.

Lemma yields_noted notes name vector frame code cr2 :
  yields (kcrits notes ;; fatal_exception name vector frame code cr2) (Raise (unhandled name vector)) [Exceptions]
    (Z.of_nat (length notes)) (fun c => notes_wire notes c ++ crlf (text (fatal_lines name vector frame code cr2))).
Proof.
  eapply yields_weaken; [apply (yields_bind _ _ tt _ [] [Exceptions] (Z.of_nat (length notes)) 0)|lia|];
    [lia|lia|apply yields_kcrits|apply yields_fatal|done].
Qed.

(** A handler that ends in a panic, followed by the panic handler. *)
Lemma enter_dies stack p msg cs k w t :
  yields p (Raise msg) cs k w → trap_ok t → fits cs k t → t.(sys).(PANICKING) = false → panic_action t.(sys) = Halt →
  any_lock e.(outer) = false → frames_mapped e.(outer) →
  ∃ t' bt l, enter (Datatypes.S stack) p t = (Died Halted, t') ∧ for_list cs t.(ctrs) bump = Ret t'.(ctrs) ∧
    io t'.(sys).(raw).(rhw) = io t.(sys).(raw).(rhw) ++ l ∧ (length bt ≤ 26)%nat ∧
    wire COM1 l = w (style t) ++ crlf (text (full_lines (panic_world msg t') t'.(sys).(PANIC_COUNT) bt ++ [line_halt])).
Proof.
  intros Hp Ht Hf Hn Ha Hl Hm. destruct (Hp t Ht Hf) as (t1 & E & M).
  destruct M as (Ht1 & _ & P1 & _ & A1 & C1 & _ & l1 & I1 & W1). pose proof Ht1 as (Hr1 & _ & _ & Hs1 & _ & _).
  destruct (panic_first uart_ready stack (panic_world msg t1) t1.(sys) Hr1) as (c & r & lines & P & Hrep & Ep); [congruence|].
  destruct c as [[]| |]; cbn [reported] in Hrep; [|destruct Hrep as [_ [Hh|Hh]]; [cbn in Hh; congruence|by destruct Hh]|
    destruct Hrep as [_ Hh]; unfold any_lock in *; cbn in Hh; congruence].
  destruct Hrep as (bt & (Hbt & Hlen & _) & -> & _).
  destruct (perform_ok uart_ready (panic stack (panic_world msg t1)) (Panic.set_raw r (entered t1.(sys))) (proj1 P)) as (r2 & Eq & P2).
  assert (panic_action (Panic.set_raw r (entered t1.(sys))) = Halt) as Ha1.
  { unfold panic_action in *. cbn. by rewrite A1. }
  rewrite Ha1 in *. rewrite bool_decide_eq_true_2 in Eq by done. rewrite Eq in Ep.
  destruct (prints_trans _ _ _ _ _ P P2) as (_ & _ & l2 & El & W2).
  eexists _, bt, (l1 ++ l2). unfold enter. rewrite E, Ep. split; [reflexivity|]. split; [exact C1|].
  split; [cbn [sys set_sys raw Panic.set_raw]; by rewrite El, I1, app_assoc|]. split; [exact Hlen|].
  unfold wire in *. rewrite writes_to_app, W1, W2 by done. by rewrite text_app.
Qed.

Lemma yields_alloc {A} (q : TProg A) f cs k w :
  0 ≤ k → yields q f cs k w → yields (lift (alloc e.(outer).(heap_ok)) ;; q) f cs k w.
Proof.
  intros Hk Hq. exact (yields_bind (lift (alloc e.(outer).(heap_ok))) (fun _ => q) tt f [] cs 0 k (fun _ => []) w
    (Z.le_refl 0) Hk yields_free Hq).
Qed.

Lemma assoc_elem v en l : assoc v l = Some en → (v, en) ∈ l.
Proof.
  induction l as [|[w x] l IH]; cbn [assoc]; [done|]. destruct (Z.eqb_spec w v) as [->|]; [intros [= ->]; left|].
  intros H. right. by apply IH.
Qed.

(** The vectors whose handlers end in [fatal_exception]. *)
Definition fatal_vector (v : Z) : Prop := v ≠ 2 ∧ v ≠ 3 ∧ v ≠ 8 ∧ v ≠ 18 ∧ (v = 1 → e.(debugger_attached) = false).

(** What the report must say.  The names and mnemonics of the vectors: *)
Definition mnemonic (v : Z) : string :=
  match v with
  | 0 => "divide-error (#DE)" | 1 => "debug (#DB)" | 4 => "overflow (#OF)" | 5 => "bound-range-exceeded (#BR)"
  | 6 => "invalid-opcode (#UD)" | 7 => "device-not-available (#NM)" | 10 => "invalid-TSS (#TS)"
  | 11 => "segment-not-present (#NP)" | 12 => "stack-segment-fault (#SS)" | 13 => "general-protection (#GP)"
  | 14 => "page-fault (#PF)" | 16 => "x87-floating-point (#MF)" | 17 => "alignment-check (#AC)"
  | 19 => "simd-floating-point (#XF)" | 20 => "virtualization (#VE)" | 29 => "vmm-communication (#VC)"
  | 30 => "security-exception (#SX)" | _ => ""
  end.

(** the vectors for which the CPU pushes an error code: *)
Definition pushes_code (v : Z) : bool := bool_decide (v ∈ [8; 10; 11; 12; 13; 14; 17; 21; 29; 30]).
Definition pushed (v : Z) (code : option Z) : option Z := if pushes_code v then Some (default 0 code) else None.

(** the faulting address: *)
Definition fault_addr (v : Z) : option Z := if v =? 14 then Some e.(here).(cr2) else None.

(** and the critical records that precede the block. *)
Definition diagnosis (v : Z) (frame : InterruptStackFrame) (code : option Z) : list (Z * bytes) :=
  let c := default 0 code in
  if v =? 6 then invalid_opcode_notes frame
  else if v =? 10 then invalid_tss_notes c
  else if v =? 13 then general_protection_notes c
  else if v =? 14 then page_fault_notes e.(here).(cr2) c
  else if v =? 29 then vmm_comm_notes c
  else [].

(** The lines of the block that identify the exception, in their order. *)
Definition essentials (v : Z) (frame : InterruptStackFrame) (code : option Z) : list bytes :=
  [[10] ++ lit "ORIN-FATAL-BEGIN";
   lit "ORIN|C|EXCEPTION|" ++ lit (mnemonic v) ++ lit " (vector " ++ hex04 v ++ lit ")"] ++
  (if pushes_code v then [lit "ORIN|C|EXCEPTION|  error code: " ++ hex (default 0 code)] else []) ++
  (if v =? 14 then [lit "ORIN|C|EXCEPTION|  faulting address (CR2): " ++ hex e.(here).(cr2)] else []) ++
  [lit "ORIN|C|EXCEPTION|  rip " ++ hex018 frame.(instruction_pointer) ++ lit "  rsp " ++ hex018 frame.(stack_pointer) ++
     lit "  rflags " ++ hex018 frame.(cpu_flags) ++ lit "  cs " ++ hex frame.(code_segment) ++ lit "  ss " ++ hex frame.(stack_segment);
   lit "ORIN-FATAL-END"].

Definition fatal_report (v : Z) (frame : InterruptStackFrame) (code : option Z) : list bytes :=
  fatal_lines (mnemonic v) v frame (pushed v code) (fault_addr v).

Lemma essentials_reported v frame code : essentials v frame code `sublist_of` fatal_report v frame code.
Proof.
  unfold essentials, fatal_report, fatal_lines, fatal_head, fatal_tail, pushed, fault_addr. rewrite <- !app_assoc.
  do 2 apply sublist_skip. apply sublist_app; [|apply sublist_app].
  - destruct (pushes_code v); cbn [opt_lines]; [|done]. apply sublist_skip, sublist_nil_l.
  - destruct (v =? 14); cbn [opt_lines]; [|done]. apply sublist_skip, sublist_nil_l.
  - apply sublist_skip. do 3 apply sublist_cons. apply sublist_inserts_l. done.
Qed.

Lemma page_fault_notes_length a c : (length (page_fault_notes a c) ≤ 3)%nat.
Proof. unfold page_fault_notes. repeat case_match; cbn; lia. Qed.

Lemma diagnosis_length v frame code : (length (diagnosis v frame code) ≤ 3)%nat.
Proof.
  unfold diagnosis. destruct (v =? 6); [cbn; lia|]. destruct (v =? 10); [cbn; lia|]. destruct (v =? 13); [cbn; lia|].
  destruct (v =? 14); [apply page_fault_notes_length|]. destruct (v =? 29); cbn; lia.
Qed.

Lemma fatal_yields v en frame code p :
  assoc v purposeful = Some en → exception en.(handler) frame v code = Some p → fatal_vector v →
  yields p (Raise (unhandled (mnemonic v) v)) [Exceptions] (Z.of_nat (length (diagnosis v frame code)))
    (fun st => notes_wire (diagnosis v frame code) st ++ crlf (text (fatal_report v frame code))).
Proof.
  intros Hin%assoc_elem Hp (H2 & H3 & H8 & H18 & Hdb).
  assert (p = (kcrits (diagnosis v frame code) ;; fatal_exception (mnemonic v) v frame (pushed v code) (fault_addr v)) →
    yields p (Raise (unhandled (mnemonic v) v)) [Exceptions] (Z.of_nat (length (diagnosis v frame code)))
      (fun st => notes_wire (diagnosis v frame code) st ++ crlf (text (fatal_report v frame code)))) as Hcase
    by (intros ->; apply yields_noted).
  unfold purposeful in Hin. cbn [app] in Hin.
  repeat (apply elem_of_cons in Hin as [[= -> ->]|Hin];
    [first [discriminate Hp | by destruct H2 | by destruct H3 | by destruct H8 | by destruct H18 | injection Hp as <-];
     first [apply Hcase; reflexivity | idtac]|]).
  - apply Hcase. unfold do_debug. by rewrite Hdb.
  - apply yields_alloc; [lia|]. apply yields_noted.
  - by apply not_elem_of_nil in Hin.
Qed.

(** C30: A fatal exception is reported in full.  Take any vector whose installed
    handler ends in [fatal_exception] (all the exceptions the table has, but NMI,
    breakpoint, double fault and machine check, and [#DB] unless a debugger is
    attached), on a machine whose UART answers, with no lock held, a working
    heap, frame pointers that lead to mapped memory, no panic yet, the panic
    action Halt and counters that do not overflow.  The exception is counted once
    and the machine halts after one panic.  The serial line carries the critical
    records of this vector's diagnosis (#UD, #TS, #GP, #PF and #VC have one) as far
    as the log's level and target let them through, then the fatal block, whose
    lines include, in this order, the name of this very vector, the error code the
    CPU pushed (exactly for the vectors that push one), CR2 (exactly for a page
    fault) and the interrupted RIP, RSP, RFLAGS, CS and SS; then the whole panic
    report, which names the vector again and shows the updated counters. *)
Theorem exception_reported stack v en frame code p t :
  assoc v purposeful = Some en → exception en.(handler) frame v code = Some p → fatal_vector v →
  trap_ok t → t.(ctrs).(exceptions) + 1 < U64 →
  t.(lcfg).(ConsoleLog.emitted) + t.(lcfg).(ConsoleLog.filtered) + 3 < U64 →
  t.(sys).(PANICKING) = false → panic_action t.(sys) = Halt → any_lock e.(outer) = false → frames_mapped e.(outer) →
  essentials v frame code `sublist_of` fatal_report v frame code ∧
  ∃ t' bt l, enter (Datatypes.S stack) p t = (Died Halted, t') ∧
    t'.(ctrs).(exceptions) = t.(ctrs).(exceptions) + 1 ∧
    io t'.(sys).(raw).(rhw) = io t.(sys).(raw).(rhw) ++ l ∧ (length bt ≤ 26)%nat ∧
    wire COM1 l = notes_wire (diagnosis v frame code) (style t) ++ crlf (text (fatal_report v frame code ++
      full_lines (panic_world (unhandled (mnemonic v) v) t') t'.(sys).(PANIC_COUNT) bt ++ [line_halt])).
Proof.
  intros Hen Hp Hv Ht Hc Hr Hn Ha Hl Hm. split; [apply essentials_reported|].
  pose proof (fatal_yields v en frame code p Hen Hp Hv) as Hy.
  destruct (enter_dies stack p _ _ _ _ t Hy Ht) as (t' & bt & l & E & Ec & El & Hbt & W); try done.
  { pose proof (diagnosis_length v frame code). split; [lia|]. split; [lia|]. cbn [for_list bump]. rewrite add64_ok by done. by eexists. }
  exists t', bt, l. split; [exact E|]. split.
  { cbn [for_list bump] in Ec. rewrite add64_ok in Ec by done. by injection Ec as <-. }
  split; [exact El|]. split; [exact Hbt|].
  rewrite W, <- app_assoc. by rewrite (text_app (fatal_report _ _ _)), crlf_app.
Qed.

End Healthy.

(** ** What a handler does when a console lock is held *)

(** The first critical record waits for ever. *)
Definition console_held (t : T) : Prop :=
  e.(outer).(log_held) = true ∨
  (e.(pit_held) = true ∧ dropped_by t.(lcfg) Critical = false) ∨
  (e.(com1_held) = true ∧ dropped_by t.(lcfg) Critical = false ∧ t.(lcfg).(target) ≠ BootInfo.Vga).

Lemma klog_spins subsys line msg t :
  console_held t → 0 ≤ t.(lcfg).(ConsoleLog.emitted) → t.(lcfg).(ConsoleLog.emitted) + 1 < U64 →
  ∃ t', klog subsys Critical line msg t = (Spin, t') ∧ t'.(sys) = t.(sys).
Proof.
  intros Hh H0 He. unfold klog, mbind, TProg_bind, lift, lock, get, modify. destruct (log_held (outer e)) eqn:El; [by eexists|].
  assert (dropped_by t.(lcfg) Critical = false) as Hd by (destruct Hh as [?|[[_ ?]|(_ & ? & _)]]; congruence). cbn [set_sys lcfg]. rewrite Hd.
  unfold count_emitted. rewrite add64_ok by done. cbn [mbind Res_bind rust target]. destruct (pit_held e) eqn:Ep; [by eexists|].
  destruct Hh as [?|[[? _]|(Hc & _ & Ht)]]; [congruence..|]. rewrite Hc. by destruct (target t.(lcfg)); [eexists|..|eexists].
Qed.

Lemma kcrits_spins notes t :
  notes ≠ [] → console_held t → 0 ≤ t.(lcfg).(ConsoleLog.emitted) → t.(lcfg).(ConsoleLog.emitted) + 1 < U64 →
  ∃ t', kcrits notes t = (Spin, t') ∧ t'.(sys) = t.(sys).
Proof.
  intros Hn Hh H0 He. destruct notes as [|[line msg] notes]; [done|]. cbn [kcrits].
  destruct (klog_spins idt_module line msg t Hh H0 He) as (t' & E & Hs). exists t'. split; [|exact Hs].
  unfold mbind, TProg_bind. by rewrite E.
Qed.

(** The handlers that write to the log before anything else is printed. *)
Definition logs_first (v : Z) : bool := bool_decide (v ∈ [2; 6; 8; 10; 13; 14; 18; 29]).

(** What such a handler starts with. *)
Definition starts_with_notes (p : TProg unit) : Prop :=
  ∃ pre notes k, p = (pre ;; (kcrits notes ;; k)) ∧ notes ≠ [] ∧
    (pre = mret tt ∨ pre = count Exceptions ∨ pre = lift (alloc e.(outer).(heap_ok))).

Lemma logs_first_notes v en frame code p :
  assoc v purposeful = Some en → exception en.(handler) frame v code = Some p → logs_first v = true → starts_with_notes p.
Proof.
  intros Hen Hp Hv%bool_decide_eq_true_1.
  repeat (apply elem_of_cons in Hv as [->|Hv]; [injection Hen as <-; injection Hp as <-;
    first [by eexists (mret tt), _, _; split; [reflexivity|]; split; [|by left]
          |by eexists (count Exceptions), _, _; split; [reflexivity|]; split; [|by right; left]
          |by eexists (lift (alloc _)), _, _; split; [reflexivity|]; split; [|by right; right]]|]).
  by apply not_elem_of_nil in Hv.
Qed.

(** An exception that interrupts the console cannot be reported.  The handlers
    of NMI, #UD, #DF, #TS, #GP, #PF, #MC and #VC log through the locked console
    first: if the interrupted code holds the log's lock or the timer's, or the
    UART's while records go there, they wait for it for ever.  Nothing is printed, the panic
    handler is never entered and no panic action happens. *)
Theorem exception_deadlocks stack v en frame code p t :
  assoc v purposeful = Some en → exception en.(handler) frame v code = Some p → logs_first v = true →
  console_held t → e.(outer).(heap_ok) = true → 0 ≤ t.(lcfg).(ConsoleLog.emitted) →
  t.(lcfg).(ConsoleLog.emitted) + 1 < U64 → t.(ctrs).(exceptions) + 1 < U64 →
  ∃ t', enter stack p t = (Died Deadlocked, t') ∧ t'.(sys) = t.(sys).
Proof.
  intros Hen Hp Hv Hh Hheap H0 He Hx.
  destruct (logs_first_notes v en frame code p Hen Hp Hv) as (pre & notes & k & -> & Hn & Hpre).
  assert (∃ t1, pre t = (On tt, t1) ∧ t1.(sys) = t.(sys) ∧ t1.(lcfg) = t.(lcfg)) as (t1 & E1 & Hs1 & Hl1).
  { destruct Hpre as [-> | [-> | ->]].
    - by exists t.
    - unfold count, mbind, TProg_bind, get, modify. cbn [bump]. rewrite add64_ok by done. by eexists.
    - unfold lift, alloc. rewrite Hheap. by eexists. }
  destruct (kcrits_spins notes t1 Hn) as (t2 & E2 & Hs2); [unfold console_held; by rewrite Hl1|by rewrite Hl1|by rewrite Hl1|].
  exists t2. unfold enter, mbind, TProg_bind. rewrite E1. unfold mbind, TProg_bind. rewrite E2. split; [done|congruence].
Qed.

(** ** The dispatcher of Idt.v is an abstraction of these handlers *)

Definition never (p : TProg unit) : Prop := ∀ t u t', p t ≠ (On u, t').

Lemma never_bind {A} (p : TProg A) k : (∀ a, never (k a)) → never (p ≫= k).
Proof. intros H t u t'. unfold mbind, TProg_bind. destruct (p t) as [[a|msg| |] t1]; try done. apply H. Qed.

Lemma never_raise msg : never (raise msg).
Proof. done. Qed.

Lemma never_fatal name vector frame code cr2 : never (fatal_exception name vector frame code cr2).
Proof. unfold fatal_exception. do 4 (apply never_bind; intros ?). apply never_raise. Qed.

Ltac solve_never :=
  repeat match goal with
  | |- never (fatal_exception _ _ _ _ _) => apply never_fatal
  | |- never (raise _) => apply never_raise
  | |- never (_ ≫= _) => apply never_bind; intros ?
  end.

(** Every exception but [#BP] (and [#DB] under a debugger) is fatal. *)
Lemma never_returns h frame vector code p :
  exception h frame vector code = Some p → h ≠ on_breakpoint → ¬ (h = on_debug ∧ e.(debugger_attached) = true) → never p.
Proof.
  intros Hp Hb Hd. destruct h; try discriminate Hp; injection Hp as <-; try done;
    unfold do_divide_error, do_debug, do_nmi, do_overflow, do_bound_range, do_invalid_opcode, do_device_not_available,
      do_double_fault, do_invalid_tss, do_segment_not_present, do_stack_segment, do_general_protection, do_page_fault,
      do_x87_fault, do_alignment_check, do_machine_check, do_simd_fault, do_virtualization, do_vmm_comm,
      do_security_exception, do_unassigned_general, unassigned_vector; cbv zeta; solve_never.
  destruct (debugger_attached e); [by destruct Hd|apply never_fatal].
Qed.

(** A program that leaves the interrupt counters alone. *)
Definition keeps_ctrs {A} (p : TProg A) : Prop := ∀ t f t', p t = (f, t') → t'.(ctrs) = t.(ctrs).

Lemma keeps_bind {A A'} (p : TProg A) (k : A → TProg A') : keeps_ctrs p → (∀ a, keeps_ctrs (k a)) → keeps_ctrs (p ≫= k).
Proof.
  intros Hp Hk t f t'. unfold mbind, TProg_bind. destruct (p t) as [[a|msg| |] t1] eqn:E; apply Hp in E;
    [|by intros [= <- <-]..]. intros H%Hk. congruence.
Qed.

Lemma keeps_ret {A} (a : A) : keeps_ctrs (mret a).
Proof. by intros t f t' [= <- <-]. Qed.
Lemma keeps_get {A} (g : T → A) : keeps_ctrs (get g).
Proof. by intros t f t' [= <- <-]. Qed.
Lemma keeps_rust {A} (m : Res A) : keeps_ctrs (rust m).
Proof. intros t f t'. unfold rust. repeat case_match; by intros [= <- <-]. Qed.
Lemma keeps_lift {A} (p : Prog A) : keeps_ctrs (lift p).
Proof. intros t f t'. unfold lift. destruct (p _). by intros [= <- <-]. Qed.
Lemma keeps_modify g : (∀ t, (g t).(ctrs) = t.(ctrs)) → keeps_ctrs (modify g).
Proof. intros Hg t f t' [= <- <-]. apply Hg. Qed.

Lemma keeps_klog subsys l line msg : keeps_ctrs (klog subsys l line msg).
Proof.
  unfold klog. repeat first [apply keeps_lift | apply keeps_get | apply keeps_rust | apply keeps_ret | by apply keeps_modify
    | apply keeps_bind; [|intros ?] | case_match].
Qed.

(** A handler that returns to the interrupted code is one that the dispatcher of
    Idt.v lets return, with the same counters; every other exception ends the
    kernel there too. *)
Theorem exceptions_simulated h frame vector code p t t' (m : Machine D) :
  exception h frame vector code = Some p → m.(ctr) = t.(ctrs) → p t = (On tt, t') →
  run_handler e.(debugger_attached) h m = Ret (Idt.set_ctr t'.(ctrs) m).
Proof.
  intros Hp Hm Ho.
  assert (∀ q : TProg unit, keeps_ctrs q → (count Exceptions ;; q) t = (On tt, t') →
    bump_m Exceptions m = Ret (Idt.set_ctr t'.(ctrs) m)) as Hcount.
  { intros q Hq. unfold bump_m. rewrite Hm. unfold mbind at 1, TProg_bind. unfold count, mbind, TProg_bind, get, modify.
    destruct (bump Exceptions t.(ctrs)) as [c|[]]; cbn; try done. intros H%Hq. by rewrite H. }
  destruct (decide (h = on_breakpoint)) as [->|Hbp].
  { injection Hp as <-. exact (Hcount _ (keeps_klog idt_module Debug _ _) Ho). }
  destruct (decide (h = on_debug ∧ e.(debugger_attached) = true)) as [[-> Hd]|Hdb].
  { injection Hp as <-. unfold do_debug in Ho. rewrite Hd in *. exact (Hcount _ (keeps_klog idt_module Debug _ _) Ho). }
  exfalso. revert Ho. by eapply never_returns.
Qed.

End Handlers.

(** ** The texts *)

Definition pf_labels : list (Z * string) :=
  [(0, "PRESENT(protection-violation)"); (1, "WRITE"); (2, "USER"); (3, "RESERVED-BITS"); (4, "INSTRUCTION-FETCH");
   (5, "PK(protection-key)"); (6, "SHADOW-STACK"); (7, "SGX"); (15, "NX-USER-ACCESS-FILTER")]%string.

(** Read the bits back from the words of the text. *)
Definition pf_decode (s : bytes) : list bool :=
  let ws := split_ascii_whitespace s in (fun p : Z * string => existsb (bytes_eqb (lit p.2)) ws) <$> pf_labels.

(** The text as a function of the nine bits. *)
Definition pf_code (bs : list bool) : Z :=
  foldr (fun (p : bool * (Z * string)) acc => if p.1 then Z.lor (Z.shiftl 1 p.2.1) acc else acc) 0 (zip bs pf_labels).

Definition pf_bits (code : Z) : list bool := (fun p : Z * string => bit p.1 code) <$> pf_labels.

Fixpoint bool_lists (n : nat) : list (list bool) :=
  match n with
  | O => [[]]
  | S n' => ((fun l => true :: l) <$> bool_lists n') ++ ((fun l => false :: l) <$> bool_lists n')
  end.

Lemma elem_of_bool_lists bs : bs ∈ bool_lists (length bs).
Proof.
  induction bs as [|b bs IH]; cbn [length bool_lists]; [left|]. apply elem_of_app. destruct b; [left|right]; apply list_elem_of_fmap; by exists bs.
Qed.

Lemma pf_all : forallb (fun bs => bool_decide (pf_bits (pf_code bs) = bs) &&
  bool_decide (pf_decode (format_pf_bits (pf_code bs)) = bs)) (bool_lists 9) = true.
Proof. vm_compute. reflexivity. Qed.

Lemma pf_checked bs : length bs = 9%nat → pf_bits (pf_code bs) = bs ∧ pf_decode (format_pf_bits (pf_code bs)) = bs.
Proof.
  intros Hl. pose proof (elem_of_bool_lists bs) as Hin. rewrite Hl in Hin.
  pose proof (proj1 (forallb_forall _ _) pf_all bs (proj1 (list_elem_of_In _ _) Hin)) as H.
  apply andb_true_iff in H as [H1%bool_decide_eq_true_1 H2%bool_decide_eq_true_1]. done.
Qed.

Lemma pf_bits_eq a b n s : (n, s) ∈ pf_labels → pf_bits a = pf_bits b → bit n a = bit n b.
Proof.
  unfold pf_bits. induction pf_labels as [|[m x] l IH]; [by intros ?%not_elem_of_nil|]. rewrite !fmap_cons.
  intros [[= -> ->]|Hin]%elem_of_cons [= Hb Hl]; [exact Hb|by apply IH].
Qed.

Lemma land_bit a n m : m = Z.shiftl 1 n → (Z.land a m =? 0) = negb (bit n a).
Proof. intros ->. unfold bit. by rewrite negb_involutive. Qed.

Lemma pf_bit_ext a b n s t : bit n a = bit n b → pf_bit a n s t = pf_bit b n s t.
Proof. unfold pf_bit. by intros ->. Qed.

Lemma format_pf_bits_ext a b : pf_bits a = pf_bits b → format_pf_bits a = format_pf_bits b.
Proof.
  intros H. unfold format_pf_bits. rewrite !(land_bit _ 0 1), !(land_bit _ 1 2) by reflexivity.
  assert (∀ n s, (n, s) ∈ pf_labels → ∀ t, pf_bit a n s t = pf_bit b n s t) as Hp
    by (intros n s Hin t; by eapply pf_bit_ext, pf_bits_eq).
  rewrite (pf_bits_eq a b 0 "PRESENT(protection-violation)"), (pf_bits_eq a b 1 "WRITE") by (done || (unfold pf_labels; repeat constructor)).
  rewrite !Hp by (unfold pf_labels; repeat constructor). reflexivity.
Qed.

(** The text of a page fault's error code loses nothing: the nine bits it
    decodes can be read back from its words. *)
Theorem pf_bits_round_trip code : pf_decode (format_pf_bits code) = pf_bits code.
Proof.
  destruct (pf_checked (pf_bits code) eq_refl) as [Hb Hd]. rewrite (format_pf_bits_ext code (pf_code (pf_bits code))); [exact Hd|by symmetry].
Qed.

(** The fatal block of a page fault calls its error code a selector index: the
    breakdown of the bits is tied to a name no handler uses. *)
Lemma page_fault_block_misses_bits c :
  code_lines "page-fault (#PF)" c =
    [tag ++ lit "  error code: " ++ hex c; tag ++ lit "  (error code is a selector index or 0 for this vector)"].
Proof. reflexivity. Qed.

(** A stack that is almost empty passes for one that overflowed: the heuristic
    looks below the top of the stack, not at its bottom. *)
Lemma stack_top_looks_overflowed boot_top kern_top :
  0x1000 ≤ kern_top → kern_top + 0x1000 < U64 → is_probable_stack_overflow boot_top kern_top (kern_top - 16) = Ret true.
Proof.
  intros Hlo Hhi. unfold is_probable_stack_overflow, near. rewrite add64_ok by lia. cbn [mbind Res_bind].
  destruct (_ && _); [done|]. cbn [mbind Res_bind].
  destruct (Z.leb_spec (Z.max 0 (kern_top - 0x100)) (kern_top - 16 + 0x1000)), (Z.ltb_spec (kern_top - 16) kern_top); done || lia.
Qed.

(** ** Witnesses *)

Definition demo_env (held : bool) : TrapEnv := {|
  outer := demo_world false; com1_held := held; vga_held := false; pit_held := false; now := 0; site := fun _ => lit "idt.rs";
  here := {| rip := 0; rsp := 0; rflags := 0; cs := 0; ss := 0; rax := 0; rbx := 0; rcx := 0; rdx := 0; rsi := 0; rdi := 0; rbp := 0;
    r8 := 0; r9 := 0; r10 := 0; r11 := 0; r12 := 0; r13 := 0; r14 := 0; r15 := 0; cr0 := 0; cr2 := 0x1000; cr3 := 0; cr4 := 0; efer := 0 |};
  boot_top := 0; kern_top := 0; debugger_attached := false |}.

Definition demo_frame : InterruptStackFrame := mkFrame KERNEL_VMA KERNEL_VMA 2 8 16.

Definition demo_trap : Trap unit :=
  mkTrap (demo_panicking false Halt) (mkSerial COM1 true) VgaWriter_new (CONFIG true) Counters_initial.

Lemma demo_trap_ok : trap_ok demo_trap.
Proof. split; [apply demo_raw_inv|]. split; [split; [reflexivity|cbn; lia]|]. split; [done|]. split; [done|]. cbn. lia. Qed.

(** A kernel page fault at 0x1000. *)
Lemma exception_reported_witness :
  ∃ t' bt l, enter (demo_env false) 1 (do_page_fault (demo_env false) demo_frame 2) demo_trap = (Died Halted, t') ∧
    t'.(ctrs).(exceptions) = 1 ∧
    wire COM1 l = notes_wire (demo_env false) (page_fault_notes 0x1000 2) (style demo_trap) ++
      crlf (text (fatal_report (demo_env false) 14 demo_frame (Some 2) ++
        full_lines (panic_world (demo_env false) (unhandled "page-fault (#PF)" 14) t') t'.(sys).(PANIC_COUNT) bt ++ [line_halt])).
Proof.
  destruct (exception_reported (demo_env false) ready_uart eq_refl eq_refl eq_refl eq_refl eq_refl 0 14 (mkEntry on_page_fault 5) demo_frame
    (Some 2) (do_page_fault (demo_env false) demo_frame 2) demo_trap eq_refl eq_refl)
    as (_ & t' & bt & l & E & Hc & _ & _ & W).
  - split; [done|]. split; [done|]. split; [done|]. split; [done|]. intros [=].
  - exact demo_trap_ok.
  - by vm_compute.
  - by vm_compute.
  - reflexivity.
  - reflexivity.
  - reflexivity.
  - apply demo_frames.
  - exists t', bt, l. split; [exact E|]. split; [exact Hc|exact W].
Defined.

(** The same fault while the interrupted code was writing to the UART. *)
Lemma exception_deadlocks_witness :
  ∃ t', enter (demo_env true) 1 (do_page_fault (demo_env true) demo_frame 2) demo_trap = (Died Deadlocked, t') ∧
    t'.(sys) = demo_trap.(sys).
Proof.
  apply (exception_deadlocks (demo_env true) 1 14 (mkEntry on_page_fault 5) demo_frame (Some 2)); try reflexivity; try by vm_compute.
  right. right. split; [done|]. split; [done|]. intros [=].
Defined.

Lemma exceptions_simulated_witness :
  ∃ t', do_breakpoint (demo_env true) demo_frame demo_trap = (On tt, t') ∧
    run_handler false on_breakpoint (mkMachine Counters_initial Pic_initial Pit_initial Ring_new (mkHw tt [])) =
      Ret (Idt.set_ctr t'.(ctrs) (mkMachine Counters_initial Pic_initial Pit_initial Ring_new (mkHw tt []))).
Proof.
  eexists. split; [vm_compute; reflexivity|].
  refine (exceptions_simulated (demo_env true) on_breakpoint demo_frame 3 None _ demo_trap _
    (mkMachine Counters_initial Pic_initial Pit_initial Ring_new (mkHw tt [])) eq_refl eq_refl _).
  vm_compute. reflexivity.
Defined.
