(* ===== verification/Irqs.v ===== *)
(** * Device interrupts and the locks they take (kernel/src/interrupts/idt.rs, drivers/keyboard.rs)

    The interrupt handlers of Idt.v with what that model leaves out: the records
    they write through the log, and the spin locks behind the log, the clock and
    the controllers' masks.  A handler that asks for a lock the interrupted code
    holds never returns, because the holder cannot run.  The main theorem says
    exactly when that happens. *)

From stdpp Require Import base list list_numbers strings.
From Stdlib Require Import ZArith Lia.
From S2P Require Import Prelude Ports Arch BootInfo Params Pic Pit Ring Keyboard Serial Vga Raw ConsoleLog Idt Cpuid Fmt Regs Heap Panic Exceptions Interrupts.
#[local] Open Scope Z_scope.

(** The log, the consoles and the counters ([Trap]), the controllers' shadow, the
    timer and the scancode ring. *)
Record Devices (D : Type) : Type := mkDevices { trap : Trap D; d_pic : Pic; d_pit : Pit; d_ring : Ring }.
Arguments mkDevices {D} _ _ _ _.
Arguments trap {D} _.
Arguments d_pic {D} _.
Arguments d_pit {D} _.
Arguments d_ring {D} _.

Definition keyboard_module : bytes := lit "orin_kernel::drivers::keyboard".

(** [now_micros()] at a record. *)
Definition at_time (n : Z) (e : TrapEnv) : TrapEnv :=
  mkTrapEnv e.(outer) e.(com1_held) e.(vga_held) e.(pit_held) n e.(site) e.(here) e.(boot_top) e.(kern_top) e.(debugger_attached).

Section Irqs.
Context {D : Type} `{B : Bus D}.
(** The environment of Exceptions.v, and whether [pic::MASKS] is held. *)
Context (e : TrapEnv) (masks_held : bool).
Abbreviation V := (Devices D).

Definition IProg (A : Type) : Type := V → Flow A * V.

#[local] Instance IProg_ret : MRet IProg := fun A a d => (On a, d).
#[local] Instance IProg_bind : MBind IProg := fun A A' k m d =>
  match m d with
  | (On a, d') => k a d'
  | (Raise msg, d') => (Raise msg, d')
  | (Fault, d') => (Fault, d')
  | (Spin, d') => (Spin, d')
  end.

Definition set_trap (t : Trap D) (d : V) : V := mkDevices t d.(d_pic) d.(d_pit) d.(d_ring).
Definition ports (d : V) : Hw D := d.(trap).(sys).(raw).(rhw).
Definition with_ports (h : Hw D) (t : Trap D) : Trap D :=
  let r := t.(sys).(raw) in
  set_sys (Panic.set_raw (mkRaw r.(RAW_ROW) r.(RAW_COL) r.(SERIAL_OK) r.(screen) h) t.(sys)) t.

(** ** Steps *)

Definition on_trap {A} (p : TProg (D := D) A) : IProg A := fun d => let '(f, t) := p d.(trap) in (f, set_trap t d).
Definition attempt {A} (m : V → Res A) : IProg A := fun d => on_trap (rust (m d)) d.
Definition change (f : V → V) : IProg unit := fun d => (On tt, f d).
Definition ask {A} (f : V → A) : IProg A := fun d => (On (f d), d).
Definition acquire (held : bool) : IProg unit := fun d => (if held then Spin else On tt, d).
Definition on_ports {A} (f : Hw D → A * Hw D) : IProg A := fun d =>
  let '(a, h) := f (ports d) in (On a, set_trap (with_ports h d.(trap)) d).

Definition record (subsys : bytes) (l : Level) (line : Z) (msg : bytes) : IProg unit := fun d =>
  on_trap (klog (at_time (micros_since_boot d.(d_pit)) e) subsys l line msg) d.

(** [pic::end_of_interrupt(pic::vector_for_irq(irq))] *)
Definition acknowledge (irq : Z) : IProg unit :=
  v ← attempt (fun _ => vector_for_irq irq);
  on_ports (fun h => (tt, end_of_interrupt v h)).

(** ** The handlers *)

(** Every thousandth tick asks for the clock's lock twice more and writes a
    record. *)
Definition do_irq_timer : IProg unit :=
  on_trap (count TimerTicks) ;;
  acquire e.(pit_held) ;;
  change (fun d => mkDevices d.(trap) d.(d_pic) (tick d.(d_pit)) d.(d_ring)) ;;
  n ← ask (fun d => ticks_since_boot d.(d_pit));
  (if n mod 1000 =? 0 then
     acquire e.(pit_held) ;;
     s ← ask (fun d => seconds_since_boot d.(d_pit));
     record idt_module Debug 649 (lit "tick: uptime " ++ udec s ++ lit "s (" ++ udec n ++ lit " ticks)")
   else mret tt) ;;
  acknowledge irq_TIMER.

(** [keyboard::interrupt_handler] *)
Definition keyboard_interrupt : IProg unit :=
  s ← on_ports (inb PORT_STATUS);
  if has s ST_TIMEOUT then
    record keyboard_module Error 758 (lit "keyboard: controller timeout flag set; flushing") ;;
    on_ports (fun h => (tt, flush_output h))
  else if has s ST_PARITY then
    record keyboard_module Warn 766 (lit "keyboard: parity error on received byte; discarded") ;;
    on_ports (inb PORT_DATA) ;;
    mret tt
  else if Z.land s ST_OUT_BUFFER_FULL =? 0 then
    record keyboard_module Trace 775 (lit "keyboard: IRQ1 with empty output buffer; spurious")
  else
    byte ← on_ports (inb PORT_DATA);
    if Z.land s ST_FROM_DEVICE =? 0 then
      record keyboard_module Debug 786 (lit "keyboard: async controller response " ++ hex04 byte ++ lit " discarded")
    else
      r ← attempt (fun d => ring_push byte d.(d_ring));
      change (fun d => mkDevices d.(trap) d.(d_pic) d.(d_pit) r).

Definition do_irq_keyboard : IProg unit :=
  on_trap (count KeyEvents) ;; keyboard_interrupt ;; acknowledge irq_KEYBOARD.

Definition do_irq_cascade : IProg unit :=
  record idt_module Trace 670 (lit "pic: cascade IRQ2 delivered (should not normally happen)") ;; acknowledge irq_CASCADE.

Definition mask_line (irq_num : Z) : IProg unit :=
  acquire masks_held ;;
  r ← attempt (fun d => mask irq_num d.(d_pic) (ports d));
  change (fun d => mkDevices (with_ports r.2 d.(trap)) r.1 d.(d_pit) d.(d_ring)).

Fixpoint mask_lines (l : list Z) : IProg unit :=
  match l with
  | [] => mret tt
  | irq_num :: l => mask_line irq_num ;; mask_lines l
  end.

Definition do_irq_unexpected (frame : InterruptStackFrame) : IProg unit :=
  on_trap (count Unassigned) ;;
  record idt_module Error 681 (lit "unexpected device interrupt at rip " ++ hex frame.(instruction_pointer) ++
    lit ". A driver unmasked an IRQ line without installing a handler for it. The line is masked again below so this cannot become an interrupt storm.") ;;
  mask_lines unexpected_irqs ;;
  acknowledge 8.

Definition do_syscall_vector (frame : InterruptStackFrame) : IProg unit :=
  on_trap (count Syscalls) ;;
  record idt_module Error 703 (lit "syscall vector " ++ hex04 SYSCALL_VECTOR ++ lit " invoked at rip " ++ hex frame.(instruction_pointer) ++
    lit ": the Orin syscall ABI is DESIGNED but not IMPLEMENTED until M5. Returning ENOSYS. See docs/SYSCALL.md.").

Definition do_spurious : IProg unit :=
  on_trap (count Spurious) ;;
  record idt_module Trace 720 (lit "spurious interrupt at vector " ++ hex04 SPURIOUS_VECTOR ++ lit "; EOI deliberately withheld").

(** The handlers that [exception] of Exceptions.v does not cover. *)
Definition device_irq (h : Handler) (frame : InterruptStackFrame) : option (IProg unit) :=
  match h with
  | on_irq_timer => Some do_irq_timer
  | on_irq_keyboard => Some do_irq_keyboard
  | on_irq_cascade => Some do_irq_cascade
  | on_irq_unexpected => Some (do_irq_unexpected frame)
  | on_syscall_vector => Some (do_syscall_vector frame)
  | on_spurious => Some do_spurious
  | _ => None
  end.

Lemma handlers_covered h frame v code : device_irq h frame = None ↔ ∃ p, exception (D := D) e h frame v code = Some p.
Proof. destruct h; cbn; split; try done; try (by intros _; eexists); by intros [p [=]]. Qed.

(** ** When a handler gets stuck *)

Definition to_serial (c : LogConfig) : bool := match c.(target) with BootInfo.Serial | Both => true | BootInfo.Vga => false end.
Definition to_screen (c : LogConfig) : bool := match c.(target) with BootInfo.Vga | Both => true | BootInfo.Serial => false end.

(** A record of level [l] needs a lock that is held. *)
Definition waits (l : Level) (c : LogConfig) : bool :=
  e.(outer).(log_held) ||
  (negb (dropped_by c l) && (e.(pit_held) || (to_serial c && e.(com1_held)) || (to_screen c && e.(vga_held)))).

(** The record the keyboard handler writes for a status byte. *)
Definition keyboard_level (s : Z) : option Level :=
  if has s ST_TIMEOUT then Some Error
  else if has s ST_PARITY then Some Warn
  else if Z.land s ST_OUT_BUFFER_FULL =? 0 then Some Trace
  else if Z.land s ST_FROM_DEVICE =? 0 then Some Debug
  else None.

Definition stuck (h : Handler) (d : V) : bool :=
  let c := d.(trap).(lcfg) in
  match h with
  | on_irq_timer => e.(pit_held) || ((ticks_since_boot (tick d.(d_pit)) mod 1000 =? 0) && waits Debug c)
  | on_irq_keyboard => match keyboard_level (inb PORT_STATUS (ports d)).1 with Some l => waits l c | None => false end
  | on_irq_cascade | on_spurious => waits Trace c
  | on_irq_unexpected => waits Error c || masks_held
  | on_syscall_vector => waits Error c
  | _ => false
  end.

(** ** Each step *)

(** The state of Idt.v, but for the ports. *)
Definition agree (d : V) (m : Machine D) : Prop :=
  d.(trap).(ctrs) = m.(ctr) ∧ d.(d_pic) = m.(pic) ∧ d.(d_pit) = m.(pit) ∧ d.(d_ring) = m.(ring).

(** [p] spins if [b], and otherwise returns where [r] does. *)
Definition refines (b : bool) (p : IProg unit) (d : V) (r : Res (Machine D)) : Prop :=
  ∃ d', p d = (if b then Spin else On tt, d') ∧ (b = false → ∃ m', r = Ret m' ∧ agree d' m').

Lemma refines_step {A} (p : IProg A) k a d d1 b r :
  p d = (On a, d1) → refines b (k a) d1 r → refines b (p ≫= k) d r.
Proof. intros E (d' & H & Hr). exists d'. split; [|exact Hr]. unfold mbind, IProg_bind. by rewrite E. Qed.

Lemma refines_bind b1 b2 p (k : unit → IProg unit) d r f :
  refines b1 p d r → (∀ d1 m1, agree d1 m1 → refines b2 (k tt) d1 (f m1)) → refines (b1 || b2) (p ≫= k) d (r ≫= f).
Proof.
  intros (d1 & E & H1) Hk. unfold refines, mbind at 1, IProg_bind. rewrite E. destruct b1; cbn [orb].
  - exists d1. done.
  - destruct (H1 eq_refl) as (m1 & -> & Ha). exact (Hk d1 m1 Ha).
Qed.

Lemma refines_acquire b1 b2 k d r :
  (b1 = false → refines b2 (k tt) d r) → refines (b1 || b2) (acquire b1 ≫= k) d r.
Proof. intros Hk. destruct b1; [by exists d|]. eapply refines_step; [reflexivity|by apply Hk]. Qed.

Lemma refines_done d m : agree d m → refines false (mret tt) d (Ret m).
Proof. intros Ha. exists d. split; [done|]. by exists m. Qed.

Lemma klog_waits n subsys l line msg t :
  sink_ok 1 (view t) → ∃ t', klog (at_time n e) subsys l line msg t = (if waits l t.(lcfg) then Spin else On tt, t').
Proof.
  intros (Hv & Hb & He & Hf & Hs). cbn [view cfg] in He, Hf, Hs. unfold klog, waits, mbind, TProg_bind, lift, lock, get, modify.
  cbn [at_time outer pit_held com1_held vga_held]. destruct (log_held _); [by eexists|]. cbn [set_sys lcfg orb].
  destruct (dropped_by t.(lcfg) l); cbn [negb andb].
  { unfold count_filtered. rewrite add64_ok by lia. cbn [mbind Res_bind rust]. by eexists. }
  unfold count_emitted. rewrite add64_ok by lia. cbn [mbind Res_bind rust target]. destruct (pit_held e); [by eexists|]. cbn [orb].
  unfold to_serial, to_screen. destruct (target t.(lcfg)); cbn [andb orb].
  - destruct (com1_held e); by eexists.
  - destruct (vga_held e); [by eexists|]. cbn [orb]. unfold mret, TProg_ret. cbv iota beta.
    match goal with |- context [write_vga l subsys msg ?s] => destruct (write_vga_ok l subsys msg s) as (s' & E & _) end; [exact Hv|].
    rewrite E. by eexists.
  - destruct (com1_held e); [by eexists|]. destruct (vga_held e); [by eexists|]. cbn [orb].
    match goal with |- context [write_vga l subsys msg ?s] => destruct (write_vga_ok l subsys msg s) as (s' & E & _) end.
    + match goal with |- vga_inv (vga (view (set_sys _ ?x))) => change (vga_inv (vga (view x))) end.
      rewrite view_unview. apply write_serial_ok; [exact Hb|exact Hv].
    + rewrite E. by eexists.
Qed.

Lemma refines_record subsys l line msg d m :
  sink_ok 1 (view d.(trap)) → agree d m → refines (waits l d.(trap).(lcfg)) (record subsys l line msg) d (Ret m).
Proof.
  intros Hs (A1 & A2 & A3 & A4). unfold refines, record, on_trap.
  destruct (klog_waits (micros_since_boot d.(d_pit)) subsys l line msg d.(trap) Hs) as (t' & E). pose proof E as Ek. rewrite E.
  apply (keeps_klog (at_time (micros_since_boot d.(d_pit)) e)) in Ek. exists (set_trap t' d). split; [done|]. intros _.
  exists m. split; [done|]. split; [by rewrite <- A1|done].
Qed.

Lemma refines_acknowledge irq d m : 0 ≤ irq < 16 → agree d m → refines false (acknowledge irq) d (eoi irq m).
Proof.
  intros Hi (A1 & A2 & A3 & A4). unfold eoi, acknowledge. destruct (irq_vector irq Hi) as [-> _]. cbn [mbind Res_bind].
  eapply refines_step; [by destruct d|]. eexists. split; [reflexivity|]. intros _. eexists. split; [reflexivity|]. done.
Qed.

Lemma count_exact w c d : bump w d.(trap).(ctrs) = Ret c → on_trap (count w) d = (On tt, set_trap (set_ctrs c d.(trap)) d).
Proof. intros E. unfold on_trap, count, mbind, TProg_bind, get, rust, modify. by rewrite E. Qed.

Lemma attempt_exact {A} (m : V → Res A) a d : m d = Ret a → attempt m d = (On a, d).
Proof. intros E. unfold attempt, on_trap, rust. rewrite E. by destruct d. Qed.

(** The shadow of the masks does not depend on the ports. *)
Lemma mask_any irq p (h h' : Hw D) p1 h1 : mask irq p h = Ret (p1, h1) → ∃ h2, mask irq p h' = Ret (p1, h2).
Proof. unfold mask. intros (b & -> & H)%bind_Ret. cbn [mbind Res_bind] in *. apply Ret_inj in H. injection H as <- _. by eexists. Qed.

Lemma mask_returns irq p (h : Hw D) : 0 ≤ irq < 16 → ∃ r, mask irq p h = Ret r.
Proof.
  intros Hi. unfold mask, shl8. destruct (Z.ltb_spec irq 8).
  - destruct (Z.ltb_spec irq 8); [|lia]. by eexists.
  - destruct (Z.ltb_spec (irq - 8) 8); [|lia]. by eexists.
Qed.

Lemma refines_masks l d m :
  Forall (fun irq => 0 ≤ irq < 16) l → masks_held = false → agree d m → refines false (mask_lines l) d (for_list l m mask_m).
Proof.
  intros Hl Hm. revert d m. induction Hl as [|irq l Hi Hl IH]; intros d m Ha; [by apply refines_done|]. cbn [mask_lines for_list].
  apply (refines_bind false false); [|exact IH]. destruct Ha as (A1 & A2 & A3 & A4). unfold mask_line, mask_m. rewrite Hm.
  eapply refines_step; [reflexivity|]. destruct (mask_returns irq d.(d_pic) (ports d) Hi) as ([p1 h1] & E).
  eapply refines_step; [by apply attempt_exact|]. rewrite <- A2.
  destruct (mask_any _ _ _ m.(mhw) _ _ E) as (h2 & ->). eexists. split; [reflexivity|]. intros _. eexists. split; [reflexivity|]. done.
Qed.

Definition machine_of (d : V) : Machine D := mkMachine d.(trap).(ctrs) d.(d_pic) d.(d_pit) d.(d_ring) (ports d).

Lemma bump_room w c : room 1 c → ∃ c', bump w c = Ret c'.
Proof. intros (H1 & H2 & H3 & H4 & H5 & H6). destruct w; cbn [bump]; rewrite add64_ok by lia; by eexists. Qed.

Lemma timer_refines d :
  sink_ok 1 (view d.(trap)) → room 1 d.(trap).(ctrs) → refines (stuck on_irq_timer d) do_irq_timer d (run_irq_timer (machine_of d)).
Proof.
  intros Hs Hc. destruct (bump_room TimerTicks _ Hc) as (c & Ec). unfold do_irq_timer, run_irq_timer, bump_m. cbn [machine_of ctr stuck].
  rewrite Ec. cbn [mbind Res_bind]. eapply refines_step; [by apply count_exact|]. apply refines_acquire. intros Hp.
  eapply refines_step; [reflexivity|]. eapply refines_step; [reflexivity|]. cbn [set_trap d_pit].
  set (m1 := mkMachine _ _ _ _ _). change (eoi irq_TIMER m1) with (Ret m1 ≫= eoi irq_TIMER).
  replace (_ && _) with (((ticks_since_boot (tick d.(d_pit)) mod 1000 =? 0) && waits Debug d.(trap).(lcfg)) || false) by apply orb_false_r.
  apply refines_bind; [|intros d1 m2; by apply refines_acknowledge].
  destruct (_ =? 0); cbn [andb]; [|by apply refines_done].
  eapply refines_step; [unfold acquire; by rewrite Hp|]. eapply refines_step; [reflexivity|].
  apply (refines_record _ Debug _ _ (mkDevices (set_ctrs c d.(trap)) d.(d_pic) (tick d.(d_pit)) d.(d_ring))); done.
Qed.

Lemma on_ports_step {A} (f : Hw D → A * Hw D) d : on_ports f d = (On (f (ports d)).1, set_trap (with_ports (f (ports d)).2 d.(trap)) d).
Proof. unfold on_ports. by destruct (f (ports d)). Qed.

(** A step on the ports alone is invisible. *)
Lemma refines_ports {A} (f : Hw D → A * Hw D) d m : agree d m → refines false (on_ports f ;; mret tt) d (Ret m).
Proof. intros Ha. eapply refines_step; [apply on_ports_step|]. by apply refines_done. Qed.

Lemma keyboard_refines d :
  sink_ok 1 (view d.(trap)) → ring_inv d.(d_ring) →
  refines (match keyboard_level (inb PORT_STATUS (ports d)).1 with Some l => waits l d.(trap).(lcfg) | None => false end)
    keyboard_interrupt d ('(r, h) ← interrupt_handler d.(d_ring) (ports d); Ret (mkMachine d.(trap).(ctrs) d.(d_pic) d.(d_pit) r h)).
Proof.
  intros Hs Hr. unfold keyboard_interrupt, interrupt_handler, keyboard_level. eapply refines_step; [apply on_ports_step|].
  destruct (inb PORT_STATUS (ports d)) as [s h]. cbn [fst snd]. set (d1 := set_trap _ d).
  assert (sink_ok 1 (view d1.(trap))) as Hs1 by exact Hs.
  destruct (has s ST_TIMEOUT).
  { rewrite <- (orb_false_r (waits _ _)).
    apply (refines_bind _ _ _ _ _ (Ret (mkMachine d.(trap).(ctrs) d.(d_pic) d.(d_pit) d.(d_ring) h)) (fun m => Ret (mkMachine m.(ctr) m.(pic) m.(pit) m.(ring) _)));
      [by apply (refines_record _ Error _ _ d1)|].
    intros d2 m2 Ha. eexists. split; [rewrite on_ports_step; reflexivity|]. intros _. eexists. split; [reflexivity|exact Ha]. }
  destruct (has s ST_PARITY).
  { destruct (inb PORT_DATA h) as [v h2]. rewrite <- (orb_false_r (waits _ _)).
    apply (refines_bind _ _ _ _ _ (Ret (mkMachine d.(trap).(ctrs) d.(d_pic) d.(d_pit) d.(d_ring) h2)) Ret); [by apply (refines_record _ Warn _ _ d1)|].
    intros d2 m2 Ha. by apply refines_ports. }
  destruct (_ =? 0). { by apply (refines_record _ Trace _ _ d1). }
  eapply refines_step; [apply on_ports_step|]. change (ports d1) with h. destruct (inb PORT_DATA h) as [byte h2]. cbn [fst snd].
  set (d2 := set_trap _ d1). destruct (_ =? 0). { by apply (refines_record _ Debug _ _ d2). }
  destruct (ring_push_ok byte d.(d_ring) Hr) as (r & E & _). eapply refines_step; [by apply attempt_exact|].
  rewrite E. eexists. split; [reflexivity|]. intros _. eexists. split; [reflexivity|]. done.
Qed.

Lemma keyboard_irq_refines d :
  sink_ok 1 (view d.(trap)) → room 1 d.(trap).(ctrs) → ring_inv d.(d_ring) →
  refines (stuck on_irq_keyboard d) do_irq_keyboard d (run_irq_keyboard (machine_of d)).
Proof.
  intros Hs Hc Hr. destruct (bump_room KeyEvents _ Hc) as (c & Ec). unfold do_irq_keyboard, run_irq_keyboard, bump_m. cbn [machine_of ctr stuck].
  rewrite Ec. cbn [mbind Res_bind]. eapply refines_step; [by apply count_exact|]. cbn [Idt.set_ctr ctr pic pit ring mhw].
  pose proof (keyboard_refines (set_trap (set_ctrs c d.(trap)) d) Hs Hr) as Hk.
  match goal with |- refines ?b _ _ _ => rewrite <- (orb_false_r b) end.
  match goal with |- refines _ _ _ ?x => replace x with (('(r, h) ← interrupt_handler d.(d_ring) (ports d);
    Ret (mkMachine c d.(d_pic) d.(d_pit) r h)) ≫= eoi irq_KEYBOARD) by (by destruct (interrupt_handler _ _) as [[]|]) end.
  apply refines_bind; [exact Hk|]. intros d1 m1. by apply refines_acknowledge.
Qed.

Lemma masks_stuck irq l d : masks_held = true → mask_lines (irq :: l) d = (Spin, d).
Proof. intros E. cbn [mask_lines]. unfold mbind at 1, IProg_bind at 1, mask_line, mbind at 1, IProg_bind at 1, acquire at 1. by rewrite E. Qed.

Lemma refines_unexpected d m :
  agree d m → refines masks_held (mask_lines unexpected_irqs ;; acknowledge 8) d (m ← for_list unexpected_irqs m mask_m; eoi 8 m).
Proof.
  intros Ha. destruct (bool_decide_reflect (masks_held = true)) as [E|E%not_true_is_false].
  - exists d. split; [|congruence]. unfold mbind, IProg_bind. unfold unexpected_irqs at 1. by rewrite masks_stuck, E.
  - rewrite E. apply (refines_bind false false); [|intros d3 m3; by apply refines_acknowledge].
    apply refines_masks; [|done|done]. unfold unexpected_irqs. repeat constructor; lia.
Qed.

Lemma unexpected_refines frame d :
  sink_ok 1 (view d.(trap)) → room 1 d.(trap).(ctrs) →
  refines (stuck on_irq_unexpected d) (do_irq_unexpected frame) d (run_irq_unexpected (machine_of d)).
Proof.
  intros Hs Hc. destruct (bump_room Unassigned _ Hc) as (c & Ec). unfold do_irq_unexpected, run_irq_unexpected, bump_m. cbn [machine_of ctr stuck].
  rewrite Ec, Ret_bind. eapply refines_step; [by apply count_exact|]. cbn [Idt.set_ctr ctr pic pit ring mhw]. 
  apply (refines_bind _ _ _ _ _ (Ret (mkMachine c d.(d_pic) d.(d_pit) d.(d_ring) (ports d))) (fun m => m ← for_list unexpected_irqs m mask_m; eoi 8 m)).
  - by apply (refines_record _ Error _ _ (set_trap (set_ctrs c d.(trap)) d)).
  - intros d2 m2. apply refines_unexpected.
Qed.

Lemma counted_record_refines w subsys l line msg d :
  sink_ok 1 (view d.(trap)) → room 1 d.(trap).(ctrs) →
  refines (waits l d.(trap).(lcfg)) (on_trap (count w) ;; record subsys l line msg) d (bump_m w (machine_of d)).
Proof.
  intros Hs Hc. destruct (bump_room w _ Hc) as (c & Ec). unfold bump_m. cbn [machine_of ctr]. rewrite Ec. cbn [mbind Res_bind].
  eapply refines_step; [by apply count_exact|]. by apply (refines_record _ l _ _ (set_trap (set_ctrs c d.(trap)) d)).
Qed.

(** ** Acknowledgement *)

(** The line a handler acknowledges. *)
Definition line_of (h : Handler) : option Z :=
  match h with
  | on_irq_timer => Some irq_TIMER
  | on_irq_keyboard => Some irq_KEYBOARD
  | on_irq_cascade => Some irq_CASCADE
  | on_irq_unexpected => Some 8
  | _ => None
  end.

(** The last thing [p] does before it returns is to acknowledge [irq]. *)
Definition acks (irq : Z) (p : IProg unit) : Prop :=
  ∀ d d', p d = (On tt, d') → ∃ h, ports d' = end_of_interrupt (32 + irq) h.

Lemma acks_bind {A} irq (p : IProg A) k : (∀ a, acks irq (k a)) → acks irq (p ≫= k).
Proof. intros Hk d d'. unfold mbind, IProg_bind. destruct (p d) as [[a|msg| |] d1]; try done. apply Hk. Qed.

Lemma acks_acknowledge irq : 0 ≤ irq < 16 → acks irq (acknowledge irq).
Proof.
  intros Hi d d'. unfold acknowledge. destruct (irq_vector irq Hi) as [-> _]. unfold mbind, IProg_bind, attempt, on_trap, rust, on_ports.
  intros H. injection H as <-. by eexists.
Qed.

Lemma handlers_acknowledge h frame p irq : device_irq h frame = Some p → line_of h = Some irq → acks irq p.
Proof.
  intros Hp Hl. destruct h; try done; injection Hp as <-; injection Hl as <-.
  - unfold do_irq_timer. do 5 (apply acks_bind; intros _ || intros ?). by apply acks_acknowledge.
  - unfold do_irq_keyboard. do 2 (apply acks_bind; intros ?). by apply acks_acknowledge.
  - unfold do_irq_cascade. apply acks_bind. intros ?. by apply acks_acknowledge.
  - unfold do_irq_unexpected. do 3 (apply acks_bind; intros ?). by apply acks_acknowledge.
Qed.

(** C29: Device interrupts and locks.  Every handler of a device interrupt ends in one
    of two ways.  It spins for ever exactly if the interrupted code holds a lock it
    needs: the clock's for each timer tick; the log's, and for a record that is not
    filtered also the clock's, the UART's and the screen's as the record is routed,
    for the heartbeat of every thousandth tick, a keyboard timeout, parity error,
    empty buffer or controller answer, a cascade, unexpected, system-call or
    spurious interrupt; the masks' for an unexpected interrupt.  Otherwise it
    returns, with the counters, masks, tick count and scancode ring that the
    dispatcher of Idt.v computes, and acknowledging its line, if it has one, is the
    last thing it did. *)
Theorem irq_stuck_iff h frame p d :
  device_irq h frame = Some p → sink_ok 1 (view d.(trap)) → room 1 d.(trap).(ctrs) → ring_inv d.(d_ring) →
  ∃ d', p d = (if stuck h d then Spin else On tt, d') ∧
    (stuck h d = false →
       (∃ m', run_handler e.(debugger_attached) h (machine_of d) = Ret m' ∧ agree d' m') ∧
       ∀ irq, line_of h = Some irq → ∃ x, ports d' = end_of_interrupt (32 + irq) x).
Proof.
  intros Hp Hs Hc Hr. assert (refines (stuck h d) p d (run_handler e.(debugger_attached) h (machine_of d))) as (d' & E & H).
  2:{ exists d'. split; [exact E|]. intros Hn. split; [by apply H|]. intros irq Hl. rewrite Hn in E.
      exact (handlers_acknowledge h frame p irq Hp Hl d d' E). }
  destruct h; try done; injection Hp as <-; cbn [run_handler].
  - by apply timer_refines.
  - by apply keyboard_irq_refines.
  - unfold do_irq_cascade, run_irq_cascade. cbn [stuck]. rewrite <- (orb_false_r (waits _ _)).
    apply (refines_bind _ _ _ _ _ (Ret (machine_of d)) (eoi irq_CASCADE)); [by apply refines_record|].
    intros d1 m1. by apply refines_acknowledge.
  - by apply unexpected_refines.
  - unfold do_syscall_vector. exact (counted_record_refines Syscalls _ Error _ _ d Hs Hc).
  - unfold do_spurious. exact (counted_record_refines Spurious _ Trace _ _ d Hs Hc).
Qed.

End Irqs.

(** With no lock held no handler gets stuck. *)
Lemma free_never_stuck {D : Type} `{B : Bus D} e h (d : Devices D) :
  e.(outer).(log_held) = false → e.(pit_held) = false → e.(com1_held) = false → e.(vga_held) = false → stuck e false h d = false.
Proof.
  intros H1 H2 H3 H4. assert (∀ l c, waits e l c = false) as Hw by (intros l c; unfold waits; by rewrite H1, H2, H3, H4, !andb_false_r).
  destruct h; try done; unfold stuck; rewrite ?Hw, ?H2, ?andb_false_r; try done. by destruct (keyboard_level _).
Qed.

(** A tick that arrives while the interrupted code reads the clock, as every log
    record does, hangs the kernel. *)
Lemma tick_during_clock_read {D : Type} `{B : Bus D} e mh (d : Devices D) :
  e.(pit_held) = true → stuck e mh on_irq_timer d = true.
Proof. intros H. unfold stuck. by rewrite H. Qed.

(** ** Witness *)

Definition demo_devices : Devices unit := mkDevices demo_trap Pic_initial Pit_initial Ring_new.

(** The controller reports a timeout: while a record is on its way to the UART the
    handler spins, otherwise it returns. *)
Lemma irq_stuck_iff_witness :
  (∃ d', do_irq_keyboard (demo_env true) demo_devices = (Spin, d')) ∧
  (∃ d' m', do_irq_keyboard (demo_env false) demo_devices = (On tt, d') ∧
     run_irq_keyboard (machine_of demo_devices) = Ret m' ∧ agree d' m').
Proof.
  assert (sink_ok 1 (view demo_trap)) as Hs.
  { split; [split; [reflexivity|cbn; lia]|]. split; [reflexivity|]. cbn. rewrite U64_val. lia. }
  assert (room 1 Counters_initial) as Hc by (unfold room; cbn; rewrite U64_val; lia).
  split.
  - destruct (irq_stuck_iff (demo_env true) false on_irq_keyboard demo_frame _ demo_devices eq_refl Hs Hc (proj1 Ring_new_inv)) as (d' & E & _).
    exists d'. exact E.
  - destruct (irq_stuck_iff (demo_env false) false on_irq_keyboard demo_frame _ demo_devices eq_refl Hs Hc (proj1 Ring_new_inv))
      as (d' & E & H). destruct (H eq_refl) as [(m' & Em & Ha) _]. exists d', m'. split; [exact E|]. split; [exact Em|exact Ha].
Defined.
