(* ===== verification/BootMemory.v ===== *)
(** * Boot memory (kernel/src/kmain.rs, steps 8 to 11)

    Which memory the kernel reserves before the first allocation, and the whole
    memory bring-up: frame allocator, reservations, page tables, hardening of the
    boot map and heap.  The main theorem composes the reservations with the
    allocator's ownership invariant. *)

From stdpp Require Import base gmap sets list list_numbers strings numbers.
From Stdlib Require Import ZArith Lia.
From S2P Require Import Prelude Arch BootInfo Bitmap Pmm PmmSpec Multiboot Params Vmm PageTables VmmSpec AddressSpace Heap.
#[local] Open Scope Z_scope.

(** The command line as a string, empty when there is none. *)
Definition cmdline_str (boot : BootInfo) : bytes := from_option as_str [] boot.(cmdline).

Definition mem_limit_from (boot : BootInfo) : option Z := (parse_params (cmdline_str boot)).(mem_limit_mib).

Section BootMemory.
Context `{X : X86Crate}.
Context (debug : bool).

(** ** [reserve_boot_memory] *)

(** The GRUB information structure. *)
Definition reserve_info (boot : BootInfo) (s : Pmm) : Res Pmm :=
  if negb (boot.(phys_addr) =? 0) then
    end_ ← add64 boot.(phys_addr) boot.(total_size);
    reserve_range s boot.(phys_addr) end_
  else Ret s.

Definition reserve_framebuffer (boot : BootInfo) (s : Pmm) : Res Pmm :=
  match boot.(framebuffer) with
  | Some fb =>
      if negb (fb.(fb_type) =? fbtype_EGA_TEXT) && (0 <? fb.(fb_size)) then
        end_ ← add64 fb.(fb_address) fb.(fb_size);
        reserve_range s fb.(fb_address) end_
      else Ret s
  | None => Ret s
  end.

Definition reserve_rsdp (boot : BootInfo) (s : Pmm) : Res Pmm :=
  match boot.(acpi_rsdp) with
  | Some rsdp =>
      end_ ← add64 (Z.land rsdp (bnot 64 0xFFF)) 4096;
      reserve_range s (Z.land rsdp (bnot 64 0xFFF)) end_
  | None => Ret s
  end.

Definition reserve_memlimit (boot : BootInfo) (s : Pmm) : Res Pmm :=
  match mem_limit_from boot with
  | Some limit_mib =>
      l ← mul64 limit_mib 1024;
      limit ← mul64 l 1024;
      reserve_range s limit BOOT_MAPPED_BYTES
  | None => Ret s
  end.

Definition reserve_boot_memory (m : phys) (bp : Z) (boot : BootInfo) (s : Pmm) : Res Pmm :=
  s ← reserve_range s 0x0 0x1000;
  s ← reserve_range s 0x9FC00 0xA0000;
  s ← reserve_range s 0xA0000 0xC0000;
  s ← reserve_range s 0xC0000 0x100000;
  ks ← kernel_phys_start m bp;
  ke ← kernel_phys_end m bp;
  s ← reserve_range s ks ke;
  _ ← sub64 ke ks;
  '(bs, be) ← boot_bss_phys_range m bp;
  _ ← rassert ((ks <=? bs) && (be <=? ke)) "boot .bss is not inside the kernel image";
  s ← reserve_info boot s;
  s ← reserve_framebuffer boot s;
  s ← reserve_rsdp boot s;
  reserve_memlimit boot s.

(** ** What is reserved *)

(** The physical byte ranges no allocation may touch. *)
Definition boot_ranges (p : Arch.BootParams) (boot : BootInfo) : list (Z * Z) :=
  [(0x0, 0x1000); (0x9FC00, 0xA0000); (0xA0000, 0xC0000); (0xC0000, 0x100000);
   (p.(kernel_phys_start_), p.(kernel_phys_end_))] ++
  (if boot.(phys_addr) =? 0 then [] else [(boot.(phys_addr), boot.(phys_addr) + boot.(total_size))]) ++
  match boot.(framebuffer) with
  | Some fb => if negb (fb.(fb_type) =? fbtype_EGA_TEXT) && (0 <? fb.(fb_size))
               then [(fb.(fb_address), fb.(fb_address) + fb.(fb_size))] else []
  | None => []
  end ++
  match boot.(acpi_rsdp) with
  | Some rsdp => [(Z.land rsdp (bnot 64 0xFFF), Z.land rsdp (bnot 64 0xFFF) + 4096)]
  | None => []
  end ++
  match mem_limit_from boot with
  | Some l => [(l * 1024 * 1024, BOOT_MAPPED_BYTES)]
  | None => []
  end.

(** A range the allocator can round outward. *)
Definition span_ok (r : Z * Z) : Prop := 0 ≤ r.1 ∧ r.2 + FRAME_SIZE < U64.

Definition reserve_all (l : list (Z * Z)) (s : Pmm) : Res Pmm :=
  for_list l s (fun r s => reserve_range s r.1 r.2).

Definition range_frames (l : list (Z * Z)) : gset Z := ⋃ ((fun r => outer_frames r.1 r.2) <$> l).

Lemma elem_of_range_frames i l :
  i ∈ range_frames l ↔ ∃ lo hi a, (lo, hi) ∈ l ∧ lo ≤ a < hi ∧ a / FRAME_SIZE = i.
Proof.
  unfold range_frames. rewrite elem_of_union_list. split.
  - intros (Y & (r & -> & Hr)%list_elem_of_fmap & Hi). apply elem_of_outer_frames in Hi as (a & Ha & <-).
    destruct r as [lo hi]. by exists lo, hi, a.
  - intros (lo & hi & a & Hr & Ha & <-). exists (outer_frames lo hi). split.
    + apply list_elem_of_fmap. by exists (lo, hi).
    + apply elem_of_outer_frames. by exists a.
Qed.

(** The block of boot parameters as [boot.asm] leaves it. *)
Record block_ok (m : phys) (bp : Z) (p : Arch.BootParams) : Prop := {
  bo_read : boot_params m bp = Ret p;
  bo_image : p.(kernel_phys_start_) ≤ p.(kernel_phys_end_);
  bo_bss : p.(kernel_phys_start_) ≤ p.(boot_bss_phys_start_) ∧ p.(boot_bss_phys_end_) ≤ p.(kernel_phys_end_);
}.

(** No sum of the loader's numbers leaves 64 bits. *)
Definition sums_ok (p : Arch.BootParams) (boot : BootInfo) : Prop :=
  Forall span_ok (boot_ranges p boot) ∧ (∀ l, mem_limit_from boot = Some l → 0 ≤ l ∧ l * 1024 * 1024 < U64).

(** ** [reserve_boot_memory] reserves exactly the ranges *)

Lemma reserve_one lo hi s : reserve_all [(lo, hi)] s = reserve_range s lo hi.
Proof. apply Res_ret_r. Qed.

Lemma reserve_info_eq p boot s :
  sums_ok p boot →
  reserve_info boot s =
    reserve_all (if boot.(phys_addr) =? 0 then [] else [(boot.(phys_addr), boot.(phys_addr) + boot.(total_size))]) s.
Proof.
  intros [Hr _]. unfold reserve_info. unfold boot_ranges in Hr. rewrite !Forall_app in Hr. destruct Hr as (_ & Hr & _).
  destruct (_ =? 0); cbn [negb]; [done|]. apply Forall_singleton in Hr as [_ Hr]. cbn [fst snd] in Hr.
  rewrite reserve_one, add64_ok by (unfold FRAME_SIZE in *; lia). done.
Qed.

Lemma reserve_framebuffer_eq p boot s :
  sums_ok p boot →
  reserve_framebuffer boot s =
    reserve_all match boot.(framebuffer) with
                | Some fb => if negb (fb.(fb_type) =? fbtype_EGA_TEXT) && (0 <? fb.(fb_size))
                             then [(fb.(fb_address), fb.(fb_address) + fb.(fb_size))] else []
                | None => []
                end s.
Proof.
  intros [Hr _]. unfold reserve_framebuffer. unfold boot_ranges in Hr. rewrite !Forall_app in Hr. destruct Hr as (_ & _ & Hr & _).
  destruct (framebuffer boot) as [fb|]; [|done]. destruct (_ && _); [|done]. apply Forall_singleton in Hr as [_ Hr]. cbn [fst snd] in Hr.
  rewrite reserve_one, add64_ok by (unfold FRAME_SIZE in *; lia). done.
Qed.

Lemma reserve_rsdp_eq p boot s :
  sums_ok p boot →
  reserve_rsdp boot s =
    reserve_all match boot.(acpi_rsdp) with
                | Some rsdp => [(Z.land rsdp (bnot 64 0xFFF), Z.land rsdp (bnot 64 0xFFF) + 4096)]
                | None => []
                end s.
Proof.
  intros [Hr _]. unfold reserve_rsdp. unfold boot_ranges in Hr. rewrite !Forall_app in Hr. destruct Hr as (_ & _ & _ & Hr & _).
  destruct (acpi_rsdp boot) as [r|]; [|done]. apply Forall_singleton in Hr as [_ Hr]. cbn [fst snd] in Hr.
  rewrite reserve_one, add64_ok by (unfold FRAME_SIZE in *; lia). done.
Qed.

Lemma reserve_memlimit_eq p boot s :
  sums_ok p boot →
  reserve_memlimit boot s =
    reserve_all match mem_limit_from boot with Some l => [(l * 1024 * 1024, BOOT_MAPPED_BYTES)] | None => [] end s.
Proof.
  intros [_ Hl]. unfold reserve_memlimit. destruct (mem_limit_from boot) as [l|]; [|done].
  destruct (Hl l eq_refl) as [H0 H1]. rewrite reserve_one, mul64_ok by lia. cbn [mbind Res_bind]. by rewrite mul64_ok.
Qed.

Lemma reserve_boot_memory_eq m bp p boot s :
  block_ok m bp p → sums_ok p boot → reserve_boot_memory m bp boot s = reserve_all (boot_ranges p boot) s.
Proof.
  intros [Hb Hi [Hs1 Hs2]] Hok. unfold reserve_boot_memory, boot_ranges, reserve_all.
  rewrite for_list_app. cbn [for_list]. unfold kernel_phys_start, kernel_phys_end, boot_bss_phys_range. rewrite Hb.
  cbn [fst snd fmap Res_fmap mbind Res_bind].
  do 5 (match goal with |- context [reserve_range ?t ?a ?b] => destruct (reserve_range t a b) as [?|?] end;
        cbn [mbind Res_bind]; [|done]).
  rewrite sub64_ok by lia. cbn [mbind Res_bind]. rewrite !(proj2 (Z.leb_le _ _)) by done. cbn [andb rassert mbind Res_bind].
  rewrite !for_list_app, (reserve_info_eq p boot) by done. fold (reserve_all).
  do 3 (match goal with |- mbind _ (reserve_all ?l ?t) = mbind _ (for_list ?l ?t _) =>
          change (for_list l t (fun r s => reserve_range s r.1 r.2)) with (reserve_all l t);
          destruct (reserve_all l t) as [?|?]; cbn [mbind Res_bind]; [|done] end;
        rewrite ?for_list_app, ?(reserve_framebuffer_eq p), ?(reserve_rsdp_eq p), ?(reserve_memlimit_eq p) by done).
  done.
Qed.

(** *** As allocator steps *)

Lemma reserve_all_trace avail l s m w :
  Trace.ok avail (Trace.mkSys s m ∅ w) → Forall span_ok l →
  ∃ s' w', reserve_all l s = Ret s' ∧ frames s'.(PMM) = frames s.(PMM) ∖ range_frames l ∧ w' = w ∪ range_frames l ∧
    same_rest s.(PMM) s'.(PMM) ∧
    s'.(PMM).(reserved_frames) + s'.(PMM).(free_frames) = s.(PMM).(reserved_frames) + s.(PMM).(free_frames) ∧
    rtc (Trace.step debug) (Trace.mkSys s m ∅ w) (Trace.mkSys s' m ∅ w').
Proof.
  intros Hok Hl. revert s w Hok. induction Hl as [|[lo hi] l [H0 H1] Hl IH]; intros s w Hok.
  { exists s, w. unfold range_frames. cbn. split_and!; [done|set_solver|set_solver|done|done|done]. }
  pose proof Hok as [Hp _ _ Hr Ht _ _ _]. cbn [Trace.pmm Trace.owned fst snd] in *. rewrite size_empty in Ht.
  pose proof (inv_count _ Hp) as Hc.
  destruct (reserve_range_ok s.(PMM) lo hi) as (p' & E & Hp' & Hf & Hsame & Hsum);
    [done|done|done|done|rewrite MAX_FRAMES_val in *; rewrite U64_val; lia|].
  set (s1 := {| PMM := p'; CURSOR := s.(CURSOR) |}).
  assert (reserve_range s lo hi = Ret s1) as E1 by (unfold reserve_range; by rewrite E).
  assert (Trace.step debug (Trace.mkSys s m ∅ w) (Trace.mkSys s1 m ∅ (w ∪ outer_frames lo hi ∖ ∅))) as Hst by by constructor.
  destruct (IH s1 _ (Trace.step_preserves debug avail _ _ Hok Hst)) as (s' & w' & E' & Hf' & -> & Hsame' & Hsum' & Hst').
  eexists s', _. split; [unfold reserve_all; cbn [for_list fst snd]; rewrite E1; exact E'|].
  split; [rewrite Hf'; unfold s1, range_frames; cbn; rewrite Hf; set_solver|].
  split; [reflexivity|]. split; [by etrans|]. split; [cbn in *; lia|].
  eapply rtc_l; [exact Hst|]. replace (w ∪ range_frames ((lo, hi) :: l)) with (w ∪ outer_frames lo hi ∖ ∅ ∪ range_frames l); [exact Hst'|].
  unfold range_frames. cbn. set_solver.
Qed.

Lemma withheld_grows x y : rtc (Trace.step debug) x y → x.(Trace.withheld) ⊆ y.(Trace.withheld).
Proof. induction 1 as [|x y z Hst _ IH]; [done|]. etrans; [|exact IH]. destruct Hst; cbn; set_solver. Qed.

(** ** Theorems *)

(** C6: Boot memory is never handed out.  After [pmm::init] and
    [reserve_boot_memory], whatever sequence of allocations, frees and
    reservations follows, no allocation returns a frame that meets the real-mode
    vectors, the BIOS and VGA windows, the kernel image, GRUB's information
    structure, a graphics framebuffer, the ACPI root pointer's page, or memory
    above [orin.memlimit]; nor is such a frame ever free. *)
Theorem boot_memory_withheld m bp p boot s :
  Forall mmap_wf (HVec.as_slice boot.(mmap)) → total_len (HVec.as_slice boot.(mmap)) < U64 →
  block_ok m bp p → sums_ok p boot → Pmm.init Pmm_new boot = Ret s →
  ∃ s', reserve_boot_memory m bp boot s = Ret s' ∧
    frames s'.(PMM) = frames s.(PMM) ∖ range_frames (boot_ranges p boot) ∧
    (∀ x, rtc (Trace.step debug) (Trace.mkSys s' m ∅ (range_frames (boot_ranges p boot))) x →
       frames x.(Trace.pmm).(PMM) ## range_frames (boot_ranges p boot) ∧
       ∀ count align pa s'', 1 ≤ count < 2 ^ 62 → 0 ≤ align < 2 ^ 62 →
         allocate_contiguous x.(Trace.pmm) count align = Ret (Some pa, s'') →
         ∀ i lo hi a, 0 ≤ i < count → (lo, hi) ∈ boot_ranges p boot → lo ≤ a < hi → a / FRAME_SIZE ≠ pa / FRAME_SIZE + i).
Proof.
  intros Hwf Hlen Hb Hsum Hs. pose proof (Trace.init_sys_ok boot s m Hwf Hlen Hs) as H0.
  destruct (reserve_all_trace _ (boot_ranges p boot) s m ∅ H0 (proj1 Hsum)) as (s' & w' & E & Hf & -> & _ & _ & Hst).
  exists s'. split; [by rewrite (reserve_boot_memory_eq m bp p)|]. split; [exact Hf|].
  rewrite union_empty_l_L in Hst. intros x Hx.
  pose proof (Trace.reachable_ok debug _ _ _ H0 (transitivity Hst Hx)) as [Hp Hi Hc _ _ Ho Hw _].
  pose proof (withheld_grows _ _ Hx) as Hsub. cbn [Trace.withheld] in Hsub.
  split; [intros i Hfi Hri; apply (Hw i); [by apply Hsub|by apply elem_of_union_r]|].
  intros count align pa s'' Hn Ha He i lo hi a Hi0 Hin Hab Heq.
  destruct (Trace.alloc_inv x.(Trace.pmm) count align (Some pa) s'') as (_ & _ & Hrun & _); [done..|].
  assert (a / FRAME_SIZE ∈ range_frames (boot_ranges p boot)) as H1 by (apply elem_of_range_frames; by exists lo, hi, a).
  assert (a / FRAME_SIZE ∈ run (pa / FRAME_SIZE) count) as H2 by (rewrite Heq; apply elem_of_zrange; lia).
  apply (Hw (a / FRAME_SIZE)); [by apply Hsub|]. apply elem_of_union_r. by apply Hrun.
Qed.

(** ** Bring-up *)

Definition set_src (v : Vmm Pmm) (s : Pmm) : Vmm Pmm :=
  mkVmm v.(NX_AVAILABLE) v.(PT_POOL) v.(KERNEL_PML4) v.(CR3) v.(mem) s.

(** [.map(|e| e.length).sum()] *)
Definition sum_lengths (l : list MmapEntry) : Res Z := for_list l 0 (fun e n => add64 n e.(length_)).

(** [report_memory]: the numbers it computes for the log. *)
Definition report_memory (boot : BootInfo) (s : Pmm) : Res (Z * Z) :=
  let st := Pmm.stats s in
  usable ← mul64 st.(s_free_frames) 4096;
  total_ram ← sum_lengths (HVec.as_slice boot.(mmap));
  _ ← mul64 st.(s_reserved_frames) 4;
  _ ← mul64 st.(s_bad_frames) 4;
  Ret (usable / (1024 * 1024), total_ram / (1024 * 1024)).

(** Steps 8 to 11 of [kernel_main]; [nx] is [params.nx]. *)
Definition bring_up (k : LinkerSyms) (bp : Z) (boot : BootInfo) (nx : bool) (v : Vmm Pmm) :
    Res (VmmInfo * Vmm Pmm * Heap) :=
  s ← Pmm.init v.(src) boot;
  s ← reserve_boot_memory v.(mem) bp boot s;
  _ ← report_memory boot s;
  '(info, v) ← Vmm.init debug k bp (set_src v s);
  _ ← count_wx_violations debug v;
  v ← (if nx then '(v, _) ← harden_boot_map debug v; Ret v else Ret v);
  '(_, h) ← Heap.init Heap_new;
  Ret (info, v, h).

(** The kernel image in physical memory. *)
Definition in_image (p : Arch.BootParams) (a : Z) : Prop := p.(kernel_phys_start_) ≤ a < p.(kernel_phys_end_).

(** What boot.asm, the linker script and the loader promise. *)
Record machine_ok (k : LinkerSyms) (bp : Z) (p : Arch.BootParams) (boot : BootInfo) (v : Vmm Pmm) : Prop := {
  mo_src : v.(src) = Pmm_new;
  mo_pool : v.(PT_POOL) = PtPool_new;
  mo_mmap : Forall mmap_wf (HVec.as_slice boot.(mmap)) ∧ total_len (HVec.as_slice boot.(mmap)) < U64;
  mo_block : block_ok v.(mem) bp p;
  mo_sums : sums_ok p boot;
  mo_bp : bp ≠ 0 ∧ bp mod 8 = 0 ∧ 0 ≤ bp < BOOT_MAPPED_BYTES;
  mo_bp_image o : 0 ≤ o ≤ 0x28 → in_image p (bp + o) ∧
    ∀ i, 0 ≤ i < 512 → is_present (ident_pde v.(mem) v.(CR3) i) = true → page (bp + o) ≠ page (ident_pd v.(mem) v.(CR3) i);
  mo_heap : 0 ≤ p.(heap_phys_start_) ≤ p.(heap_phys_end_) ∧ p.(heap_phys_end_) ≤ BOOT_MAPPED_BYTES ∧
    p.(heap_phys_end_) - p.(heap_phys_start_) = HEAP_SIZE;
  mo_heap_aligned : p.(heap_phys_start_) mod 4096 = 0 ∧ p.(heap_phys_end_) mod 4096 = 0;
  mo_tables : boot_map v.(mem) v.(CR3);
  mo_tables_image : in_image p v.(CR3) ∧ in_image p (ident_pdpt v.(mem) v.(CR3)) ∧
    ∀ i, 0 ≤ i < 512 → is_present (ident_pde v.(mem) v.(CR3) i) = true → in_image p (ident_pd v.(mem) v.(CR3) i);
  mo_sections : sections_ok k;
  mo_frames : frames_needed k p.(heap_phys_start_) p.(heap_phys_end_) ≤
    Z.of_nat (size (all_avail (HVec.as_slice boot.(mmap)) ∖ range_frames (boot_ranges p boot)));
}.

Lemma sum_lengths_ok l n :
  Forall mmap_wf l → 0 ≤ n → n + total_len l < U64 → for_list l n (fun e n => add64 n e.(length_)) = Ret (n + total_len l).
Proof.
  intros Hl. revert n. induction Hl as [|e l (_ & He & _) Hl IH]; intros n Hn Hs; cbn in *; [by rewrite Z.add_0_r|].
  pose proof (total_len_nonneg l Hl). rewrite add64_ok by (unfold total_len in *; lia). cbn [mbind Res_bind].
  rewrite IH by (unfold total_len in *; lia). f_equal. unfold total_len. lia.
Qed.

(** A frame of the kernel image is among the reserved ones. *)
Lemma image_withheld p boot a : in_image p a → a / 4096 ∈ range_frames (boot_ranges p boot).
Proof.
  intros Ha. apply elem_of_range_frames. exists p.(kernel_phys_start_), p.(kernel_phys_end_), a. split; [|done].
  unfold boot_ranges. apply elem_of_app. left. do 4 right. left.
Qed.

Lemma zero_withheld p boot : 0 ∈ range_frames (boot_ranges p boot).
Proof.
  apply elem_of_range_frames. exists 0, 0x1000, 0. split; [|done]. unfold boot_ranges. apply elem_of_app. left. left.
Qed.

(** The allocator after the reservations. *)
Lemma pmm_ready k bp p boot v :
  machine_ok k bp p boot v →
  ∃ s s' r, Pmm.init v.(src) boot = Ret s ∧ reserve_boot_memory v.(mem) bp boot s = Ret s' ∧ report_memory boot s' = Ret r ∧
    frames s'.(PMM) = all_avail (HVec.as_slice boot.(mmap)) ∖ range_frames (boot_ranges p boot) ∧
    Trace.ok (all_avail (HVec.as_slice boot.(mmap))) (Trace.mkSys s' v.(mem) ∅ (range_frames (boot_ranges p boot))).
Proof.
  intros [Hsrc _ [Hwf Hlen] Hb Hsum _ _ _ _ _ _ _ _]. rewrite Hsrc.
  destruct (init_new_ok boot Hwf Hlen) as (s & Hs & _ & _ & _ & _ & Hr0 & Hf).
  pose proof (Trace.init_sys_ok boot s v.(mem) Hwf Hlen Hs) as H0.
  destruct (reserve_all_trace _ (boot_ranges p boot) s v.(mem) ∅ H0 (proj1 Hsum)) as (s' & w' & E & Hf' & -> & Hsame & _ & Hst).
  pose proof (Trace.reachable_ok debug _ _ _ H0 Hst) as Hok. rewrite union_empty_l_L in Hok. exists s, s'.
  destruct (init_bad_bound boot s Hwf Hlen Hs) as [Hbd0 Hbd].
  pose proof (inv_count _ (Trace.ok_inv _ _ Hok)) as Hc. pose proof (Trace.ok_total _ _ Hok) as Ht.
  pose proof (Trace.ok_resv _ _ Hok) as Hrv. destruct Hsame as (_ & Hbs & _ & _).
  cbn [Trace.pmm Trace.owned] in *. rewrite size_empty, MAX_FRAMES_val in Ht. unfold FRAME_SIZE in Hbd. rewrite U64_val in Hbd.
  eexists. split; [done|]. split; [by rewrite (reserve_boot_memory_eq _ bp p)|]. split; [|split; [by rewrite Hf', Hf|done]].
  unfold report_memory, Pmm.stats, sum_lengths. cbn [s_free_frames s_reserved_frames s_bad_frames].
  rewrite mul64_ok by (rewrite U64_val; lia). cbn [mbind Res_bind].
  rewrite sum_lengths_ok by (done || lia). cbn [mbind Res_bind].
  rewrite mul64_ok by (rewrite U64_val; lia). cbn [mbind Res_bind].
  rewrite mul64_ok by (rewrite U64_val; lia). cbn [mbind Res_bind]. reflexivity.
Qed.

(** The page-table code's preconditions follow from the reservations. *)
Lemma vmm_ready k bp p boot v s avail :
  machine_ok k bp p boot v →
  frames s.(PMM) = all_avail (HVec.as_slice boot.(mmap)) ∖ range_frames (boot_ranges p boot) →
  Trace.ok avail (Trace.mkSys s v.(mem) ∅ (range_frames (boot_ranges p boot))) →
  init_env k bp p.(heap_phys_start_) p.(heap_phys_end_) (set_src v s) ∧
  boot_map (set_src v s).(mem) (set_src v s).(CR3) ∧ boot_kept (set_src v s).
Proof.
  intros [_ Hpool _ Hb _ Hbp Hi1 Hh Hha Htab (Hc1 & Hc2 & Hc3) Hsec Hfr] Hf Hok.
  assert (∀ a, in_image p a → a / 4096 ∉ fs_free s) as Hout.
  { intros a Ha Hin. cbn [fs_free pmm_frame_source] in Hin. unfold pmm_free in Hin. rewrite Hf in Hin.
    apply elem_of_difference in Hin as [_ Hn]. by apply Hn, image_withheld. }
  pose proof (bm_root _ _ Htab) as Hroot.
  split; [split|split; [done|]]; cbn [set_src src PT_POOL CR3 mem].
  - split; [apply Hok|]. split; apply Hok.
  - cbn [fs_free pmm_frame_source]. unfold pmm_free. rewrite Hf. intros [_ Hn]%elem_of_difference. by apply Hn, zero_withheld.
  - rewrite Hpool. split; [apply length_replicate|done].
  - rewrite Hpool. cbn [PtPool_new allocated fs_free pmm_frame_source]. unfold pmm_free.
    pose proof (frames_size_bound _ (Trace.ok_inv _ _ Hok)) as Hsz. cbn [Trace.pmm] in Hsz. rewrite MAX_FRAMES_val in Hsz.
    rewrite U64_val. lia.
  - done.
  - by apply Hout.
  - done.
  - destruct Hb as [Hread _ _]. unfold boot_params in Hread. repeat (apply bind_Ret in Hread as (? & _ & Hread)).
    apply Ret_inj in Hread. rewrite <- Hread in *. cbn [heap_phys_start_ heap_phys_end_] in *.
    split; cbn [set_src mem src]; [done|done|done|by split; apply Hout, Hi1| |done].
    unfold HUGE_PAGE_SIZE, HEAP_SIZE in *. lia.
  - cbn [fs_free pmm_frame_source]. unfold pmm_free. by rewrite Hf.
  - split; cbn [set_src mem CR3 src]; [by apply Hout|]. intros i Hi Hp. apply Hout. by apply Hc3.
Qed.

(** The machine after bring-up. *)
Record booted (k : LinkerSyms) (bp : Z) (p : Arch.BootParams) (boot : BootInfo) (v : Vmm Pmm) (nx : bool) (v' : Vmm Pmm) (h : Heap) :
    Prop := {
  bt_nx : v'.(NX_AVAILABLE) = v.(NX_AVAILABLE);
  bt_high a : U64 - 2 ^ 47 ≤ a < U64 →
    translate debug v' a = Ret (layout v.(NX_AVAILABLE) (kernel_regions k p.(heap_phys_start_) p.(heap_phys_end_)) a);
  bt_map : boot_map v'.(mem) v'.(KERNEL_PML4);
  bt_ident i j : 0 ≤ i < 512 → 0 ≤ j < 512 → is_present (ident_pde v.(mem) v.(CR3) i) = true →
    let e := ld64 v.(mem) (ident_pd v.(mem) v.(CR3) i + 8 * j) in is_present e = true →
    is_present (ident_pde v'.(mem) v'.(KERNEL_PML4) i) = true ∧
    ld64 v'.(mem) (ident_pd v'.(mem) v'.(KERNEL_PML4) i + 8 * j) = if nx then hardened v.(NX_AVAILABLE) e else e;
  bt_wx : ∃ c, count_wx_violations debug v' = Ret c ∧ 0 ≤ c ∧
    (c = 0 ↔ no_wx v'.(NX_AVAILABLE) v'.(mem) v'.(KERNEL_PML4) 4);
  bt_clean : nx = true → no_wx v'.(NX_AVAILABLE) v'.(mem) v'.(KERNEL_PML4) 4;
  bt_user : nx = true → ∀ i j, 0 ≤ i < 512 → 0 ≤ j < 512 → is_present (ident_pde v'.(mem) v'.(KERNEL_PML4) i) = true →
    is_present (ld64 v'.(mem) (ident_pd v'.(mem) v'.(KERNEL_PML4) i + 8 * j)) = true →
    Z.testbit (ld64 v'.(mem) (ident_pd v'.(mem) v'.(KERNEL_PML4) i + 8 * j)) 2 = false;
  bt_inv : ∃ path, vmm_inv v' path;
  bt_block : boot_params v'.(mem) bp = Ret p;
  bt_src : fs_inv v'.(src);
  bt_free : frames v'.(src).(PMM) ⊆ all_avail (HVec.as_slice boot.(mmap)) ∖ range_frames (boot_ranges p boot);
  bt_count : Z.of_nat (size (all_avail (HVec.as_slice boot.(mmap)) ∖ range_frames (boot_ranges p boot))) ≤
    Z.of_nat (size (frames v'.(src).(PMM))) + frames_needed k p.(heap_phys_start_) p.(heap_phys_end_);
  bt_heap : h = mkHeap (Some (HEAP_VIRT_START, HEAP_SIZE)) (mkHeapStats HEAP_VIRT_START HEAP_SIZE true);
}.

Lemma count_ok v path :
  vmm_inv v path → boot_map v.(mem) v.(KERNEL_PML4) →
  ∃ c, count_wx_violations debug v = Ret c ∧ 0 ≤ c ∧ (c = 0 ↔ no_wx v.(NX_AVAILABLE) v.(mem) v.(KERNEL_PML4) 4).
Proof.
  intros Hi Hb. destruct (count_wx_ok debug v (boot_tables_ok v path Hi Hb)) as (c & E & Hc & Hiff).
  exists c. split; [done|]. split; [lia|done].
Qed.

(** The parameter block survives. *)
Lemma block_kept bp p boot v s m' :
  (∃ k, machine_ok k bp p boot v) →
  frames s.(PMM) = all_avail (HVec.as_slice boot.(mmap)) ∖ range_frames (boot_ranges p boot) →
  (∀ a, page a ∉ fs_free s → (∀ i, 0 ≤ i < 512 → is_present (ident_pde v.(mem) v.(CR3) i) = true →
     page a ≠ page (ident_pd v.(mem) v.(CR3) i)) → ld64 m' a = ld64 v.(mem) a) →
  boot_params m' bp = Ret p.
Proof.
  intros [k [_ _ _ [Hb _ _] _ _ Him _ _ _ _ _ _]] Hf Hm.
  assert (∀ o, 0 ≤ o ≤ 0x28 → ld64 m' (bp + o) = ld64 v.(mem) (bp + o)) as Hw.
  { intros o Ho. destruct (Him o Ho) as [Ha Hp]. apply Hm; [|exact Hp]. cbn [fs_free pmm_frame_source]. unfold pmm_free. rewrite Hf.
    intros [_ Hn]%elem_of_difference. by apply Hn, image_withheld. }
  rewrite <- Hb. unfold boot_params. by rewrite !Hw by lia.
Qed.

(** What [vmm::init] says of .text: the region from its start to .rodata. *)
Lemma map_region_text k start len perm (st st' : Vmm Pmm * (Z * Z * Z * Z)) :
  map_region debug k (start, len, perm) st = Ret st' →
  st'.2.1.1.1 = st.2.1.1.1 + match perm with TextRoX => len | _ => 0 end.
Proof.
  destruct st as [s [[[t r] d] b]]. unfold map_region. destruct (Z.eqb_spec len 0) as [->|Hl].
  { intros [= <-]. cbn. destruct perm; lia. }
  intros H. res_inv. subst st'. unfold count_region in *. destruct perm; try case_match; res_inv; subst; cbn; lia.
Qed.

Lemma init_text k bp v info v' :
  sections_ok k → Vmm.init debug k bp v = Ret (info, v') →
  info.(text_va) = k.(text_start) ∧ info.(text_mapped) = k.(rodata_start) - k.(text_start) ∧
  0 ≤ info.(text_va) + info.(text_mapped) < U64.
Proof.
  intros Hs H. assert (0 ≤ k.(rodata_start) < U64) as Hro.
  { destruct Hs as [_ ? [[? ?] ?] [? ?] [? ?] [? ?] ?]. unfold LP, LARGE_PAGE_SIZE, KERNEL_VMA in *. rewrite U64_val in *. lia. }
  unfold Vmm.init in H. apply bind_Ret in H as (? & _ & H). apply bind_Ret in H as ([r s] & _ & H).
  apply bind_Ret in H as (pml4 & _ & H). apply bind_Ret in H as (b & _ & H). apply bind_Ret in H as (dst & _ & H).
  apply bind_Ret in H as (? & _ & H). rewrite image_regions_ok in H by done. cbn [mbind Res_bind] in H.
  apply bind_Ret in H as ([s1 [[[tl rl] dl] bl]] & Hr & H). assert (tl = k.(rodata_start) - k.(text_start)) as ->.
  { cbn [for_list] in Hr. apply bind_Ret in Hr as (a1 & H1 & Hr). apply bind_Ret in Hr as (a2 & H2 & Hr).
    apply bind_Ret in Hr as (a3 & H3 & Hr). apply bind_Ret in Hr as (a4 & H4 & Hr). apply Ret_inj in Hr. subst a4.
    apply map_region_text in H1, H2, H3, H4. cbn in *. lia. }
  clear Hr. apply bind_Ret in H as ([lo hi] & _ & H). do 12 apply bind_Ret in H as (? & _ & H).
  apply Ret_inj in H. injection H as <- _. cbn [text_va text_mapped]. split; [done|]. split; [done|]. lia.
Qed.

Lemma bring_up_ok k bp p boot nx v :
  machine_ok k bp p boot v → ∃ info v' h, bring_up k bp boot nx v = Ret (info, v', h) ∧ booted k bp p boot v nx v' h.
Proof.
  intros Hm. destruct (pmm_ready k bp p boot v Hm) as (s & s' & r & E1 & E2 & E3 & Hf & Hok).
  destruct (vmm_ready k bp p boot v s' _ Hm Hf Hok) as (Henv & Hb & Hk).
  destruct (boot_space_ok debug k bp _ _ (set_src v s') Henv Hb Hk)
    as (info & v1 & v2 & n & path & E4 & E5 & Hv2 & Hnx & Hb1 & Hb2 & Hi1 & Hi2 & Hno & Ht1 & Ht2 & Hid & Hk1 & Hfr & Hcnt & Husr & Hk2).
  destruct (count_ok v1 path Hi1 Hb1) as (c1 & Ec1 & Hc1). unfold bring_up. rewrite E1. cbn [mbind Res_bind].
  rewrite E2. cbn [mbind Res_bind]. rewrite E3. cbn [mbind Res_bind]. rewrite E4. cbn [mbind Res_bind].
  rewrite Ec1. cbn [mbind Res_bind]. cbn [fs_free pmm_frame_source set_src src] in Hfr, Hcnt. unfold pmm_free in *.
  rewrite Hf in Hfr, Hcnt. assert (v2.(src) = v1.(src)) as Esrc by (by rewrite Hv2).
  destruct nx.
  - rewrite E5. cbn [mbind Res_bind]. rewrite Heap.init_eq. cbn [mbind Res_bind]. eexists _, _, _. split; [reflexivity|].
    split; rewrite ?Esrc; [by rewrite Hv2|done|done| |by apply (count_ok v2 path)|done|done|by exists path| |apply Hi1|done|done|done];
      [|apply (block_kept bp p boot v s'); [by exists k|done|intros a Ha Hp; apply Hk2; [exact Ha|exact Hp]]].
    intros i j Hi Hj Hp e He. destruct (Hid i j Hi Hj Hp) as (_ & Hp2 & _ & Hl). split; [done|by apply Hl].
  - cbn [mbind Res_bind]. rewrite Heap.init_eq. cbn [mbind Res_bind]. eexists _, _, _. split; [reflexivity|].
    split; [done|done|done| |by exists c1|done|done|by exists path| |apply Hi1|done|done|done];
      [|apply (block_kept bp p boot v s'); [by exists k|done|intros a Ha _; apply Hk1; exact Ha]].
    intros i j Hi Hj Hp e He. by destruct (Hid i j Hi Hj Hp) as (Hp1 & _ & Hl & _).
Qed.

Lemma heap_neighbours k bp p boot nx v v' h :
  machine_ok k bp p boot v → booted k bp p boot v nx v' h →
  translate debug v' (HEAP_VIRT_START - 4096) = Ret None ∧ translate debug v' (HEAP_VIRT_START + HEAP_SIZE) = Ret None.
Proof.
  intros [_ _ _ _ _ _ _ (_ & _ & Hh) _ _ _ Hsec _] Hb.
  split; rewrite (bt_high _ _ _ _ _ _ _ _ Hb) by (unfold HEAP_VIRT_START, HEAP_SIZE; rewrite ?U64_val; lia);
    by rewrite layout_gap by (done || rewrite ?Hh; unfold HEAP_VIRT_START, KERNEL_VMA, HUGE_PAGE_SIZE, HEAP_SIZE; lia).
Qed.

(** C8: The memory bring-up works as a whole.  From the state boot.asm and the
    loader leave, [pmm::init], the reservations, [vmm::init], [harden_boot_map] and
    [heap::init] run without a panic.  The page-table code's requirements (the
    boot tables, CR3 and the parameter block are not free memory) are met by the
    reservations.  Afterwards the W^X count is 0 and, when the CPU has NX, no page
    anywhere has an entry that is writable (bit 1) and executable (bit 63 clear);
    the higher half is the documented layout with the heap's 16 MiB mapped and both its
    neighbours not, and no free frame lies in boot memory. *)
Theorem bring_up_correct k bp p boot v :
  machine_ok k bp p boot v →
  ∃ info v' h, bring_up k bp boot true v = Ret (info, v', h) ∧
    count_wx_violations debug v' = Ret 0 ∧
    (v.(NX_AVAILABLE) = true → wx_free v'.(mem) v'.(KERNEL_PML4)) ∧
    (∀ a, U64 - 2 ^ 47 ≤ a < U64 → translate debug v' a =
       Ret (layout v.(NX_AVAILABLE) (kernel_regions k p.(heap_phys_start_) p.(heap_phys_end_)) a)) ∧
    h.(STATS) = mkHeapStats HEAP_VIRT_START HEAP_SIZE true ∧
    translate debug v' (HEAP_VIRT_START - 4096) = Ret None ∧ translate debug v' (HEAP_VIRT_START + HEAP_SIZE) = Ret None ∧
    frames v'.(src).(PMM) ⊆ all_avail (HVec.as_slice boot.(mmap)) ∖ range_frames (boot_ranges p boot).
Proof.
  intros Hm. destruct (bring_up_ok k bp p boot true v Hm) as (info & v' & h & E & Hb). exists info, v', h.
  pose proof (bt_clean _ _ _ _ _ _ _ _ Hb eq_refl) as Hno. destruct (bt_wx _ _ _ _ _ _ _ _ Hb) as (c & Ec & _ & Hiff).
  split; [done|]. split; [rewrite Ec; f_equal; by apply Hiff|].
  split; [by rewrite <- (bt_nx _ _ _ _ _ _ _ _ Hb); apply no_wx_free|]. split; [apply Hb|].
  split; [by rewrite (bt_heap _ _ _ _ _ _ _ _ Hb)|].
  destruct (heap_neighbours k bp p boot true v v' h Hm Hb) as [H1 H2]. split; [done|]. split; [done|]. apply Hb.
Qed.

End BootMemory.
