(* ===== verification/BootWitness.v ===== *)
(** * Bring-up on a concrete machine

    A machine with 2 GiB of memory whose kernel image, boot tables, parameter
    block and heap lie between 2 MiB and 32 MiB and whose loader left its
    information at 0x90000: it meets the promises of [machine_ok]. *)

From stdpp Require Import base gmap sets list list_numbers strings numbers.
From Stdlib Require Import ZArith Lia.
From S2P Require Import Prelude Arch BootInfo Bitmap Pmm PmmSpec Multiboot Vmm PageTables VmmSpec AddressSpace VmmWitness Heap BootMemory.
#[local] Open Scope Z_scope.

#[local] Existing Instance x86_ref.

Definition boot_mem : phys :=
  list_to_map [(0x201000, 0x202003); (0x202000, 0x203003); (0x203000, 0x83); (0x203008, 0x200083);
               (0x204000, 0x200000); (0x204008, 0x2000000); (0x204010, 0x201000); (0x204018, 0x205000);
               (0x204020, 0x1000000); (0x204028, 0x2000000);
               (0x90000, 56); (0x90008, 40 * 2 ^ 32 + 6); (0x90010, 24); (0x90018, 0x100000); (0x90020, 0x7FF00000);
               (0x90028, 1); (0x90030, 8 * 2 ^ 32)].

Definition boot_block : Arch.BootParams :=
  {| kernel_phys_start_ := 0x200000; kernel_phys_end_ := 0x2000000; boot_bss_phys_start_ := 0x201000;
     boot_bss_phys_end_ := 0x205000; heap_phys_start_ := 0x1000000; heap_phys_end_ := 0x2000000 |}.

Definition boot_mmap : HVec.t MmapEntry :=
  HVec.mk (mkMmap 0x100000 0x7FF00000 1 :: replicate 63 PLACEHOLDER_MMAP) 1.
Definition boot_demo : BootInfo :=
  {| total_size := 56; cmdline := None; loader_name := None; mmap := boot_mmap;
     framebuffer := None; acpi_rsdp := None; acpi_version := 0; load_base_addr := None;
     tag_count := 1; phys_addr := 0x90000 |}.

Definition boot_machine : Vmm Pmm := mkVmm true PtPool_new 0 0x201000 boot_mem Pmm_new.

Lemma boot_pdpt_slots i : 0 ≤ i < 512 → is_present (ld64 boot_mem (0x202000 + 8 * i)) = true → i = 0.
Proof.
  intros Hi Hp. apply Z.eqb_eq.
  pose proof (range_check (fun i => negb (is_present (ld64 boot_mem (0x202000 + 8 * i))) || (i =? 0))
    0 512 i ltac:(by vm_compute) ltac:(lia)) as H. cbn beta in H. by rewrite Hp in H.
Qed.

Lemma boot_pd_slots j :
  0 ≤ j < 512 → is_present (ld64 boot_mem (0x203000 + 8 * j)) = true → is_huge (ld64 boot_mem (0x203000 + 8 * j)) = true.
Proof.
  intros Hj Hp.
  pose proof (range_check (fun j => negb (is_present (ld64 boot_mem (0x203000 + 8 * j)))
      || is_huge (ld64 boot_mem (0x203000 + 8 * j))) 0 512 j ltac:(by vm_compute) ltac:(lia)) as H.
  cbn beta in H. by rewrite Hp in H.
Qed.

Lemma boot_tables :
  ident_pdpt boot_mem 0x201000 = 0x202000 ∧ ident_pd boot_mem 0x201000 0 = 0x203000 ∧
  is_huge (ident_pde boot_mem 0x201000 0) = false ∧ is_present (ld64 boot_mem (0x201000 + 8 * 0)) = true.
Proof. by vm_compute. Qed.

Lemma boot_demo_map : boot_map boot_mem 0x201000.
Proof.
  destruct boot_tables as (E1 & E2 & E3 & E4).
  split; [split; [done|unfold BOOT_MAPPED_BYTES; lia]|done|rewrite E1; unfold BOOT_MAPPED_BYTES; lia| |].
  - intros i Hi Hp. rewrite E1 in Hp. apply boot_pdpt_slots in Hp; [subst i|done].
    rewrite E3, E2, E1. split; [done|]. unfold BOOT_MAPPED_BYTES. lia.
  - intros i j Hi Hp Hj. rewrite E1 in Hp. apply boot_pdpt_slots in Hp; [subst i|done].
    rewrite E2. by apply boot_pd_slots.
Qed.

(** The loader's structure in that memory: a memory map of one entry. *)
Lemma boot_demo_read : read_from boot_mem 0x90000 = Ret (inr boot_demo).
Proof. by vm_compute. Qed.

Lemma boot_demo_ranges : boot_ranges boot_block boot_demo =
  [(0x0, 0x1000); (0x9FC00, 0xA0000); (0xA0000, 0xC0000); (0xC0000, 0x100000); (0x200000, 0x2000000);
   (0x90000, 0x90038)].
Proof. by vm_compute. Qed.

Lemma boot_demo_sums : sums_ok boot_block boot_demo.
Proof.
  split; [|by intros l [=]]. rewrite boot_demo_ranges. unfold span_ok, FRAME_SIZE. rewrite U64_val.
  repeat constructor; cbn; lia.
Qed.

Lemma boot_demo_block : block_ok boot_mem 0x204000 boot_block.
Proof. split; [by vm_compute|cbn; lia|cbn; lia]. Qed.

Lemma boot_demo_free : zrange 0x2000 0x80000 ⊆
  all_avail (HVec.as_slice boot_demo.(mmap)) ∖ range_frames (boot_ranges boot_block boot_demo).
Proof.
  intros i Hi%elem_of_zrange. apply elem_of_difference. split.
  - apply elem_of_all_avail. exists (mkMmap 0x100000 0x7FF00000 1). split; [left|]. split; [done|].
    unfold sat_add64, FRAME_SIZE, MAX_PHYS, BOOT_MAPPED_BYTES. cbn [base length_]. rewrite ?U64_val. lia.
  - rewrite boot_demo_ranges, elem_of_range_frames. intros (lo & hi & a & Hin & Ha & <-). unfold FRAME_SIZE in Hi.
    apply list_elem_of_In in Hin. destruct Hin as [E|[E|[E|[E|[E|[E|[]]]]]]]; injection E as <- <-; zlia.
Qed.

Lemma boot_demo_ok : machine_ok demo_syms 0x204000 boot_block boot_demo boot_machine.
Proof.
  pose proof boot_tables as (E1 & E2 & _ & _).
  split; cbn [boot_machine src PT_POOL mem CR3 boot_block heap_phys_start_ heap_phys_end_].
  - done.
  - done.
  - split; [apply Forall_singleton; by vm_compute|by vm_compute].
  - exact boot_demo_block.
  - exact boot_demo_sums.
  - unfold BOOT_MAPPED_BYTES. zlia.
  - intros o Ho. unfold in_image. cbn [boot_block kernel_phys_start_ kernel_phys_end_]. split; [lia|].
    intros i Hi Hp. rewrite E1 in Hp. apply boot_pdpt_slots in Hp; [subst i|done]. rewrite E2. zlia.
  - unfold BOOT_MAPPED_BYTES, HEAP_SIZE. lia.
  - zlia.
  - exact boot_demo_map.
  - unfold in_image. cbn [boot_block kernel_phys_start_ kernel_phys_end_]. split; [lia|]. split; [rewrite E1; lia|].
    intros i Hi Hp. rewrite E1 in Hp. apply boot_pdpt_slots in Hp; [subst i|done]. rewrite E2. lia.
  - apply demo_init_env.
  - pose proof (subseteq_size _ _ boot_demo_free) as Hs. rewrite size_zrange in Hs.
    assert (frames_needed demo_syms 0x1000000 0x2000000 = 18436) as -> by by vm_compute. lia.
Qed.

(** ** The theorems on this machine *)

Lemma boot_memory_withheld_witness :
  ∃ s s', Pmm.init Pmm_new boot_demo = Ret s ∧ reserve_boot_memory boot_mem 0x204000 boot_demo s = Ret s' ∧
    frames s'.(PMM) = frames s.(PMM) ∖ range_frames (boot_ranges boot_block boot_demo).
Proof.
  destruct (init_new_ok boot_demo (proj1 (mo_mmap _ _ _ _ _ boot_demo_ok)) (proj2 (mo_mmap _ _ _ _ _ boot_demo_ok))) as (s & Hs & _).
  destruct (boot_memory_withheld false boot_mem 0x204000 boot_block boot_demo s) as (s' & E & Hf & _).
  - exact (proj1 (mo_mmap _ _ _ _ _ boot_demo_ok)).
  - exact (proj2 (mo_mmap _ _ _ _ _ boot_demo_ok)).
  - exact boot_demo_block.
  - exact boot_demo_sums.
  - exact Hs.
  - exists s, s'. split; [exact Hs|]. split; [exact E|exact Hf].
Defined.

Lemma bring_up_correct_witness :
  ∃ info v' h, bring_up false demo_syms 0x204000 boot_demo true boot_machine = Ret (info, v', h) ∧
    count_wx_violations false v' = Ret 0 ∧ wx_free v'.(mem) v'.(KERNEL_PML4).
Proof.
  destruct (bring_up_correct false demo_syms 0x204000 boot_block boot_demo boot_machine) as (info & v' & h & E & Ec & Hw & _).
  - exact boot_demo_ok.
  - exists info, v', h. split; [exact E|]. split; [exact Ec|exact (Hw eq_refl)].
Defined.
