(* ===== verification/Report.v ===== *)
(** * What the boot says about itself (kernel/src/kmain.rs, cpu/cpuid.rs)

    The log records the init sequence writes, in order, as functions of what they
    report.  A record is the module that writes it, its level, its source line and
    its message; a number that the source computes with a checked operation is
    computed here the same way. *)

From stdpp Require Import base gmap list list_numbers strings numbers.
From Stdlib Require Import ZArith Lia.
From S2P Require Import Prelude Arch BootInfo Bitmap Pmm Multiboot Params Vmm Ports Pic Pit Keyboard Serial Vga ConsoleLog Gdt Idt Interrupts Cpuid Fmt Heap.
From S2P Require Import Panic Exceptions BootMemory Msr.
#[local] Open Scope Z_scope.

Record Rec : Type := mkRec { r_module : bytes; r_level : Level; r_line : Z; r_msg : bytes }.

Definition kmain_rec (l : Level) (line : Z) (msg : bytes) : Rec := mkRec (lit "orin_kernel::kmain") l line msg.
Definition cpuid_rec (l : Level) (line : Z) (msg : bytes) : Rec := mkRec (lit "orin_kernel::cpu::cpuid") l line msg.

(** ** Formatting *)

(** [{:#0wx}]: [w] counts the prefix. *)
Definition hexw (w : nat) (n : Z) : bytes := lit "0x" ++ replicate (w - 2 - length (hex_digits n)) 48 ++ hex_digits n.

(** A quoted string. *)
Definition quoted (s : bytes) : bytes := [34] ++ s ++ [34].

(** [str::trim]: Unicode white space, as UTF-8. *)
Definition is_white (c : bytes) : bool :=
  match c with
  | [b] => ((9 <=? b) && (b <=? 13)) || (b =? 32)
  | [0xC2; b] => (b =? 0x85) || (b =? 0xA0)
  | [0xE1; 0x9A; 0x80] => true
  | [0xE2; 0x80; b] => ((0x80 <=? b) && (b <=? 0x8A)) || (b =? 0xA8) || (b =? 0xA9) || (b =? 0xAF)
  | [0xE2; 0x81; 0x9F] => true
  | [0xE3; 0x80; 0x80] => true
  | _ => false
  end.

Fixpoint drop_white (cs : list bytes) : list bytes :=
  match cs with
  | c :: rest => if is_white c then drop_white rest else cs
  | [] => []
  end.

Definition trim (s : bytes) : bytes :=
  match utf8_chunks s with
  | Some cs => concat (rev (drop_white (rev (drop_white cs))))
  | None => s
  end.

(** [{:.1}] of [n as f64 / 1024.0], [n] below 2^53: the quotient is exact and
    rounded half to even. *)
Definition kib_1 (n : Z) : bytes :=
  let q := 10 * n / 1024 in
  let r := 10 * n mod 1024 in
  let q := if (512 <? r) || ((r =? 512) && Z.odd q) then q + 1 else q in
  udec (q / 10) ++ lit "." ++ udec (q mod 10).

Definition trimmed_build_id (build_id : bytes) : bytes :=
  match trim build_id with [] => lit "<not stamped by the build>" | t => t end.

Definition yes (b : bool) : bytes := if b then lit "on " else lit "OFF".
Definition yesno (b : bool) : bytes := if b then lit "yes" else lit "NO".

(** [#[derive(Debug)]] of a level, and of an optional one. *)
Definition show_level (l : Level) : bytes :=
  match l with
  | Trace => lit "Trace" | Debug => lit "Debug" | Info => lit "Info" | Warn => lit "Warn" | Error => lit "Error"
  | Critical => lit "Critical" | PanicLevel => lit "Panic"
  end.
Definition show_level_option (o : option Level) : bytes :=
  match o with Some l => lit "Some(" ++ show_level l ++ lit ")" | None => lit "None" end.

Definition MiB : Z := 1024 * 1024.
Definition rule : bytes := lit "==============================================================".

(** ** Steps 1 to 5 *)

Definition head_records (build_id : bytes) (serial_ok : bool) (bs len : Z) : list Rec :=
  [kmain_rec Info 158 rule;
   kmain_rec Info 159 (lit " Orin OS kernel (orink) — milestone 1");
   kmain_rec Info 160 rule;
   kmain_rec Info 161 (lit "build id      : " ++ trimmed_build_id build_id);
   kmain_rec Info 162 (lit "serial COM1   : " ++
     (if serial_ok then lit "present (loopback self-test passed)" else lit "NOT PRESENT — logs will not be captured"));
   kmain_rec Info 170 (lit "bss: zeroed " ++ udec (len / 1024) ++ lit " KiB at " ++ hex bs ++
     lit " (before any static was written)")] ++
  (if serial_ok then []
   else [kmain_rec Warn 177 (lit "serial: the 16550 loopback self-test failed. On real hardware this usually means no UART is wired to COM1. Kernel logging continues to VGA only.")]).

(** [cpuid::report], before its assertions. *)
Definition cpu_records (f : CpuFeatures) (suspect : bool) : list Rec :=
  [cpuid_rec Info 313 (lit "cpu: vendor " ++ quoted (cstr f.(vendor)))] ++
  (match cstr f.(brand) with
   | [] => []
   | b => [cpuid_rec Info 315 (lit "cpu: brand " ++ quoted (trim b))]
   end) ++
  [cpuid_rec Info 317 (lit "cpu: family " ++ hex f.(family) ++ lit " model " ++ hex f.(model) ++ lit " stepping " ++
     hex f.(stepping) ++ lit ", max leaf " ++ hex f.(max_leaf) ++ lit ", max ext leaf " ++ hex f.(max_ext_leaf));
   (if f.(hypervisor_present)
    then cpuid_rec Info 326 (lit "cpu: running under a hypervisor, vendor " ++ quoted (cstr f.(hypervisor_vendor)))
    else cpuid_rec Info 331 (lit "cpu: bare metal (no hypervisor CPUID bit)"));
   cpuid_rec Info 335 (lit "cpu: nx=" ++ yesno f.(Cpuid.nx) ++ lit " smep=" ++ yesno f.(smep) ++ lit " smap=" ++ yesno f.(smap) ++
     lit " syscall=" ++ yesno f.(syscall) ++ lit " sse2=" ++ yesno f.(sse2) ++ lit " apic=" ++ yesno f.(apic) ++
     lit " x2apic=" ++ yesno f.(x2apic));
   cpuid_rec Info 340 (lit "cpu: tsc=" ++ yesno f.(tsc) ++ lit " invariant=" ++ yesno f.(tsc_invariant) ++ lit " pdpe1gb=" ++
     yesno f.(pdpe1gb) ++ lit " la57=" ++ yesno f.(la57) ++ lit " invpcid=" ++ yesno f.(invpcid) ++ lit " fsgsbase=" ++
     yesno f.(fsgsbase));
   cpuid_rec Info 345 (lit "cpu: rdrand=" ++ yesno f.(rdrand) ++ lit " (suspect=" ++ yesno suspect ++ lit ") rdseed=" ++
     yesno f.(rdseed) ++ lit " avx=" ++ yesno f.(avx) ++ lit " avx2=" ++ yesno f.(avx2));
   match f.(tsc_khz) with
   | Some khz => cpuid_rec Info 351 (lit "cpu: TSC nominal rate " ++ udec khz ++ lit " kHz (leaf 0x15)")
   | None => cpuid_rec Debug 353 (lit "cpu: leaf 0x15 gives no TSC rate; M4 will calibrate against the PIT")
   end].

(** [cpuid::report], after them. *)
Definition degraded_record (d : Degraded) : Rec :=
  match d with
  | NoSmep => cpuid_rec Warn 364 (lit "cpuid: SMEP unavailable. The kernel can execute user-space code, so a ret2usr mitigation is missing. Security posture is REDUCED on this machine; docs/SECURITY.md §5 lists this as an explicit degradation.")
  | NoSmap => cpuid_rec Warn 371 (lit "cpuid: SMAP unavailable. The kernel can read user memory without an explicit copy_*_user, so a stray pointer is not caught. Security posture is REDUCED.")
  | TscNotInvariant => cpuid_rec Warn 377 (lit "cpuid: TSC is not invariant. M4 will not use it as a clocksource across cores; timing falls back to the LAPIC timer.")
  end.

Definition entropy_records (suspect : bool) : list Rec :=
  if suspect then
    [cpuid_rec Warn 298 (lit "cpuid: RDRAND returned only all-ones/all-zero across 8 probes. This matches the known-broken AMD firmware case. M14's entropy pool will NOT use RDRAND on this machine; key material must come from another source.")]
  else [].

(** [verify_long_mode] when it finds nothing wrong. *)
Definition long_mode_records (f : CpuFeatures) (cr0 cr3 cr4 efer : Z) : list Rec :=
  [kmain_rec Info 366 (lit "cpu: cr0=" ++ hex cr0 ++ lit " cr3=" ++ hex cr3 ++ lit " cr4=" ++ hex cr4 ++ lit " efer=" ++ hex efer)] ++
  (if f.(smep) then [kmain_rec Info 403 (lit "cpu: CR4.SMEP enabled (kernel cannot execute user-space code)")] else []) ++
  (if f.(smap) then [kmain_rec Info 414 (lit "cpu: CR4.SMAP enabled (kernel cannot implicitly read user memory)")] else []) ++
  [kmain_rec Info 420 (lit "long mode: verified (64-bit paging active, WP on, CR3 " ++ hex cr3 ++ lit ")")].

(** ** Step 7 *)

Definition or_str (dflt : string) (s : option HStr.t) : bytes := from_option as_str (lit dflt) s.

Definition mmap_record (e : MmapEntry) : Rec :=
  kmain_rec Debug 627 (lit "  mmap [" ++ hexw 12 e.(BootInfo.base) ++ lit ".." ++ hexw 12 (sat_add64 e.(BootInfo.base) e.(length_)) ++ lit ") " ++
    pad_left 8 0x20 (udec (e.(length_) / 1024)) ++ lit " KiB type " ++ udec e.(mem_type)).

(** [report_boot_info], up to the parameters it returns. *)
Definition boot_info_records (boot : BootInfo) : list Rec :=
  [kmain_rec Info 615 (lit "multiboot: " ++ udec boot.(total_size) ++ lit " bytes at " ++ hex boot.(phys_addr) ++ lit ", " ++
     udec boot.(tag_count) ++ lit " tags walked");
   kmain_rec Info 619 (lit "multiboot: loader " ++ quoted (or_str "<not reported>" boot.(loader_name)));
   kmain_rec Info 624 (lit "multiboot: command line " ++ quoted (cmdline_str boot));
   kmain_rec Info 625 (lit "multiboot: " ++ udec (Z.of_nat (length (HVec.as_slice boot.(mmap)))) ++ lit " memory-map entries")] ++
  (mmap_record <$> HVec.as_slice boot.(mmap)) ++
  [match boot.(acpi_rsdp) with
   | Some rsdp => kmain_rec Info 636 (lit "multiboot: ACPI RSDP v" ++ udec boot.(acpi_version) ++ lit " at " ++ hex rsdp)
   | None => kmain_rec Debug 638 (lit "multiboot: no ACPI RSDP supplied (normal for a BIOS-less QEMU config)")
   end].

(** [apply_params] *)
Definition params_records (p : Params.BootParams) : list Rec :=
  (if negb (HStr.is_empty p.(Params.unknown)) then
     [kmain_rec Warn 458 (lit "boot: unrecognised parameter(s): " ++ quoted (as_str p.(Params.unknown)) ++
        lit " — ignored. See docs/BOOT.md §5 for the list.")]
   else []) ++
  (if p.(Params.single) then [kmain_rec Info 464 (lit "boot: orin.single given; SMP bring-up will be skipped (M4)")] else []).

(** [verify_load_address] *)
Definition load_record (script : Z) (boot : BootInfo) : Rec :=
  match boot.(load_base_addr) with
  | Some reported =>
      if negb (reported =? script) then
        kmain_rec Warn 432 (lit "multiboot: GRUB reports load base " ++ hex reported ++ lit " but the linker script says " ++ hex script ++
          lit ". Using the linker script value. If these differ, the frame allocator's reservation of the kernel image is wrong.")
      else kmain_rec Debug 440 (lit "multiboot: load base " ++ hex script ++ lit " matches the linker script")
  | None => kmain_rec Debug 443 (lit "multiboot: loader did not supply tag 20 (load base address); trusting the linker script (" ++ hex script ++ lit ")")
  end.

(** ** Steps 8 to 11 *)

(** [reserve_boot_memory]; the sums were checked when the ranges were reserved. *)
Definition reserve_records (ks ke : Z) (boot : BootInfo) : list Rec :=
  [kmain_rec Debug 502 (lit "pmm: reserved kernel image [" ++ hex ks ++ lit ".." ++ hex ke ++ lit ") = " ++ udec ((ke - ks) / 1024) ++ lit " KiB")] ++
  (if negb (boot.(phys_addr) =? 0) then
     [kmain_rec Debug 522 (lit "pmm: reserved multiboot info [" ++ hex boot.(phys_addr) ++ lit ".." ++
        hex (boot.(phys_addr) + boot.(total_size)) ++ lit ")")]
   else []) ++
  (match boot.(framebuffer) with
   | Some fb =>
       if negb (fb.(fb_type) =? fbtype_EGA_TEXT) && (0 <? fb.(fb_size)) then
         [kmain_rec Debug 531 (lit "pmm: reserved framebuffer [" ++ hex fb.(fb_address) ++ lit ".." ++
            hex (fb.(fb_address) + fb.(fb_size)) ++ lit ") = " ++ udec (fb.(fb_size) / 1024) ++ lit " KiB")]
       else []
   | None => []
   end) ++
  (match boot.(acpi_rsdp) with
   | Some rsdp =>
       [kmain_rec Debug 547 (lit "pmm: reserved ACPI RSDP v" ++ udec boot.(acpi_version) ++ lit " page at " ++ hex (Z.ldiff rsdp 0xFFF))]
   | None => []
   end) ++
  (match mem_limit_from boot with
   | Some limit =>
       [kmain_rec Warn 559 (lit "pmm: orin.memlimit=" ++ udec limit ++ lit " caps usable RAM at " ++ udec limit ++
          lit " MiB; the rest is reserved for this boot")]
   | None => []
   end).

(** [report_memory]; [usable] and [total] are the two figures it computes. *)
Definition memory_records (usable total : Z) (s : Stats) : list Rec :=
  [kmain_rec Info 647 (lit "pmm: " ++ udec usable ++ lit " MiB usable / " ++ udec total ++ lit " MiB reported by firmware; " ++
     udec (s.(s_reserved_frames) * 4) ++ lit " KiB reserved, " ++ udec (s.(s_bad_frames) * 4) ++ lit " KiB bad RAM")] ++
  (if 0 <? s.(s_unmapped_bytes) then
     [kmain_rec Warn 655 (lit "pmm: " ++ udec (s.(s_unmapped_bytes) / MiB) ++
        lit " MiB of RAM is present but ABOVE the M1 boot mapping (" ++ hex BOOT_MAPPED_BYTES ++
        lit ") and is unusable this milestone. M4 extends the page tables; see docs/MEMORY.md §7. This is reported rather than silently ignored so the machine's real size is never misrepresented.")]
   else []).

(** [report_vmm]; [wx] is the audit's count. *)
Definition vmm_records (i : VmmInfo) (wx : Z) : list Rec :=
  [kmain_rec Info 667 (lit "vmm: .text " ++ udec (i.(text_content) / 1024) ++ lit " KiB of a " ++ udec (i.(text_mapped) / 1024) ++
     lit " KiB R-X region at " ++ hex i.(text_va));
   kmain_rec Info 671 (lit "vmm: .rodata " ++ udec (i.(rodata_content) / 1024) ++ lit " KiB (R--), .data " ++
     udec (i.(data_content) / 1024) ++ lit " KiB (RW-), .bss " ++ udec (i.(bss_content) / 1024) ++ lit " KiB (RW-)");
   kmain_rec Info 675 (lit "vmm: " ++ udec i.(pt_frames) ++ lit " page-table frames allocated; kernel PML4 at " ++
     hex i.(kernel_pml4_phys) ++ lit " (boot PML4 was " ++ hex i.(boot_pml4_phys) ++ lit ")");
   kmain_rec Info 680 (lit "vmm: W^X audit — " ++ udec wx ++ lit " page(s) writable AND executable" ++
     (if wx =? 0 then lit " (as required)" else lit " — POLICY VIOLATED"))].

Definition nx_off_record : Rec :=
  kmain_rec Warn 240 (lit "vmm: boot identity map left EXECUTABLE because orin.nx=off was given. This is a debugging mode; do not ship it.").

Definition heap_record (bytes_ : Z) (h : HeapStats) : Rec :=
  kmain_rec Info 250 (lit "heap: " ++ udec (bytes_ / 1024) ++ lit " KiB at " ++ hex h.(hbase)).

(** ** Steps 12 to 15 *)

(** [report_syscall_state]; the registers are read only on a CPU with SYSCALL. *)
Definition syscall_records (f : CpuFeatures) (m : Msrs) : list Rec :=
  [kmain_rec Info 717 (lit "syscall: CPU supports SYSCALL/SYSRET = " ++ show_bool f.(syscall) ++
     lit "; ABI is DESIGNED (docs/SYSCALL.md) and NOT IMPLEMENTED until M5. Vector " ++ hexw 4 SYSCALL_VECTOR ++ lit " returns ENOSYS.")] ++
  (if f.(syscall) then
     let e := Msr.read addr.EFER m in
     let sce := negb (Z.land e efer.SCE =? 0) in
     [kmain_rec Debug 730 (lit "syscall: baseline MSRs — EFER=" ++ hex e ++ lit " (SCE=" ++ show_bool sce ++ lit ") STAR=" ++
        hex (Msr.read addr.STAR m) ++ lit " LSTAR=" ++ hex (Msr.read addr.LSTAR m))] ++
     (if sce then
        [kmain_rec Warn 735 (lit "syscall: EFER.SCE is already set by firmware/bootloader but Orin has no LSTAR entry point programmed. M5 must program STAR/LSTAR/SFMASK before enabling user space, or a `syscall` from ring 3 would jump to whatever LSTAR currently holds.")]
      else [])
   else []).

Definition interrupt_records (i : InterruptInfo) : list Rec :=
  [kmain_rec Info 688 (lit "int: " ++ udec i.(vectors_installed) ++ lit " vectors installed; PIT divisor " ++ udec i.(pit_divisor) ++
     lit " -> " ++ udec i.(tick_hz_num) ++ lit "/" ++ udec i.(tick_hz_den) ++ lit " Hz exact; unmasked IRQ mask " ++
     hexw 6 i.(unmasked_irqs));
   kmain_rec Info 696 (lit "int: GDT selectors kcode=" ++ hex i.(selectors).(kernel_code) ++ lit " kdata=" ++
     hex i.(selectors).(kernel_data) ++ lit " udata=" ++ hex i.(selectors).(user_data) ++ lit " ucode=" ++
     hex i.(selectors).(user_code) ++ lit " tss=" ++ hex i.(selectors).(tss));
   kmain_rec Info 701 (lit "int: IST stacks " ++ udec ist_COUNT ++ lit " x " ++ udec 16 ++ lit " KiB = " ++
     udec (ist_total_bytes / 1024) ++ lit " KiB, each with a guard page");
   kmain_rec Info 707 (lit "int: NXE active = " ++ show_bool i.(nxe_enabled))].

Definition fb_kind (t : Z) : bytes :=
  if t =? fbtype_INDEXED then lit "indexed colour"
  else if t =? fbtype_RGB then lit "RGB direct colour"
  else if t =? fbtype_EGA_TEXT then lit "EGA text" else lit "unknown".

(** [report_framebuffer]; [outside] is its comparison with the boot mapping. *)
Definition framebuffer_records (boot : BootInfo) (outside : bool) : list Rec :=
  match boot.(framebuffer) with
  | Some fb =>
      [kmain_rec Info 582 (lit "fb: " ++ hex fb.(fb_address) ++ lit " " ++ udec fb.(fb_width) ++ lit "x" ++ udec fb.(fb_height) ++
         lit " bpp " ++ udec fb.(fb_bpp) ++ lit " pitch " ++ udec fb.(fb_pitch) ++ lit " (" ++ udec (fb.(fb_size) / 1024) ++
         lit " KiB, " ++ fb_kind fb.(fb_type) ++ lit ")");
       (if fb.(fb_type) =? fbtype_EGA_TEXT
        then kmain_rec Info 588 (lit "fb: GRUB supplied a TEXT framebuffer (VGA text console is live)")
        else kmain_rec Warn 592 (lit "fb: graphics mode active — VGA text console writes go to 0xB8000 which is not on screen.                      M1 logging is serial-primary; M8 owns the framebuffer."))] ++
      (if outside then
         [kmain_rec Warn 597 (lit "fb: framebuffer at " ++ hex fb.(fb_address) ++ lit "+" ++ hex fb.(fb_size) ++
            lit " is OUTSIDE the M1 boot mapping (" ++ hex BOOT_MAPPED_BYTES ++
            lit "). M8 must extend the page tables before it can draw. Recorded here so the limitation is visible at boot rather than discovered as a fault.")]
       else [])
  | None => [kmain_rec Warn 607 (lit "fb: GRUB supplied no framebuffer tag. M1 uses the VGA text console so this is not fatal, but M8 cannot start without one.")]
  end.

(** ** Steps 16 to 18 *)

(** [report_boot_coverage] *)
Definition coverage_record (s : Stats) : Rec :=
  mkRec (lit "orin_kernel::selftest") Info 959
    (lit "selftest: boot mapping covers " ++ udec (BOOT_MAPPED_BYTES / MiB) ++ lit " MiB; " ++ udec (s.(s_unmapped_bytes) / MiB) ++
     lit " MiB of RAM present but unreachable in M1 (M4 extends the page tables — docs/MEMORY.md §7)").

Definition skipped_record : Rec :=
  kmain_rec Warn 283 (lit "selftest: SKIPPED by orin.selftest=off — this boot's claims are unverified").

Definition OKI_ABI_VERSION : Z := 3.

Definition env_str (f : CpuFeatures) : bytes := if f.(hypervisor_present) then cstr f.(hypervisor_vendor) else lit "bare metal".

(** What the banner is computed from. *)
Record Final : Type := mkFinal {
  n_feats : CpuFeatures; n_stats : Stats; n_cr0 : Z; n_cr4 : Z; n_nxe : bool; n_wx : Z; n_kbd : Presence; n_level : Level;
  n_pass : Z; n_fail : Z; n_skip : Z }.

Definition protection_line (n : Final) : bytes :=
  lit " protection    : WP=" ++ yes (bit 16 n.(n_cr0)) ++ lit " NXE=" ++ yes n.(n_nxe) ++ lit " SMEP=" ++ yes (bit 20 n.(n_cr4)) ++
  lit " SMAP=" ++ yes (bit 21 n.(n_cr4)) ++ lit " W^X violations=" ++ udec n.(n_wx).

Definition selftest_line (p : Params.BootParams) (n : Final) : bytes :=
  lit " self-test     : " ++ udec n.(n_pass) ++ lit " passed, " ++ udec n.(n_fail) ++ lit " failed, " ++ udec n.(n_skip) ++
  lit " skipped" ++ (if p.(Params.selftest) then [] else lit " (disabled by boot parameter)").

Definition banner (build_id : bytes) (boot : BootInfo) (p : Params.BootParams) (i : VmmInfo) (n : Final) : Res (list Rec) :=
  usable ← mul64 n.(n_stats).(s_free_frames) 4096;
  total ← sum_lengths (HVec.as_slice boot.(mmap));
  text_end ← add64 i.(text_va) i.(text_mapped);
  Ret [kmain_rec Info 761 rule;
       kmain_rec Info 762 (lit " Orin OS — M1 boot complete");
       kmain_rec Info 763 rule;
       kmain_rec Info 764 (lit " build         : " ++ trimmed_build_id build_id);
       kmain_rec Info 765 (lit " abi           : orink x86_64, OKI ABI v" ++ udec OKI_ABI_VERSION);
       kmain_rec Info 766 (lit " cpu           : " ++ cstr n.(n_feats).(vendor));
       kmain_rec Info 767 (lit " environment   : " ++ env_str n.(n_feats));
       kmain_rec Info 772 (lit " loader        : " ++ or_str "?" boot.(loader_name));
       kmain_rec Info 774 (lit " memory        : " ++ udec (usable / MiB) ++ lit " MiB usable of " ++ udec (BOOT_MAPPED_BYTES / MiB) ++
         lit " MiB boot-mapped (" ++ udec (total / MiB) ++ lit " MiB RAM present)");
       kmain_rec Info 780 (lit " kernel image  : " ++ hex i.(text_va) ++ lit ".." ++ hex text_end ++ lit " (" ++
         kib_1 i.(text_content) ++ lit " KiB text)");
       kmain_rec Info 786 (lit " heap          : " ++ udec (i.(heap_size) / 1024) ++ lit " KiB");
       kmain_rec Info 792 (protection_line n);
       kmain_rec Info 800 (lit " keyboard      : " ++ show_presence n.(n_kbd));
       kmain_rec Info 801 (selftest_line p n);
       kmain_rec Info 806 (lit " log level     : requested " ++ show_level_option p.(Params.log) ++ lit ", effective " ++ lit (letter n.(n_level)));
       kmain_rec Info 807 (lit "--------------------------------------------------------------");
       kmain_rec Info 808 (lit " M1 scope: boot, long mode, memory, interrupts, PS/2 input.");
       kmain_rec Info 809 (lit " No processes, no syscalls, no filesystem, no graphics, no");
       kmain_rec Info 810 (lit " networking. Those are M4/M5/M6/M8/M11 — see docs/ROADMAP.md.");
       kmain_rec Info 811 (lit " Type on the keyboard: input is echoed below and to serial.");
       kmain_rec Info 812 rule].

(** ** Writing the records *)

Section Say.
Context {D : Type} `{B : Bus D}.
(** The clock at a record, and the file the compiler was given for a module. *)
Context (now : bytes → Z) (file_of : bytes → bytes).

Definition log_rec (r : Rec) (s : Sink D) : Res (Sink D) :=
  log (now r.(r_msg)) r.(r_level) r.(r_module) (file_of r.(r_module) ++ lit ":" ++ dec r.(r_line)) r.(r_msg) s.

Definition say_all (rs : list Rec) (s : Sink D) : Res (Sink D) := for_list rs s log_rec.

(** Writing records needs room in the counters and nothing else; the
    configuration stays. *)
Lemma say_all_ok rs n (s : Sink D) :
  0 ≤ n → sink_ok (n + Z.of_nat (length rs)) s →
  ∃ s', say_all rs s = Ret s' ∧ sink_ok n s' ∧ s'.(cfg).(level) = s.(cfg).(level) ∧ s'.(cfg).(target) = s.(cfg).(target) ∧
    s'.(cfg).(show_location) = s.(cfg).(show_location) ∧ (s'.(com1).(Serial.initialised) = true → s.(com1).(Serial.initialised) = true).
Proof.
  unfold say_all. revert n s. induction rs as [|r rs IH]; intros n s Hn Hs; cbn [for_list length] in *.
  { exists s. rewrite Z.add_0_r in Hs. done. }
  destruct (log_step (now r.(r_msg)) r.(r_level) r.(r_module) (file_of r.(r_module) ++ lit ":" ++ dec r.(r_line))
    r.(r_msg) s (n + Z.of_nat (length rs))) as (s1 & E1 & Hs1 & L1 & T1 & O1 & U1);
    [lia|by replace (n + Z.of_nat (length rs) + 1) with (n + Z.of_nat (S (length rs))) by lia|].
  change (log_rec r s = Ret s1) in E1. rewrite E1. cbn [mbind Res_bind]. destruct (IH n s1 Hn Hs1) as (s2 & E & Hs2 & L2 & T2 & O2 & U2). exists s2.
  split; [exact E|]. split; [done|]. split; [congruence|]. split; [congruence|]. split; [congruence|auto].
Qed.

End Say.

(** How many records each step writes. *)
Lemma length_head build_id ok bs len : (length (head_records build_id ok bs len) ≤ 7)%nat.
Proof. unfold head_records. by destruct ok; cbn; lia. Qed.
Lemma length_cpu f s : (length (cpu_records f s) ≤ 8)%nat.
Proof. unfold cpu_records. destruct (cstr (brand f)); cbn; lia. Qed.
Lemma length_degraded f w : Cpuid.report f = Ret w → (length w ≤ 3)%nat.
Proof.
  unfold Cpuid.report. intros H. res_inv. subst w. destruct (smep f), (smap f), (tsc_invariant f), (tsc f); cbn; lia.
Qed.
Lemma length_entropy s : (length (entropy_records s) ≤ 1)%nat.
Proof. destruct s; cbn; lia. Qed.
Lemma length_long_mode f a b c d : (length (long_mode_records f a b c d) ≤ 4)%nat.
Proof. unfold long_mode_records. destruct (smep f), (smap f); cbn; lia. Qed.
Lemma length_boot_info boot : HVec.wf boot.(mmap) → (length (boot_info_records boot) ≤ 69)%nat.
Proof.
  intros Hw. pose proof (HVec.length_as_slice _ Hw) as Hl. destruct Hw as [_ Hn]. unfold MMAP_CAP in Hn.
  unfold boot_info_records. rewrite !length_app, length_fmap. cbn [length]. lia.
Qed.
Lemma length_params p : (length (params_records p) ≤ 2)%nat.
Proof. unfold params_records. destruct (negb _), (Params.single p); cbn; lia. Qed.
Lemma length_reserve ks ke boot : (length (reserve_records ks ke boot) ≤ 5)%nat.
Proof. unfold reserve_records. repeat case_match; cbn; lia. Qed.
Lemma length_memory u t s : (length (memory_records u t s) ≤ 2)%nat.
Proof. unfold memory_records. case_match; cbn; lia. Qed.
Lemma length_syscall f m : (length (syscall_records f m) ≤ 3)%nat.
Proof. unfold syscall_records. repeat case_match; cbn; lia. Qed.
Lemma length_framebuffer boot b : (length (framebuffer_records boot b) ≤ 3)%nat.
Proof. unfold framebuffer_records. repeat case_match; cbn; lia. Qed.

(** The banner cannot overflow on a machine whose memory map adds up. *)
Lemma banner_ok build_id boot p i n :
  0 ≤ n.(n_stats).(s_free_frames) → n.(n_stats).(s_free_frames) * 4096 < U64 →
  (∃ t, sum_lengths (HVec.as_slice boot.(mmap)) = Ret t) → 0 ≤ i.(text_va) + i.(text_mapped) < U64 →
  ∃ rs, banner build_id boot p i n = Ret rs ∧ length rs = 21%nat ∧
    kmain_rec Info 792 (protection_line n) ∈ rs ∧ kmain_rec Info 801 (selftest_line p n) ∈ rs.
Proof.
  intros H0 H1 [t Ht] Hx. unfold banner. rewrite mul64_ok by lia. cbn [mbind Res_bind]. rewrite Ht. cbn [mbind Res_bind].
  rewrite add64_ok by lia. cbn [mbind Res_bind]. eexists. split; [reflexivity|]. split; [reflexivity|].
  split; [do 11 right; left|do 13 right; left].
Qed.

(** What the formats look like. *)
Example kib_1_examples : kib_1 1024 = lit "1.0" ∧ kib_1 1280 = lit "1.2" ∧ kib_1 1792 = lit "1.8" ∧ kib_1 123456 = lit "120.6".
Proof. by vm_compute. Qed.

Example trim_example : trim (lit "  orink 0.1 " ++ [10]) = lit "orink 0.1" ∧ trimmed_build_id [10] = lit "<not stamped by the build>".
Proof. by vm_compute. Qed.
