(* ===== verification/SelftestPmm.v ===== *)
(** * The self-test's frame-allocator suite (kernel/src/selftest.rs)

    The five tests that exercise the frame allocator, run on the state they
    change.  A test's [Result<String, String>] is [Passed] or [Failed] with the
    fixed part of the message. *)

From stdpp Require Import base gmap sets list list_numbers strings numbers sorting.
From Stdlib Require Import ZArith Lia.
From S2P Require Import Prelude Arch BootInfo Bitmap Pmm PmmSpec.
#[local] Open Scope Z_scope.

Inductive TestResult : Type := Passed | Failed (why : string).

#[export] Instance TestResult_eq_dec : EqDecision TestResult.
Proof. solve_decision. Defined.

(** [w.windows(2)] finds two equal neighbours. *)
Fixpoint has_dup (l : list Z) : bool :=
  match l with
  | a :: ((b :: _) as l') => (a =? b) || has_dup l'
  | _ => false
  end.

Definition inside (pa : Z) (r : Z * Z) : bool := (r.1 <=? pa) && (pa <? r.2).

Section PmmTests.
Context `{X : X86Crate}.
Context (debug : bool).

(** The allocator and memory. *)
Abbreviation S := (Pmm * phys)%type.

Definition free_frame (pa : Z) (st : S) : Res S := deallocate_frame debug st.1 st.2 pa.

(** [n] more frames, or [None] as soon as there is none. *)
Fixpoint collect (n : nat) (got : list Z) (s : Pmm) : Res (option (list Z) * Pmm) :=
  match n with
  | O => Ret (Some got, s)
  | Datatypes.S n' =>
      '(r, s) ← allocate_frame s;
      match r with
      | None => Ret (None, s)
      | Some pa => collect n' (got ++ [pa]) s
      end
  end.

Definition test_pmm_unique (bp : Z) (st : S) : Res (TestResult * S) :=
  '(r, s) ← collect 512 [] st.1;
  let st := (s, st.2) in
  match r with
  | None => Ret (Failed "PMM ran out of frames during self-test", st)
  | Some got =>
      if has_dup (merge_sort Z.le got) then Ret (Failed "frame was handed out twice", st)
      else
        ks ← kernel_phys_start st.2 bp;
        ke ← kernel_phys_end st.2 bp;
        if existsb (fun p => inside p (ks, ke)) got then
          Ret (Failed "PMM handed out a frame inside the kernel image", st)
        else
          st ← for_list got st free_frame;
          Ret (Passed, st)
  end.

(** Allocate a frame, look at it, give it back, [n] times or until there is no
    frame; [inr tt] when a frame is [bad]. *)
Fixpoint probe (n : nat) (bad : Z → bool) (checked : Z) (st : S) : Res ((Z + unit) * S) :=
  match n with
  | O => Ret (inl checked, st)
  | Datatypes.S n' =>
      '(r, s) ← allocate_frame st.1;
      match r with
      | None => Ret (inl checked, (s, st.2))
      | Some pa =>
          if bad pa then st ← free_frame pa (s, st.2); Ret (inr tt, st)
          else
            c ← add64 checked 1;
            st ← free_frame pa (s, st.2);
            probe n' bad c st
      end
  end.

(** The ranges [test_pmm_reserve_excluded] checks against. *)
Definition reserved_ranges (ks ke : Z) : list (Z * Z) :=
  [(0x0, 0x1000); (0xA0000, 0xC0000); (ks, ke); (0xB8000, 0xB9000)].

Definition test_pmm_reserve_excluded (bp : Z) (st : S) : Res (TestResult * S) :=
  ks ← kernel_phys_start st.2 bp;
  ke ← kernel_phys_end st.2 bp;
  '(r, st) ← probe 2048 (fun pa => existsb (inside pa) (reserved_ranges ks ke)) 0 st;
  match r with
  | inr _ => Ret (Failed "PMM handed out a frame from a reserved range", st)
  | inl checked =>
      if checked =? 0 then Ret (Failed "no frames available to check", st) else Ret (Passed, st)
  end.

(** The 64 probe allocations of [test_pmm_contiguous]: a frame of the run must
    not come back.  Without a free frame the iteration does nothing. *)
Fixpoint avoid (n : nat) (base end_ : Z) (st : S) : Res (bool * S) :=
  match n with
  | O => Ret (true, st)
  | Datatypes.S n' =>
      '(r, s) ← allocate_frame st.1;
      match r with
      | None => avoid n' base end_ (s, st.2)
      | Some pa =>
          if inside pa (base, end_) then Ret (false, (s, st.2))
          else st ← free_frame pa (s, st.2); avoid n' base end_ st
      end
  end.

(** Giving the run of 16 back. *)
Definition free_run (base : Z) (st : S) : Res S :=
  st ← free_frame base st;
  for_range 1 16 st (fun i st => pa ← add64 base (i * PAGE_SIZE); free_frame pa st).

Definition test_pmm_contiguous (st : S) : Res (TestResult * S) :=
  '(r, s) ← allocate_contiguous st.1 16 4;
  let st := (s, st.2) in
  match r with
  | None => Ret (Failed "could not allocate 16 contiguous frames aligned to 4", st)
  | Some base =>
      if negb (base mod (PAGE_SIZE * 4) =? 0) then Ret (Failed "base is not 4-frame aligned", st)
      else
        end_ ← add64 base (16 * PAGE_SIZE);
        '(ok, st) ← avoid 64 base end_ st;
        if negb (ok : bool) then Ret (Failed "frame inside the contiguous run was re-allocated", st)
        else
          st ← free_run base st;
          Ret (Passed, st)
  end.

Definition test_pmm_double_free (st : S) : Res (TestResult * S) :=
  '(r, s) ← allocate_frame st.1;
  match r with
  | None => Ret (Failed "no frame", (s, st.2))
  | Some f =>
      st ← free_frame f (s, st.2);
      let before := s_free_frames (stats st.1) in
      '(r, s) ← allocate_frame st.1;
      st ← (match r with Some g => free_frame g (s, st.2) | None => Ret (s, st.2) end);
      let after := s_free_frames (stats st.1) in
      if negb (after =? before) then Ret (Failed "free frame count changed across alloc+free", st)
      else Ret (Passed, st)
  end.

Definition test_pmm_no_boot_map_leak (st : S) : Res (TestResult * S) :=
  let max := s_max_phys (stats st.1) in
  '(r, st) ← probe 4096 (fun pa => max <=? pa) 0 st;
  match r with
  | inr _ => Ret (Failed "PMM handed out a frame at or above max_phys", st)
  | inl _ => Ret (Passed, st)
  end.

(** The tests in the order of [run_all]. *)
Definition pmm_suite (bp : Z) (st : S) : Res (list TestResult * S) :=
  '(r1, st) ← test_pmm_unique bp st;
  '(r2, st) ← test_pmm_reserve_excluded bp st;
  '(r3, st) ← test_pmm_contiguous st;
  '(r4, st) ← test_pmm_double_free st;
  '(r5, st) ← test_pmm_no_boot_map_leak st;
  Ret ([r1; r2; r3; r4; r5], st).

End PmmTests.

(** ** Facts (release build) *)

Lemma NoDup_has_dup l : NoDup l → has_dup l = false.
Proof.
  induction 1 as [|a l Ha Hl IH]; [done|]. destruct l as [|b l]; [done|]. cbn [has_dup] in *. rewrite IH.
  rewrite orb_false_r. apply Z.eqb_neq. intros ->. apply Ha. left.
Qed.

Section PmmTestFacts.
Context `{X : X86Crate}.

(** The allocator is usable. *)
Definition ready (s : Pmm) : Prop := pmm_inv s.(PMM) ∧ s.(PMM).(initialised) = true ∧ 0 ≤ s.(CURSOR).

Lemma free_frame_ok i s m :
  ready s → 0 ≤ i < MAX_FRAMES → i ∉ frames s.(PMM) →
  ∃ s', free_frame false (i * FRAME_SIZE) (s, m) = Ret (s', m) ∧ ready s' ∧ frames s'.(PMM) = {[i]} ∪ frames s.(PMM).
Proof.
  intros (Hp & Hi & Hc) Hr Hn. rewrite MAX_FRAMES_val in Hr. unfold free_frame. cbn [fst snd].
  destruct (deallocate_ok false s m (i * FRAME_SIZE)) as (p' & -> & Hp' & Hf & (_ & _ & _ & Hini) & _);
    [done|unfold FRAME_SIZE, MAX_PHYS, BOOT_MAPPED_BYTES; lia|by rewrite frame_of_addr|done|].
  eexists. split; [reflexivity|]. rewrite frame_of_addr in Hf. split; [|exact Hf]. split; [exact Hp'|]. split; [cbn; congruence|exact Hc].
Qed.

(** Taking a frame. *)
Lemma alloc_cases s :
  ready s →
  (frames s.(PMM) = ∅ ∧ allocate_frame s = Ret (None, s)) ∨
  (∃ i s', allocate_frame s = Ret (Some (i * FRAME_SIZE), s') ∧ ready s' ∧ i ∈ frames s.(PMM) ∧ 0 ≤ i < MAX_FRAMES ∧
     frames s'.(PMM) = frames s.(PMM) ∖ {[i]}).
Proof.
  intros (Hp & Hi & Hc). destruct (allocate_frame_ok s Hp Hi Hc) as ([pa|] & s' & Ha & Hp' & Hi' & Hc' & Hr).
  - right. destruct Hr as (i & -> & Hin & Hf). exists i, s'. split; [done|]. split; [exact (conj Hp' (conj Hi' Hc'))|]. split; [done|].
    split; [exact (frames_range _ i Hp Hin)|done].
  - left. destruct Hr as [He ->]. done.
Qed.

(** Taking a frame and giving it back. *)
Lemma alloc_free_cases s m :
  ready s →
  (frames s.(PMM) = ∅ ∧ allocate_frame s = Ret (None, s)) ∨
  (∃ i s1 s2, allocate_frame s = Ret (Some (i * FRAME_SIZE), s1) ∧ i ∈ frames s.(PMM) ∧
     free_frame false (i * FRAME_SIZE) (s1, m) = Ret (s2, m) ∧ ready s2 ∧ frames s2.(PMM) = frames s.(PMM)).
Proof.
  intros Hs. destruct (alloc_cases s Hs) as [?|(i & s1 & E & Hs1 & Hin & Hi & Hf)]; [by left|right].
  destruct (free_frame_ok i s1 m Hs1 Hi) as (s2 & E2 & Hs2 & Hf2); [rewrite Hf; set_solver|].
  exists i, s1, s2. split; [done|]. split; [done|]. split; [done|]. split; [done|].
  rewrite Hf2, Hf. apply set_eq. intros j. destruct (decide (j = i)); set_solver.
Qed.

Lemma collect_ok n got s :
  ready s → (n ≤ size (frames s.(PMM)))%nat →
  ∃ js s', collect n got s = Ret (Some (got ++ ((fun i => i * FRAME_SIZE) <$> js)), s') ∧ ready s' ∧
    NoDup js ∧ length js = n ∧ (list_to_set js : gset Z) ⊆ frames s.(PMM) ∧ frames s'.(PMM) = frames s.(PMM) ∖ list_to_set js.
Proof.
  revert got s. induction n as [|n IH]; intros got s Hs Hn; cbn [collect].
  { exists [], s. rewrite app_nil_r. split; [done|]. split; [done|]. split; [constructor|]. split; [done|]. cbn. split; set_solver. }
  destruct (alloc_cases s Hs) as [[He _]|(i & s1 & -> & Hs1 & Hin & _ & Hf)]; [rewrite He, size_empty in Hn; lia|].
  cbn [mbind Res_bind]. destruct (IH (got ++ [i * FRAME_SIZE]) s1 Hs1) as (js & s' & -> & Hs' & Hnd & Hl & Hsub & Hf').
  { rewrite Hf, size_difference, size_singleton by set_solver. lia. }
  exists (i :: js), s'. split; [by rewrite <- app_assoc|]. split; [done|]. split; [|split; [cbn; lia|]].
  - constructor; [|done]. intros Hi. assert (i ∈ frames s1.(PMM)) as H by (apply Hsub; by apply elem_of_list_to_set).
    rewrite Hf in H. set_solver.
  - cbn. rewrite Hf', Hf. rewrite Hf in Hsub. split; set_solver.
Qed.

Lemma free_all_ok js s m :
  ready s → NoDup js → (∀ i, i ∈ js → 0 ≤ i < MAX_FRAMES ∧ i ∉ frames s.(PMM)) →
  ∃ s', for_list ((fun i => i * FRAME_SIZE) <$> js) (s, m) (free_frame false) = Ret (s', m) ∧ ready s' ∧
    frames s'.(PMM) = list_to_set js ∪ frames s.(PMM).
Proof.
  intros Hs Hnd. revert s Hs. induction Hnd as [|i js Hi Hnd IH]; intros s Hs Hall; cbn [fmap list_fmap for_list].
  { exists s. split; [done|]. split; [done|]. cbn. set_solver. }
  destruct (Hall i) as [Hr Hn]; [left|]. destruct (free_frame_ok i s m Hs Hr Hn) as (s1 & -> & Hs1 & Hf1).
  cbn [mbind Res_bind]. destruct (IH s1 Hs1) as (s' & -> & Hs' & Hf').
  - intros j Hj. destruct (Hall j) as [? ?]; [by right|]. split; [done|]. rewrite Hf1. set_solver.
  - exists s'. split; [done|]. split; [done|]. rewrite Hf', Hf1. cbn. set_solver.
Qed.

Lemma probe_ok n bad c s m :
  ready s → (∀ i, i ∈ frames s.(PMM) → bad (i * FRAME_SIZE) = false) → 0 ≤ c → c + Z.of_nat n < U64 →
  ∃ s' c', probe false n bad c (s, m) = Ret (inl c', (s', m)) ∧ ready s' ∧ frames s'.(PMM) = frames s.(PMM) ∧ c ≤ c' ∧
    ((0 < n)%nat → frames s.(PMM) ≠ ∅ → c < c').
Proof.
  revert c s. induction n as [|n IH]; intros c s Hs Hb Hc Hn; cbn [probe fst snd].
  { exists s, c. split; [done|]. split; [done|]. split; [done|]. split; lia. }
  destruct (alloc_free_cases s m Hs) as [[He ->]|(i & s1 & s2 & -> & Hin & E & Hs2 & Hf)].
  { cbn [mbind Res_bind]. exists s, c. split; [done|]. split; [done|]. split; [done|]. split; [lia|done]. }
  cbn [mbind Res_bind]. rewrite (Hb i Hin), add64_ok by lia. cbn [mbind Res_bind]. rewrite E. cbn [mbind Res_bind].
  destruct (IH (c + 1) s2 Hs2) as (s' & c' & -> & Hs' & Hf' & Hc' & _); [by rewrite Hf|lia|lia|].
  exists s', c'. split; [done|]. split; [done|]. split; [congruence|]. split; lia.
Qed.

Lemma avoid_ok n base end_ s m :
  ready s → (∀ i, i ∈ frames s.(PMM) → inside (i * FRAME_SIZE) (base, end_) = false) →
  ∃ s', avoid false n base end_ (s, m) = Ret (true, (s', m)) ∧ ready s' ∧ frames s'.(PMM) = frames s.(PMM).
Proof.
  revert s. induction n as [|n IH]; intros s Hs Hb; cbn [avoid fst snd]; [by exists s|].
  destruct (alloc_free_cases s m Hs) as [[He ->]|(i & s1 & s2 & -> & Hin & E & Hs2 & Hf)]; cbn [mbind Res_bind]; [by apply IH|].
  rewrite (Hb i Hin), E. cbn [mbind Res_bind]. destruct (IH s2 Hs2) as (s' & -> & Hs' & Hf'); [by rewrite Hf|].
  exists s'. split; [done|]. split; [done|]. congruence.
Qed.

(** *** The tests *)

Section Suite.
Context (bp ks ke : Z) (m : phys).
Hypothesis start_ok : kernel_phys_start m bp = Ret ks.
Hypothesis end_ok : kernel_phys_end m bp = Ret ke.

(** No free frame starts in a reserved range. *)
Definition excludes (s : Pmm) : Prop :=
  ∀ i, i ∈ frames s.(PMM) → existsb (inside (i * FRAME_SIZE)) (reserved_ranges ks ke) = false.

(** [t] passes and gives back what it took. *)
Definition passes (t : Pmm * phys → Res (TestResult * (Pmm * phys))) (s : Pmm) : Prop :=
  ∃ s', t (s, m) = Ret (Passed, (s', m)) ∧ ready s' ∧ frames s'.(PMM) = frames s.(PMM).

Lemma unique_passes s :
  ready s → excludes s → (512 ≤ size (frames s.(PMM)))%nat → passes (test_pmm_unique false bp) s.
Proof.
  intros Hs Hex Hn. unfold passes, test_pmm_unique. cbn [fst snd].
  destruct (collect_ok 512 [] s Hs Hn) as (js & s1 & -> & Hs1 & Hnd & _ & Hsub & Hf). cbn [mbind Res_bind app fst snd].
  assert (NoDup ((fun i => i * FRAME_SIZE) <$> js)) as Hnd2.
  { apply NoDup_fmap_2; [|done]. intros x y Hxy. unfold FRAME_SIZE in Hxy. lia. }
  rewrite NoDup_has_dup by (by rewrite merge_sort_Permutation). rewrite start_ok. cbn [mbind Res_bind]. rewrite end_ok. cbn [mbind Res_bind].
  assert (existsb (fun p => inside p (ks, ke)) ((fun i => i * FRAME_SIZE) <$> js) = false) as ->.
  { apply not_true_iff_false. intros (p & (i & <- & Hi)%in_map_iff & Hp)%existsb_exists.
    assert (i ∈ frames s.(PMM)) as Hin by (apply Hsub, elem_of_list_to_set; by apply list_elem_of_In).
    specialize (Hex i Hin). cbn [reserved_ranges existsb] in Hex. rewrite Hp in Hex. by rewrite !orb_true_r in Hex. }
  destruct (free_all_ok js s1 m Hs1 Hnd) as (s2 & -> & Hs2 & Hf2).
  { intros i Hi. assert (i ∈ frames s.(PMM)) as Hin by (apply Hsub; by apply elem_of_list_to_set).
    split; [exact (frames_range _ i (proj1 Hs) Hin)|]. rewrite Hf. intros [_ H]%elem_of_difference.
    by apply H, elem_of_list_to_set. }
  cbn [mbind Res_bind]. exists s2. split; [done|]. split; [done|]. rewrite Hf2, Hf.
  symmetry. by apply union_difference_L.
Qed.

Lemma reserve_excluded_passes s :
  ready s → excludes s → frames s.(PMM) ≠ ∅ → passes (test_pmm_reserve_excluded false bp) s.
Proof.
  intros Hs Hex Hne. unfold passes, test_pmm_reserve_excluded. cbn [snd]. rewrite start_ok. cbn [mbind Res_bind].
  rewrite end_ok. cbn [mbind Res_bind].
  destruct (probe_ok 2048 (fun pa => existsb (inside pa) (reserved_ranges ks ke)) 0 s m Hs Hex) as (s' & c & -> & Hs' & Hf & _ & Hc);
    [lia|rewrite U64_val; lia|]. cbn [mbind Res_bind]. destruct (Z.eqb_spec c 0); [|by exists s'].
  specialize (Hc ltac:(lia) Hne). lia.
Qed.

(** Wherever the cursor is, an aligned run of 16 lies on one side of it. *)
Definition roomy (s : Pmm) : Prop :=
  ∀ c, ∃ i, 0 ≤ i ∧ i + 16 ≤ MAX_FRAMES ∧ i mod 4 = 0 ∧ (c ≤ i ∨ i + 16 ≤ c) ∧ run i 16 ⊆ frames s.(PMM).

Lemma free_run_ok b s :
  ready s → 0 ≤ b → b + 16 ≤ MAX_FRAMES → run b 16 ## frames s.(PMM) →
  ∃ s', free_run false (b * FRAME_SIZE) (s, m) = Ret (s', m) ∧ ready s' ∧ frames s'.(PMM) = run b 16 ∪ frames s.(PMM).
Proof.
  intros Hs Hb0 Hb1 Hd. rewrite MAX_FRAMES_val in Hb1. unfold free_run.
  assert (∀ i, 0 ≤ i < 16 → b + i ∉ frames s.(PMM)) as Hout.
  { intros i Hi Hin. apply (Hd (b + i)); [|done]. apply elem_of_zrange. lia. }
  destruct (free_frame_ok b s m Hs) as (s3 & -> & Hs3 & Hf3); [rewrite MAX_FRAMES_val; lia| |].
  { specialize (Hout 0). rewrite Z.add_0_r in Hout. apply Hout. lia. }
  rewrite Ret_bind.
  destruct (for_range_inv (fun i st => ∃ s', st = (s', m) ∧ ready s' ∧ frames s'.(PMM) = run b i ∪ frames s.(PMM)) 1 16 (s3, m)
    (fun i st => pa ← add64 (b * FRAME_SIZE) (i * PAGE_SIZE); free_frame false pa st)) as (st & E & s4 & -> & Hs4 & Hf4).
  - lia.
  - exists s3. split; [done|]. split; [done|]. by rewrite Hf3, zrange_singleton.
  - intros i st Hi1 (s' & -> & Hs' & Hf'). unfold FRAME_SIZE, PAGE_SIZE. rewrite add64_ok by (rewrite U64_val; lia). rewrite Ret_bind.
    destruct (free_frame_ok (b + i) s' m Hs') as (s'' & E & Hs'' & Hf'').
    + rewrite MAX_FRAMES_val. lia.
    + rewrite Hf'. intros [H%elem_of_zrange|H]%elem_of_union; [lia|]. apply (Hout i); [lia|done].
    + exists (s'', m). split; [rewrite <- E; f_equal; unfold FRAME_SIZE; lia|].
      exists s''. split; [done|]. split; [done|]. rewrite Hf'', Hf', (Z.add_assoc b i 1), zrange_snoc by lia. set_solver.
  - exists s4. split; [exact E|]. by split.
Qed.

Lemma contiguous_passes s :
  ready s → roomy s → passes (test_pmm_contiguous false) s.
Proof.
  intros Hs Hrun. pose proof Hs as (Hp & Hi & Hc). unfold passes, test_pmm_contiguous. cbn [fst snd].
  destruct (allocate_contiguous_ok s 16 4) as (r & s1 & -> & Hp1 & Hc1 & Hok); [done|done|done|lia..|].
  rewrite Ret_bind. destruct r as [b|]; cbn [fmap option_fmap option_map].
  2:{ exfalso. destruct Hok as [_ Hno]. destruct (Hrun (Z.min s.(CURSOR) MAX_FRAMES)) as (i & H1 & H2 & H3 & H4 & H5).
      by apply (Hno i). }
  destruct Hok as (Hb0 & Hb1 & Hsub & Hal & Hf & _ & (_ & _ & _ & Hini) & _). rewrite MAX_FRAMES_val in Hb1.
  assert (b mod 4 = 0) as Hb4 by (apply Hal; lia).
  assert (ready s1) as Hs1 by (split; [done|]; split; [congruence|done]).
  unfold FRAME_SIZE, PAGE_SIZE. rewrite (proj2 (Z.eqb_eq (b * 4096 mod (4096 * 4)) 0)) by zlia. cbn [negb].
  rewrite add64_ok by (rewrite U64_val; lia). rewrite Ret_bind.
  destruct (avoid_ok 64 (b * 4096) (b * 4096 + 16 * 4096) s1 m Hs1) as (s2 & -> & Hs2 & Hf2).
  { intros i Hin. rewrite Hf in Hin. apply elem_of_difference in Hin as [_ Hin]. rewrite elem_of_zrange in Hin.
    unfold inside, FRAME_SIZE. cbn [fst snd]. destruct (Z.leb_spec (b * 4096) (i * 4096)), (Z.ltb_spec (i * 4096) (b * 4096 + 16 * 4096)); cbn; lia. }
  rewrite Ret_bind. cbn [negb].
  destruct (free_run_ok b s2 Hs2) as (s3 & E3 & Hs3 & Hf3);
    [done|rewrite MAX_FRAMES_val; lia|rewrite Hf2, Hf; set_solver|].
  unfold FRAME_SIZE in E3. rewrite E3, Ret_bind. exists s3. split; [done|]. split; [done|].
  rewrite Hf3, Hf2, Hf. symmetry. by apply union_difference_L.
Qed.

Lemma double_free_passes s : ready s → frames s.(PMM) ≠ ∅ → passes (test_pmm_double_free false) s.
Proof.
  intros Hs Hne. unfold passes, test_pmm_double_free. cbn [fst snd].
  destruct (alloc_free_cases s m Hs) as [[He _]|(i & s1 & s2 & -> & _ & E & Hs2 & Hf2)]; [done|]. cbn [mbind Res_bind].
  rewrite E. cbn [mbind Res_bind fst snd].
  destruct (alloc_free_cases s2 m Hs2) as [[He _]|(j & s3 & s4 & -> & _ & E4 & Hs4 & Hf4)]; [congruence|]. cbn [mbind Res_bind].
  rewrite E4. cbn [mbind Res_bind fst snd]. unfold stats. cbn [s_free_frames].
  rewrite (inv_count _ (proj1 Hs2)), (inv_count _ (proj1 Hs4)), Hf4, Z.eqb_refl. cbn [negb].
  exists s4. split; [done|]. split; [done|]. congruence.
Qed.

Lemma no_leak_passes s : ready s → passes (test_pmm_no_boot_map_leak false) s.
Proof.
  intros Hs. unfold passes, test_pmm_no_boot_map_leak. cbn [fst snd stats s_max_phys].
  destruct (probe_ok 4096 (fun pa => MAX_PHYS <=? pa) 0 s m Hs) as (s' & c & -> & Hs' & Hf & _).
  - intros i Hi. apply Z.leb_gt. pose proof (frames_range _ i (proj1 Hs) Hi) as H. rewrite MAX_FRAMES_val in H.
    unfold FRAME_SIZE, MAX_PHYS, BOOT_MAPPED_BYTES. lia.
  - lia.
  - rewrite U64_val. lia.
  - cbn [mbind Res_bind]. by exists s'.
Qed.

(** *** The suite *)

Lemma suite_passes s :
  ready s → excludes s → roomy s → (512 ≤ size (frames s.(PMM)))%nat →
  ∃ s', pmm_suite false bp (s, m) = Ret ([Passed; Passed; Passed; Passed; Passed], (s', m)) ∧ ready s' ∧
    frames s'.(PMM) = frames s.(PMM).
Proof.
  intros Hs Hex Hroom Hn. assert (frames s.(PMM) ≠ ∅) as Hne by (intros E; rewrite E, size_empty in Hn; lia).
  unfold pmm_suite. destruct (unique_passes s Hs Hex Hn) as (s1 & -> & Hs1 & F1). rewrite Ret_bind.
  destruct (reserve_excluded_passes s1 Hs1) as (s2 & -> & Hs2 & F2); [unfold excludes; by rewrite F1|by rewrite F1|]. rewrite Ret_bind.
  destruct (contiguous_passes s2 Hs2) as (s3 & -> & Hs3 & F3); [unfold roomy; by rewrite F2, F1|]. rewrite Ret_bind.
  destruct (double_free_passes s3 Hs3) as (s4 & -> & Hs4 & F4); [by rewrite F3, F2, F1|]. rewrite Ret_bind.
  destruct (no_leak_passes s4 Hs4) as (s5 & -> & Hs5 & F5). rewrite Ret_bind.
  exists s5. split; [done|]. split; [done|]. congruence.
Qed.

End Suite.

End PmmTestFacts.
