(* ===== verification/HeapTest.v ===== *)
(** * The heap's self-test (kernel/src/memory/heap.rs, [selftest])

    The global allocator is the linked_list_allocator crate: here it is any
    implementation of [GlobalAlloc], the contract of core::alloc::GlobalAlloc.
    [Vec] and [Box] are modelled on top of it, down to the growth of a vector's
    buffer, and an access outside a live block, or a free with the wrong layout,
    is a fault.  The proofs use a small separation logic over the live blocks. *)

From stdpp Require Import base gmap sets list list_numbers strings numbers.
From Stdlib Require Import ZArith Lia.
From S2P Require Import Prelude Arch BootInfo Multiboot MultibootSpec Heap SelftestPmm.
#[local] Open Scope Z_scope.

(** ** The allocator's contract *)

(** [ga_alloc size align] returns an address and the bytes found there;
    [ga_live] is the layout of each outstanding block. *)
Class GlobalAlloc (A : Type) : Type := {
  ga_alloc : Z → Z → A → option (Z * bytes) * A;
  ga_dealloc : Z → Z → Z → A → A;
  ga_live : A → gmap Z (Z * Z);
}.

Class GlobalAllocLaws (A : Type) `{GlobalAlloc A} : Prop := {
  ga_alloc_some n al a p bs a' : 0 < n → 0 < al → ga_alloc n al a = (Some (p, bs), a') →
    ga_live a !! p = None ∧ p mod al = 0 ∧ 0 < p < U64 ∧ Z.of_nat (length bs) = n ∧ ga_live a' = <[p := (n, al)]> (ga_live a);
  ga_alloc_none n al a a' : ga_alloc n al a = (None, a') → ga_live a' = ga_live a;
  ga_dealloc_live p n al a : ga_live a !! p = Some (n, al) → ga_live (ga_dealloc p n al a) = delete p (ga_live a);
}.

(** Memory: the bytes of each live block, with its alignment. *)
Abbreviation block := (Z * bytes)%type.

Record Mem (A : Type) : Type := mkMem { alloc_state : A; live : gmap Z block }.
Arguments mkMem {A} _ _.
Arguments alloc_state {A} _.
Arguments live {A} _.

Definition UB : fault := PanicMsg "undefined behaviour".
(** [handle_alloc_error] *)
Definition OOM : fault := PanicMsg "memory allocation failed".

Record Vec : Type := mkVec { ptr : Z; cap : Z; len : Z }.

Section Heap.
Context {A : Type} `{GA : GlobalAlloc A}.

Definition M (X : Type) : Type := Mem A → Res (X * Mem A).
#[export] Instance M_ret : MRet M := fun X x h => Ret (x, h).
#[export] Instance M_bind : MBind M := fun X Y f c h => '(x, h) ← c h; f x h.

Definition throw {X} (f : fault) : M X := fun _ => Panic f.

Definition galloc (n al : Z) : M (option Z) := fun h =>
  match ga_alloc n al h.(alloc_state) with
  | (Some (p, bs), a) => Ret (Some p, mkMem a (<[p := (al, bs)]> h.(live)))
  | (None, a) => Ret (None, mkMem a h.(live))
  end.

Definition gdealloc (p n al : Z) : M () := fun h =>
  match h.(live) !! p with
  | Some (al', bs) =>
      if (al' =? al) && (Z.of_nat (length bs) =? n)
      then Ret ((), mkMem (ga_dealloc p n al h.(alloc_state)) (delete p h.(live))) else Panic UB
  | None => Panic UB
  end.

Definition load (p off n : Z) : M bytes := fun h =>
  match h.(live) !! p with
  | Some (_, bs) =>
      if (0 <=? off) && (off + n <=? Z.of_nat (length bs)) then Ret (take (Z.to_nat n) (drop (Z.to_nat off) bs), h) else Panic UB
  | None => Panic UB
  end.

(** [bs] with the bytes from [off] on replaced. *)
Definition patch (off : nat) (d bs : bytes) : bytes := take off bs ++ d ++ drop (off + length d) bs.

Definition store (p off : Z) (d : bytes) : M () := fun h =>
  match h.(live) !! p with
  | Some (al, bs) =>
      if (0 <=? off) && (off + Z.of_nat (length d) <=? Z.of_nat (length bs))
      then Ret ((), mkMem h.(alloc_state) (<[p := (al, patch (Z.to_nat off) d bs)]> h.(live))) else Panic UB
  | None => Panic UB
  end.

(** ** [Box<[u8; 64]>] and [Vec] of 8-byte elements *)

Definition infallible (n al : Z) : M Z := p ← galloc n al; match p with Some p => mret p | None => throw OOM end.

Definition box_new (d : bytes) : M Z := p ← infallible 64 1; _ ← store p 0 d; mret p.
Definition box_drop (p : Z) : M () := gdealloc p 64 1.

Definition vec_new : Vec := mkVec 8 0 0.
Definition vec_with_capacity (n : Z) : M Vec := p ← infallible (8 * n) 8; mret (mkVec p n 0).
(** [GlobalAlloc::realloc]: a new block, a copy, and the old one freed. *)
Definition vec_grow (v : Vec) : M Vec :=
  let c := Z.max (2 * v.(cap)) (Z.max (v.(len) + 1) 4) in
  p ← infallible (8 * c) 8;
  _ ← (if v.(cap) =? 0 then mret ()
       else bs ← load v.(ptr) 0 (8 * v.(cap)); _ ← store p 0 bs; gdealloc v.(ptr) (8 * v.(cap)) 8);
  mret (mkVec p c v.(len)).
Definition vec_push (v : Vec) (x : Z) : M Vec :=
  v ← (if v.(len) =? v.(cap) then vec_grow v else mret v);
  _ ← store v.(ptr) (8 * v.(len)) (le_bytes 8 x);
  mret (mkVec v.(ptr) v.(cap) (v.(len) + 1)).
Definition vec_get (v : Vec) (i : Z) : M Z := bs ← load v.(ptr) (8 * i) 8; mret (from_le_bytes bs).
Definition vec_free (v : Vec) : M () := if v.(cap) =? 0 then mret () else gdealloc v.(ptr) (8 * v.(cap)) 8.

Fixpoint mfor {X S} (l : list X) (s : S) (f : X → S → M S) : M S :=
  match l with [] => mret s | x :: l => s ← f x s; mfor l s f end.

(** The drop glue of a [Vec<Box<..>>]. *)
Definition boxes_drop (v : Vec) : M () :=
  _ ← mfor (seqZ 0 v.(len)) () (fun i _ => p ← vec_get v i; box_drop p);
  vec_free v.

(** ** [heap::selftest]: [Some why] is [Err(why)] *)

Definition PHI : Z := 0x9E3779B97F4A7C15.
Definition pattern (i : Z) : Z := wrap64 (i * PHI).

(** Does any element differ from the pattern? *)
Fixpoint any_bad {X} (bad : X → M bool) (l : list X) : M bool :=
  match l with [] => mret false | x :: l => b ← bad x; if (b : bool) then mret true else any_bad bad l end.

Definition box_bad (v : Vec) (i : Z) : M bool :=
  p ← vec_get v i; b0 ← load p 0 1;
  if negb (bool_decide (b0 = [0x5A])) then mret true
  else b63 ← load p 63 1; mret (negb (bool_decide (b63 = [0xA5]))).

(** [Box::new([0xA5u8; 64])] with its first byte set. *)
Definition marked_box : M Z := b ← box_new (replicate 64 0xA5); _ ← store b 0 [0x5A]; mret b.
Definition keep_even (blocks : Vec) (i : Z) (kept : Vec) : M Vec :=
  b ← vec_get blocks i; if i mod 2 =? 0 then vec_push kept b else _ ← box_drop b; mret kept.

(** The 4 KiB block at the end. *)
Definition raw_test : M (option string) :=
  r ← galloc 4096 4096;
  match r with
  | None => mret (Some "heap: 4 KiB aligned allocation returned null"%string)
  | Some raw =>
      _ ← store raw 0 (replicate 4096 0x3C);
      b ← load raw 4095 1;
      if negb (bool_decide (b = [0x3C])) then
        _ ← gdealloc raw 4096 4096; mret (Some "heap: 4 KiB block not fully writable"%string)
      else _ ← gdealloc raw 4096 4096; mret None
  end.

Definition selftest : M (option string) :=
  v ← vec_with_capacity 256;
  v ← mfor (seqZ 0 256) v (fun i v => vec_push v (pattern i));
  bad ← any_bad (fun i => x ← vec_get v i; mret (negb (x =? pattern i))) (seqZ 0 v.(len));
  _ ← vec_free v;
  if (bad : bool) then mret (Some "heap: read-back mismatch"%string)
  else
    blocks ← mfor (seqZ 0 64) vec_new (fun _ v => b ← marked_box; vec_push v b);
    bad ← any_bad (box_bad blocks) (seqZ 0 blocks.(len));
    if (bad : bool) then _ ← boxes_drop blocks; mret (Some "heap: small-block corruption"%string)
    else
      kept ← mfor (seqZ 0 blocks.(len)) vec_new (keep_even blocks);
      _ ← vec_free blocks;
      refill ← vec_with_capacity 16;
      refill ← mfor (seqZ 0 16) refill (fun _ v => b ← box_new (replicate 64 0); vec_push v b);
      _ ← boxes_drop kept;
      r ← raw_test;
      _ ← boxes_drop refill;
      mret r.

(** [test_heap] of selftest.rs. *)
Definition test_heap (s : Heap) : M TestResult :=
  r ← selftest;
  mret match r with
       | Some why => Failed why
       | None => if negb (stats s).(hinit) then Failed "heap reports not initialised after heap::init ran" else Passed
       end.

End Heap.

(** ** Separation logic over the live blocks *)

Definition hprop : Type := gmap Z block → Prop.
Definition hemp : hprop := fun G => G = ∅.
Definition pts (p : Z) (b : block) : hprop := fun G => G = {[p := b]}.
Definition sep (P Q : hprop) : hprop := fun G => ∃ G1 G2, G = G1 ∪ G2 ∧ G1 ##ₘ G2 ∧ P G1 ∧ Q G2.
Infix "⋆" := sep (at level 40, left associativity) : orin_scope.
#[local] Open Scope orin_scope.

#[export] Instance hprop_equiv : Equiv hprop := fun P Q => ∀ G, P G ↔ Q G.
#[export] Instance hprop_equivalence : Equivalence (≡@{hprop}).
Proof. split; [by intros P G|by intros P Q H G|]. intros P Q R H1 H2 G. by rewrite (H1 G), (H2 G). Qed.

#[export] Instance sep_proper : Proper ((≡) ==> (≡) ==> (≡)) sep.
Proof.
  intros P P' HP Q Q' HQ G. unfold sep. split; intros (G1 & G2 & -> & Hd & H1 & H2); exists G1, G2;
    (split; [done|]; split; [done|]; split; [by apply HP|by apply HQ]).
Qed.

Lemma hequiv_1 (P Q : hprop) G : P ≡ Q → P G → Q G.
Proof. intros E. apply E. Qed.

Lemma sep_comm P Q : P ⋆ Q ≡ Q ⋆ P.
Proof.
  intros G. split; intros (G1 & G2 & -> & Hd & H1 & H2); exists G2, G1;
    (split; [by apply map_union_comm|]; split; [by symmetry|done]).
Qed.
Lemma sep_assoc P Q R : P ⋆ (Q ⋆ R) ≡ P ⋆ Q ⋆ R.
Proof.
  intros G. split.
  - intros (G1 & ? & -> & Hd & H1 & G2 & G3 & -> & Hd2 & H2 & H3). apply map_disjoint_union_r in Hd as [Hd1 Hd3].
    exists (G1 ∪ G2), G3. split; [by rewrite (assoc_L (∪))|]. split; [by apply map_disjoint_union_l|]. split; [by exists G1, G2|done].
  - intros (? & G3 & -> & Hd & (G1 & G2 & -> & Hd2 & H1 & H2) & H3). apply map_disjoint_union_l in Hd as [Hd1 Hd3].
    exists G1, (G2 ∪ G3). split; [by rewrite (assoc_L (∪))|]. split; [by apply map_disjoint_union_r|]. split; [done|by exists G2, G3].
Qed.
Lemma sep_emp P : P ⋆ hemp ≡ P.
Proof.
  intros G. split.
  - intros (G1 & ? & -> & _ & H & ->). by rewrite (right_id_L ∅ (∪)).
  - intros H. exists G, ∅. rewrite (right_id_L ∅ (∪)). split; [done|]. split; [apply map_disjoint_empty_r|done].
Qed.
Lemma sep_emp_l P : hemp ⋆ P ≡ P.
Proof. by rewrite sep_comm, sep_emp. Qed.
Lemma sep_swap P Q R : P ⋆ Q ⋆ R ≡ P ⋆ R ⋆ Q.
Proof. by rewrite <- !sep_assoc, (sep_comm Q). Qed.

Lemma sep_left P Q R : P ⋆ (Q ⋆ R) ≡ Q ⋆ (P ⋆ R).
Proof. by rewrite !sep_assoc, (sep_comm P). Qed.

Section Logic.
Context {A : Type} `{GA : GlobalAlloc A} `{!GlobalAllocLaws A}.

(** The allocator's books agree with the live blocks. *)
Definition agrees (h : Mem A) : Prop :=
  ga_live h.(alloc_state) = (fun b : block => (Z.of_nat (length b.2), b.1)) <$> h.(live).

(** [P] holds of part of the live blocks; [m0] are the others. *)
Definition sat (P : hprop) (h : Mem A) (m0 : gmap Z block) : Prop :=
  ∃ G, P G ∧ h.(live) = G ∪ m0 ∧ G ##ₘ m0 ∧ agrees h.

(** The program runs without a fault other than memory exhaustion, and leaves
    the other blocks alone. *)
Definition hoare {X} (P : hprop) (c : M X) (Q : X → hprop) : Prop :=
  ∀ h m0, sat P h m0 → match c h with Ret (x, h') => sat (Q x) h' m0 | Panic f => f = OOM end.

Lemma sat_mono (P Q : hprop) h m0 : (∀ G, P G → Q G) → sat P h m0 → sat Q h m0.
Proof. intros HPQ (G & HP & H). exists G. split; [by apply HPQ|done]. Qed.

#[export] Instance hoare_proper X : Proper ((≡) ==> (=) ==> pointwise_relation _ (≡) ==> iff) (@hoare X).
Proof.
  intros P P' HP c ? <- Q Q' HQ. unfold hoare. split; intros H h m0 Hs.
  - specialize (H h m0 (sat_mono _ _ _ _ (fun G => proj2 (HP G)) Hs)). destruct (c h) as [[x h']|]; [|done].
    exact (sat_mono _ _ _ _ (fun G => proj1 (HQ x G)) H).
  - specialize (H h m0 (sat_mono _ _ _ _ (fun G => proj1 (HP G)) Hs)). destruct (c h) as [[x h']|]; [|done].
    exact (sat_mono _ _ _ _ (fun G => proj2 (HQ x G)) H).
Qed.

Lemma hoare_conseq {X} (P P' : hprop) (c : M X) (Q Q' : X → hprop) :
  hoare P c Q → (∀ G, P' G → P G) → (∀ x G, Q x G → Q' x G) → hoare P' c Q'.
Proof.
  intros H HP HQ h m0 Hs. specialize (H h m0 (sat_mono _ _ _ _ HP Hs)). destruct (c h) as [[x h']|]; [|done].
  exact (sat_mono _ _ _ _ (HQ x) H).
Qed.

Lemma hoare_ret {X} (x : X) P : hoare P (mret x) (fun y G => y = x ∧ P G).
Proof. intros h m0 Hs. cbn. by apply (sat_mono P). Qed.

Lemma hoare_bind {X Y} P (c : M X) (f : X → M Y) Q R :
  hoare P c Q → (∀ x, hoare (Q x) (f x) R) → hoare P (c ≫= f) R.
Proof.
  intros Hc Hf h m0 Hs. specialize (Hc h m0 Hs). unfold mbind, M_bind. destruct (c h) as [[x h']|]; [|done].
  by apply Hf.
Qed.

Lemma hoare_frame {X} P (c : M X) Q R : hoare P c Q → hoare (P ⋆ R) c (fun x => Q x ⋆ R).
Proof.
  intros Hc h m0 (G & (G1 & G2 & -> & Hd & HP & HR) & Hl & Hm & Ha). apply map_disjoint_union_l in Hm as [Hm1 Hm2].
  assert (sat P h (G2 ∪ m0)) as Hs.
  { exists G1. split; [done|]. split; [by rewrite (assoc_L (∪))|]. split; [by apply map_disjoint_union_r|done]. }
  specialize (Hc h _ Hs). destruct (c h) as [[x h']|]; [|done]. destruct Hc as (G' & HQ & Hl' & Hd' & Ha').
  apply map_disjoint_union_r in Hd' as [Hd1 Hd2]. exists (G' ∪ G2). split; [by exists G', G2|].
  split; [by rewrite <- (assoc_L (∪))|]. split; [by apply map_disjoint_union_l|done].
Qed.

(** A fact of the precondition becomes a hypothesis. *)
Lemma hoare_pure {X} (φ : Prop) P (c : M X) Q : (φ → hoare P c Q) → hoare (fun G => φ ∧ P G) c Q.
Proof. intros H h m0 (G & [Hφ HP] & Hr). apply (H Hφ h m0). by exists G. Qed.
Lemma hoare_ex {X Y} (P : Y → hprop) (c : M X) Q : (∀ y, hoare (P y) c Q) → hoare (fun G => ∃ y, P y G) c Q.
Proof. intros H h m0 (G & [y HP] & Hr). apply (H y h m0). by exists G. Qed.

Lemma hoare_throw {X} P Q : hoare P (throw (X := X) OOM) Q.
Proof. by intros h m0 Hs. Qed.

(** *** The primitive operations *)

Lemma hoare_galloc n al :
  0 < n → 0 < al →
  hoare hemp (galloc n al)
    (fun r => match r with
              | Some p => fun G => 0 < p < U64 ∧ p mod al = 0 ∧ ∃ bs, Z.of_nat (length bs) = n ∧ pts p (al, bs) G
              | None => hemp
              end).
Proof.
  intros Hn Hal h m0 (G & -> & Hl & Hd & Ha). unfold galloc.
  destruct (ga_alloc n al (alloc_state h)) as [[[p bs]|] a'] eqn:E.
  - destruct (ga_alloc_some n al _ _ _ _ Hn Hal E) as (Hfresh & Hp & Hpos & Hlen & Hlive).
    rewrite (left_id_L ∅ (∪)) in Hl. rewrite Ha, Hl, lookup_fmap in Hfresh. apply fmap_None in Hfresh.
    exists {[p := (al, bs)]}. split; [split; [done|]; split; [done|]; by exists bs|].
    split; [cbn; rewrite Hl; by rewrite insert_union_singleton_l|]. split; [by apply map_disjoint_singleton_l|].
    unfold agrees. cbn. rewrite Hlive, Ha, fmap_insert. cbn. by rewrite Hlen.
  - exists ∅. split; [done|]. split; [done|]. split; [done|]. unfold agrees. cbn. by rewrite (ga_alloc_none _ _ _ _ E).
Qed.

Lemma hoare_gdealloc p al bs : hoare (pts p (al, bs)) (gdealloc p (Z.of_nat (length bs)) al) (fun _ => hemp).
Proof.
  intros h m0 (G & -> & Hl & Hd & Ha). apply map_disjoint_singleton_l in Hd. unfold gdealloc.
  assert (live h !! p = Some (al, bs)) as Hp by (rewrite Hl; by apply lookup_union_Some_l, lookup_singleton_eq).
  rewrite Hp, !Z.eqb_refl. cbn [andb]. exists ∅. split; [done|].
  split; [cbn; by rewrite Hl, (left_id_L ∅ (∪)), delete_union, delete_singleton_eq, (left_id_L ∅ (∪)), delete_id|].
  split; [apply map_disjoint_empty_l|]. unfold agrees. cbn. rewrite (ga_dealloc_live p _ al).
  - by rewrite Ha, fmap_delete.
  - by rewrite Ha, lookup_fmap, Hp.
Qed.

Lemma hoare_load p off n al bs :
  0 ≤ off → off + n ≤ Z.of_nat (length bs) →
  hoare (pts p (al, bs)) (load p off n) (fun d G => d = take (Z.to_nat n) (drop (Z.to_nat off) bs) ∧ pts p (al, bs) G).
Proof.
  intros H0 Hn h m0 (G & -> & Hl & Hd & Ha). unfold load.
  assert (live h !! p = Some (al, bs)) as -> by (rewrite Hl; by apply lookup_union_Some_l, lookup_singleton_eq).
  rewrite !(proj2 (Z.leb_le _ _)) by done. cbn [andb]. exists {[p := (al, bs)]}. done.
Qed.

Lemma length_patch off d bs : (off + length d ≤ length bs)%nat → length (patch off d bs) = length bs.
Proof. intros H. unfold patch. rewrite !length_app, length_take, length_drop. lia. Qed.

Lemma hoare_store p off d al bs :
  0 ≤ off → off + Z.of_nat (length d) ≤ Z.of_nat (length bs) →
  hoare (pts p (al, bs)) (store p off d) (fun _ => pts p (al, patch (Z.to_nat off) d bs)).
Proof.
  intros H0 Hn h m0 (G & -> & Hl & Hd & Ha). unfold store.
  assert (live h !! p = Some (al, bs)) as Hp by (rewrite Hl; by apply lookup_union_Some_l, lookup_singleton_eq).
  rewrite Hp, !(proj2 (Z.leb_le _ _)) by done. cbn [andb]. exists {[p := (al, patch (Z.to_nat off) d bs)]}. split; [done|].
  split; [cbn; by rewrite Hl, insert_union_l, insert_singleton_eq|].
  split; [apply map_disjoint_singleton_l in Hd; by apply map_disjoint_singleton_l|].
  unfold agrees. cbn. rewrite Ha, fmap_insert. cbn. rewrite length_patch by lia. symmetry. apply insert_id. by rewrite lookup_fmap, Hp.
Qed.

(** *** Structural rules for the proofs below *)

(** Run one operation on its part of the precondition. *)
Lemma hoare_step {X Y} P P0 R (c : M X) (f : X → M Y) Q S :
  hoare P c Q → P0 ≡ P ⋆ R → (∀ x, hoare (Q x ⋆ R) (f x) S) → hoare P0 (c ≫= f) S.
Proof. intros Hc E Hf. rewrite E. eapply hoare_bind; [apply hoare_frame, Hc|exact Hf]. Qed.
Lemma hoare_sep_pure {X} (φ : Prop) P R (c : M X) Q : (φ → hoare (P ⋆ R) c Q) → hoare ((fun G => φ ∧ P G) ⋆ R) c Q.
Proof.
  intros H h m0 (G & (G1 & G2 & -> & Hd & [Hφ HP] & HR) & Hs). apply (H Hφ h m0). exists (G1 ∪ G2). split; [by exists G1, G2|done].
Qed.
Lemma hoare_sep_ex {X Y} (P : Y → hprop) R (c : M X) Q : (∀ y, hoare (P y ⋆ R) c Q) → hoare ((fun G => ∃ y, P y G) ⋆ R) c Q.
Proof.
  intros H h m0 (G & (G1 & G2 & -> & Hd & [y HP] & HR) & Hs). apply (H y h m0). exists (G1 ∪ G2). split; [by exists G1, G2|done].
Qed.
Lemma hoare_step_pure {X Y} (φ : X → Prop) P P0 R (c : M X) (f : X → M Y) Q S :
  hoare P c (fun x G => φ x ∧ Q x G) → P0 ≡ P ⋆ R → (∀ x, φ x → hoare (Q x ⋆ R) (f x) S) → hoare P0 (c ≫= f) S.
Proof.
  intros Hc E Hf. eapply hoare_step; [exact Hc|exact E|]. intros x. apply hoare_sep_pure, Hf.
Qed.
Lemma hoare_last {X} P P0 R (c : M X) Q S :
  hoare P c Q → P0 ≡ P ⋆ R → (∀ x G, (Q x ⋆ R) G → S x G) → hoare P0 c S.
Proof. intros Hc E HS. rewrite E. eapply hoare_conseq; [apply hoare_frame, Hc|done|exact HS]. Qed.
Lemma hoare_done {X} P (x : X) (Q : X → hprop) : (∀ G, P G → Q x G) → hoare P (mret x) Q.
Proof. intros H. eapply hoare_conseq; [apply (hoare_ret x P)|done|]. intros y G [-> HP]. by apply H. Qed.

Lemma hoare_mfor {X S} (I : nat → S → hprop) (l : list X) s (f : X → S → M S) :
  (∀ k x s, l !! k = Some x → hoare (I k s) (f x s) (I (Datatypes.S k))) → hoare (I 0%nat s) (mfor l s f) (I (length l)).
Proof.
  revert I s. induction l as [|x l IH]; intros I s H; cbn [mfor length]; [by apply hoare_done|].
  eapply hoare_bind; [by apply (H 0%nat x s)|]. intros s'. apply (IH (fun k => I (Datatypes.S k))). intros k y t Hk. by apply H.
Qed.

Lemma hoare_any_bad {X} P (bad : X → M bool) l :
  (∀ x, x ∈ l → hoare P (bad x) (fun b G => b = false ∧ P G)) → hoare P (any_bad bad l) (fun b G => b = false ∧ P G).
Proof.
  induction l as [|x l IH]; intros H; cbn [any_bad]; [by apply hoare_done|].
  eapply hoare_bind; [apply H; left|]. intros b. apply hoare_pure. intros ->. apply IH. intros y Hy. apply H. by right.
Qed.

(** *** Boxes *)

Lemma hoare_infallible n al :
  0 < n → 0 < al →
  hoare hemp (infallible n al) (fun p G => 0 < p < U64 ∧ ∃ bs, Z.of_nat (length bs) = n ∧ pts p (al, bs) G).
Proof.
  intros Hn Hal. eapply hoare_bind; [by apply hoare_galloc|]. intros [p|]; [|apply hoare_throw].
  apply hoare_done. intros G (Hp & _ & Hb). by split.
Qed.

Lemma hoare_box_new d :
  length d = 64%nat → hoare hemp (box_new d) (fun p G => 0 < p < U64 ∧ pts p (1, d) G).
Proof.
  intros Hd. eapply hoare_bind; [apply hoare_infallible; lia|]. intros p. apply hoare_pure. intros Hp. apply hoare_ex. intros bs.
  apply hoare_pure. intros Hb. eapply hoare_bind; [apply hoare_store; lia|]. intros []. apply hoare_done. intros G HG.
  split; [done|]. unfold patch in HG. rewrite take_0, app_nil_l, drop_ge, app_nil_r in HG by lia. exact HG.
Qed.

Lemma hoare_box_drop p d : length d = 64%nat → hoare (pts p (1, d)) (box_drop p) (fun _ => hemp).
Proof. intros Hd. unfold box_drop. replace 64 with (Z.of_nat (length d)) by lia. apply hoare_gdealloc. Qed.

Fixpoint boxes (ps : list Z) (d : bytes) : hprop :=
  match ps with [] => hemp | p :: ps => pts p (1, d) ⋆ boxes ps d end.

Lemma boxes_app ps qs d : boxes (ps ++ qs) d ≡ boxes ps d ⋆ boxes qs d.
Proof. induction ps as [|p ps IH]; cbn [boxes app]; [by rewrite sep_emp_l|]. by rewrite IH, sep_assoc. Qed.
Lemma boxes_snoc ps p d : boxes (ps ++ [p]) d ≡ boxes ps d ⋆ pts p (1, d).
Proof. rewrite boxes_app. cbn [boxes]. by rewrite sep_emp. Qed.
Lemma boxes_split i ps p d : ps !! i = Some p → boxes ps d ≡ pts p (1, d) ⋆ (boxes (take i ps) d ⋆ boxes (drop (S i) ps) d).
Proof.
  intros H. rewrite <- (take_drop_middle ps i p H) at 1. rewrite boxes_app. cbn [boxes].
  by rewrite !sep_assoc, (sep_comm (boxes _ _) (pts _ _)).
Qed.

(** *** Vectors *)

Definition enc (xs : list Z) : bytes := concat (le_bytes 8 <$> xs).
Lemma length_enc xs : length (enc xs) = (8 * length xs)%nat.
Proof. induction xs as [|x xs IH]; [done|]. unfold enc in *. cbn [fmap list_fmap concat]. rewrite length_app, length_le_bytes, IH. cbn. lia. Qed.
Lemma enc_app xs ys : enc (xs ++ ys) = enc xs ++ enc ys.
Proof. unfold enc. by rewrite fmap_app, concat_app. Qed.

(** The buffer holds the elements, with room after them. *)
Definition vec (v : Vec) (xs : list Z) : hprop := fun G =>
  v.(len) = Z.of_nat (length xs) ∧ Forall (fun x => 0 ≤ x < U64) xs ∧
  ((v.(cap) = 0 ∧ xs = [] ∧ hemp G) ∨
   (0 < v.(cap) ∧ v.(len) ≤ v.(cap) ∧ ∃ bs, Z.of_nat (length bs) = 8 * v.(cap) ∧ take (length (enc xs)) bs = enc xs ∧
      pts v.(ptr) (8, bs) G)).

(** The buffer of a vector that has one. *)
Definition buf (v : Vec) (xs : list Z) (bs : bytes) : Prop :=
  v.(len) = Z.of_nat (length xs) ∧ Forall (fun x => 0 ≤ x < U64) xs ∧ 0 < v.(cap) ∧ v.(len) ≤ v.(cap) ∧
  Z.of_nat (length bs) = 8 * v.(cap) ∧ take (length (enc xs)) bs = enc xs.

Lemma vec_of_buf v xs bs G : buf v xs bs → pts v.(ptr) (8, bs) G → vec v xs G.
Proof. intros (H1 & H2 & H3 & H4 & H5 & H6) HG. split; [done|]. split; [done|]. right. split; [done|]. split; [done|]. by exists bs. Qed.

Lemma hoare_vec_cases {X} v xs (c : M X) Q :
  (v.(cap) = 0 → v.(len) = 0 → xs = [] → hoare hemp c Q) → (∀ bs, buf v xs bs → hoare (pts v.(ptr) (8, bs)) c Q) → hoare (vec v xs) c Q.
Proof.
  intros H1 H2 h m0 (G & (Hl & Hx & [(Hc & -> & HG)|(Hc & Hle & bs & Hb & Ht & HG)]) & Hs).
  - apply (H1 Hc Hl eq_refl). by exists G.
  - apply (H2 bs); [done|]. by exists G.
Qed.

Lemma vec_new_nil G : hemp G → vec vec_new [] G.
Proof. intros HG. split; [done|]. split; [done|]. left. done. Qed.

Lemma hoare_with_capacity n : 0 < n → hoare hemp (vec_with_capacity n) (fun v => vec v []).
Proof.
  intros Hn. eapply hoare_bind; [apply hoare_infallible; lia|]. intros p. apply hoare_pure. intros Hp. apply hoare_ex. intros bs.
  apply hoare_pure. intros Hb. apply hoare_done. intros G HG. apply (vec_of_buf _ _ bs); [|done]. unfold buf. cbn. split_and!; done || lia.
Qed.

Lemma hoare_vec_free v xs : hoare (vec v xs) (vec_free v) (fun _ => hemp).
Proof.
  apply hoare_vec_cases; unfold vec_free.
  - intros -> _ _. by apply hoare_done.
  - intros bs (_ & _ & Hc & _ & Hb & _). destruct (Z.eqb_spec (cap v) 0); [lia|]. rewrite <- Hb. apply hoare_gdealloc.
Qed.

(** Growing leaves the elements in a larger buffer. *)
Lemma hoare_vec_grow v xs :
  v.(len) = v.(cap) → hoare (vec v xs) (vec_grow v) (fun v' G => (∃ bs, buf v' xs bs ∧ v'.(len) < v'.(cap) ∧ pts v'.(ptr) (8, bs) G)).
Proof.
  intros Hfull. apply hoare_vec_cases; unfold vec_grow.
  - intros Hc Hl ->. rewrite Hc, Hl. eapply hoare_bind; [apply hoare_infallible; lia|]. intros p. apply hoare_pure. intros Hp.
    apply hoare_ex. intros bs. apply hoare_pure. intros Hb. eapply hoare_bind; [apply hoare_ret|]. intros u. apply hoare_pure. intros _.
    apply hoare_done. intros G HG. exists bs. split; [|split; [cbn; lia|done]]. unfold buf. cbn in *. split_and!; done || lia.
  - intros bs (Hl & Hx & Hc & Hle & Hb & Ht). set (c := Z.max _ _). assert (v.(cap) < c) as Hcc by lia.
    eapply (hoare_step hemp); [apply (hoare_infallible (8 * c) 8); lia|by rewrite sep_emp_l|]. intros p.
    destruct (Z.eqb_spec (cap v) 0); [lia|].
    apply hoare_sep_pure. intros Hp. apply hoare_sep_ex. intros bs'. apply hoare_sep_pure. intros Hb'.
    eapply (hoare_bind _ _ _ (fun _ => pts p (8, patch 0 bs bs'))).
    { eapply (hoare_step_pure _ (pts v.(ptr) (8, bs)) _ (pts p (8, bs'))); [apply (hoare_load _ _ _ 8 bs); lia|apply sep_comm|].
      intros d ->. change (drop (Z.to_nat 0) bs) with bs. rewrite take_ge by lia.
      eapply (hoare_step (pts p (8, bs'))); [apply hoare_store; lia|apply sep_comm|]. intros []. rewrite <- Hb.
      eapply hoare_conseq; [eapply hoare_frame, hoare_gdealloc|intros G HG; exact (proj1 (sep_comm _ _ G) HG)|]. intros u G HG. exact (proj1 (sep_emp_l _ G) HG). }
    intros []. apply hoare_done. intros G HG. exists (patch 0 bs bs'). split; [|split; [cbn; lia|done]].
    pose proof (length_enc xs) as Hle'. unfold buf. cbn [cap len ptr]. rewrite length_patch by lia. split_and!; try done; try lia.
    unfold patch. rewrite take_0, app_nil_l. rewrite (take_app_le bs) by lia. exact Ht.
Qed.

Lemma buf_push v xs x bs :
  buf v xs bs → v.(len) < v.(cap) → 0 ≤ x < U64 →
  buf (mkVec v.(ptr) v.(cap) (v.(len) + 1)) (xs ++ [x]) (patch (Z.to_nat (8 * v.(len))) (le_bytes 8 x) bs).
Proof.
  intros (Hl & Hx & Hc & Hle & Hb & Ht) Hroom H0. pose proof (length_enc xs) as He. unfold buf. cbn [len cap].
  rewrite length_patch, !length_app by (rewrite length_le_bytes; lia).
  split; [cbn; lia|]. split; [by apply Forall_app_2; [|constructor]|]. split; [done|]. split; [lia|]. split; [done|].
  assert (enc [x] = le_bytes 8 x) as Hone by (unfold enc; cbn [fmap list_fmap concat]; by rewrite app_nil_r).
  rewrite enc_app, Hone. unfold patch. replace (Z.to_nat (8 * len v)) with (length (enc xs)) by lia. rewrite Ht, app_assoc.
  apply take_app_length'. by rewrite length_app.
Qed.

Lemma hoare_vec_push v xs x : 0 ≤ x < U64 → hoare (vec v xs) (vec_push v x) (fun v' => vec v' (xs ++ [x])).
Proof.
  intros Hx. unfold vec_push.
  eapply (hoare_bind _ _ _ (fun v' G => ∃ bs, buf v' xs bs ∧ v'.(len) < v'.(cap) ∧ pts v'.(ptr) (8, bs) G)).
  { destruct (Z.eqb_spec (len v) (cap v)) as [E|E]; [by apply hoare_vec_grow|]. apply hoare_vec_cases; [lia|].
    intros bs Hb. apply hoare_done. intros G HG. exists bs. destruct Hb as (? & ? & ? & ? & ?). split; [done|]. split; [lia|done]. }
  intros v'. apply hoare_ex. intros bs. apply hoare_pure. intros Hb. apply hoare_pure. intros Hr.
  pose proof Hb as (Hl & _ & _ & _ & Hlen & _). eapply hoare_bind; [apply hoare_store; [lia|rewrite length_le_bytes; lia]|].
  intros []. apply hoare_done. intros G HG. by eapply vec_of_buf; [apply buf_push|].
Qed.

Lemma hoare_vec_get v xs i x : xs !! i = Some x → hoare (vec v xs) (vec_get v (Z.of_nat i)) (fun y G => y = x ∧ vec v xs G).
Proof.
  intros Hi. pose proof (lookup_lt_Some _ _ _ Hi) as Hlt. apply hoare_vec_cases; unfold vec_get; [intros _ _ ->; done|].
  intros bs Hb. pose proof Hb as (Hl & Hx & Hc & Hle & Hlen & Ht). pose proof (length_enc xs) as He.
  eapply hoare_bind; [apply hoare_load; lia|]. intros d. apply hoare_pure. intros ->. apply hoare_done. intros G HG.
  split; [|by eapply vec_of_buf].
  assert (take (Z.to_nat 8) (drop (Z.to_nat (8 * Z.of_nat i)) bs) = le_bytes 8 x) as ->.
  { rewrite <- (take_drop (length (enc xs)) bs), Ht, <- (take_drop_middle xs i x Hi), enc_app.
    pose proof (length_enc (take i xs)) as Hi'. rewrite length_take in Hi'.
    rewrite <- app_assoc, drop_app_length' by lia. unfold enc at 1. cbn [fmap list_fmap concat]. rewrite <- app_assoc.
    apply take_app_length'. by rewrite length_le_bytes. }
  apply from_le_bytes_le. rewrite Forall_lookup in Hx. apply (Hx _ _ Hi).
Qed.

Lemma hoare_vec_facts {X} v xs P (c : M X) Q :
  (v.(len) = Z.of_nat (length xs) → Forall (fun x => 0 ≤ x < U64) xs → hoare (vec v xs ⋆ P) c Q) → hoare (vec v xs ⋆ P) c Q.
Proof.
  intros H h m0 Hs. pose proof Hs as (G & (G1 & G2 & _ & _ & (Hl & Hx & _) & _) & _). by apply H.
Qed.

(** *** Vectors of boxes *)

Lemma hoare_boxes_drop v ps d : length d = 64%nat → hoare (vec v ps ⋆ boxes ps d) (boxes_drop v) (fun _ => hemp).
Proof.
  intros Hd. apply hoare_vec_facts. intros Hl _. unfold boxes_drop.
  eapply (hoare_bind _ _ _ (fun _ => vec v ps)).
  - eapply hoare_conseq; [apply (hoare_mfor (fun k _ => vec v ps ⋆ boxes (drop k ps) d))|done|].
    + intros k i u Hk. apply lookup_seqZ in Hk as [-> Hk]. rewrite Z.add_0_l.
      destruct (lookup_lt_is_Some_2 ps k) as [p Hp]; [lia|].
      eapply hoare_step_pure; [by apply hoare_vec_get|reflexivity|]. intros y ->.
      rewrite (drop_S ps p k Hp). cbn [boxes].
      eapply hoare_last; [by apply hoare_box_drop|apply sep_left|]. intros y G HG. exact (proj1 (sep_emp_l _ G) HG).
    + intros u G HG. rewrite length_seqZ, drop_ge in HG by lia. exact (proj1 (sep_emp _ G) HG).
  - intros []. apply hoare_vec_free.
Qed.

(** A vector of [n] boxes holding [d]. *)
Definition vbs (n : nat) (d : bytes) (v : Vec) : hprop := fun G => ∃ ps, length ps = n ∧ (vec v ps ⋆ boxes ps d) G.

Lemma vbs_new d G : hemp G → vbs 0 d vec_new G.
Proof.
  intros ->. exists []. split; [done|]. exists ∅, ∅. split; [done|]. split; [apply map_disjoint_empty_l|].
  split; [by apply vec_new_nil|done].
Qed.

(** Push a box that [mk] makes. *)
Lemma hoare_push_box n d v (mk : M Z) :
  hoare hemp mk (fun p G => 0 < p < U64 ∧ pts p (1, d) G) → hoare (vbs n d v) (p ← mk; vec_push v p) (vbs (S n) d).
Proof.
  intros Hmk. apply hoare_ex. intros ps. apply hoare_pure. intros Hn.
  eapply hoare_step_pure; [exact Hmk|symmetry; apply sep_emp_l|]. intros p [Hp0 Hp1].
  eapply (hoare_last (vec v ps)); [apply (hoare_vec_push v ps p); lia|apply sep_left|].
  intros v' G HG. exists (ps ++ [p]). split; [rewrite length_app; cbn; lia|]. eapply hequiv_1; [|exact HG].
  by rewrite boxes_snoc, (sep_comm (boxes _ _)).
Qed.

Definition marked : bytes := 0x5A :: replicate 63 0xA5.

Lemma hoare_marked_box : hoare hemp marked_box (fun p G => 0 < p < U64 ∧ pts p (1, marked) G).
Proof.
  eapply hoare_bind; [by apply hoare_box_new|]. intros b. apply hoare_pure. intros Hb.
  eapply hoare_bind; [by apply hoare_store|]. intros []. apply hoare_done. intros G HG. split; [done|exact HG].
Qed.

Lemma hoare_pattern v : hoare (vec v []) (mfor (seqZ 0 256) v (fun i v => vec_push v (pattern i))) (fun v => vec v (pattern <$> seqZ 0 256)).
Proof.
  eapply hoare_conseq; [apply (hoare_mfor (fun k v => vec v (pattern <$> seqZ 0 (Z.of_nat k))))|done|].
  - intros k i s Hk. apply lookup_seqZ in Hk as [-> Hk]. rewrite Z.add_0_l, Nat2Z.inj_succ, <- Z.add_1_r, seqZ_app, fmap_app by lia.
    apply hoare_vec_push. apply Z.mod_pos_bound. by vm_compute.
  - intros s G HG. by rewrite length_seqZ in HG.
Qed.

Lemma hoare_check_pattern v :
  hoare (vec v (pattern <$> seqZ 0 256)) (any_bad (fun i => x ← vec_get v i; mret (negb (x =? pattern i))) (seqZ 0 256))
    (fun b G => b = false ∧ vec v (pattern <$> seqZ 0 256) G).
Proof.
  apply hoare_any_bad. intros i Hi. apply elem_of_seqZ in Hi.
  rewrite <- (Z2Nat.id i) by lia. set (k := Z.to_nat i).
  eapply hoare_bind; [apply (hoare_vec_get _ _ _ (pattern (Z.of_nat k)))|].
  - by rewrite list_lookup_fmap, lookup_seqZ_lt by lia.
  - intros x. apply hoare_pure. intros ->. apply hoare_done. intros G HG. by rewrite Z.eqb_refl.
Qed.

Lemma hoare_box_bad v ps k :
  (k < length ps)%nat →
  hoare (vec v ps ⋆ boxes ps marked) (box_bad v (Z.of_nat k)) (fun b G => b = false ∧ (vec v ps ⋆ boxes ps marked) G).
Proof.
  intros Hk. destruct (lookup_lt_is_Some_2 ps k) as [p Hp]; [lia|]. unfold box_bad.
  eapply hoare_step_pure; [by apply hoare_vec_get|reflexivity|]. intros y ->.
  set (R := boxes (take k ps) marked ⋆ boxes (drop (S k) ps) marked).
  assert (vec v ps ⋆ boxes ps marked ≡ pts p (1, marked) ⋆ (vec v ps ⋆ R)) as E.
  { rewrite (boxes_split k ps p marked Hp). apply sep_left. }
  eapply hoare_step_pure; [apply (hoare_load p 0 1 1 marked); done|exact E|]. intros b0 ->.
  rewrite bool_decide_eq_true_2 by done. cbn [negb].
  eapply hoare_step_pure; [apply (hoare_load p 63 1 1 marked); done|reflexivity|]. intros b63 ->.
  rewrite bool_decide_eq_true_2 by done. cbn [negb]. apply hoare_done. intros G HG. split; [done|]. by apply E.
Qed.

(** After [k] elements of the old vector were consumed. *)
Definition sifted (blocks : Vec) (ps : list Z) (k : nat) (kept : Vec) : hprop := fun G =>
  ∃ qs, (vec blocks ps ⋆ (boxes (drop k ps) marked ⋆ (vec kept qs ⋆ boxes qs marked))) G.

Lemma hoare_keep_even blocks ps k kept :
  (k < length ps)%nat → hoare (sifted blocks ps k kept) (keep_even blocks (Z.of_nat k) kept) (sifted blocks ps (S k)).
Proof.
  intros Hk. destruct (lookup_lt_is_Some_2 ps k) as [p Hp]; [lia|]. apply hoare_ex. intros qs. unfold keep_even.
  apply hoare_vec_facts. intros _ Hx. rewrite Forall_lookup in Hx. specialize (Hx _ _ Hp).
  eapply hoare_step_pure; [by apply hoare_vec_get|reflexivity|]. intros y ->. rewrite (drop_S ps p k Hp). cbn [boxes].
  set (R := boxes (drop (S k) ps) marked). set (V := vec blocks ps).
  destruct (_ =? 0).
  - eapply (hoare_last (vec kept qs) _ (V ⋆ (R ⋆ boxes (qs ++ [p]) marked))); [by apply (hoare_vec_push kept qs p)| |].
    + rewrite boxes_snoc, (sep_left (vec kept qs) V). apply sep_proper; [done|].
      rewrite <- (sep_assoc (pts _ _)), (sep_left (vec kept qs) R), (sep_left (pts _ _) R). apply sep_proper; [done|].
      by rewrite (sep_left (pts _ _)), (sep_comm (pts _ _)).
    + intros v G HG. exists (qs ++ [p]). eapply hequiv_1; [|exact HG]. fold V R.
      by rewrite (sep_left (vec v _) V), (sep_left (vec v _) R).
  - eapply (hoare_step (pts p (1, marked)) _ (V ⋆ (R ⋆ (vec kept qs ⋆ boxes qs marked)))); [by apply hoare_box_drop| |].
    + by rewrite <- (sep_assoc (pts _ _)), (sep_left V).
    + intros []. apply hoare_done. intros G HG. exists qs. exact (proj1 (sep_emp_l _ G) HG).
Qed.

Lemma hoare_sift blocks ps :
  hoare (vec blocks ps ⋆ boxes ps marked) (mfor (seqZ 0 blocks.(len)) vec_new (keep_even blocks))
    (fun kept G => ∃ qs, (vec blocks ps ⋆ (vec kept qs ⋆ boxes qs marked)) G).
Proof.
  apply hoare_vec_facts. intros Hl _. eapply hoare_conseq; [apply (hoare_mfor (sifted blocks ps))| |].
  - intros k i s Hk. apply lookup_seqZ in Hk as [-> Hk]. apply hoare_keep_even. lia.
  - intros G (G1 & G2 & -> & Hd & H1 & H2). exists []. exists G1, G2. split; [done|]. split; [done|]. split; [done|].
    exists G2, ∅. rewrite (right_id_L ∅ (∪)). split; [done|]. split; [apply map_disjoint_empty_r|]. split; [exact H2|].
    exists ∅, ∅. split; [done|]. split; [apply map_disjoint_empty_l|]. split; [by apply vec_new_nil|done].
  - intros v G [qs HG]. exists qs. rewrite length_seqZ, drop_ge in HG by lia. cbn [boxes] in HG.
    eapply hequiv_1; [|exact HG]. by rewrite sep_emp_l.
Qed.

Lemma hoare_raw_test :
  hoare hemp raw_test (fun r G => (r = None ∨ r = Some "heap: 4 KiB aligned allocation returned null"%string) ∧ hemp G).
Proof.
  eapply hoare_bind; [by apply hoare_galloc|]. intros [p|]; [|apply hoare_done; naive_solver].
  do 2 (apply hoare_pure; intros _). apply hoare_ex. intros bs. apply hoare_pure. intros Hb.
  eapply hoare_bind; [apply hoare_store; [done|rewrite length_replicate; lia]|]. intros [].
  assert (patch (Z.to_nat 0) (replicate 4096 0x3C) bs = replicate 4096 0x3C) as ->.
  { unfold patch. change (Z.to_nat 0) with 0%nat. rewrite take_0, app_nil_l, drop_ge, app_nil_r; [done|]. rewrite length_replicate. lia. }
  eapply hoare_bind; [apply hoare_load; [done|rewrite length_replicate; done]|]. intros d. apply hoare_pure. intros ->.
  rewrite bool_decide_eq_true_2 by by vm_compute. cbn [negb].
  eapply hoare_bind; [apply (hoare_gdealloc p 4096 (replicate 4096 0x3C))|]. intros []. apply hoare_done. naive_solver.
Qed.

Lemma hoare_fill n d (mk : M Z) v m :
  hoare hemp mk (fun p G => 0 < p < U64 ∧ pts p (1, d) G) →
  hoare (vbs n d v) (mfor (seqZ 0 m) v (fun _ v => b ← mk; vec_push v b)) (vbs (n + Z.to_nat m) d).
Proof.
  intros Hmk. eapply hoare_conseq; [apply (hoare_mfor (fun k => vbs (n + k) d))| |].
  - intros k i s _. rewrite Nat.add_succ_r. by apply hoare_push_box.
  - intros G HG. by rewrite Nat.add_0_r.
  - intros x G HG. by rewrite length_seqZ in HG.
Qed.

Lemma hoare_boxes_all v ps :
  hoare (vec v ps ⋆ boxes ps marked) (any_bad (box_bad v) (seqZ 0 v.(len))) (fun b G => b = false ∧ (vec v ps ⋆ boxes ps marked) G).
Proof.
  apply hoare_vec_facts. intros Hl _. apply hoare_any_bad. intros i Hi. apply elem_of_seqZ in Hi.
  rewrite <- (Z2Nat.id i) by lia. apply hoare_box_bad. lia.
Qed.

(** The whole test owns no block before it and none after it. *)
Lemma hoare_selftest :
  hoare hemp selftest (fun r G => (r = None ∨ r = Some "heap: 4 KiB aligned allocation returned null"%string) ∧ hemp G).
Proof.
  unfold selftest. eapply hoare_bind; [by apply hoare_with_capacity|]. intros v0. eapply hoare_bind; [apply hoare_pattern|]. intros v.
  rewrite <- sep_emp. apply hoare_vec_facts. intros Hl _. rewrite sep_emp. rewrite length_fmap, length_seqZ in Hl.
  change (Z.of_nat (Z.to_nat 256)) with 256 in Hl. rewrite Hl.
  eapply hoare_bind; [apply hoare_check_pattern|]. intros bad. apply hoare_pure. intros ->.
  eapply hoare_bind; [apply hoare_vec_free|]. intros [].
  eapply hoare_bind; [eapply hoare_conseq; [apply (hoare_fill 0 marked marked_box vec_new 64), hoare_marked_box|apply vbs_new|done]|].
  intros blocks. apply hoare_ex. intros ps. apply hoare_pure. intros _.
  eapply hoare_bind; [apply hoare_boxes_all|]. intros bad. apply hoare_pure. intros ->.
  eapply hoare_bind; [apply hoare_sift|]. intros kept. apply hoare_ex. intros qs.
  eapply hoare_step; [apply hoare_vec_free|reflexivity|]. intros []. rewrite sep_emp_l.
  eapply hoare_step; [by apply (hoare_with_capacity 16)|symmetry; apply sep_emp_l|]. intros r0.
  eapply (hoare_step (vbs 0 (replicate 64 0) r0) _ (vec kept qs ⋆ boxes qs marked)); [apply (hoare_fill 0 _ (box_new (replicate 64 0))), hoare_box_new; done| |].
  { apply sep_proper; [|done]. intros G. split.
    - intros HG. exists []. split; [done|]. cbn [boxes]. exact (proj2 (sep_emp _ G) HG).
    - intros (rs & Hn & HG). destruct rs; [|done]. exact (proj1 (sep_emp _ G) HG). }
  intros r. eapply hoare_step; [by apply (hoare_boxes_drop kept qs marked)|apply sep_comm|]. intros [].
  eapply hoare_step_pure; [apply hoare_raw_test|reflexivity|]. intros res Hres. rewrite sep_emp_l.
  apply hoare_ex. intros rs. apply hoare_pure. intros _. eapply hoare_bind; [by apply (hoare_boxes_drop r rs (replicate 64 0))|]. intros [].
  apply hoare_done. done.
Qed.

Lemma test_heap_passes s (m m' : Mem A) : selftest m = Ret (None, m') → (stats s).(hinit) = true → test_heap s m = Ret (Passed, m').
Proof. intros Hm Hs. unfold test_heap, mbind at 1, M_bind. by rewrite Hm, Hs. Qed.

Lemma selftest_sound (h : Mem A) :
  agrees h →
  match selftest h with
  | Ret (r, h') => (r = None ∨ r = Some "heap: 4 KiB aligned allocation returned null"%string) ∧
                   h'.(live) = h.(live) ∧ ga_live h'.(alloc_state) = ga_live h.(alloc_state)
  | Panic f => f = OOM
  end.
Proof.
  intros Ha. pose proof (hoare_selftest h h.(live)) as H.
  assert (sat hemp h (live h)) as Hs by (exists ∅; rewrite (left_id_L ∅ (∪)); split; [done|]; split; [done|]; split; [apply map_disjoint_empty_l|done]).
  specialize (H Hs). destruct (selftest h) as [[r h']|]; [|done]. destruct H as (G & (Hr & ->) & Hl & _ & Ha').
  rewrite (left_id_L ∅ (∪)) in Hl. split; [done|]. split; [done|]. by rewrite Ha', Ha, Hl.
Qed.

(** C16: The heap's self-test is sound against any allocator that keeps the
    [GlobalAlloc] contract.  It never touches memory outside a live block and frees
    every block with the layout it was allocated with; the read-back and
    small-block checks succeed; it ends in Ok, in the null-pointer error of the 4
    KiB request, or in the allocation-failure panic; and whenever it returns, every
    block it allocated is free again and all other live memory is untouched. *)
Theorem heap_selftest_sound (h : Mem A) :
  agrees h →
  match selftest h with
  | Ret (r, h') => (r = None ∨ r = Some "heap: 4 KiB aligned allocation returned null"%string) ∧
                   h'.(live) = h.(live) ∧ ga_live h'.(alloc_state) = ga_live h.(alloc_state)
  | Panic f => f = OOM
  end.
Proof. apply selftest_sound. Qed.

End Logic.

(** ** A concrete allocator

    A bump allocator that remembers its outstanding blocks: its region starts
    at the kernel's heap and requests beyond its end fail. *)

Record Bump : Type := mkBump { next : Z; limit : Z; out : gmap Z (Z * Z) }.

Definition round_up (x al : Z) : Z := (x + al - 1) / al * al.

#[export] Instance bump_alloc : GlobalAlloc Bump := {
  ga_alloc n al a :=
    let p := round_up a.(next) al in
    if (0 <? n) && (0 <? al) && (0 <? p) && (p + n <=? a.(limit)) && (a.(limit) <? U64) &&
       bool_decide (a.(out) !! p = None)
    then (Some (p, replicate (Z.to_nat n) 0), mkBump (p + n) a.(limit) (<[p := (n, al)]> a.(out)))
    else (None, a);
  ga_dealloc p n al a := mkBump a.(next) a.(limit) (delete p a.(out));
  ga_live := out;
}.

#[export] Instance bump_laws : GlobalAllocLaws Bump.
Proof.
  split.
  - intros n al a p bs a' Hn Hal. cbn. destruct (_ && _) eqn:E; [|done]. intros [= <- <- <-].
    rewrite !andb_true_iff, !Z.ltb_lt, Z.leb_le, bool_decide_eq_true in E. destruct E as (((((_ & _) & Hp) & Hle) & Hlim) & Hf).
    split; [done|]. split; [unfold round_up; by apply Z.mod_mul; lia|]. split; [lia|]. split; [rewrite length_replicate; lia|done].
  - intros n al a a'. cbn. by destruct (_ && _); intros [= <-].
  - intros p n al a _. done.
Qed.

Definition bump_heap : Mem Bump := mkMem (mkBump HEAP_VIRT_START (HEAP_VIRT_START + HEAP_SIZE) ∅) ∅.

Definition is_ok {X} (r : Res (option string * X)) : bool := match r with Ret (None, _) => true | _ => false end.

Lemma is_ok_inv {X} (r : Res (option string * X)) : is_ok r = true → ∃ x, r = Ret (None, x).
Proof. destruct r as [[[?|] x]|]; cbn; intros H; [done|by exists x|done]. Qed.

Example bump_passes : is_ok (selftest bump_heap) = true.
Proof. vm_compute. reflexivity. Qed.

Lemma heap_selftest_sound_witness :
  is_ok (selftest bump_heap) = true ∧
  match selftest bump_heap with
  | Ret (r, h') => (r = None ∨ r = Some "heap: 4 KiB aligned allocation returned null"%string) ∧
                   h'.(live) = bump_heap.(live) ∧ ga_live h'.(alloc_state) = ga_live bump_heap.(alloc_state)
  | Panic f => f = OOM
  end.
Proof. split; [vm_compute; reflexivity|]. apply (heap_selftest_sound bump_heap). reflexivity. Defined.
