(* ===== verification/HeapRoom.v ===== *)
(** * The heap's self-test passes on an allocator with room

    HeapTest.v shows that the self-test can only fail for want of memory.  Here
    an allocator additionally promises to serve a request while it has room for
    it ([HeapRoom]: the size, the padding the alignment may cost and 64 bytes of
    bookkeeping are charged for every request, a release never costs anything),
    and the requests of the whole test are shown to fit in 32 KiB: with that much
    room the test returns Ok.  The requests are counted with a second, small
    program logic that follows only the room left and the lengths and capacities
    of the vectors. *)

From stdpp Require Import base gmap sets list list_numbers strings numbers.
From Stdlib Require Import ZArith Lia.
From S2P Require Import Prelude Arch BootInfo Multiboot MultibootSpec Heap SelftestPmm HeapTest.
#[local] Open Scope Z_scope.

(** What a request may take from the allocator. *)
Definition footprint (n al : Z) : Z := n + al + 64.

(** [ga_room b a]: the allocator can still serve requests of [b] bytes in all. *)
Class HeapRoom (A : Type) `{GlobalAlloc A} : Type := {
  ga_room : Z → A → Prop;
  ga_room_alloc b n al a : ga_room b a → 0 < n → 0 < al → footprint n al ≤ b →
    ∃ p bs a', ga_alloc n al a = (Some (p, bs), a') ∧ ga_room (b - footprint n al) a';
  ga_room_dealloc b p n al a : ga_room b a → ga_live a !! p = Some (n, al) → ga_room b (ga_dealloc p n al a);
}.

(** All the test asks for fits in this. *)
Definition SELFTEST_ROOM : Z := 32768.

Section Room.
Context {A : Type} `{GA : GlobalAlloc A} `{GL : !GlobalAllocLaws A} `{HR : !HeapRoom A}.

Definition has_room (b : Z) (h : Mem A) : Prop := agrees h ∧ ga_room b h.(alloc_state).

(** With [b] bytes of room the program does not run out of memory; [Q] says what
    it returns and how much room is left. *)
Definition safe {X} (b : Z) (c : M X) (Q : X → Z → Prop) : Prop :=
  ∀ h, has_room b h → match c h with Ret (x, h') => ∃ b', Q x b' ∧ has_room b' h' | Panic f => f ≠ OOM end.

Lemma safe_conseq {X} b (c : M X) (Q Q' : X → Z → Prop) : safe b c Q → (∀ x b', Q x b' → Q' x b') → safe b c Q'.
Proof.
  intros H HQ h Hh. specialize (H h Hh). destruct (c h) as [[x h']|]; [|done]. destruct H as (b' & Hq & Hr).
  exists b'. split; [by apply HQ|done].
Qed.

Lemma safe_ret {X} b (x : X) (Q : X → Z → Prop) : Q x b → safe b (mret x) Q.
Proof. intros HQ h Hh. by exists b. Qed.

Lemma safe_bind {X Y} b (c : M X) (f : X → M Y) Q R :
  safe b c Q → (∀ x b', Q x b' → safe b' (f x) R) → safe b (c ≫= f) R.
Proof.
  intros Hc Hf h Hh. specialize (Hc h Hh). unfold mbind, M_bind. destruct (c h) as [[x h']|]; [|done].
  destruct Hc as (b' & HQ & Hr). exact (Hf x b' HQ h' Hr).
Qed.

Lemma safe_mfor {X S} (I : nat → S → Z → Prop) (l : list X) s b (f : X → S → M S) :
  (∀ k x s b, l !! k = Some x → I k s b → safe b (f x s) (I (Datatypes.S k))) → I 0%nat s b → safe b (mfor l s f) (I (length l)).
Proof.
  revert I s b. induction l as [|x l IH]; intros I s b H H0; cbn [mfor length]; [by apply safe_ret|].
  eapply safe_bind; [by apply (H 0%nat x s b)|]. intros s' b' H1. apply (IH (fun k => I (Datatypes.S k))); [|done].
  intros k y t b2 Hk. by apply (H (Datatypes.S k)).
Qed.

(** ** The primitive operations *)

Lemma safe_galloc b n al :
  0 < n → 0 < al → footprint n al ≤ b →
  safe b (galloc n al) (fun r b' => r ≠ None ∧ b' = b - footprint n al).
Proof.
  intros Hn Hal Hb h [Ha Hr]. destruct (ga_room_alloc b n al _ Hr Hn Hal Hb) as (p & bs & a' & E & Hr').
  unfold galloc. rewrite E. destruct (ga_alloc_some n al _ p bs a' Hn Hal E) as (_ & _ & _ & Hl & Hlive).
  eexists. split; [split; [done|reflexivity]|]. split; [|done]. unfold agrees in *. cbn [alloc_state live].
  rewrite Hlive, Ha, fmap_insert. cbn [fst snd]. by rewrite Hl.
Qed.

Lemma safe_gdealloc b p n al : safe b (gdealloc p n al) (fun _ b' => b' = b).
Proof.
  intros h [Ha Hr]. unfold gdealloc. destruct (live h !! p) as [[al' bs]|] eqn:E; [|done].
  destruct (Z.eqb_spec al' al) as [->|]; [|done]. destruct (Z.eqb_spec (Z.of_nat (length bs)) n) as [<-|]; [|done]. cbn [andb].
  assert (ga_live h.(alloc_state) !! p = Some (Z.of_nat (length bs), al)) as Hl by (by rewrite Ha, lookup_fmap, E).
  exists b. split; [done|]. split; [|by apply ga_room_dealloc]. unfold agrees in *. cbn [alloc_state live].
  by rewrite (ga_dealloc_live _ _ _ _ Hl), Ha, fmap_delete.
Qed.

Lemma safe_load b p off n : safe b (load p off n) (fun _ b' => b' = b).
Proof.
  intros h Hh. unfold load. destruct (live h !! p) as [[al bs]|]; [|done]. destruct (_ && _); [|done]. by exists b.
Qed.

Lemma safe_store b p off d : safe b (store p off d) (fun _ b' => b' = b).
Proof.
  intros h [Ha Hr]. unfold store. destruct (live h !! p) as [[al bs]|] eqn:E; [|done].
  destruct (Z.leb_spec 0 off); [|done]. destruct (Z.leb_spec (off + Z.of_nat (length d)) (Z.of_nat (length bs))); [|done]. cbn [andb].
  exists b. split; [done|]. split; [|done]. unfold agrees in *. cbn [alloc_state live]. rewrite Ha, fmap_insert.
  assert (length (patch (Z.to_nat off) d bs) = length bs) as Hl
    by (unfold patch; rewrite !length_app, length_take, length_drop; lia).
  cbn [snd fst]. rewrite Hl. symmetry. apply insert_id. by rewrite lookup_fmap, E.
Qed.

Lemma safe_infallible b n al :
  0 < n → 0 < al → footprint n al ≤ b → safe b (infallible n al) (fun _ b' => b' = b - footprint n al).
Proof.
  intros Hn Hal Hb. eapply safe_bind; [by apply safe_galloc|]. intros [p|] b' [Hp ->]; [|done]. by apply safe_ret.
Qed.

(** ** Boxes and vectors *)

Lemma safe_box_new b d : 129 ≤ b → safe b (box_new d) (fun _ b' => b' = b - 129).
Proof.
  intros Hb. eapply safe_bind; [by apply safe_infallible|]. intros p b' ->. eapply safe_bind; [apply safe_store|].
  intros [] b' ->. by apply safe_ret.
Qed.

Lemma safe_marked_box b : 129 ≤ b → safe b marked_box (fun _ b' => b' = b - 129).
Proof.
  intros Hb. eapply safe_bind; [by apply safe_box_new|]. intros p b' ->. eapply safe_bind; [apply safe_store|].
  intros [] b' ->. by apply safe_ret.
Qed.

Lemma safe_with_capacity b n :
  0 < n → footprint (8 * n) 8 ≤ b →
  safe b (vec_with_capacity n) (fun v b' => v.(len) = 0 ∧ v.(cap) = n ∧ b' = b - footprint (8 * n) 8).
Proof.
  intros Hn Hb. eapply safe_bind; [apply safe_infallible; [lia|lia|exact Hb]|]. intros p b' ->. by apply safe_ret.
Qed.

(** The capacity after a push, and what the push may take. *)
Definition grown (v : Vec) : Z := if v.(len) =? v.(cap) then Z.max (2 * v.(cap)) (Z.max (v.(len) + 1) 4) else v.(cap).
Definition push_cost (v : Vec) : Z := if v.(len) =? v.(cap) then footprint (8 * grown v) 8 else 0.

Lemma safe_vec_push b v x :
  push_cost v ≤ b →
  safe b (vec_push v x) (fun v' b' => v'.(len) = v.(len) + 1 ∧ v'.(cap) = grown v ∧ b' = b - push_cost v).
Proof.
  unfold push_cost, grown. intros Hb. unfold vec_push.
  eapply (safe_bind _ _ _ (fun v' b' => v'.(len) = v.(len) ∧ v'.(cap) = grown v ∧ b' = b - push_cost v)).
  - unfold push_cost, grown. destruct (Z.eqb_spec (len v) (cap v)) as [E|E].
    2:{ apply safe_ret. split; [done|]. split; [done|lia]. }
    unfold vec_grow. eapply safe_bind; [apply safe_infallible; [lia|lia|exact Hb]|]. intros p b' ->.
    eapply (safe_bind _ _ _ (fun _ b' => b' = b - footprint (8 * Z.max (2 * cap v) (Z.max (len v + 1) 4)) 8)).
    + destruct (cap v =? 0); [by apply safe_ret|]. eapply safe_bind; [apply safe_load|]. intros bs b' ->.
      eapply safe_bind; [apply safe_store|]. intros [] b' ->. apply safe_gdealloc.
    + intros [] b' ->. by apply safe_ret.
  - intros v' b' (H1 & H2 & ->). eapply safe_bind; [apply safe_store|]. intros [] b' ->. apply safe_ret. cbn.
    unfold grown, push_cost in *. split; [lia|done].
Qed.

Lemma safe_vec_get b v i : safe b (vec_get v i) (fun _ b' => b' = b).
Proof. eapply safe_bind; [apply safe_load|]. intros bs b' ->. by apply safe_ret. Qed.

Lemma safe_vec_free b v : safe b (vec_free v) (fun _ b' => b' = b).
Proof. unfold vec_free. destruct (_ =? _); [by apply safe_ret|apply safe_gdealloc]. Qed.

Lemma safe_boxes_drop b v : safe b (boxes_drop v) (fun _ b' => b' = b).
Proof.
  unfold boxes_drop. eapply safe_bind; [apply (safe_mfor (fun _ _ b' => b' = b)); [|done]|].
  - intros k i s b' _ ->. eapply safe_bind; [apply safe_vec_get|]. intros p b' ->. apply safe_gdealloc.
  - intros [] b' ->. apply safe_vec_free.
Qed.

Lemma safe_any_bad {X} b (bad : X → M bool) l :
  (∀ x, safe b (bad x) (fun _ b' => b' = b)) → safe b (any_bad bad l) (fun _ b' => b' = b).
Proof.
  intros H. induction l as [|x l IH]; cbn [any_bad]; [by apply safe_ret|]. eapply safe_bind; [apply H|].
  intros [] b' ->; [by apply safe_ret|exact IH].
Qed.

Lemma safe_box_bad b v i : safe b (box_bad v i) (fun _ b' => b' = b).
Proof.
  unfold box_bad. eapply safe_bind; [apply safe_vec_get|]. intros p b' ->. eapply safe_bind; [apply safe_load|]. intros b0 b' ->.
  destruct (negb _); [by apply safe_ret|]. eapply safe_bind; [apply safe_load|]. intros b1 b' ->. by apply safe_ret.
Qed.

(** ** The loops

    A vector that has grown by pushes holds at least half its capacity, or its
    capacity is at most [c]; growth costs at most 34 bytes for every element of
    capacity it adds. *)

Definition paced (c : Z) (v : Vec) : Prop :=
  0 ≤ v.(len) ≤ v.(cap) ∧ (v.(cap) = 0 ∨ 4 ≤ v.(cap)) ∧ (v.(cap) ≤ c ∨ v.(cap) ≤ 2 * v.(len)).

Lemma paced_push c v v' :
  4 ≤ c → paced c v → v'.(len) = v.(len) + 1 → v'.(cap) = grown v → paced c v' ∧ push_cost v ≤ 34 * (v'.(cap) - v.(cap)).
Proof.
  unfold paced, push_cost, grown, footprint. intros Hc (H1 & H2 & H3) -> ->. destruct (Z.eqb_spec (len v) (cap v)); split; lia.
Qed.

Lemma safe_paced_push c b v x :
  4 ≤ c → paced c v → push_cost v ≤ b →
  safe b (vec_push v x) (fun v' b' => paced c v' ∧ v'.(len) = v.(len) + 1 ∧ b - 34 * (v'.(cap) - v.(cap)) ≤ b').
Proof.
  intros Hc Hv Hb. eapply safe_conseq; [by apply safe_vec_push|]. intros v' b' (H1 & H2 & ->).
  destruct (paced_push c v v' Hc Hv H1 H2) as [H3 H4]. split; [done|]. split; [done|lia].
Qed.

(** The most a push onto a vector of at most [n] elements takes. *)
Lemma push_cost_bound c v n : 4 ≤ c → paced c v → v.(len) ≤ n → push_cost v ≤ 34 * (Z.max c (2 * n + 2) - v.(cap)).
Proof.
  unfold paced, push_cost, grown, footprint. intros Hc (H1 & H2 & H3) Hn. destruct (Z.eqb_spec (len v) (cap v)); lia.
Qed.

(** The room that remains after [k] of [m] boxes, the vector's own growth included. *)
Definition filling (c m b : Z) (k : nat) (v : Vec) (b' : Z) : Prop :=
  paced c v ∧ v.(len) = Z.of_nat k ∧ b - 129 * Z.of_nat k - 34 * v.(cap) ≤ b'.

Lemma safe_fill c m b b0 v (mk : M Z) :
  4 ≤ c → 0 ≤ m → paced c v → v.(len) = 0 → b - 34 * v.(cap) ≤ b0 → 129 * m + 34 * Z.max c (2 * m) ≤ b →
  (∀ b, 129 ≤ b → safe b mk (fun _ b' => b' = b - 129)) →
  safe b0 (mfor (seqZ 0 m) v (fun _ v => x ← mk; vec_push v x)) (filling c m b (Z.to_nat m)).
Proof.
  intros Hc Hm Hv Hl Hb0 Hb Hmk. replace (Z.to_nat m) with (length (seqZ 0 m)) by (by rewrite length_seqZ).
  apply (safe_mfor (filling c m b)); [|split; [done|split; [done|lia]]].
  intros k i s b1 [_ Hi]%lookup_seqZ (Hp & Hs & Hb1).
  assert (push_cost s ≤ 34 * (Z.max c (2 * m) - s.(cap))) as Hcost
    by (pose proof (push_cost_bound c s (m - 1) Hc Hp); lia).
  assert (s.(cap) ≤ Z.max c (2 * m)) by (unfold paced in Hp; lia).
  eapply safe_bind; [apply Hmk; lia|]. intros x b' ->.
  eapply safe_conseq; [apply (safe_paced_push c); [done|done|lia]|]. intros v' b' (H1 & H2 & H3).
  split; [done|]. split; [lia|lia].
Qed.

Lemma safe_keep b0 blocks n :
  0 ≤ n → 34 * Z.max 4 (n + 2) ≤ b0 →
  safe b0 (mfor (seqZ 0 n) vec_new (keep_even blocks))
    (fun v b' => b0 - 34 * Z.max 4 (n + 2) ≤ b').
Proof.
  intros Hn Hb. eapply safe_conseq.
  - apply (safe_mfor (fun k v b' => paced 4 v ∧ 2 * v.(len) ≤ Z.of_nat k + 1 ∧ (Z.of_nat k mod 2 = 0 → 2 * v.(len) ≤ Z.of_nat k) ∧
      Z.of_nat k ≤ n ∧ b0 - 34 * v.(cap) ≤ b')).
    + intros k i s b1 [-> Hi]%lookup_seqZ (Hp & Hs & He & Hk & Hb1). unfold keep_even.
      eapply safe_bind; [apply safe_vec_get|]. intros x b' ->. rewrite Z.add_0_l. destruct (Z.eqb_spec (Z.of_nat k mod 2) 0) as [E|E].
      * specialize (He E). assert (push_cost s ≤ 34 * (Z.max 4 (n + 2) - s.(cap))) as Hcost.
        { pose proof (push_cost_bound 4 s (Z.of_nat k / 2) ltac:(done) Hp). zlia. }
        eapply safe_conseq; [apply (safe_paced_push 4); [done|done|lia]|]. intros v' b' (H1 & H2 & H3).
        split; [done|]. split; [lia|]. split; [|split; lia].
        rewrite Nat2Z.inj_succ. intros Hodd. zlia.
      * eapply safe_bind; [apply safe_gdealloc|]. intros [] b' ->. apply safe_ret. split; [done|]. split; [lia|]. split; [lia|lia].
    + split; [unfold paced, vec_new; cbn; lia|]. cbn. lia.
  - intros v b' (Hp & Hl & He & Hk & Hb'). rewrite length_seqZ in *. unfold paced in Hp. zlia.
Qed.

Lemma safe_raw_test b :
  footprint 4096 4096 ≤ b → safe b raw_test (fun r b' => r ≠ Some "heap: 4 KiB aligned allocation returned null"%string ∧ b' = b - footprint 4096 4096).
Proof.
  intros Hb. unfold raw_test. eapply safe_bind; [by apply safe_galloc|]. intros [raw|] b' [Hr ->]; [|done].
  eapply safe_bind; [apply safe_store|]. intros [] b' ->. eapply safe_bind; [apply safe_load|]. intros d b' ->.
  destruct (negb _); (eapply safe_bind; [apply safe_gdealloc|]; intros [] b' ->; by apply safe_ret).
Qed.

(** ** The whole test *)

Lemma safe_selftest :
  safe SELFTEST_ROOM selftest (fun r _ => r ≠ Some "heap: 4 KiB aligned allocation returned null"%string).
Proof.
  unfold selftest, SELFTEST_ROOM. eapply safe_bind; [by apply safe_with_capacity|]. intros v b (Hl & Hc & ->).
  eapply safe_bind; [apply (safe_mfor (fun k v' b' => v'.(len) = Z.of_nat k ∧ v'.(cap) = 256 ∧ b' = 32768 - footprint (8 * 256) 8)); [|done]|].
  { intros k i s b [_ Hi]%lookup_seqZ (H1 & H2 & ->).
    assert (push_cost s = 0 ∧ grown s = 256) as [E1 E2] by (unfold push_cost, grown; destruct (Z.eqb_spec (len s) (cap s)); lia).
    eapply safe_conseq; [apply safe_vec_push; rewrite E1; by vm_compute|]. intros v' b' (H3 & H4 & ->). rewrite E1. split; [lia|]. split; [lia|lia]. }
  intros v1 b (_ & _ & ->). eapply safe_bind.
  { apply safe_any_bad. intros i. eapply safe_bind; [apply safe_vec_get|]. intros x b' ->. by apply safe_ret. }
  intros bad b ->. eapply safe_bind; [apply safe_vec_free|]. intros [] b ->. destruct bad; [by apply safe_ret|].
  change (32768 - footprint (8 * 256) 8) with 30648.
  eapply safe_bind; [apply (safe_fill 4 64 30648); [done|done|unfold paced; cbn; lia|done|cbn; lia|lia|apply safe_marked_box]|].
  intros blocks b (Hp & Hlen & Hb). change (Z.of_nat (Z.to_nat 64)) with 64 in *.
  eapply safe_bind; [apply safe_any_bad; apply safe_box_bad|]. intros bad b' ->.
  destruct bad; [eapply safe_bind; [apply safe_boxes_drop|]; intros [] b' ->; by apply safe_ret|].
  assert (18040 ≤ b) as Hb2 by (unfold paced in Hp; lia). clear Hb.
  rewrite Hlen. eapply safe_bind; [apply safe_keep; lia|]. intros kept b1 Hb1. cbn beta in Hb1.
  eapply safe_bind; [apply safe_vec_free|]. intros [] b' ->.
  eapply safe_bind; [apply (safe_with_capacity _ 16); [done|change (footprint (8 * 16) 8) with 200; lia]|]. intros rf b' (Hl2 & Hc2 & ->).
  change (footprint (8 * 16) 8) with 200.
  eapply safe_bind; [apply (safe_fill 16 16 (b1 - 200 + 34 * 16)); [done|done|unfold paced; lia|done|lia|lia|intros; by apply safe_box_new]|].
  intros rf2 b2 (Hp2 & Hlen2 & Hb2'). change (Z.of_nat (Z.to_nat 16)) with 16 in *.
  eapply safe_bind; [apply safe_boxes_drop|]. intros [] b' ->.
  eapply safe_bind; [apply safe_raw_test; change (footprint 4096 4096) with 8256; unfold paced in Hp2; lia|]. intros r b' [Hr ->].
  eapply safe_bind; [apply safe_boxes_drop|]. intros [] b' ->. by apply safe_ret.
Qed.

(** With room for it, and books that agree with the live blocks, the test
    passes, and leaves the live blocks as they were. *)
Lemma selftest_passes (h : Mem A) :
  has_room SELFTEST_ROOM h → ∃ h', selftest h = Ret (None, h') ∧ h'.(live) = h.(live).
Proof.
  intros Hh. pose proof (safe_selftest h Hh) as H1. pose proof (selftest_sound h (proj1 Hh)) as H2.
  destruct (selftest h) as [[r h']|f]; [|done]. destruct H1 as (b & Hr & _). destruct H2 as (Hn & Hl & _).
  exists h'. destruct Hn as [-> | ->]; [|done]. by split.
Qed.

End Room.

(** ** The bump allocator has room *)

#[export] Instance bump_room : HeapRoom Bump.
Proof.
  refine {| ga_room b a := 0 < a.(next) ∧ a.(next) + b ≤ a.(limit) ∧ a.(limit) < U64 ∧
              ∀ p, is_Some (a.(out) !! p) → p < a.(next) |}.
  - unfold footprint. intros b n al a (Hn & Hb & Hl & Ho) Hn0 Hal Hf. cbn [ga_alloc bump_alloc].
    assert (a.(next) ≤ round_up a.(next) al < a.(next) + al) as Hp.
    { unfold round_up. pose proof (Z.div_mod (next a + al - 1) al ltac:(lia)). pose proof (Z.mod_pos_bound (next a + al - 1) al ltac:(lia)). nia. }
    set (p := round_up (next a) al) in *. clearbody p.
    assert (out a !! p = None) as Hnone.
    { destruct (out a !! p) eqn:E; [|done]. specialize (Ho p ltac:(by eexists)). lia. }
    rewrite Hnone, bool_decide_eq_true_2 by done. destruct (Z.ltb_spec 0 n), (Z.ltb_spec 0 al), (Z.ltb_spec 0 p), (Z.leb_spec (p + n) (limit a)),
      (Z.ltb_spec (limit a) U64); try lia. cbn [andb].
    eexists _, _, _. split; [reflexivity|]. cbn [next limit out]. split; [lia|]. split; [lia|]. split; [done|].
    intros q Hq. destruct (decide (q = p)) as [->|]; [lia|]. rewrite lookup_insert_ne in Hq by done. specialize (Ho q Hq). lia.
  - intros b p n al a (Hn & Hb & Hl & Ho) _. cbn [ga_dealloc bump_alloc next limit out]. split; [done|]. split; [done|]. split; [done|].
    intros q [x [_ Hx]%lookup_delete_Some]. apply Ho. by eexists.
Defined.

Lemma bump_has_room : has_room SELFTEST_ROOM bump_heap.
Proof.
  split; [reflexivity|]. cbn. unfold HEAP_VIRT_START, HEAP_SIZE, SELFTEST_ROOM. rewrite U64_val.
  split; [lia|]. split; [lia|]. split; [lia|]. intros p [x Hx]. done.
Qed.
