(* ===== verification/SelftestVmm.v ===== *)
(** * The self-test's address-space suite (kernel/src/selftest.rs)

    The tests that read the live page tables, and the theorems that they pass on
    the machine BootMemory brings up, and that [orin.nx=off] makes them fail. *)

From stdpp Require Import base gmap sets list list_numbers strings numbers.
From Stdlib Require Import ZArith Lia.
From S2P Require Import Prelude Arch BootInfo Bitmap Pmm PmmSpec Vmm PageTables VmmSpec AddressSpace Heap BootMemory SelftestPmm.
#[local] Open Scope Z_scope.

Section VmmTests.
Context `{X : X86Crate}.
Context (debug : bool).

Abbreviation V := (Vmm Pmm).

Definition test_address_translation : Res TestResult :=
  pa ← PhysAddr_new 0x12340000;
  va ← phys_to_virt pa;
  if negb (va =? wrap64 (pa + KERNEL_VMA)) then Ret (Failed "phys_to_virt")
  else
    back ← virt_to_phys va;
    match back with
    | None => Ret (Failed "virt_to_phys rejected a kernel-half address")
    | Some back =>
        if negb (back =? pa) then Ret (Failed "round trip failed")
        else
          low ← VirtAddr_new 0x4000;
          r ← virt_to_phys low;
          match r with
          | Some _ => Ret (Failed "virt_to_phys accepted a user-half address; it must return None")
          | None =>
              kv ← VirtAddr_new KERNEL_VMA;
              r ← virt_to_phys kv;
              z ← PhysAddr_new 0;
              if bool_decide (r = Some z) then Ret Passed
              else Ret (Failed "KERNEL_VMA does not translate to physical 0")
          end
    end.

Definition test_heap_guarded (h : Heap) (v : V) : Res TestResult :=
  let s := Heap.stats h in
  g ← sub64 s.(hbase) PAGE_SIZE;
  guard ← VirtAddr_new g;
  r ← translate debug v guard;
  match r with
  | Some _ => Ret (Failed "guard page below the heap IS mapped")
  | None =>
      g ← add64 s.(hbase) s.(hsize);
      guard_hi ← VirtAddr_new g;
      r ← translate debug v guard_hi;
      match r with
      | Some _ => Ret (Failed "guard page above the heap IS mapped")
      | None => Ret Passed
      end
  end.

(** One section of [test_vmm_translation]; [Some why] ends the loop. *)
Definition section_translates (v : V) (va : Z) : Res (option string) :=
  va ← VirtAddr_new va;
  r ← translate debug v va;
  match r with
  | None => Ret (Some "section is NOT MAPPED in the live page tables"%string)
  | Some (pa, _) =>
      expect ← virt_to_phys va;
      match expect with
      | None => Ret (Some "kernel symbol is not in the kernel half"%string)
      | Some expect => Ret (if pa =? expect then None else Some "section translates elsewhere"%string)
      end
  end.

Fixpoint first_failure {A} (f : A → Res (option string)) (l : list A) : Res TestResult :=
  match l with
  | [] => Ret Passed
  | x :: l' => r ← f x; match r with Some why => Ret (Failed why) | None => first_failure f l' end
  end.

Definition test_vmm_translation (k : LinkerSyms) (v : V) : Res TestResult :=
  first_failure (section_translates v) [k.(text_start); k.(rodata_start); k.(data_start); k.(bss_start)].

Definition test_wx_policy (v : V) : Res TestResult :=
  n ← count_wx_violations debug v;
  if negb (n =? 0) then Ret (Failed "present page(s) are BOTH writable and executable")
  else if negb (nx_available v) then Ret (Failed "NX is unavailable, so the W^X check was vacuous")
  else Ret Passed.

Definition has (flag e : Z) : bool := negb (Z.land e flag =? 0).

Definition test_text_not_writable (k : LinkerSyms) (v : V) : Res TestResult :=
  va ← VirtAddr_new k.(text_start);
  r ← translate debug v va;
  match r with
  | None => Ret (Failed ".text is not mapped")
  | Some (_, flags) =>
      if has WRITABLE flags then Ret (Failed ".text is WRITABLE")
      else if has NO_EXECUTE flags then Ret (Failed ".text is marked NO-EXECUTE")
      else Ret Passed
  end.

Definition test_rodata_not_writable (k : LinkerSyms) (v : V) : Res TestResult :=
  va ← VirtAddr_new k.(rodata_start);
  r ← translate debug v va;
  match r with
  | None => Ret (Failed ".rodata is not mapped")
  | Some (_, flags) => if has WRITABLE flags then Ret (Failed ".rodata is WRITABLE") else Ret Passed
  end.

Definition test_boot_map_nx (v : V) : Res TestResult :=
  low ← VirtAddr_new 0x200000;
  r ← translate debug v low;
  match r with
  | None => Ret (Failed "boot identity map is not reachable at all (unexpected in M1)")
  | Some (_, flags) =>
      if negb (has NO_EXECUTE flags) then Ret (Failed "boot identity map is EXECUTABLE") else Ret Passed
  end.

Definition test_boot_map_not_user (v : V) : Res TestResult :=
  low ← VirtAddr_new 0x200000;
  r ← translate debug v low;
  match r with
  | None => Ret (Failed "boot identity map not reachable")
  | Some (_, flags) => if has USER flags then Ret (Failed "boot identity map has the USER bit set") else Ret Passed
  end.

Definition user_probe (v : V) (p : Z) : Res (option string) :=
  va ← VirtAddr_new p;
  r ← translate debug v va;
  Ret match r with
      | Some (_, flags) => if has USER flags then Some "user-half address is mapped USER-accessible"%string else None
      | None => None
      end.

Definition test_user_half_unmapped (v : V) : Res TestResult :=
  first_failure (user_probe v) [0x1000; 0x40000000; 0x7FFFFFFFF000].

(** The address-space tests in the order of [run_all]. *)
Definition vmm_suite (k : LinkerSyms) (h : Heap) (v : V) : list (Res TestResult) :=
  [test_heap_guarded h v; test_vmm_translation k v; test_wx_policy v; test_text_not_writable k v;
   test_rodata_not_writable k v; test_boot_map_nx v; test_boot_map_not_user v; test_user_half_unmapped v].

End VmmTests.

(** ** Facts *)

Lemma address_translation_passes `{X : X86Crate} : test_address_translation = Ret Passed.
Proof.
  assert (∀ p, in_u 52 p = true → PhysAddr_new p = Ret p) as HP by (intros; by apply PhysAddr_new_ok).
  assert (∀ a, canonical a = true → VirtAddr_new a = Ret a) as HV by (intros; by apply VirtAddr_new_ok).
  unfold test_address_translation, phys_to_virt, virt_to_phys.
  rewrite (HP 0x12340000) by by vm_compute. cbn [mbind Res_bind].
  rewrite (HV (wrap64 (0x12340000 + KERNEL_VMA))) by by vm_compute. cbn [mbind Res_bind].
  rewrite Z.eqb_refl. cbn [negb]. change (wrap64 (wrap64 (0x12340000 + KERNEL_VMA) - KERNEL_VMA)) with 0x12340000.
  change (wrap64 (0x12340000 + KERNEL_VMA) <? KERNEL_SPACE_START) with false.
  rewrite (HP 0x12340000) by by vm_compute. cbn [fmap Res_fmap mbind Res_bind Z.eqb Pos.eqb negb].
  rewrite (HV 0x4000) by by vm_compute. cbn [mbind Res_bind]. change (0x4000 <? KERNEL_SPACE_START) with true. cbn [mbind Res_bind].
  rewrite (HV KERNEL_VMA) by by vm_compute. cbn [mbind Res_bind]. change (KERNEL_VMA <? KERNEL_SPACE_START) with false.
  rewrite (HP (wrap64 (KERNEL_VMA - KERNEL_VMA))) by by vm_compute. cbn [fmap Res_fmap mbind Res_bind].
  rewrite (HP 0) by done. cbn [mbind Res_bind]. by rewrite bool_decide_eq_true_2 by by vm_compute.
Qed.

Lemma has_bit i e : 0 ≤ i → has (Z.shiftl 1 i) e = Z.testbit e i.
Proof. intros Hi. unfold has. by rewrite land_pow2_ltb. Qed.

(** The identity map covers the page the tests look at. *)
Definition low_leaf (v : Vmm Pmm) : Z := ld64 v.(mem) (ident_pd v.(mem) v.(CR3) 0 + 8 * 1).
Definition covers_2m (v : Vmm Pmm) : Prop := is_present (ident_pde v.(mem) v.(CR3) 0) = true ∧ is_present (low_leaf v) = true.

Section Facts.
Context `{X : X86Crate}.
Context (debug : bool).
Context (k : LinkerSyms) (bp : Z) (p : Arch.BootParams) (boot : BootInfo) (v : Vmm Pmm) (nx : bool) (v' : Vmm Pmm) (h : Heap).
Hypothesis machine : machine_ok k bp p boot v.
Hypothesis up : booted debug k bp p boot v nx v' h.

Abbreviation L := (layout v.(NX_AVAILABLE) (kernel_regions k p.(heap_phys_start_) p.(heap_phys_end_))).

(** The start of each section is the first byte of its region. *)
Lemma section_starts :
  Forall2 (fun a perm => U64 - 2 ^ 47 ≤ a < U64 ∧ canonical a = true ∧ KERNEL_VMA ≤ a ∧ (a - KERNEL_VMA) mod 4096 = 0 ∧
      L a = Some (a - KERNEL_VMA, Z.lor (a - KERNEL_VMA) (effective v.(NX_AVAILABLE) perm)))
    [k.(text_start); k.(rodata_start); k.(data_start); k.(bss_start)] [TextRoX; RoData; DataRwNx; DataRwNx].
Proof.
  pose proof (mo_sections _ _ _ _ _ machine) as Hsec. pose proof (image_top_bounds k Hsec) as [Htop1 Htop2].
  destruct Hsec as [(A1 & A2 & A3 & A4) Hlow Ht Hr Hd Hb Htop]. unfold LP, LARGE_PAGE_SIZE, KERNEL_VMA in *. rewrite U64_val in *.
  repeat constructor; try (rewrite canonical_iff, U64_val); try zlia.
  all: cbn [kernel_regions layout]; unfold in_region; cbn [r_va r_len r_pa r_perm]; unfold page_entry, KERNEL_VMA;
    repeat match goal with |- context [(?a <=? ?b) && (?c <? ?d)] =>
      destruct (Z.leb_spec a b), (Z.ltb_spec c d); cbn [andb]; try lia end;
    rewrite ?Z.sub_diag, ?Z.add_0_r; done.
Qed.

(** A section's start translates to its physical address with its profile. *)
Lemma section_translate n a perm :
  [k.(text_start); k.(rodata_start); k.(data_start); k.(bss_start)] !! n = Some a →
  [TextRoX; RoData; DataRwNx; DataRwNx] !! n = Some perm →
  VirtAddr_new a = Ret a ∧ virt_to_phys a = Ret (Some (a - KERNEL_VMA)) ∧
  ∃ e, translate debug v' a = Ret (Some (a - KERNEL_VMA, e)) ∧
    ∀ i, 0 ≤ i < 12 ∨ i = 63 → Z.testbit e i = Z.testbit (effective v.(NX_AVAILABLE) perm) i.
Proof.
  intros Ha Hp. destruct (Forall2_lookup_lr _ _ _ _ _ _ section_starts Ha Hp) as (Hr & Hc & Hk & Hal & HL).
  split; [by apply VirtAddr_new_ok|]. split; [apply virt_to_phys_kernel; lia|].
  eexists. split; [rewrite (bt_high _ _ _ _ _ _ _ _ _ up) by done; by rewrite HL|].
  intros i Hi. apply lor_flag_bit; [|done]. split; [done|]. unfold KERNEL_VMA in *. rewrite U64_val in Hr. lia.
Qed.

Lemma vmm_translation_passes : test_vmm_translation debug k v' = Ret Passed.
Proof.
  assert (∀ n a perm, [k.(text_start); k.(rodata_start); k.(data_start); k.(bss_start)] !! n = Some a →
    [TextRoX; RoData; DataRwNx; DataRwNx] !! n = Some perm → section_translates debug v' a = Ret None) as H.
  { intros n a perm Ha Hp. destruct (section_translate n a perm Ha Hp) as (E1 & E2 & e & E3 & _).
    unfold section_translates. rewrite E1. cbn [mbind Res_bind]. rewrite E3. cbn [mbind Res_bind]. rewrite E2.
    cbn [mbind Res_bind]. by rewrite Z.eqb_refl. }
  unfold test_vmm_translation. cbn [first_failure].
  rewrite (H 0%nat k.(text_start) TextRoX eq_refl eq_refl). cbn [mbind Res_bind]. rewrite (H 1%nat k.(rodata_start) RoData eq_refl eq_refl). cbn [mbind Res_bind].
  rewrite (H 2%nat k.(data_start) DataRwNx eq_refl eq_refl). cbn [mbind Res_bind]. by rewrite (H 3%nat k.(bss_start) DataRwNx eq_refl eq_refl).
Qed.

Lemma text_passes : test_text_not_writable debug k v' = Ret Passed.
Proof.
  destruct (section_translate 0 k.(text_start) TextRoX eq_refl eq_refl) as (E1 & _ & e & E3 & Hbit).
  unfold test_text_not_writable. rewrite E1. cbn [mbind Res_bind]. rewrite E3. cbn [mbind Res_bind].
  unfold WRITABLE, NO_EXECUTE. rewrite !has_bit, !Hbit by lia. by destruct (NX_AVAILABLE v).
Qed.

Lemma rodata_passes : test_rodata_not_writable debug k v' = Ret Passed.
Proof.
  destruct (section_translate 1 k.(rodata_start) RoData eq_refl eq_refl) as (E1 & _ & e & E3 & Hbit).
  unfold test_rodata_not_writable. rewrite E1. cbn [mbind Res_bind]. rewrite E3. cbn [mbind Res_bind].
  unfold WRITABLE. rewrite !has_bit, !Hbit by lia. by destruct (NX_AVAILABLE v).
Qed.

Lemma heap_guarded_passes : test_heap_guarded debug h v' = Ret Passed.
Proof.
  destruct (heap_neighbours debug k bp p boot nx v v' h machine up) as [H1 H2].
  unfold test_heap_guarded. rewrite (bt_heap _ _ _ _ _ _ _ _ _ up). cbn [Heap.stats STATS hbase hsize].
  unfold PAGE_SIZE. rewrite sub64_ok by (unfold HEAP_VIRT_START; lia). cbn [mbind Res_bind].
  rewrite VirtAddr_new_ok by by vm_compute. cbn [mbind Res_bind]. rewrite H1. cbn [mbind Res_bind].
  rewrite add64_ok by by vm_compute. cbn [mbind Res_bind].
  rewrite VirtAddr_new_ok by by vm_compute. cbn [mbind Res_bind]. by rewrite H2.
Qed.

(** The 2 MiB page at 2 MiB. *)
Lemma low_translate :
  covers_2m v → ∃ pa, translate debug v' 0x200000 =
    Ret (Some (pa, if nx then hardened v.(NX_AVAILABLE) (low_leaf v) else low_leaf v)).
Proof.
  intros [Hp Hl]. destruct (bt_ident _ _ _ _ _ _ _ _ _ up 0 1) as [Hp' Hl']; [lia|lia|done|done|].
  eexists. refine (ident_translate debug v' 0x200000 _ (bt_map _ _ _ _ _ _ _ _ _ up) _ _ Hp' Hl' _); [lia|by vm_compute|].
  destruct nx; [apply hardened_bits|done].
Qed.

Lemma boot_map_not_user_passes :
  covers_2m v → nx = true → test_boot_map_not_user debug v' = Ret Passed.
Proof.
  intros Hc Hnx. destruct (low_translate Hc) as (pa & E). unfold test_boot_map_not_user.
  rewrite VirtAddr_new_low by lia. cbn [mbind Res_bind]. rewrite E. cbn [mbind Res_bind]. rewrite Hnx.
  unfold USER. rewrite has_bit by lia. by destruct (hardened_bits v.(NX_AVAILABLE) (low_leaf v)) as (_ & _ & _ & -> & _).
Qed.

Lemma boot_map_nx_result :
  covers_2m v → test_boot_map_nx debug v' =
    Ret (if (if nx then v.(NX_AVAILABLE) else Z.testbit (low_leaf v) 63) then Passed else Failed "boot identity map is EXECUTABLE").
Proof.
  intros Hc. destruct (low_translate Hc) as (pa & E). unfold test_boot_map_nx.
  rewrite VirtAddr_new_low by lia. cbn [mbind Res_bind]. rewrite E. cbn [mbind Res_bind].
  unfold NO_EXECUTE. rewrite has_bit by lia. destruct nx.
  - destruct (hardened_bits v.(NX_AVAILABLE) (low_leaf v)) as (_ & _ & _ & _ & -> & _). by destruct (NX_AVAILABLE v).
  - by destruct (Z.testbit _ 63).
Qed.

Lemma wx_policy_passes : nx = true → v.(NX_AVAILABLE) = true → test_wx_policy debug v' = Ret Passed.
Proof.
  intros Hnx Hav. destruct (bt_wx _ _ _ _ _ _ _ _ _ up) as (c & Ec & _ & Hiff). unfold test_wx_policy. rewrite Ec.
  cbn [mbind Res_bind]. rewrite (proj2 Hiff) by exact (bt_clean _ _ _ _ _ _ _ _ _ up Hnx). cbn [Z.eqb negb].
  unfold nx_available. by rewrite (bt_nx _ _ _ _ _ _ _ _ _ up), Hav.
Qed.

Lemma user_probe_clear va : nx = true → 0 ≤ va < 2 ^ 47 → user_probe debug v' va = Ret None.
Proof.
  intros Hnx Hva. unfold user_probe. rewrite VirtAddr_new_low by done. cbn [mbind Res_bind].
  assert (∃ r, translate debug v' va = Ret r ∧ ∀ pa e, r = Some (pa, e) → Z.testbit e 2 = false) as (r & -> & Hr).
  { destruct (decide ((indices va).(i_pml4) = 0)) as [H0|H0].
    - destruct (ident_cases debug v' va (bt_map _ _ _ _ _ _ _ _ _ up)) as [->|(pa & i & j & Hi & Hj & Hp & Hl & ->)];
        [lia|done|by eexists|]. eexists. split; [reflexivity|]. intros ? ? [= _ <-].
      by apply (bt_user _ _ _ _ _ _ _ _ _ up Hnx).
    - destruct (bt_inv _ _ _ _ _ _ _ _ _ up) as [path Hinv]. apply (translate_supervisor debug v' path); [done|lia|done]. }
  cbn [mbind Res_bind]. destruct r as [[pa e]|]; [|done]. unfold USER. by rewrite has_bit, (Hr pa e) by (done || lia).
Qed.

Lemma user_half_passes : nx = true → test_user_half_unmapped debug v' = Ret Passed.
Proof.
  intros Hnx. unfold test_user_half_unmapped. cbn [first_failure].
  do 3 (rewrite user_probe_clear by (done || lia); cbn [mbind Res_bind]). done.
Qed.

End Facts.

Lemma wx_policy_sound `{X : X86Crate} debug v :
  test_wx_policy debug v = Ret Passed → count_wx_violations debug v = Ret 0 ∧ v.(NX_AVAILABLE) = true.
Proof.
  unfold test_wx_policy. intros (n & En & H)%bind_Ret. destruct (Z.eqb_spec n 0) as [->|]; [|done]. cbn [negb] in H.
  unfold nx_available in H. by destruct (NX_AVAILABLE v).
Qed.

(** ** Theorems *)

Section Suites.
Context `{X : X86Crate}.
Context (debug : bool).

(** A kernel that boots as documented passes its own address-space tests.
    On the machine the bring-up leaves (NX enabled), the eight tests that walk the
    live tables all return Ok: guard pages absent, sections at their physical
    addresses, no W+X page, .text and .rodata not writable, the boot map
    non-executable and supervisor-only, nothing in the user half open to ring 3. *)
Theorem vmm_tests_pass k bp p boot v :
  machine_ok k bp p boot v → v.(NX_AVAILABLE) = true → covers_2m v →
  ∃ info v' h, bring_up debug k bp boot true v = Ret (info, v', h) ∧
    Forall (fun t => t = Ret Passed) (vmm_suite debug k h v').
Proof.
  intros Hm Hav Hc. destruct (bring_up_ok debug k bp p boot true v Hm) as (info & v' & h & E & Hb).
  exists info, v', h. split; [done|]. unfold vmm_suite. repeat constructor.
  - by eapply heap_guarded_passes.
  - by eapply vmm_translation_passes.
  - by eapply wx_policy_passes.
  - by eapply text_passes.
  - by eapply rodata_passes.
  - rewrite (boot_map_nx_result debug k bp p boot v true v' h Hb Hc). by rewrite Hav.
  - by eapply boot_map_not_user_passes.
  - by eapply user_half_passes.
Qed.

(** [orin.nx=off] cannot boot with the self-test on.  The debugging mode
    leaves boot.asm's executable identity map in place, and the test [boot_map_nx]
    then fails (and [kernel_main] panics on any failed test). *)
Theorem nx_off_fails_selftest k bp p boot v :
  machine_ok k bp p boot v → covers_2m v → Z.testbit (low_leaf v) 63 = false →
  ∃ info v' h, bring_up debug k bp boot false v = Ret (info, v', h) ∧
    test_boot_map_nx debug v' = Ret (Failed "boot identity map is EXECUTABLE").
Proof.
  intros Hm Hc He. destruct (bring_up_ok debug k bp p boot false v Hm) as (info & v' & h & E & Hb).
  exists info, v', h. split; [done|]. rewrite (boot_map_nx_result debug k bp p boot v false v' h Hb Hc). by rewrite He.
Qed.

End Suites.
