(* ===== verification/SelftestMemory.v ===== *)
(** * The memory self-tests after bring-up

    Composes the frame-allocator suite with the boot reservations and with the
    frames the page tables took. *)

From stdpp Require Import base gmap sets list list_numbers strings numbers.
From Stdlib Require Import ZArith Lia.
From S2P Require Import Prelude Arch BootInfo Bitmap Pmm PmmSpec Vmm PageTables VmmSpec AddressSpace VmmWitness Heap.
From S2P Require Import BootMemory BootWitness SelftestPmm SelftestVmm.
#[local] Open Scope Z_scope.

(** [n] points meet at most [n] of [n + 1] consecutive blocks of 16. *)
Lemma clear_block n lo (R : gset Z) :
  (size R ≤ n)%nat → ∃ i, lo ≤ i ∧ i + 16 ≤ lo + 16 * Z.of_nat (S n) ∧ (i - lo) mod 16 = 0 ∧ run i 16 ## R.
Proof.
  revert lo R. induction n as [|n IH]; intros lo R Hn.
  { exists lo. rewrite Z.sub_diag. assert (R = ∅) as -> by (apply leibniz_equiv, size_empty_inv; lia).
    split; [lia|]. split; [lia|]. split; [done|set_solver]. }
  destruct (decide (run lo 16 ## R)) as [Hd|Hd].
  { exists lo. rewrite Z.sub_diag. split; [lia|]. split; [lia|]. by split. }
  assert (∃ x, x ∈ run lo 16 ∧ x ∈ R) as (x & Hx & HR).
  { destruct (decide (run lo 16 ∩ R = ∅)) as [E|(x & Hx)%set_choose_L]; [by apply disjoint_intersection_L in E|].
    exists x. by apply elem_of_intersection in Hx. }
  destruct (IH (lo + 16) (R ∖ {[x]})) as (i & H1 & H2 & H3 & H4).
  { rewrite size_difference, size_singleton by set_solver. lia. }
  exists i. split; [lia|]. split; [lia|]. split; [zlia|]. intros y Hy HyR. apply (H4 y Hy).
  apply elem_of_difference. split; [done|]. intros ->%elem_of_singleton. rewrite elem_of_zrange in Hx, Hy. lia.
Qed.

(** A set that lost at most [n] of many consecutive frames is roomy. *)
Lemma roomy_after n lo (F : gset Z) s :
  ready s → frames s.(PMM) ⊆ F → (size F ≤ size (frames s.(PMM)) + n)%nat → 0 ≤ lo → lo mod 4 = 0 →
  zrange lo (lo + 16 * Z.of_nat (n + 2)) ⊆ F → roomy s.
Proof.
  intros (Hp & _ & _) Hsub Hn Hlo Hal Hz c.
  destruct (clear_block (n + 1) lo ((F ∖ frames s.(PMM)) ∪ {[c]})) as (i & H1 & H2 & H3 & H4).
  { rewrite size_union_alt. pose proof (size_difference F (frames s.(PMM)) Hsub).
    assert (size (({[c]} : gset Z) ∖ (F ∖ frames s.(PMM))) ≤ 1)%nat.
    { rewrite <- (size_singleton (C := gset Z) c). apply subseteq_size. set_solver. } lia. }
  assert (run i 16 ⊆ frames s.(PMM)) as Hrun.
  { intros y Hy. destruct (decide (y ∈ frames s.(PMM))); [done|]. exfalso. apply (H4 y Hy), elem_of_union. left.
    apply elem_of_difference. split; [|done]. apply Hz. rewrite elem_of_zrange in Hy |- *. lia. }
  assert (i + 15 ∈ frames s.(PMM)) as Hlast by (apply Hrun, elem_of_zrange; lia).
  apply (frames_range _ _ Hp) in Hlast.
  exists i. split; [lia|]. split; [lia|]. split; [zlia|]. split; [|done].
  destruct (Z.le_gt_cases c i); [by left|right]. destruct (Z.le_gt_cases (i + 16) c); [done|]. exfalso.
  apply (H4 c); [apply elem_of_zrange; lia|set_solver].
Qed.

(** ** Theorem *)

Section After.
Context `{X : X86Crate}.

(** No free frame after the reservations starts in a range the test checks. *)
Lemma excludes_after p boot s :
  frames s.(PMM) ⊆ all_avail (HVec.as_slice boot.(mmap)) ∖ range_frames (boot_ranges p boot) →
  excludes p.(kernel_phys_start_) p.(kernel_phys_end_) s.
Proof.
  intros Hsub i Hi. apply not_true_iff_false. intros (r & Hr & Hin)%existsb_exists.
  apply Hsub, elem_of_difference in Hi as [_ Hn]. apply Hn.
  unfold inside in Hin. apply andb_true_iff in Hin as [H1%Z.leb_le H2%Z.ltb_lt].
  assert (∃ r', r' ∈ boot_ranges p boot ∧ r'.1 ≤ i * FRAME_SIZE < r'.2) as ([lo hi] & Hb & Hlh).
  { cbn [reserved_ranges In] in Hr. destruct Hr as [<-|[<-|[<-|[<-|[]]]]]; cbn [fst snd] in *.
    - exists (0x0, 0x1000). split; [|done]. left.
    - exists (0xA0000, 0xC0000). split; [|done]. right. right. left.
    - exists (p.(kernel_phys_start_), p.(kernel_phys_end_)). split; [|done]. do 4 right. left.
    - exists (0xA0000, 0xC0000). split; [|cbn; lia]. right. right. left. }
  apply elem_of_range_frames. exists lo, hi, (i * FRAME_SIZE). split; [done|]. split; [done|apply frame_of_addr].
Qed.

(** The reservations leave enough consecutive memory, aligned like the test's
    request, for the page tables and a run of 16 frames beside the cursor. *)
Definition enough_memory (k : LinkerSyms) (p : Arch.BootParams) (boot : BootInfo) : Prop :=
  ∃ lo, 0 ≤ lo ∧ lo mod 4 = 0 ∧
    zrange lo (lo + 16 * (frames_needed k p.(heap_phys_start_) p.(heap_phys_end_) + 2)) ⊆
      all_avail (HVec.as_slice boot.(mmap)) ∖ range_frames (boot_ranges p boot).

(** What the frame-allocator tests need holds after bring-up. *)
Lemma pmm_conditions debug k bp p boot nx v v' h :
  machine_ok k bp p boot v → booted debug k bp p boot v nx v' h → enough_memory k p boot →
  kernel_phys_start v'.(mem) bp = Ret p.(kernel_phys_start_) ∧ kernel_phys_end v'.(mem) bp = Ret p.(kernel_phys_end_) ∧
  ready v'.(src) ∧ excludes p.(kernel_phys_start_) p.(kernel_phys_end_) v'.(src) ∧ roomy v'.(src) ∧
  (512 ≤ size (frames v'.(src).(PMM)))%nat.
Proof.
  intros Hm Hb (lo & Hlo & Hal & Hz).
  pose proof (bt_src _ _ _ _ _ _ _ _ _ Hb) as Hs. pose proof (bt_free _ _ _ _ _ _ _ _ _ Hb) as Hfree.
  pose proof (bt_count _ _ _ _ _ _ _ _ _ Hb) as Hcnt. pose proof (bt_block _ _ _ _ _ _ _ _ _ Hb) as Hblk.
  set (N := frames_needed _ _ _) in *.
  assert (12289 ≤ N) as HN.
  { unfold N, frames_needed. pose proof (mo_sections _ _ _ _ _ Hm) as Hsec. destruct (image_top_bounds k Hsec) as [[Ht _] _].
    destruct (mo_heap _ _ _ _ _ Hm) as (_ & _ & ->). destruct Hsec as [_ _ H1 H2 H3 _ _]. unfold HEAP_SIZE. zlia. }
  pose proof (subseteq_size _ _ Hz) as Hsz. rewrite size_zrange in Hsz.
  unfold kernel_phys_start, kernel_phys_end. rewrite Hblk. split; [done|]. split; [done|]. split; [exact Hs|].
  split; [by apply (excludes_after p boot)|]. split; [|lia].
  apply (roomy_after (Z.to_nat N) lo _ _ Hs Hfree); [lia|done|done|].
  replace (16 * Z.of_nat (Z.to_nat N + 2)) with (16 * (N + 2)) by lia. exact Hz.
Qed.

(** The frame-allocator self-tests pass after a release boot, and leak
    nothing.  On a machine with enough consecutive memory left by the reservations,
    bring-up succeeds and then the five tests (uniqueness, reserved ranges, aligned
    runs, count after free, nothing above the boot map) all return Ok and give back
    every frame they took. *)
Theorem pmm_tests_pass k bp p boot nx v :
  machine_ok k bp p boot v → enough_memory k p boot →
  ∃ info v' h s', bring_up false k bp boot nx v = Ret (info, v', h) ∧
    pmm_suite false bp (v'.(src), v'.(mem)) = Ret ([Passed; Passed; Passed; Passed; Passed], (s', v'.(mem))) ∧
    frames s'.(PMM) = frames v'.(src).(PMM).
Proof.
  intros Hm He. destruct (bring_up_ok false k bp p boot nx v Hm) as (info & v' & h & E & Hb).
  destruct (pmm_conditions false k bp p boot nx v v' h Hm Hb He) as (E1 & E2 & Hs & Hex & Hr & Hn).
  destruct (suite_passes bp _ _ v'.(mem) E1 E2 v'.(src) Hs Hex Hr Hn) as (s' & E3 & _ & Hf). by exists info, v', h, s'.
Qed.

End After.

(** ** Witnesses *)

#[local] Existing Instance x86_ref.

Lemma boot_covers : covers_2m boot_machine.
Proof. split; by vm_compute. Qed.

Lemma vmm_tests_pass_witness :
  ∃ info v' h, bring_up false demo_syms 0x204000 boot_demo true boot_machine = Ret (info, v', h) ∧
    Forall (fun t => t = Ret Passed) (vmm_suite false demo_syms h v').
Proof.
  exact (vmm_tests_pass false demo_syms 0x204000 boot_block boot_demo boot_machine boot_demo_ok eq_refl boot_covers).
Defined.

Lemma nx_off_fails_selftest_witness :
  ∃ info v' h, bring_up false demo_syms 0x204000 boot_demo false boot_machine = Ret (info, v', h) ∧
    test_boot_map_nx false v' = Ret (Failed "boot identity map is EXECUTABLE").
Proof.
  refine (nx_off_fails_selftest false demo_syms 0x204000 boot_block boot_demo boot_machine boot_demo_ok boot_covers _).
  by vm_compute.
Defined.

Lemma boot_enough : enough_memory demo_syms boot_block boot_demo.
Proof.
  exists 0x2000. split; [lia|]. split; [done|]. etrans; [|exact boot_demo_free]. intros i. rewrite !elem_of_zrange.
  assert (frames_needed demo_syms (heap_phys_start_ boot_block) (heap_phys_end_ boot_block) = 18436) as -> by by vm_compute. lia.
Qed.

Lemma pmm_tests_pass_witness :
  ∃ info v' h s', bring_up false demo_syms 0x204000 boot_demo true boot_machine = Ret (info, v', h) ∧
    pmm_suite false 0x204000 (v'.(src), v'.(mem)) = Ret ([Passed; Passed; Passed; Passed; Passed], (s', v'.(mem))) ∧
    frames s'.(PMM) = frames v'.(src).(PMM).
Proof. exact (pmm_tests_pass demo_syms 0x204000 boot_block boot_demo true boot_machine boot_demo_ok boot_enough). Defined.
