(* ===== verification/SelftestStatic.v ===== *)
(** * The self-test's parser, ABI and decoder tests (kernel/src/selftest.rs)

    Tests of code without machine state: they are evaluated. *)

From stdpp Require Import base list list_numbers strings.
From Stdlib Require Import ZArith Lia.
From S2P Require Import Prelude Arch BootInfo Pmm Multiboot MultibootSpec Params Keyboard Gdt Syscall SelftestPmm.
#[local] Open Scope Z_scope.

(** ** Multiboot2 *)

(** The five malformed structures and the error each must give. *)
Definition malformed_cases : list (bytes * ParseError) :=
  [([0; 0; 0; 0], TooShort);
   ([8; 0; 0; 0; 0; 0; 0; 0], NoMemoryMap);
   ([64; 0; 0; 0; 0; 0; 0; 0; 0; 0; 0; 0; 0; 0; 0; 0], SizeMismatch);
   ([16; 0; 0; 0; 0; 0; 0; 0; 1; 0; 0; 0; 4; 0; 0; 0], TagUndersize);
   ([16; 0; 0; 0; 0; 0; 0; 0; 1; 0; 0; 0; 64; 0; 0; 0], TagOverrun)].

Fixpoint check_malformed (l : list (bytes * ParseError)) : Res TestResult :=
  match l with
  | [] => Ret Passed
  | (b, expect) :: l' =>
      r ← parse b;
      match r with
      | inl e => if bool_decide (e = expect) then check_malformed l' else Ret (Failed "rejected with another error")
      | inr _ => Ret (Failed "case was ACCEPTED; it must be rejected")
      end
  end.

Definition test_multiboot_malformed : Res TestResult := check_malformed malformed_cases.

Definition align8 (n : Z) : Z := Z.land (n + 7) (bnot 64 7).

(** [while buf.len() < len { buf.push(0) }] *)
Definition pad_to (buf : bytes) (len : Z) : bytes := buf ++ replicate (Z.to_nat len - length buf) 0.

(** The structure [test_multiboot_roundtrip] builds. *)
Definition roundtrip_cmdline : bytes := lit "orin.log=debug orin.selftest=on" ++ [0].
Definition roundtrip_buf : bytes :=
  let cmdline_tag_len := 8 + Z.of_nat (length roundtrip_cmdline) in
  let mmap_tag_len := 8 + 8 + 24 in
  let total := 8 + align8 cmdline_tag_len + align8 mmap_tag_len + 8 in
  let buf := le_bytes 4 total ++ le_bytes 4 0 in
  let buf := buf ++ le_bytes 2 1 ++ le_bytes 2 0 ++ le_bytes 4 cmdline_tag_len ++ roundtrip_cmdline in
  let buf := pad_to buf (8 + align8 cmdline_tag_len) in
  let buf := buf ++ le_bytes 2 6 ++ le_bytes 2 0 ++ le_bytes 4 mmap_tag_len ++ le_bytes 4 24 ++ le_bytes 4 0 ++
    le_bytes 8 0x100000 ++ le_bytes 8 (512 * 1024 * 1024) ++ le_bytes 4 1 ++ le_bytes 4 0 in
  let buf := pad_to buf (8 + align8 cmdline_tag_len + align8 mmap_tag_len) in
  buf ++ le_bytes 2 0 ++ le_bytes 2 0 ++ le_bytes 4 8.

Definition test_multiboot_roundtrip : Res TestResult :=
  r ← parse roundtrip_buf;
  match r with
  | inl _ => Ret (Failed "valid structure rejected")
  | inr info =>
      match info.(cmdline) with
      | None => Ret (Failed "cmdline tag not extracted")
      | Some cl =>
          if negb (bool_decide (as_str cl = lit "orin.log=debug orin.selftest=on")) then Ret (Failed "NUL not stripped")
          else if negb (info.(mmap).(HVec.len) =? 1) then Ret (Failed "expected 1 mmap entry")
          else
            e ← lget (HVec.as_slice info.(mmap)) 0;
            if negb (e.(base) =? 0x100000) || negb (e.(length_) =? 512 * 1024 * 1024) || negb (e.(mem_type) =? 1)
            then Ret (Failed "mmap entry wrong")
            else
              let params := parse_params (as_str cl) in
              if negb (bool_decide (params.(log) = Some Debug)) then Ret (Failed "parse_params gave another log level")
              else if negb (HStr.is_empty params.(unknown)) then Ret (Failed "parse_params flagged known parameters as unknown")
              else Ret Passed
      end
  end.

(** ** Syscall ABI *)

Fixpoint all_nosys (l : list Z) : bool :=
  match l with
  | [] => true
  | n :: l' => match dispatch n (replicate 6 0) with inr Nosys => all_nosys l' | _ => false end
  end.

Definition overlap (b1 b2 : Range) : bool := (b1.(start) <? b2.(stop)) && (b2.(start) <? b1.(stop)).

Fixpoint blocks_overlap (l : list Range) : bool :=
  match l with
  | [] => false
  | b :: l' => existsb (overlap b) l' || blocks_overlap l'
  end.

Definition test_syscall_enosys : Res TestResult :=
  if negb (all_nosys [nr.SPAWN; nr.MMAP; nr.OPEN; nr.IPC_SEND; nr.CAP_GRANT; nr.OKI_CALL; nr.CLOCK_GET; 9999])
  then Ret (Failed "dispatch returned something else than Err(Nosys)")
  else if blocks_overlap nr.blocks then Ret (Failed "syscall blocks overlap")
  else Ret Passed.

(** [u16] addition, checked. *)
Definition add16 (a b : Z) : Res Z := if a + b <? 2 ^ 16 then Ret (a + b) else Panic Overflow.

Definition test_star_value : Res TestResult :=
  let star := star_value KERNEL_CODE_SEL USER_CODE_SEL in
  let base := Z.land (Z.shiftr star 48) 0xFFFF in
  let kcs := Z.land (Z.shiftr star 32) 0xFFFF in
  cs ← add16 base 16;
  if negb (cs =? USER_CODE_SEL) then Ret (Failed "STAR base + 16 is not user CS")
  else
    ss ← add16 base 8;
    if negb (ss =? USER_DATA_SEL) then Ret (Failed "STAR base + 8 is not user SS")
    else if negb (kcs =? KERNEL_CODE_SEL) then Ret (Failed "STAR kernel CS")
    else Ret Passed.

Definition all_errnos : list Errno :=
  [Perm; NoEnt; IO; BadF; Again; NoMem; Access; Busy; Exist; NoDev; NotDir; IsDir; Inval; FileTooBig; NoSpace; Pipe;
   CapMissing; SignatureBad; CallUnknown; Nosys].

Fixpoint check_errnos (l : list Errno) : TestResult :=
  match l with
  | [] => Passed
  | e :: l' =>
      if negb ((-4095 <=? as_negated e) && (as_negated e <=? -1)) then Failed "negates outside -1..=-4095"
      else if bool_decide (name e = ""%string) then Failed "has no name"
      else check_errnos l'
  end.

Definition test_errno_range : Res TestResult := Ret (check_errnos all_errnos).

(** ** The scancode decoder *)

(** [translate_raw(b).ok_or(why)?] *)
Definition need (tick b : Z) (why : string) (k : KeyEvent → State → Res (TestResult * State)) (st : State) :
    Res (TestResult * State) :=
  '(r, st) ← translate_raw tick b st;
  match r with
  | Some ev => k ev st
  | None => Ret (Failed why, st)
  end.

(** [let _ = translate_raw(b)] *)
Definition feed (tick b : Z) (k : option KeyEvent → State → Res (TestResult * State)) (st : State) : Res (TestResult * State) :=
  '(r, st) ← translate_raw tick b st; k r st.

Definition is_code (c : KeyCode.KeyCode) (ev : KeyEvent) : bool := bool_decide (ev.(code) = c).
Definition is_char (c : Z) (ev : KeyEvent) : bool := bool_decide (ev.(ch) = Some c).

Definition test_scancode_translation (tick : Z) (st : State) : Res (TestResult * State) :=
  let st := reset_state_for_test st in
  need tick 0x1E "0x1E produced no event" (fun a_down =>
  if negb (is_code KeyCode.A a_down) || negb a_down.(pressed) || negb (is_char 0x61 a_down)
  then fun st => Ret (Failed "0x1E: expected A pressed 'a'", st) else
  need tick 0x9E "0x9E produced no event" (fun a_up =>
  if negb (is_code KeyCode.A a_up) || a_up.(pressed)
  then fun st => Ret (Failed "0x9E: expected A released", st) else
  need tick 0x2A "0x2A (shift) produced no event" (fun _ =>
  need tick 0x1E "shifted 0x1E produced no event" (fun big_a =>
  if negb (is_char 0x41 big_a) || negb big_a.(ev_shift)
  then fun st => Ret (Failed "shift+0x1E: expected 'A' with shift", st) else
  feed tick 0xAA (fun _ =>
  need tick 0x1E "0x1E after shift release produced no event" (fun small =>
  if negb (is_char 0x61 small) || small.(ev_shift)
  then fun st => Ret (Failed "after shift release: expected 'a' unshifted", st) else
  feed tick 0xE0 (fun r =>
  match r with
  | Some _ => fun st => Ret (Failed "0xE0 prefix produced an event; it must be consumed silently", st)
  | None =>
  need tick 0x48 "E0 48 produced no event" (fun up =>
  if negb (is_code KeyCode.ArrowUp up) then fun st => Ret (Failed "E0 48: expected ArrowUp", st) else
  fun st => let st := reset_state_for_test st in
  feed tick 0xE0 (fun _ =>
  feed tick 0x2A (fun r =>
  match r with
  | Some _ => fun st => Ret (Failed "E0 2A (PrintScreen's synthetic shift) produced an event; it must be swallowed", st)
  | None =>
  feed tick 0xE0 (fun _ =>
  need tick 0x37 "E0 37 produced no event" (fun ps =>
  if negb (is_code KeyCode.PrintScreen ps) || ps.(ev_shift)
  then fun st => Ret (Failed "E0 37: expected PrintScreen with shift untouched", st) else
  fun st => Ret (Passed, st)))
  end)) st)
  end))))))) st.

(** ** Theorems *)

(** A byte that is a key, with or without the E0 prefix, counts one event. *)
Lemma key_event tick b c ext (st : State) :
  bool_decide (b = 0xE0 ∨ b = 0xE1) || (0x60 <=? Z.land b 0x7F) || (ext && bool_decide (Z.land b 0x7F = 0x2A)) = false →
  (if ext then Ret (lookup_e0 (Z.land b 0x7F)) else lget SCANCODE_BASE (Z.land b 0x7F)) = Ret c → c ≠ KeyCode.None →
  st.(extended) = ext → st.(pause_prefix) = false → st.(events) + 1 < U64 →
  let st1 := update_mods c (negb (Z.land b 0x80 =? 0)) (set_prefix false false st) in
  translate_raw tick b st =
    Ret (Some (event_of c (Z.land b 0x80 =? 0) tick (char_for c st1.(shift)) st1), set_events (st.(events) + 1) st1).
Proof.
  intros Hb Hc Hn He Hp Hev. apply orb_false_iff in Hb as [[Hb H6]%orb_false_iff Hx].
  apply bool_decide_eq_false in Hb. unfold translate_raw, translate.
  destruct (Z.eqb_spec b 0xE0); [naive_solver|]. destruct (Z.eqb_spec b 0xE1); [naive_solver|]. rewrite Hp, H6, He.
  assert (∀ r st', st'.(events) = st.(events) → emit c r tick st' =
    Ret (Some (event_of c (negb r) tick (char_for c (update_mods c r st').(shift)) (update_mods c r st')),
         set_events (st.(events) + 1) (update_mods c r st'))) as Hemit.
  { intros r st' Est. unfold emit. rewrite bool_decide_eq_false_2 by done.
    assert ((update_mods c r st').(events) = st.(events)) as -> by (rewrite <- Est; by destruct c). by rewrite add64_ok. }
  destruct ext.
  - cbn [andb] in Hx. apply bool_decide_eq_false in Hx.
    destruct (Z.eqb_spec (Z.land b 0x7F) 0x2A); [done|]. destruct (Z.eqb_spec (Z.land b 0x7F) 0xAA) as [E|]; [by rewrite E in H6|].
    cbn [orb]. injection Hc as ->. rewrite bool_decide_eq_false_2 by done. rewrite Hemit by done. by rewrite negb_involutive.
  - rewrite Hc. cbn [mbind Res_bind]. rewrite Hemit by done. rewrite negb_involutive.
    destruct st as [p sh ct al ex pa ne u cb]. cbn [extended pause_prefix] in *. by subst.
Qed.

(** One key of the test: [c] with prefix [ext]; then the checks on its event. *)
Ltac check := repeat match goal with
  | |- context [if ?b then (fun _ => Ret (Failed _, _)) else _] => replace b with false by (by vm_compute); cbv beta iota
  end.
Ltac key c ext :=
  rewrite (key_event _ _ c ext); [|by vm_compute|by vm_compute|done|reflexivity|reflexivity|cbn; lia];
  rewrite Ret_bind; cbv zeta beta iota; check.
Ltac prefix := match goal with |- context [translate_raw ?t 0xE0 ?s] =>
  change (translate_raw t 0xE0 s) with (Ret (@None KeyEvent, set_prefix true s.(pause_prefix) s)) end;
  rewrite Ret_bind; cbv beta iota.

Lemma scancode_passes tick st :
  0 ≤ st.(events) → st.(events) + 8 < U64 →
  ∃ st', test_scancode_translation tick st = Ret (Passed, st') ∧ st'.(events) = st.(events) + 8 ∧ st'.(presence) = st.(presence).
Proof.
  intros H0 H1. unfold test_scancode_translation. unfold need at 1. key KeyCode.A false. unfold need at 1. key KeyCode.A false.
  unfold need at 1. key KeyCode.ShiftLeft false. unfold need at 1. key KeyCode.A false.
  unfold feed at 1. key KeyCode.ShiftLeft false. unfold need at 1. key KeyCode.A false.
  unfold feed at 1. prefix. unfold need at 1. key KeyCode.ArrowUp true.
  unfold feed at 1. prefix. unfold feed at 1.
  match goal with |- context [translate_raw ?t 0x2A ?s] =>
    change (translate_raw t 0x2A s) with (Ret (@None KeyEvent, set_prefix false s.(pause_prefix) s)) end.
  rewrite Ret_bind. cbv beta iota. unfold feed at 1. prefix. unfold need at 1. key KeyCode.PrintScreen true.
  eexists. split; [reflexivity|]. split; [cbn; lia|by destruct st].
Qed.

(** The self-test's parser, ABI and decoder tests pass: the five malformed
    Multiboot2 structures are rejected with the five expected errors, the
    synthetic structure is parsed back, every syscall number gives ENOSYS and the
    number blocks are disjoint, STAR yields the GDT's selectors, the error codes
    negate into -4095..-1, and, from whatever state the keyboard driver is in, the
    scancode sequence decodes as expected. *)
Theorem static_tests_pass tick st :
  0 ≤ st.(events) → st.(events) + 8 < U64 →
  test_multiboot_malformed = Ret Passed ∧ test_multiboot_roundtrip = Ret Passed ∧ test_syscall_enosys = Ret Passed ∧
  test_star_value = Ret Passed ∧ test_errno_range = Ret Passed ∧
  ∃ st', test_scancode_translation tick st = Ret (Passed, st').
Proof.
  intros H0 H1. do 5 (split; [by vm_compute|]). destruct (scancode_passes tick st H0 H1) as (st' & E & _). by exists st'.
Qed.

Lemma static_tests_pass_witness : ∃ st', test_scancode_translation 7 State_initial = Ret (Passed, st').
Proof. apply (static_tests_pass 7 State_initial); [done|by vm_compute]. Defined.
