(* ===== verification/Selftest.v ===== *)
(** * The boot self-test (kernel/src/selftest.rs)

    The tests of the control registers, the timer, the keyboard line, the PS/2
    controller and the screen. *)

From stdpp Require Import base gmap sets list list_numbers strings numbers.
From Stdlib Require Import ZArith Lia.
From S2P Require Import Prelude Arch BootInfo Bitmap Pmm PmmSpec Multiboot Params Vmm PageTables VmmSpec AddressSpace Ports Pic.
From S2P Require Import Keyboard Vga ConsoleLog Cpuid Regs Heap BootMemory SelftestPmm SelftestVmm SelftestStatic.
#[local] Open Scope Z_scope.

(** ** Registers, interrupts, console *)

Definition test_control_registers (feats : CpuFeatures) (regs : CpuRegs) : TestResult :=
  match filter (.≠ ""%string) (control_register_problems feats regs) with
  | [] => Passed
  | _ => Failed "control-register problem(s)"
  end.

Definition SPIN_LIMIT : Z := 400000000.

(** The busy-wait: [ticks i] is the tick counter at the [i]-th reading, [n] spins
    are left. *)
Fixpoint wait (n : nat) (ticks : nat → Z) (i : nat) (target : Z) : option nat :=
  if ticks i <? target then match n with O => None | S n' => wait n' ticks (S i) target end else Some i.

(** [start] is read before interrupts are enabled; [idt_ticks] is the IDT's
    counter after the wait.  [spins > limit] is reached after [limit + 1] spins. *)
Definition test_timer_interrupt (start : Z) (ticks : nat → Z) (idt_ticks : Z) : Res TestResult :=
  target ← add64 start 2;
  match wait (Z.to_nat SPIN_LIMIT) ticks 0 target with
  | None => Ret (Failed "timer did not tick")
  | Some _ =>
      if idt_ticks =? 0 then Ret (Failed "PIT tick counter advanced but the IDT counter is 0")
      else Ret Passed
  end.

Definition test_keyboard_irq_armed (p : Pic) : TestResult :=
  if Z.land (masks p).1 (Z.shiftl 1 1) =? 0 then Passed else Failed "IRQ1 is MASKED".

(** [test_ps2_alive] only reports. *)
Definition test_ps2_alive : TestResult := Passed.

(** ** The wait is a bounded search *)

Lemma wait_finds n ticks i target :
  (∃ j, (j ≤ n)%nat ∧ target ≤ ticks (i + j)%nat) ↔ ∃ r, wait n ticks i target = Some r.
Proof.
  revert i. induction n as [|n IH]; intros i; cbn [wait]; destruct (Z.ltb_spec (ticks i) target) as [Hlt|Hge].
  - split; [|naive_solver]. intros (j & Hj & Ht). assert (j = 0)%nat as -> by lia. rewrite Nat.add_0_r in Ht. lia.
  - split; [naive_solver|]. intros _. exists 0%nat. rewrite Nat.add_0_r. split; [lia|done].
  - rewrite <- IH. split.
    + intros (j & Hj & Ht). destruct j as [|j]; [rewrite Nat.add_0_r in Ht; lia|]. exists j. rewrite Nat.add_succ_r in Ht. split; [lia|done].
    + intros (j & Hj & Ht). exists (S j). rewrite Nat.add_succ_r. split; [lia|done].
  - split; [naive_solver|]. intros _. exists 0%nat. rewrite Nat.add_0_r. split; [lia|done].
Qed.

(** The timer test always ends and is exact.  It returns after at most
    400 000 001 readings of the tick counter, whatever the counter does, and it
    passes if and only if one of those readings is at least two ticks after the
    start and the interrupt handler counted a tick. *)
Theorem timer_test_decides start ticks idt_ticks :
  start + 2 < U64 →
  ∃ r, test_timer_interrupt start ticks idt_ticks = Ret r ∧
    (r = Passed ↔ idt_ticks ≠ 0 ∧ ∃ j, (j ≤ Z.to_nat SPIN_LIMIT)%nat ∧ start + 2 ≤ ticks j).
Proof.
  intros Hs. unfold test_timer_interrupt. rewrite add64_ok by done. cbn [mbind Res_bind].
  pose proof (wait_finds (Z.to_nat SPIN_LIMIT) ticks 0 (start + 2)) as Hw. cbn [Nat.add] in Hw.
  set (n := Z.to_nat SPIN_LIMIT) in *. clearbody n. destruct (wait n ticks 0 (start + 2)) as [r|].
  - destruct (Z.eqb_spec idt_ticks 0) as [->|Hne]; eexists; (split; [reflexivity|]); [naive_solver|].
    split; [|done]. intros _. split; [done|]. apply Hw. by exists r.
  - eexists. split; [reflexivity|]. split; [done|]. intros [_ H]. apply Hw in H as [r Hr]. done.
Qed.

Lemma timer_test_decides_witness :
  ∃ r, test_timer_interrupt 5 (fun i => Z.of_nat (i / 3)%nat) 7 = Ret r ∧
    (r = Passed ↔ 7 ≠ 0 ∧ ∃ j, (j ≤ Z.to_nat SPIN_LIMIT)%nat ∧ 5 + 2 ≤ Z.of_nat (j / 3)%nat).
Proof. apply (timer_test_decides 5 (fun i => Z.of_nat (i / 3)%nat) 7). by vm_compute. Defined.

Section Console.
Context {D : Type} `{B : Bus D}.

Definition MARKER : bytes := lit "ORIN-M1".

(** The cells as bytes of the text window, read through the identity map. *)
Definition raw_probe (s : Console D) : Res bytes :=
  for_range 0 7 (replicate 7 0) (fun i buf => a ← read_cell (12 * 80 + 0 + i) s; lset buf i a).

Definition test_console_vga (s : Console D) : Res (TestResult * Console D) :=
  s ← clear_line 12 s;
  s ← for_list (zip (seqZ 0 7) MARKER) s (fun ib s => put_at 12 (0 + ib.1) ib.2 s);
  back ← read_row 12 s;
  if negb (bool_decide (take 7 back = MARKER)) then Ret (Failed "VGA read back differs", s)
  else
    raw ← raw_probe s;
    if negb (bool_decide (raw = MARKER)) then Ret (Failed "raw identity probe differs", s)
    else Ret (Passed, s).

Lemma put_at_ok c a (s : Console D) :
  length s.(cells) = 2000%nat → 0 ≤ c < 80 →
  put_at 12 c a s = Ret (set_cells (<[Z.to_nat (12 * 80 + c) := mkCell a s.(writer).(color)]> s.(cells)) s).
Proof.
  intros Hl Hc. unfold put_at, HEIGHT, WIDTH. change (12 <? 25) with true. destruct (Z.ltb_spec c 80); [|lia]. cbn [andb].
  apply write_cell_ok; lia.
Qed.

(** The marker is on row 12 after the loop. *)
Definition marked (n : Z) (s : Console D) : Prop :=
  length s.(cells) = 2000%nat ∧ ∀ i, 0 ≤ i < n → (s.(cells) !!! Z.to_nat (12 * 80 + i)).(ascii) = MARKER !!! Z.to_nat i.

Lemma marked_step n b s :
  marked n s → 0 ≤ n < 80 → MARKER !!! Z.to_nat n = b → ∃ s', put_at 12 (0 + n) b s = Ret s' ∧ marked (n + 1) s' ∧ s'.(writer) = s.(writer).
Proof.
  intros [Hl Hm] Hn Hb. rewrite Z.add_0_l, put_at_ok by done. eexists. split; [reflexivity|]. split; [|done]. cbn [cells set_cells].
  split; [cbn; by rewrite length_insert|]. intros i Hi. cbn [set_cells cells]. destruct (decide (i = n)) as [->|].
  - rewrite list_lookup_total_insert_eq by lia. done.
  - rewrite list_lookup_total_insert_ne by lia. apply Hm. lia.
Qed.

Lemma marker_loop s :
  length s.(cells) = 2000%nat →
  ∃ s', for_list (zip (seqZ 0 7) MARKER) s (fun ib s => put_at 12 (0 + ib.1) ib.2 s) = Ret s' ∧ marked 7 s' ∧ s'.(writer) = s.(writer).
Proof.
  intros Hl. change (zip (seqZ 0 7) MARKER) with ((fun i => (i, MARKER !!! Z.to_nat i)) <$> [0; 1; 2; 3; 4; 5; 6]).
  assert (∀ l n s, marked n s → 0 ≤ n → n + Z.of_nat (length l) ≤ 80 → l = seqZ n (Z.of_nat (length l)) →
    ∃ s', for_list ((fun i => (i, MARKER !!! Z.to_nat i)) <$> l) s (fun ib s => put_at 12 (0 + ib.1) ib.2 s) = Ret s' ∧
      marked (n + Z.of_nat (length l)) s' ∧ s'.(writer) = s.(writer)) as Hloop.
  { intros l. induction l as [|x l IH]; intros n t Ht Hn Hlen Hseq; cbn [fmap list_fmap for_list].
    { exists t. by rewrite Z.add_0_r. }
    cbn [length] in Hlen, Hseq. rewrite Nat2Z.inj_succ in Hlen, Hseq. rewrite seqZ_cons in Hseq by lia. injection Hseq as -> Hseq.
    rewrite Z.pred_succ in Hseq. cbn [fst snd]. destruct (marked_step n _ t Ht ltac:(lia) eq_refl) as (t' & -> & Ht' & Hw).
    cbn [mbind Res_bind]. destruct (IH (n + 1) t' Ht') as (s' & -> & Hs' & Hw'); [lia|lia|by rewrite Z.add_1_r|].
    exists s'. split; [done|]. split; [|congruence]. cbn [length]. by replace (n + Z.of_nat (S (length l))) with (n + 1 + Z.of_nat (length l)) by lia. }
  apply (Hloop [0; 1; 2; 3; 4; 5; 6] 0 s); [|lia|cbn; lia|done]. split; [done|lia].
Qed.

Lemma raw_probe_ok s : marked 7 s → raw_probe s = Ret MARKER.
Proof.
  intros [Hl Hm]. unfold raw_probe.
  destruct (for_range_inv (fun n buf => length buf = 7%nat ∧ ∀ i, (Z.of_nat i < n) → buf !! i = MARKER !! i) 0 7 (replicate 7 0)
    (fun i buf => a ← read_cell (12 * 80 + 0 + i) s; lset buf i a)) as (buf & -> & Hlen & Hb).
  - lia.
  - split; [done|lia].
  - intros n buf Hn [Hlen Hb]. rewrite read_cell_ok by (done || lia). cbn [mbind Res_bind]. rewrite lset_ok by lia.
    eexists. split; [reflexivity|]. split; [by rewrite length_insert|]. intros i Hi. destruct (decide (Z.of_nat i = n)) as [<-|].
    + rewrite Nat2Z.id, list_lookup_insert_eq by lia. rewrite Z.add_0_r, Hm, Nat2Z.id by lia.
      symmetry. apply list_lookup_lookup_total_lt. change (length MARKER) with 7%nat. lia.
    + rewrite list_lookup_insert_ne by lia. apply Hb. lia.
  - f_equal. apply list_eq. intros i. destruct (decide (i < 7)%nat); [apply Hb; lia|].
    rewrite !lookup_ge_None_2; [done|change (length MARKER) with 7%nat; lia|lia].
Qed.

Lemma console_passes (s : Console D) :
  length s.(cells) = 2000%nat →
  ∃ s', test_console_vga s = Ret (Passed, s') ∧ length s'.(cells) = 2000%nat ∧ s'.(writer) = s.(writer).
Proof.
  intros Hl. unfold test_console_vga. destruct (clear_line_ok 12 s Hl) as (l & -> & Hl1 & _); [lia|]. rewrite Ret_bind.
  destruct (marker_loop (set_cells l s)) as (s' & -> & Hm & Hw); [cbn; congruence|]. rewrite Ret_bind.
  rewrite read_row_ok by (apply Hm || lia). rewrite Ret_bind.
  assert (take 7 (row_text s' 12) = MARKER) as ->.
  { apply list_eq. intros i. destruct (decide (i < 7)%nat) as [Hi|Hi].
    - rewrite lookup_take_lt, row_text_lookup by lia. unfold char_at. rewrite (proj2 Hm) by lia. rewrite Nat2Z.id.
      symmetry. apply list_lookup_lookup_total_lt. change (length MARKER) with 7%nat. lia.
    - rewrite lookup_take_ge by lia. rewrite lookup_ge_None_2; [done|]. change (length MARKER) with 7%nat. lia. }
  rewrite bool_decide_eq_true_2 by done. cbn [negb]. rewrite raw_probe_ok by done. rewrite Ret_bind.
  rewrite bool_decide_eq_true_2 by done. cbn [negb]. exists s'. split; [done|]. split; [apply Hm|exact Hw].
Qed.

End Console.
