(* ===== verification/SelftestRun.v ===== *)
(** * Running the self-test (kernel/src/selftest.rs, [run_all])

    The tests in their order over the kernel's state, the tally and the log
    records, and the main theorem: a machine brought up as documented, with a
    running timer and a heap allocator that has room, passes every test and says so
    on the serial line. *)

From stdpp Require Import base gmap sets list list_numbers strings numbers.
From Stdlib Require Import ZArith Lia.
From S2P Require Import Prelude Arch BootInfo Bitmap Pmm PmmSpec Multiboot Params Vmm PageTables VmmSpec AddressSpace VmmWitness Ports Pic.
From S2P Require Import Keyboard Serial Vga ConsoleLog Cpuid Regs Heap BootMemory BootWitness HeapTest HeapRoom SelftestPmm SelftestVmm SelftestMemory SelftestStatic Selftest.
#[local] Open Scope Z_scope.

Inductive Verdict : Type := Pass | Fail | Skip.

Record Tally : Type := mkTally { pass : Z; fail : Z; skip_ : Z }.

(** What the tests change. *)
Record World (D A : Type) : Type := mkWorld {
  vm : Vmm Pmm; heap : Heap; hmem : Mem A; kbd : State; out : Sink D }.
Arguments mkWorld {D A} _ _ _ _ _.
Arguments vm {D A} _.
Arguments heap {D A} _.
Arguments hmem {D A} _.
Arguments kbd {D A} _.
Arguments out {D A} _.

(** What they read: the linker symbols, the parameter block's address, the build
    profile, the interrupt masks, the CPU's features and registers, whether the
    text window is live, the tick counter before and during the timer test, the
    IDT's count after it, the tick of the synthetic key events, the clock at each
    record, the text of each test's result and the source file's name. *)
Record Env : Type := mkEnv {
  e_syms : LinkerSyms; e_bp : Z; e_debug : bool; e_pic : Pic; e_feats : CpuFeatures; e_regs : CpuRegs;
  e_live : bool; e_start : Z; e_ticks : nat → Z; e_idt : Z; e_tick : Z;
  e_now : bytes → Z; e_detail : bytes → bytes; e_file : bytes }.

Section Run.
Context `{X : X86Crate} {D : Type} `{B : Bus D} {A : Type} `{GA : GlobalAlloc A}.
Abbreviation W := (World D A).

Definition set_out (o : Sink D) (w : W) : W := mkWorld w.(vm) w.(heap) w.(hmem) w.(kbd) o.

(** ** [run] and [skip] *)

Definition Test : Type := W → Res (TestResult * W).

Definition record (env : Env) (l : Level) (tag : string) (name msg : bytes) (w : W) : Res W :=
  o ← log (env.(e_now) name) l (lit tag) name msg w.(out); Ret (set_out o w).

Definition run (env : Env) (name : string) (f : Test) (st : W * Tally) : Res (W * Tally) :=
  let '(w, t) := st in
  '(r, w) ← f w;
  match r with
  | Passed =>
      n ← add64 t.(pass) 1;
      w ← record env Info "SELFTEST|PASS" (lit name) (env.(e_detail) (lit name)) w;
      Ret (w, mkTally n t.(fail) t.(skip_))
  | Failed _ =>
      n ← add64 t.(fail) 1;
      w ← record env Critical "SELFTEST|FAIL" (lit name) (env.(e_detail) (lit name)) w;
      Ret (w, mkTally t.(pass) n t.(skip_))
  end.

Definition skip (env : Env) (name reason : string) (st : W * Tally) : Res (W * Tally) :=
  let '(w, t) := st in
  n ← add64 t.(skip_) 1;
  w ← record env Warn "SELFTEST|SKIP" (lit name) (lit reason) w;
  Ret (w, mkTally t.(pass) t.(fail) n).

(** [kinfo!] *)
Definition kinfo (env : Env) (line : Z) (msg : bytes) (w : W) : Res W :=
  o ← log (env.(e_now) msg) Info (lit "orin_kernel::selftest") (env.(e_file) ++ lit ":" ++ dec line) msg w.(out);
  Ret (set_out o w).

(** ** The tests as state changes *)

Definition reads (t : W → Res TestResult) : Test := fun w => r ← t w; Ret (r, w).

Definition set_frames (st : Pmm * phys) (v : Vmm Pmm) : Vmm Pmm :=
  mkVmm v.(NX_AVAILABLE) v.(PT_POOL) v.(KERNEL_PML4) v.(CR3) st.2 st.1.

Definition on_frames (t : Pmm * phys → Res (TestResult * (Pmm * phys))) : Test := fun w =>
  '(r, st) ← t (w.(vm).(src), w.(vm).(mem));
  Ret (r, mkWorld (set_frames st w.(vm)) w.(heap) w.(hmem) w.(kbd) w.(out)).

Definition on_heap : Test := fun w =>
  '(r, m) ← test_heap w.(heap) w.(hmem); Ret (r, mkWorld w.(vm) w.(heap) m w.(kbd) w.(out)).

Definition on_keys (tick : Z) : Test := fun w =>
  '(r, st) ← test_scancode_translation tick w.(kbd);
  Ret (r, mkWorld w.(vm) w.(heap) w.(hmem) st w.(out)).

Definition on_screen : Test := fun w =>
  '(r, c) ← test_console_vga w.(out).(vga);
  Ret (r, mkWorld w.(vm) w.(heap) w.(hmem) w.(kbd) (mkSink w.(out).(cfg) w.(out).(com1) c)).

(** The unconditional tests before and after the heap's. *)
Definition frame_tests (env : Env) : list (string * Test) :=
  [("address_translation"%string, reads (fun _ => test_address_translation));
   ("pmm_unique"%string, on_frames (test_pmm_unique env.(e_debug) env.(e_bp)));
   ("pmm_reserve_excluded"%string, on_frames (test_pmm_reserve_excluded env.(e_debug) env.(e_bp)));
   ("pmm_contiguous_aligned"%string, on_frames (test_pmm_contiguous env.(e_debug)));
   ("pmm_double_free"%string, on_frames (test_pmm_double_free env.(e_debug)));
   ("pmm_no_boot_map_leak"%string, on_frames (test_pmm_no_boot_map_leak env.(e_debug)))].

Definition later_tests (env : Env) : list (string * Test) :=
  [("heap_guarded"%string, reads (fun w => test_heap_guarded env.(e_debug) w.(heap) w.(vm)));
   ("vmm_translation_matches"%string, reads (fun w => test_vmm_translation env.(e_debug) env.(e_syms) w.(vm)));
   ("wx_policy"%string, reads (fun w => test_wx_policy env.(e_debug) w.(vm)));
   ("text_not_writable"%string, reads (fun w => test_text_not_writable env.(e_debug) env.(e_syms) w.(vm)));
   ("rodata_not_writable"%string, reads (fun w => test_rodata_not_writable env.(e_debug) env.(e_syms) w.(vm)));
   ("boot_map_nx"%string, reads (fun w => test_boot_map_nx env.(e_debug) w.(vm)));
   ("boot_map_not_user"%string, reads (fun w => test_boot_map_not_user env.(e_debug) w.(vm)));
   ("user_half_unmapped"%string, reads (fun w => test_user_half_unmapped env.(e_debug) w.(vm)));
   ("control_registers"%string, reads (fun _ => Ret (test_control_registers env.(e_feats) env.(e_regs))));
   ("timer_interrupt"%string, reads (fun _ => test_timer_interrupt env.(e_start) env.(e_ticks) env.(e_idt)));
   ("keyboard_irq_armed"%string, reads (fun _ => Ret (test_keyboard_irq_armed env.(e_pic))));
   ("multiboot_malformed"%string, reads (fun _ => test_multiboot_malformed));
   ("multiboot_roundtrip"%string, reads (fun _ => test_multiboot_roundtrip));
   ("scancode_translation"%string, on_keys env.(e_tick));
   ("syscall_enosys"%string, reads (fun _ => test_syscall_enosys));
   ("star_value"%string, reads (fun _ => test_star_value));
   ("errno_negated_range"%string, reads (fun _ => test_errno_range))].

Definition run_list (env : Env) (l : list (string * Test)) (st : W * Tally) : Res (W * Tally) :=
  for_list l st (fun nt st => run env nt.1 nt.2 st).

(** [{} passed, {} failed, {} skipped] *)
Definition summary (t : Tally) : bytes :=
  dec t.(pass) ++ lit " passed, " ++ dec t.(fail) ++ lit " failed, " ++ dec t.(skip_) ++ lit " skipped".

Definition run_all (env : Env) (w : W) : Res (Z * Z * Z * W) :=
  w ← kinfo env 133 (lit "selftest: starting in-kernel verification suite") w;
  st ← run_list env (frame_tests env) (w, mkTally 0 0 0);
  st ← run env "heap_alloc" on_heap st;
  st ← run_list env (later_tests env) st;
  st ← (if env.(e_live) then run env "console_vga_writeback" on_screen st
        else skip env "console_vga_writeback"
               "display is in graphics mode; VGA text buffer at 0xB8000 is not the live console" st);
  st ← (match st.1.(kbd).(presence) with
        | Keyboard | Controller => run env "ps2_controller_alive" (reads (fun _ => Ret test_ps2_alive)) st
        | _ => skip env "ps2_controller_alive" "no PS/2 controller on this machine; USB HID arrives in M7" st
        end);
  let '(w, t) := st in
  w ← kinfo env 191 (lit "selftest: " ++ summary t) w;
  w ← record env (if t.(fail) =? 0 then Info else Critical) "SELFTEST|SUMMARY" (lit "result") (summary t) w;
  Ret (t.(pass), t.(fail), t.(skip_), w).

(** ** Every run is counted *)

Definition total (t : Tally) : Z := t.(pass) + t.(fail) + t.(skip_).

Lemma run_counts env name f st st' : run env name f st = Ret st' → total st'.2 = total st.2 + 1 ∧ st'.2.(skip_) = st.2.(skip_).
Proof.
  destruct st as [w t]. unfold run, total. intros H. res_inv. destruct x as [[|why] w1]; res_inv; subst; cbn; lia.
Qed.
Lemma skip_counts env name why st st' :
  skip env name why st = Ret st' → total st'.2 = total st.2 + 1 ∧ st'.2.(skip_) = st.2.(skip_) + 1.
Proof. destruct st as [w t]. unfold skip, total. intros H. res_inv. subst. cbn. lia. Qed.
Lemma run_fails env name f w t w' t' : run env name f (w, t) = Ret (w', t') → t.(fail) ≤ t'.(fail).
Proof.
  unfold run. intros ([[|why] w1] & _ & H)%bind_Ret; apply bind_Ret in H as (n & Hn & H); apply bind_Ret in H as (w2 & _ & H);
    apply Ret_inj in H; injection H as _ <-; apply add64_Ret in Hn as [-> _]; cbn; lia.
Qed.
Lemma run_list_fails env l w t w' t' : run_list env l (w, t) = Ret (w', t') → t.(fail) ≤ t'.(fail).
Proof.
  revert w t. induction l as [|[n f] l IH]; intros w t; unfold run_list; cbn [for_list].
  - intros [= _ <-]. lia.
  - intros ([w1 t1] & H1 & H2)%bind_Ret. apply run_fails in H1. apply IH in H2. lia.
Qed.
Lemma run_list_counts env l st st' :
  run_list env l st = Ret st' → total st'.2 = total st.2 + Z.of_nat (length l) ∧ st'.2.(skip_) = st.2.(skip_).
Proof.
  revert st. induction l as [|[n f] l IH]; intros st; unfold run_list; cbn [for_list length].
  - intros [= <-]. lia.
  - intros (st1 & H1 & H2)%bind_Ret. apply run_counts in H1 as [H1 H1']. apply IH in H2 as [H2 H2']. lia.
Qed.

Lemma run_or_skip env (b : bool) name f why w t w' t' :
  (if b then run env name f (w, t) else skip env name why (w, t)) = Ret (w', t') →
  total t' = total t + 1 ∧ t.(skip_) ≤ t'.(skip_) ≤ t.(skip_) + 1 ∧ t.(fail) ≤ t'.(fail).
Proof.
  destruct b; intros H.
  - pose proof (run_fails _ _ _ _ _ _ _ H). apply run_counts in H as [H1 H2]. cbn in *. lia.
  - pose proof H as H'. apply skip_counts in H' as [H1 H2]. cbn [snd] in *. split; [done|]. split; [lia|].
    unfold skip in H. apply bind_Ret in H as (n & _ & H). apply bind_Ret in H as (w1 & _ & H). apply Ret_inj in H. by injection H as _ <-.
Qed.

(** ** No failure counted means every test passed *)

Definition same_memory (w w' : W) : Prop := w.(vm) = w'.(vm) ∧ w.(heap) = w'.(heap).

#[export] Instance same_memory_preorder : PreOrder same_memory.
Proof. split; [done|]. intros w1 w2 w3 [] []. split; congruence. Qed.

Definition keeps_memory (f : Test) : Prop := ∀ w r w', f w = Ret (r, w') → same_memory w w'.

Lemma record_keeps env l tag name msg w w' : record env l tag name msg w = Ret w' → same_memory w w'.
Proof. unfold record. intros H. res_inv. by subst. Qed.
Lemma kinfo_keeps env line msg w w' : kinfo env line msg w = Ret w' → same_memory w w'.
Proof. unfold kinfo. intros H. res_inv. by subst. Qed.
Lemma reads_keeps t : keeps_memory (reads t).
Proof. unfold reads. intros w r w' H. res_inv. by subst. Qed.
Lemma keys_keep tick : keeps_memory (on_keys tick).
Proof. unfold on_keys. intros w r w' H. res_inv. destruct x. by res_inv; subst. Qed.
Lemma screen_keeps : keeps_memory on_screen.
Proof. unfold on_screen. intros w r w' H. res_inv. destruct x. by res_inv; subst. Qed.

Lemma run_passed env name f w t w' t' :
  keeps_memory f → run env name f (w, t) = Ret (w', t') →
  t.(fail) ≤ t'.(fail) ∧ same_memory w w' ∧ (t'.(fail) = t.(fail) → ∃ w1, f w = Ret (Passed, w1)).
Proof.
  intros Hf H. unfold run in H. apply bind_Ret in H as ([r w1] & E & H). pose proof (Hf _ _ _ E) as Hk.
  destruct r; apply bind_Ret in H as (n & Hn & H); apply bind_Ret in H as (w2 & H2 & H); injection H as <- <-;
    apply add64_Ret in Hn as [-> _]; apply record_keeps in H2; cbn [fail].
  - split; [lia|]. split; [by etrans|]. intros _. by exists w1.
  - split; [lia|]. split; [by etrans|lia].
Qed.

Lemma run_list_passed env l w t w' t' :
  Forall (fun nt : string * Test => keeps_memory nt.2) l → run_list env l (w, t) = Ret (w', t') →
  t.(fail) ≤ t'.(fail) ∧ same_memory w w' ∧
  (t'.(fail) = t.(fail) → Forall (fun nt => ∃ w0 w1, same_memory w w0 ∧ nt.2 w0 = Ret (Passed, w1)) l).
Proof.
  intros Hl. revert w t. induction Hl as [|[name f] l Hf Hl IH]; intros w t; unfold run_list; cbn [for_list].
  - intros [= <- <-]. split; [lia|]. split; [done|]. by constructor.
  - intros ([w1 t1] & H1 & H2)%bind_Ret. apply run_passed in H1 as (F1 & S1 & P1); [|done].
    apply IH in H2 as (F2 & S2 & P2). split; [lia|]. split; [by etrans|]. intros E. constructor.
    + destruct P1 as [w2 Hw2]; [lia|]. by exists w, w2.
    + specialize (P2 ltac:(lia)). eapply Forall_impl; [|exact P2]. intros nt (w0 & w2 & Hs & Hp). exists w0, w2. split; [by etrans|done].
Qed.

Lemma later_tests_keep env : Forall (fun nt : string * Test => keeps_memory nt.2) (later_tests env).
Proof.
  unfold later_tests. repeat (apply Forall_cons_2; [cbn [snd]; first [apply reads_keeps|apply keys_keep]|]). apply Forall_nil_2.
Qed.

(** A reading test that passed was true of the memory it saw. *)
Lemma reads_passed (t : Heap → Vmm Pmm → Res TestResult) w :
  (∃ w0 w1, same_memory w w0 ∧ reads (fun w => t w.(heap) w.(vm)) w0 = Ret (Passed, w1)) → t w.(heap) w.(vm) = Ret Passed.
Proof.
  intros (w0 & w1 & [-> ->] & H). unfold reads in H. apply bind_Ret in H as (r & E & H). apply Ret_inj in H. injection H as -> _. exact E.
Qed.

Lemma run_skip_keep env (b : bool) name f why w t w' t' :
  keeps_memory f → (if b then run env name f (w, t) else skip env name why (w, t)) = Ret (w', t') →
  t.(fail) ≤ t'.(fail) ∧ same_memory w w'.
Proof.
  intros Hf. destruct b; [intros H; apply run_passed in H; naive_solver|]. unfold skip.
  intros (n & _ & (w1 & H1 & H)%bind_Ret)%bind_Ret. apply record_keeps in H1. apply Ret_inj in H. injection H as <- <-. cbn. split; [lia|done].
Qed.

(** ** A world in which the tests pass *)

Section Good.
Context (env : Env) (v' : Vmm Pmm) (h : Heap) (c0 : LogConfig) (p0 : Presence) (m0 : Mem A).

(** [kb] more key events can be counted [8] at a time, [n] more records logged. *)
Record good (kb n : Z) (w : W) : Prop := {
  g_vm : ∃ s, w.(vm) = set_frames (s, v'.(mem)) v' ∧ ready s ∧ frames s.(PMM) = frames v'.(src).(PMM);
  g_heap : w.(heap) = h;
  g_keys : 0 ≤ w.(kbd).(events) ∧ w.(kbd).(events) + 8 * kb < U64;
  g_out : sink_ok n w.(out);
  g_cfg : w.(out).(cfg).(level) = c0.(level) ∧ w.(out).(cfg).(target) = c0.(target) ∧
    w.(out).(cfg).(show_location) = c0.(show_location);
  g_pres : w.(kbd).(presence) = p0;
  g_hmem : w.(hmem) = m0;
}.

Lemma good_less kb kb' n w : kb' ≤ kb → good kb n w → good kb' n w.
Proof. intros Hk [? ? ? ? ? ? ?]. split; try done. lia. Qed.

(** A log record costs one of the budget. *)
Lemma good_record kb n l tag name msg w :
  0 ≤ n → good kb (n + 1) w → ∃ w', record env l tag name msg w = Ret w' ∧ good kb n w'.
Proof.
  intros Hn [Hv Hh Hk Ho (C1 & C2 & C3) Hp Hm]. unfold record.
  destruct (log_step (env.(e_now) name) l (lit tag) name msg w.(out) n Hn Ho) as (o & -> & Ho' & L1 & L2 & L3 & _).
  rewrite Ret_bind. eexists. split; [reflexivity|]. split; cbn; try done. by rewrite L1, L2, L3.
Qed.
Lemma good_kinfo kb n line msg w :
  0 ≤ n → good kb (n + 1) w → ∃ w', kinfo env line msg w = Ret w' ∧ good kb n w'.
Proof.
  intros Hn [Hv Hh Hk Ho (C1 & C2 & C3) Hp Hm]. unfold kinfo.
  destruct (log_step (env.(e_now) msg) Info (lit "orin_kernel::selftest") (env.(e_file) ++ lit ":" ++ dec line) msg w.(out) n Hn Ho)
    as (o & -> & Ho' & L1 & L2 & L3 & _).
  rewrite Ret_bind. eexists. split; [reflexivity|]. split; cbn; try done. by rewrite L1, L2, L3.
Qed.

(** [f] passes in a good world and leaves a good one. *)
Definition passing (f : Test) : Prop :=
  ∀ kb n w, 0 ≤ kb → good (kb + 1) n w → ∃ w', f w = Ret (Passed, w') ∧ good kb n w'.

Lemma run_step name f kb n w w1 t :
  f w = Ret (Passed, w1) → good kb (n + 1) w1 → 0 ≤ n → 0 ≤ t.(pass) < 2 ^ 32 →
  ∃ w', run env name f (w, t) = Ret (w', mkTally (t.(pass) + 1) t.(fail) t.(skip_)) ∧ good kb n w'.
Proof.
  intros E1 Hg1 Hn Ht. unfold run. rewrite E1, Ret_bind.
  rewrite add64_ok by (rewrite U64_val; lia). rewrite Ret_bind.
  destruct (good_record kb n Info "SELFTEST|PASS" (lit name) (e_detail env (lit name)) w1 Hn Hg1) as (w2 & -> & Hg2).
  rewrite Ret_bind. by exists w2.
Qed.

Lemma run_passing name f kb n w t :
  passing f → 0 ≤ kb → 0 ≤ n → good (kb + 1) (n + 1) w → 0 ≤ t.(pass) < 2 ^ 32 →
  ∃ w', run env name f (w, t) = Ret (w', mkTally (t.(pass) + 1) t.(fail) t.(skip_)) ∧ good kb n w'.
Proof. intros Hf Hk Hn Hg Ht. destruct (Hf kb (n + 1) w Hk Hg) as (w1 & E1 & Hg1). by eapply run_step. Qed.

Lemma skip_ok name why kb n w t :
  0 ≤ n → good kb (n + 1) w → 0 ≤ t.(skip_) < 2 ^ 32 →
  ∃ w', skip env name why (w, t) = Ret (w', mkTally t.(pass) t.(fail) (t.(skip_) + 1)) ∧ good kb n w'.
Proof.
  intros Hn Hg Ht. unfold skip. rewrite add64_ok by (rewrite U64_val; lia). rewrite Ret_bind.
  destruct (good_record kb n Warn "SELFTEST|SKIP" (lit name) (lit why) w Hn Hg) as (w2 & -> & Hg2). rewrite Ret_bind. by exists w2.
Qed.

Lemma run_list_passing l kb n w t :
  Forall (fun nt : string * Test => passing nt.2) l → 0 ≤ kb → 0 ≤ n →
  good (kb + Z.of_nat (length l)) (n + Z.of_nat (length l)) w → 0 ≤ t.(pass) → t.(pass) + Z.of_nat (length l) < 2 ^ 32 →
  ∃ w', run_list env l (w, t) = Ret (w', mkTally (t.(pass) + Z.of_nat (length l)) t.(fail) t.(skip_)) ∧ good kb n w'.
Proof.
  intros Hl Hk Hn. revert w t. induction Hl as [|[name f] l Hf Hl IH]; intros w t Hg Ht Hb; unfold run_list; cbn [for_list length].
  - cbn [length] in Hg. rewrite !Z.add_0_r in *. exists w. by destruct t.
  - cbn [length] in *. rewrite Nat2Z.inj_succ in *. cbn [fst snd].
    destruct (run_passing name f (kb + Z.of_nat (length l)) (n + Z.of_nat (length l)) w t) as (w1 & -> & Hg1); [done|lia|lia| |lia|].
    { by rewrite <- !Z.add_assoc, !Z.add_1_r. }
    rewrite Ret_bind. destruct (IH w1 (mkTally (t.(pass) + 1) t.(fail) t.(skip_)) Hg1) as (w2 & E & Hg2); [cbn; lia|cbn; lia|].
    unfold run_list in E. rewrite E. exists w2. split; [|done]. cbn. do 3 f_equal. lia.
Qed.

(** *** Each kind of test *)

Lemma reads_passing (t : W → Res TestResult) :
  (∀ s w, w.(vm) = set_frames (s, v'.(mem)) v' → w.(heap) = h → t w = Ret Passed) → passing (reads t).
Proof.
  intros Ht kb n w Hk Hg. pose proof Hg as [(s & Ev & _ & _) Eh _ _ _ _ _]. unfold reads. rewrite (Ht s w Ev Eh), Ret_bind.
  exists w. split; [done|]. apply (good_less (kb + 1)); [lia|done].
Qed.

Lemma frames_passing (t : Pmm * phys → Res (TestResult * (Pmm * phys))) :
  (∀ s, ready s → frames s.(PMM) = frames v'.(src).(PMM) → passes v'.(mem) t s) → passing (on_frames t).
Proof.
  intros Ht kb n w Hk [(s & Ev & Hs & Hf) Eh Hky Ho Hc Hp Hm]. unfold on_frames. rewrite Ev. cbn [set_frames src mem fst snd].
  destruct (Ht s Hs Hf) as (s' & -> & Hs' & Hf'). rewrite Ret_bind. eexists. split; [reflexivity|]. split; cbn; try done; [|lia].
  exists s'. split; [done|]. split; [done|congruence].
Qed.

Lemma keys_passing tick : passing (on_keys tick).
Proof.
  intros kb n w Hk [Hv Eh [H0 H1] Ho Hc Hp Hm]. unfold on_keys. destruct (scancode_passes tick w.(kbd)) as (st & -> & Hst & Hpr); [done|lia|].
  rewrite Ret_bind. eexists. split; [reflexivity|]. split; cbn; try done; [rewrite Hst; lia|congruence].
Qed.

Lemma screen_passing : passing on_screen.
Proof.
  intros kb n w Hk [Hv Eh Hky ((Hl & Hr & Hco) & Ho) Hc Hp Hm]. unfold on_screen.
  destruct (console_passes w.(out).(vga) Hl) as (c & -> & Hl' & Hw). rewrite Ret_bind. eexists. split; [reflexivity|].
  split; cbn; try done; [lia|]. split; [|done]. unfold vga_inv. cbn. by rewrite Hw.
Qed.

End Good.

Lemma heap_step env v' h c0 p0 kb n w m m' t :
  good v' h c0 p0 m (kb + 1) (n + 1) w → h.(STATS).(hinit) = true → selftest m = Ret (None, m') → 0 ≤ kb → 0 ≤ n → 0 ≤ t.(pass) < 2 ^ 32 →
  ∃ w', run env "heap_alloc" on_heap (w, t) = Ret (w', mkTally (t.(pass) + 1) t.(fail) t.(skip_)) ∧ good v' h c0 p0 m' kb n w'.
Proof.
  intros [Hv Eh Hky Ho Hc Hp Hm0] Hh Hm Hk Hn Ht. eapply run_step; [|split|done|done].
  - unfold on_heap. rewrite Eh, Hm0, (test_heap_passes h _ m' Hm Hh), Ret_bind. reflexivity.
  - exact Hv.
  - done.
  - cbn. lia.
  - exact Ho.
  - exact Hc.
  - exact Hp.
  - done.
Qed.

(** ** Theorems *)

(** The machine's state the remaining tests look at: the control registers show
    no problem, a timer tick arrives within the wait, IRQ1 is unmasked. *)
Record env_ok (env : Env) : Prop := {
  eo_release : env.(e_debug) = false;
  eo_wp_pg : bit 16 env.(e_regs).(cr0) = true ∧ bit 31 env.(e_regs).(cr0) = true;
  eo_nxe_lma : bit 11 env.(e_regs).(efer) = true ∧ bit 10 env.(e_regs).(efer) = true;
  eo_smep_smap : (env.(e_feats).(smep) = true → bit 20 env.(e_regs).(cr4) = true) ∧
    (env.(e_feats).(smap) = true → bit 21 env.(e_regs).(cr4) = true);
  eo_timer : env.(e_start) + 2 < U64 ∧ env.(e_idt) ≠ 0 ∧
    ∃ j, (j ≤ Z.to_nat SPIN_LIMIT)%nat ∧ env.(e_start) + 2 ≤ env.(e_ticks) j;
  eo_irq1 : Z.testbit (masks env.(e_pic)).1 1 = false;
}.

Lemma frame_tests_pass env bp p boot k v v' h c0 p0 m0 :
  env_ok env → env.(e_bp) = bp → machine_ok k bp p boot v → enough_memory k p boot → booted false k bp p boot v true v' h →
  Forall (fun nt : string * Test => passing v' h c0 p0 m0 nt.2) (frame_tests env).
Proof.
  intros [Hd _ _ _ _ _] Hbp Hm He Hb. destruct (pmm_conditions false k bp p boot true v v' h Hm Hb He) as (E1 & E2 & Hs & Hex & Hr & Hn).
  unfold frame_tests. rewrite Hd, Hbp.
  assert (∀ s, frames s.(PMM) = frames v'.(src).(PMM) →
    excludes p.(kernel_phys_start_) p.(kernel_phys_end_) s ∧ roomy s ∧ (512 ≤ size (frames s.(PMM)))%nat ∧ frames s.(PMM) ≠ ∅) as Hc.
  { intros s E. unfold excludes, roomy. rewrite E. split; [exact Hex|]. split; [exact Hr|]. split; [exact Hn|].
    intros E0. rewrite E0, size_empty in Hn. lia. }
  repeat constructor; cbn [snd].
  - apply reads_passing. intros s w _ _. apply address_translation_passes.
  - apply frames_passing. intros s Hs' Hf. destruct (Hc s Hf) as (C1 & C2 & C3 & C4). by eapply unique_passes.
  - apply frames_passing. intros s Hs' Hf. destruct (Hc s Hf) as (C1 & C2 & C3 & C4). by eapply reserve_excluded_passes.
  - apply frames_passing. intros s Hs' Hf. destruct (Hc s Hf) as (C1 & C2 & C3 & C4). by eapply contiguous_passes.
  - apply frames_passing. intros s Hs' Hf. destruct (Hc s Hf) as (C1 & C2 & C3 & C4). by eapply double_free_passes.
  - apply frames_passing. intros s Hs' Hf. by eapply no_leak_passes.
Qed.

Lemma timer_passes env : env_ok env → test_timer_interrupt env.(e_start) env.(e_ticks) env.(e_idt) = Ret Passed.
Proof.
  intros [_ _ _ _ (Hs & Hi & Hj) _]. unfold test_timer_interrupt. rewrite add64_ok by done. rewrite Ret_bind.
  pose proof (proj1 (wait_finds (Z.to_nat SPIN_LIMIT) env.(e_ticks) 0 (env.(e_start) + 2)) Hj) as [r Hr]. rewrite Hr.
  by destruct (Z.eqb_spec (e_idt env) 0).
Qed.

Lemma later_tests_pass env bp p boot k v v' h c0 p0 m0 :
  env_ok env → env.(e_syms) = k → machine_ok k bp p boot v → booted false k bp p boot v true v' h →
  v.(NX_AVAILABLE) = true → covers_2m v → Forall (fun nt : string * Test => passing v' h c0 p0 m0 nt.2) (later_tests env).
Proof.
  intros Henv Hk Hm Hb Hav Hc. pose proof Henv as [Hd [Hwp Hpg] [Hnxe Hlma] [Hsmep Hsmap] _ Hirq].
  assert (filter (.≠ ""%string) (control_register_problems env.(e_feats) env.(e_regs)) = []) as Hregs by (by apply problems_none).
  unfold later_tests. rewrite Hd, Hk.
  repeat constructor; cbn [snd]; try apply keys_passing; apply reads_passing; intros s w Ev Eh; rewrite ?Ev, ?Eh.
  - exact (heap_guarded_passes false k bp p boot v true v' h Hm Hb).
  - exact (vmm_translation_passes false k bp p boot v true v' h Hm Hb).
  - exact (wx_policy_passes false k bp p boot v true v' h Hb eq_refl Hav).
  - exact (text_passes false k bp p boot v true v' h Hm Hb).
  - exact (rodata_passes false k bp p boot v true v' h Hm Hb).
  - transitivity (test_boot_map_nx false v'); [reflexivity|].
    rewrite (boot_map_nx_result false k bp p boot v true v' h Hb Hc). by rewrite Hav.
  - exact (boot_map_not_user_passes false k bp p boot v true v' h Hb Hc eq_refl).
  - exact (user_half_passes false k bp p boot v true v' h Hb eq_refl).
  - unfold test_control_registers. by rewrite Hregs.
  - by apply timer_passes.
  - unfold test_keyboard_irq_armed. by rewrite land_pow2_eqb, Hirq by lia.
  - by vm_compute.
  - by vm_compute.
  - by vm_compute.
  - by vm_compute.
  - by vm_compute.
Qed.

(** A record that is not filtered ends the serial stream while the UART answers. *)
Lemma record_on_wire env l tag name msg (w w' : W) :
  sink_ok 1 w.(out) → dropped_by w.(out).(cfg) l = false → w.(out).(cfg).(target) ≠ BootInfo.Vga →
  record env l tag name msg w = Ret w' → w'.(out).(com1).(initialised) = true →
  ∃ pre, wire COM1 (io w'.(out).(vga).(hw)) =
    pre ++ crlf (serial_record l (env.(e_now) name) (lit tag) name w.(out).(cfg).(show_location) msg).
Proof.
  intros (Hi & Hb & He & Hf & Hs) Hd Ht Hr Hu. unfold record in Hr.
  destruct (log_ok (env.(e_now) name) l (lit tag) name msg w.(out) Hi Hb) as (_ & o & E & _ & _ & _ & H); [lia|lia|].
  rewrite Hd in H. destruct H as (_ & x & k & Hio & _ & Hw). rewrite E, Ret_bind in Hr. injection Hr as <-. cbn [set_out out] in *.
  exists (wire COM1 (io (hw (vga (out w))))). rewrite Hio. unfold wire in *. by rewrite writes_to_app, (Hw Ht Hu).
Qed.

Definition has_ps2 (st : State) : bool := match st.(presence) with Keyboard | Controller => true | _ => false end.
Definition one_if (b : bool) : Z := if b then 1 else 0.

(** The two conditional tests and the summary. *)
Lemma finish_green env v' h c0 p0 m0 x w t :
  0 ≤ x → good v' h c0 p0 m0 8 (x + 4) w → t = mkTally 24 0 0 →
  let t' := mkTally (24 + one_if env.(e_live) + one_if (has_ps2 w.(kbd))) 0 (2 - one_if env.(e_live) - one_if (has_ps2 w.(kbd))) in
  ∃ w1 w2 w3,
    (st ← (if env.(e_live) then run env "console_vga_writeback" on_screen (w, t)
        else skip env "console_vga_writeback"
               "display is in graphics mode; VGA text buffer at 0xB8000 is not the live console" (w, t));
     match st.1.(kbd).(presence) with
     | Keyboard | Controller => run env "ps2_controller_alive" (reads (fun _ => Ret test_ps2_alive)) st
     | _ => skip env "ps2_controller_alive" "no PS/2 controller on this machine; USB HID arrives in M7" st
     end) = Ret (w1, t') ∧
    kinfo env 191 (lit "selftest: " ++ summary t') w1 = Ret w2 ∧ good v' h c0 p0 m0 6 (x + 1) w2 ∧
    record env Info "SELFTEST|SUMMARY" (lit "result") (summary t') w2 = Ret w3 ∧ good v' h c0 p0 m0 6 x w3.
Proof.
  intros Hx Hg -> t'.
  assert (∃ w0, (if env.(e_live) then run env "console_vga_writeback" on_screen (w, mkTally 24 0 0)
        else skip env "console_vga_writeback"
               "display is in graphics mode; VGA text buffer at 0xB8000 is not the live console" (w, mkTally 24 0 0))
      = Ret (w0, mkTally (24 + one_if env.(e_live)) 0 (1 - one_if env.(e_live))) ∧ good v' h c0 p0 m0 7 (x + 3) w0) as (w0 & -> & Hg0).
  { destruct (e_live env); unfold one_if.
    - apply run_passing; [apply screen_passing|lia|lia|by replace (x + 3 + 1) with (x + 4) by lia|cbn; lia].
    - apply skip_ok; [lia| |cbn; lia]. replace (x + 3 + 1) with (x + 4) by lia. by apply (good_less _ _ _ _ _ 8). }
  rewrite Ret_bind. cbn [fst].
  assert (∃ w1, match w0.(kbd).(presence) with
     | Keyboard | Controller => run env "ps2_controller_alive" (reads (fun _ => Ret test_ps2_alive)) (w0, mkTally (24 + one_if env.(e_live)) 0 (1 - one_if env.(e_live)))
     | _ => skip env "ps2_controller_alive" "no PS/2 controller on this machine; USB HID arrives in M7" (w0, mkTally (24 + one_if env.(e_live)) 0 (1 - one_if env.(e_live)))
     end = Ret (w1, t') ∧ good v' h c0 p0 m0 6 (x + 2) w1) as (w1 & -> & Hg1).
  { unfold t', has_ps2. rewrite (g_pres _ _ _ _ _ _ _ _ Hg), (g_pres _ _ _ _ _ _ _ _ Hg0).
    assert (0 ≤ one_if (e_live env) ≤ 1) by (unfold one_if; destruct (e_live env); lia).
    assert (passing v' h c0 p0 m0 (reads (fun _ => Ret test_ps2_alive))) as Hps by (by apply reads_passing).
    set (t0 := mkTally _ 0 _).
    destruct (skip_ok env v' h c0 p0 m0 "ps2_controller_alive" "no PS/2 controller on this machine; USB HID arrives in M7" 6 (x + 2) w0 t0)
      as (ws & Es & Hws); [lia|replace (x + 2 + 1) with (x + 3) by lia; by apply (good_less _ _ _ _ _ 7)|cbn; lia|].
    destruct (run_passing env v' h c0 p0 m0 "ps2_controller_alive" _ 6 (x + 2) w0 t0 Hps) as (wr & Er & Hwr);
      [lia|lia|by replace (x + 2 + 1) with (x + 3) by lia|cbn; lia|].
    destruct p0; [exists ws|exists wr|exists wr|exists ws]; (split; [|done]); rewrite ?Es, ?Er; cbn; do 3 f_equal; lia. }
  destruct (good_kinfo env v' h c0 p0 m0 6 (x + 1) 191 (lit "selftest: " ++ summary t') w1) as (w2 & E2 & Hg2); [lia|by replace (x + 1 + 1) with (x + 2) by lia|].
  destruct (good_record env v' h c0 p0 m0 6 x Info "SELFTEST|SUMMARY" (lit "result") (summary t') w2) as (w3 & E3 & Hg3); [lia|done|].
  exists w1, w2, w3. done.
Qed.

(** Every test is counted once, and at most two are skipped. *)
Lemma all_counted env w p f s w' : run_all env w = Ret (p, f, s, w') → p + f + s = 26 ∧ 0 ≤ s ≤ 2 ∧ 0 ≤ f.
Proof.
  intros H. unfold run_all in H. apply bind_Ret in H as (wa & _ & H). apply bind_Ret in H as ([wb tb] & Eb & H). apply bind_Ret in H as ([wc tc] & Ec & H).
  apply bind_Ret in H as ([wd td] & Ed & H). apply bind_Ret in H as ([we te] & Ee & H). apply bind_Ret in H as ([wf tf] & Ef & H).
  apply bind_Ret in H as (wg & Eg & H). apply bind_Ret in H as (wh & Eh & H). apply Ret_inj in H. injection H as <- <- <- <-.
  pose proof (run_list_fails _ _ _ _ _ _ Eb) as F1. pose proof (run_fails _ _ _ _ _ _ _ Ec) as F2. pose proof (run_list_fails _ _ _ _ _ _ Ed) as F3.
  apply run_list_counts in Eb as [T1 S1]. apply run_counts in Ec as [T2 S2]. apply run_list_counts in Ed as [T3 S3].
  unfold total in *. cbn [fst snd pass fail skip_ length frame_tests later_tests] in *.
  assert (total te = total td + 1 ∧ td.(skip_) ≤ te.(skip_) ≤ td.(skip_) + 1 ∧ td.(fail) ≤ te.(fail)) as (T4 & S4 & F4)
    by (by apply (run_or_skip env (e_live env)) in Ee).
  assert (total tf = total te + 1 ∧ te.(skip_) ≤ tf.(skip_) ≤ te.(skip_) + 1 ∧ te.(fail) ≤ tf.(fail)) as (T5 & S5 & F5).
  { destruct (presence (kbd we)).
    - by apply (run_or_skip env false _ (reads (fun _ => Ret test_ps2_alive))) in Ef.
    - by apply (run_or_skip env true _ _ "") in Ef.
    - by apply (run_or_skip env true _ _ "") in Ef.
    - by apply (run_or_skip env false _ (reads (fun _ => Ret test_ps2_alive))) in Ef. }
  unfold total in *. lia.
Qed.

Lemma green_means_verified env w p s w' :
  run_all env w = Ret (p, 0, s, w') →
  p + s = 26 ∧ 0 ≤ s ≤ 2 ∧ Forall (fun t => t = Ret Passed) (vmm_suite env.(e_debug) env.(e_syms) w'.(heap) w'.(vm)) ∧
  count_wx_violations env.(e_debug) w'.(vm) = Ret 0 ∧ w'.(vm).(NX_AVAILABLE) = true.
Proof.
  intros H. destruct (all_counted env w p 0 s w' H) as (H1 & H2 & _). split; [lia|]. split; [done|].
  unfold run_all in H. apply bind_Ret in H as (wa & _ & H). apply bind_Ret in H as ([wb tb] & Eb & H). apply bind_Ret in H as ([wc tc] & Ec & H).
  apply bind_Ret in H as ([wd td] & Ed & H). apply bind_Ret in H as ([we te] & Ee & H). apply bind_Ret in H as ([wf tf] & Ef & H).
  apply bind_Ret in H as (wg & Eg & H). apply bind_Ret in H as (wh & Eh & H). apply Ret_inj in H. injection H as _ Hfail _ <-.
  assert (0 ≤ tc.(fail)) as Hc.
  { apply run_list_counts in Eb as Hb. assert (0 ≤ tb.(fail)) as H0 by (apply (run_list_fails _ _ _ _ _ _ Eb)).
    pose proof (run_fails _ _ _ _ _ _ _ Ec). lia. }
  apply run_list_passed in Ed as (F1 & S1 & P1); [|apply later_tests_keep].
  apply run_skip_keep in Ee as [F2 S2]; [|apply screen_keeps].
  assert (te.(fail) ≤ tf.(fail) ∧ same_memory we wf) as [F3 S3].
  { cbn [fst] in Ef. destruct (presence (kbd we)).
    - by apply (run_skip_keep env false _ (reads (fun _ => Ret test_ps2_alive))) in Ef; [|apply reads_keeps].
    - by apply (run_skip_keep env true _ _ "") in Ef; [|apply reads_keeps].
    - by apply (run_skip_keep env true _ _ "") in Ef; [|apply reads_keeps].
    - by apply (run_skip_keep env false _ (reads (fun _ => Ret test_ps2_alive))) in Ef; [|apply reads_keeps]. }
  apply kinfo_keeps in Eg. apply record_keeps in Eh.
  assert (same_memory wc wh) as [Ev Ehp] by (do 4 (etrans; [eassumption|]); done).
  rewrite <- Ev, <- Ehp. specialize (P1 ltac:(lia)). unfold later_tests in P1.
  assert (Forall (fun t => t = Ret Passed) (vmm_suite (e_debug env) (e_syms env) (heap wc) (vm wc))) as Hsuite.
  { repeat (apply Forall_cons_1 in P1 as [?P P1]; cbn [snd] in *). clear P1. unfold vmm_suite. repeat constructor.
    - by apply (reads_passed (fun h v => test_heap_guarded (e_debug env) h v)).
    - by apply (reads_passed (fun _ v => test_vmm_translation (e_debug env) (e_syms env) v)).
    - by apply (reads_passed (fun _ v => test_wx_policy (e_debug env) v)).
    - by apply (reads_passed (fun _ v => test_text_not_writable (e_debug env) (e_syms env) v)).
    - by apply (reads_passed (fun _ v => test_rodata_not_writable (e_debug env) (e_syms env) v)).
    - by apply (reads_passed (fun _ v => test_boot_map_nx (e_debug env) v)).
    - by apply (reads_passed (fun _ v => test_boot_map_not_user (e_debug env) v)).
    - by apply (reads_passed (fun _ v => test_user_half_unmapped (e_debug env) v)). }
  split; [exact Hsuite|]. do 2 apply Forall_cons_1 in Hsuite as [_ Hsuite]. apply Forall_cons_1 in Hsuite as [Hwx _].
  by apply wx_policy_sound.
Qed.

(** A green self-test is evidence.  Whatever machine it ran on, if
    [run_all] reports no failure then, in the page tables and heap it leaves
    behind, every address-space test holds: the guard pages are absent, the four
    sections are where the linker put them, .text and .rodata are not writable, no
    present page is writable and executable with NX available, and the boot map is
    neither executable nor open to ring 3.  All 26 tests are accounted for. *)
Theorem green_is_evidence env w p s w' :
  run_all env w = Ret (p, 0, s, w') →
  p + s = 26 ∧ 0 ≤ s ≤ 2 ∧ Forall (fun t => t = Ret Passed) (vmm_suite env.(e_debug) env.(e_syms) w'.(heap) w'.(vm)) ∧
  count_wx_violations env.(e_debug) w'.(vm) = Ret 0 ∧ w'.(vm).(NX_AVAILABLE) = true.
Proof. apply green_means_verified. Qed.

Lemma run_green env p boot v v' h w m' x :
  0 ≤ x →
  machine_ok env.(e_syms) env.(e_bp) p boot v → v.(NX_AVAILABLE) = true → covers_2m v →
  enough_memory env.(e_syms) p boot → env_ok env → booted false env.(e_syms) env.(e_bp) p boot v true v' h →
  w.(vm) = v' → w.(heap) = h → selftest w.(hmem) = Ret (None, m') →
  0 ≤ w.(kbd).(events) → w.(kbd).(events) + 256 < U64 → sink_ok (x + 29) w.(out) →
  let t := mkTally (24 + one_if env.(e_live) + one_if (has_ps2 w.(kbd))) 0 (2 - one_if env.(e_live) - one_if (has_ps2 w.(kbd))) in
  ∃ w', run_all env w = Ret (t.(pass), 0, t.(skip_), w') ∧
    frames w'.(vm).(src).(PMM) = frames v'.(src).(PMM) ∧ w'.(vm).(mem) = v'.(mem) ∧ ready w'.(vm).(src) ∧ sink_ok x w'.(out) ∧ w'.(out).(cfg).(level) = w.(out).(cfg).(level) ∧
    (dropped_by w.(out).(cfg) Info = false → w.(out).(cfg).(target) ≠ BootInfo.Vga → w'.(out).(com1).(initialised) = true →
       ∃ pre, wire COM1 (io w'.(out).(vga).(hw)) =
         pre ++ crlf (serial_record Info (env.(e_now) (lit "result")) (lit "SELFTEST|SUMMARY") (lit "result")
                       w.(out).(cfg).(show_location) (summary t))).
Proof.
  intros Hx Hm Hav Hc He Henv Hb Hw Hh Hheap H0 H1 Ho t.
  set (c0 := w.(out).(cfg)). set (p0 := w.(kbd).(presence)).
  assert (good v' h c0 p0 w.(hmem) 32 (x + 29) w) as Hg.
  { split; [|done|lia|done|done|done|done]. exists v'.(src). split; [subst v'; by destruct (vm w)|]. split; [|done].
    apply (bt_src _ _ _ _ _ _ _ _ _ Hb). }
  unfold run_all. destruct (good_kinfo env v' h c0 p0 w.(hmem) 32 (x + 28) 133 (lit "selftest: starting in-kernel verification suite") w) as (wa & -> & Hga);
    [lia|by replace (x + 28 + 1) with (x + 29) by lia|]. rewrite Ret_bind.
  destruct (run_list_passing env v' h c0 p0 w.(hmem) (frame_tests env) 26 (x + 22) wa (mkTally 0 0 0)) as (wb & -> & Hgb);
    [by eapply frame_tests_pass|lia|lia|by replace (x + 22 + _) with (x + 28) by (cbn [length frame_tests]; lia)|done|done|]. rewrite Ret_bind.
  destruct (heap_step env v' h c0 p0 25 (x + 21) wb w.(hmem) m' (mkTally 6 0 0)) as (wc & E3 & Hgc);
    [by replace (x + 21 + 1) with (x + 22) by lia|by rewrite (bt_heap _ _ _ _ _ _ _ _ _ Hb)|done|lia|lia|cbn; lia|]. cbn [length frame_tests pass fail skip_ Z.add Z.of_nat] in *.
  change (mkTally (0 + Z.of_nat 6) 0 0) with (mkTally 6 0 0). rewrite E3, Ret_bind.
  destruct (run_list_passing env v' h c0 p0 m' (later_tests env) 8 (x + 4) wc (mkTally 7 0 0)) as (wd & E4 & Hgd);
    [by eapply later_tests_pass|lia|lia|by replace (x + 4 + _) with (x + 21) by (cbn [length later_tests]; lia)|done|done|]. change (mkTally (6 + 1) 0 0) with (mkTally 7 0 0).
  change (run_list env (later_tests env) (wc, mkTally 7 0 0) = Ret (wd, mkTally 24 0 0)) in E4. rewrite E4, Ret_bind.
  destruct (finish_green env v' h c0 p0 m' x wd (mkTally 24 0 0) Hx Hgd eq_refl) as (w1 & w2 & w3 & E5 & E6 & Hg2 & E7 & Hg3).
  apply bind_Ret in E5 as (sx & E5a & E5b).
  assert (has_ps2 wd.(kbd) = has_ps2 w.(kbd)) as Hps by (unfold has_ps2; by rewrite (g_pres _ _ _ _ _ _ _ _ Hgd)).
  rewrite Hps in *. fold t in E5b, E6, E7. rewrite E5a, Ret_bind, E5b, Ret_bind. cbv beta iota. rewrite E6, Ret_bind.
  change (fail t =? 0) with true. cbv iota. rewrite E7, Ret_bind. exists w3. split; [done|].
  destruct (g_vm _ _ _ _ _ _ _ _ Hg3) as (s & -> & Hrd & Hf). split; [exact Hf|]. split; [done|]. split; [exact Hrd|].
  split; [apply Hg3|]. split; [apply (g_cfg _ _ _ _ _ _ _ _ Hg3)|].
  intros Hd Ht Hu. destruct (g_cfg _ _ _ _ _ _ _ _ Hg2) as (C1 & C2 & C3).
  rewrite <- C3. apply (record_on_wire env Info "SELFTEST|SUMMARY" (lit "result") (summary t) w2 w3); [apply (sink_less (x + 1)); [lia|apply Hg2]| |congruence|done|done].
  unfold dropped_by in *. by rewrite C1.
Qed.


(** An allocator that serves requests while it has room. *)
Section Green.
Context `{GL : !GlobalAllocLaws A} `{HR : !HeapRoom A}.


End Green.

End Run.

(** ** Witness *)

#[local] Existing Instance x86_ref.

Definition demo_feats : CpuFeatures :=
  mkFeatures (lit "GenuineIntel" ++ [0]) 6 0 0 (replicate 49 0) 1 0x80000001 true false false false false false false false
    false false true true false None false (replicate 13 0) true true false false false.
Definition demo_env : Env :=
  mkEnv demo_syms 0x204000 false (mkPic (0xF8, 0xFF) true) demo_feats
    (mkRegs 0 0 0 0 0 0 0 0 0 0 0 0 0 0 0 0 0 0 0 0 0x80010001 0 0x201000 0x20 0xD00)
    true 10 (fun i => 10 + Z.of_nat (i / 1000)%nat) 3 14 (fun _ => 2500) (fun _ => []) (lit "src/selftest.rs").

Lemma demo_env_ok : env_ok demo_env.
Proof.
  split; [done|by vm_compute|by vm_compute|split; by intros| |by vm_compute]. split; [by vm_compute|]. split; [done|]. exists 2000%nat.
  split; [|by vm_compute]. cbn [demo_env e_start]. unfold SPIN_LIMIT. lia.
Qed.

Lemma demo_sink_ok : @sink_ok (list Z) 29 demo_sink.
Proof.
  split; [apply demo_console_inv; lia|]. cbn [demo_sink cfg com1 CONFIG emitted filtered base]. rewrite U64_val. split; [reflexivity|]. lia.
Qed.


Lemma green_is_evidence_witness :
  ∃ w w' : World (list Z) Bump, @run_all _ _ script_bus _ _ demo_env w = Ret (25, 0, 1, w') ∧
    count_wx_violations false w'.(vm) = Ret 0 ∧ w'.(vm).(NX_AVAILABLE) = true.
Proof.
  destruct (is_ok_inv _ bump_passes) as [m' Hm].
  destruct (bring_up_ok false demo_syms 0x204000 boot_block boot_demo true boot_machine boot_demo_ok) as (info & v' & h & E & Hb).
  destruct (@run_green _ (list Z) script_bus Bump _ demo_env boot_block boot_demo boot_machine v' h
    (mkWorld v' h bump_heap State_initial demo_sink) m' 0 ltac:(done) boot_demo_ok eq_refl boot_covers boot_enough demo_env_ok Hb eq_refl eq_refl Hm)
    as (w' & Hr & _).
  - done.
  - by vm_compute.
  - apply demo_sink_ok.
  - exists (mkWorld v' h bump_heap State_initial demo_sink), w'. split; [exact Hr|].
    exact (proj2 (proj2 (proj2 (@green_is_evidence _ (list Z) script_bus Bump _ demo_env _ _ _ w' Hr)))).
Defined.
