(* ===== verification/Kmain.v ===== *)
(** * The init sequence (kernel/src/kmain.rs)

    [kernel_main] as the composition of the components' own operations, from the
    boot stub's two arguments to the idle loop, with every way the boot can stop.
    The records this file's functions, the CPU report and the self-test write go
    through the log; the lines a component writes about its own initialisation do
    not. *)

From stdpp Require Import base gmap sets list list_numbers strings numbers.
From Stdlib Require Import ZArith Lia.
From S2P Require Import Prelude Fmt Regs Panic Exceptions Arch BootInfo Bitmap Pmm PmmSpec Multiboot Params Vmm PageTables VmmSpec AddressSpace VmmWitness.
From S2P Require Import Ports Pic Pit Ring Keyboard KeyboardSpec Serial Vga Raw ConsoleLog Gdt Idt Interrupts Cpuid Heap.
From S2P Require Import BootMemory BootWitness Msr Report HeapTest HeapRoom SelftestPmm SelftestVmm SelftestMemory SelftestStatic Selftest SelftestRun.
#[local] Open Scope Z_scope.

(** ** The steps of this file *)

(** [zero_kernel_bss], up to the write: the range it clears. *)
Definition zero_kernel_bss (k : LinkerSyms) : Res (Z * Z) :=
  let start := k.(bss_start) in
  let end_ := k.(bss_end) in
  len ← sub64 end_ start;
  _ ← rassert ((KERNEL_VMA <=? start) && (start <? end_) && (len <? 64 * 1024 * 1024)) "kernel .bss range is implausible";
  Ret (start, len).

(** [verify_long_mode]: the new CR4.  [cr3] is the address of the PML4 frame. *)
Definition verify_long_mode (f : CpuFeatures) (cr0 cr3 cr4 efer : Z) : Res Z :=
  let check (ok : bool) (bad : bool) := bad || negb ok in
  let bad := check (bit 31 cr0) false in
  let bad := check (bit 16 cr0) bad in
  let bad := check (bit 0 cr0) bad in
  let bad := check (bit 5 cr4) bad in
  let bad := check (bit 8 efer) bad in
  let bad := check (bit 10 efer) bad in
  let bad := if cr3 =? 0 then true else bad in
  let bad := if negb (cr3 mod 4096 =? 0) then true else bad in
  let cr4 := if f.(smep) then Z.lor cr4 (Z.shiftl 1 20) else cr4 in
  let cr4 := if f.(smap) then Z.lor cr4 (Z.shiftl 1 21) else cr4 in
  if bad then Panic (PanicMsg "CPU is not in the state boot.asm promised; see the errors above") else Ret cr4.

Section Steps.
Context `{X : X86Crate}.

Definition verify_load_address (m : phys) (bp : Z) (boot : BootInfo) : Res Rec :=
  script ← kernel_phys_start m bp; Ret (load_record script boot).

End Steps.

(** [apply_params]: the log's configuration and the panic action. *)
Definition apply_params (p : Params.BootParams) (c : LogConfig) : LogConfig * Z :=
  (configure p.(Params.log) p.(Params.console) c, action_code p.(Params.panic_action)).

(** [report_framebuffer]: whether the text window is live afterwards, and whether
    the framebuffer is outside the boot map. *)
Definition report_framebuffer (boot : BootInfo) (live : bool) : Res (bool * bool) :=
  match boot.(framebuffer) with
  | Some fb =>
      let live := fb.(fb_type) =? fbtype_EGA_TEXT in
      end_ ← add64 fb.(fb_address) fb.(fb_size);
      Ret (live, BOOT_MAPPED_BYTES <? end_)
  | None => Ret (live, false)
  end.

(** ** The whole sequence *)

(** The kernel's state.  The ports are in [machine kern] until the self-test
    needs them for the log. *)
Record Orin (D A : Type) `{G : GdtCrate} : Type := mkOrin {
  feats : CpuFeatures; o_cr0 : Z; o_cr3 : Z; o_cr4 : Z; kern : Kernel D; o_vm : Vmm Pmm; o_heap : Heap; o_hmem : Mem A;
  o_kbd : State; writer_ : VgaWriter; text : list Cell; o_cfg : LogConfig; o_com1 : Serial.Serial;
  BOOT_PARAMS_PHYS : Z; SERIAL_OK_ : bool; TEXT_MODE_LIVE : bool; ACTION_ : Z; SUSPECT_ : bool }.
Arguments mkOrin {D A G} _ _ _ _ _ _ _ _ _ _ _ _ _ _ _ _ _ _.
Arguments feats {D A G} _.
Arguments o_cr0 {D A G} _.
Arguments o_cr3 {D A G} _.
Arguments o_cr4 {D A G} _.
Arguments kern {D A G} _.
Arguments o_vm {D A G} _.
Arguments o_heap {D A G} _.
Arguments o_hmem {D A G} _.
Arguments o_kbd {D A G} _.
Arguments writer_ {D A G} _.
Arguments text {D A G} _.
Arguments o_cfg {D A G} _.
Arguments o_com1 {D A G} _.
Arguments BOOT_PARAMS_PHYS {D A G} _.
Arguments SERIAL_OK_ {D A G} _.
Arguments TEXT_MODE_LIVE {D A G} _.
Arguments ACTION_ {D A G} _.
Arguments SUSPECT_ {D A G} _.

(** How the boot ends, other than in a panic. *)
Inductive Boot (D A : Type) `{G : GdtCrate} : Type :=
  | NoParameterBlock (console : Raw D)
  | Idle (params : Params.BootParams) (pass fail skip : Z) (o : Orin D A).
Arguments NoParameterBlock {D A G} _.
Arguments Idle {D A G} _ _ _ _ _.

Section Kmain.
Context `{X : X86Crate} `{G : GdtCrate} {D : Type} `{B : Bus D} {A : Type} `{GA : GlobalAlloc A}.
Context (debug : bool) (k : LinkerSyms) (ist_base : Z) (fills : Z → bool).
(** The tick counter and the handler's count during the timer test, the tick of
    the synthetic keys, the clock, the texts of the results. *)
Context (ticks : nat → Z) (idt_ticks key_tick : Z) (now : bytes → Z) (detail : bytes → bytes).
(** The file of a module, the build's identifier, RDRAND's answers, the
    model-specific registers other than EFER. *)
Context (file_of : bytes → bytes) (build_id : bytes) (answer : nat → bool * Z) (msrs : Msrs).
(** Where the lock-free console writes next. *)
Context (raw_pos : Z * Z).
Abbreviation O := (Orin D A).

Definition ports (o : O) : Hw D := o.(kern).(machine).(mhw).
Definition set_ports (h : Hw D) (kr : Kernel D) : Kernel D :=
  let m := kr.(machine) in mkKernel kr.(Interrupts.efer) kr.(Interrupts.nx_available) kr.(gdt) kr.(idt) (mkMachine m.(ctr) m.(pic) m.(pit) m.(ring) h).

(** The log's part of the state. *)
Definition sink_of (o : O) : Sink D := mkSink o.(o_cfg) o.(o_com1) (mkConsole o.(writer_) o.(text) (ports o)).
Definition with_sink (s : Sink D) (o : O) : O :=
  mkOrin o.(feats) o.(o_cr0) o.(o_cr3) o.(o_cr4) (set_ports s.(vga).(hw) o.(kern)) o.(o_vm) o.(o_heap) o.(o_hmem) o.(o_kbd)
    s.(vga).(writer) s.(vga).(cells) s.(cfg) s.(com1) o.(BOOT_PARAMS_PHYS) o.(SERIAL_OK_) o.(TEXT_MODE_LIVE) o.(ACTION_) o.(SUSPECT_).
Definition say (rs : list Rec) (o : O) : Res O := s ← say_all now file_of rs (sink_of o); Ret (with_sink s o).

(** Steps 0a to 2: .bss, the parameter block's address, serial, screen. *)
Definition early (bp : Z) (o : O) : Res O :=
  '(bs, len) ← zero_kernel_bss k;
  let '(u, h) := Serial.init o.(o_com1) (ports o) in
  c ← Vga.init (mkConsole o.(writer_) o.(text) h);
  say (head_records build_id (Serial.present u) bs len)
      (mkOrin o.(feats) o.(o_cr0) o.(o_cr3) o.(o_cr4) (set_ports c.(hw) o.(kern)) o.(o_vm) o.(o_heap) o.(o_hmem) o.(o_kbd)
         c.(writer) c.(cells) o.(o_cfg) u (set_boot_params 0 bp) (Serial.present u) o.(TEXT_MODE_LIVE) o.(ACTION_) o.(SUSPECT_)).

(** Steps 3 to 5: the CPU; is NXE on? *)
Definition check_cpu (o : O) : Res (bool * O) :=
  o ← say (cpu_records o.(feats) o.(SUSPECT_)) o;
  missing ← Cpuid.report o.(feats);
  o ← say (degraded_record <$> missing) o;
  let '(verdict, suspect) := entropy_probe o.(feats) answer o.(SUSPECT_) in
  o ← say (entropy_records verdict) o;
  let '(nxe, kr) := enable_nx o.(feats).(Cpuid.nx) o.(kern) in
  cr4 ← verify_long_mode o.(feats) o.(o_cr0) o.(o_cr3) o.(o_cr4) kr.(Interrupts.efer);
  let v := o.(o_vm) in
  o ← say (long_mode_records o.(feats) o.(o_cr0) o.(o_cr3) o.(o_cr4) kr.(Interrupts.efer))
        (mkOrin o.(feats) o.(o_cr0) o.(o_cr3) cr4 kr
           (mkVmm kr.(Interrupts.nx_available) v.(PT_POOL) v.(KERNEL_PML4) v.(CR3) v.(mem) v.(src)) o.(o_heap) o.(o_hmem) o.(o_kbd)
           o.(writer_) o.(text) o.(o_cfg) o.(o_com1) o.(BOOT_PARAMS_PHYS) o.(SERIAL_OK_) o.(TEXT_MODE_LIVE) o.(ACTION_) suspect);
  Ret (nxe, o).

(** Step 7: the boot information and the parameters. *)
Definition read_boot (mb : Z) (o : O) : Res (BootInfo * Params.BootParams * O) :=
  r ← read_from o.(o_vm).(mem) mb;
  match r with
  | inl _ => Panic (PanicMsg "boot information unusable")
  | inr boot =>
      o ← say (boot_info_records boot) o;
      let params := parse_params (cmdline_str boot) in
      let '(c, a) := apply_params params o.(o_cfg) in
      o ← say (params_records params)
            (mkOrin o.(feats) o.(o_cr0) o.(o_cr3) o.(o_cr4) o.(kern) o.(o_vm) o.(o_heap) o.(o_hmem) o.(o_kbd)
               o.(writer_) o.(text) c o.(o_com1) o.(BOOT_PARAMS_PHYS) o.(SERIAL_OK_) o.(TEXT_MODE_LIVE) a o.(SUSPECT_));
      r ← verify_load_address o.(o_vm).(mem) o.(BOOT_PARAMS_PHYS) boot;
      o ← say [r] o;
      Ret (boot, params, o)
  end.

(** Steps 8 to 11: memory. *)
Definition with_memory (v : Vmm Pmm) (h : Heap) (o : O) : O :=
  mkOrin o.(feats) o.(o_cr0) o.(o_cr3) o.(o_cr4) o.(kern) v h o.(o_hmem) o.(o_kbd)
    o.(writer_) o.(text) o.(o_cfg) o.(o_com1) o.(BOOT_PARAMS_PHYS) o.(SERIAL_OK_) o.(TEXT_MODE_LIVE) o.(ACTION_) o.(SUSPECT_).

Definition memory (boot : BootInfo) (params : Params.BootParams) (o : O) : Res (VmmInfo * O) :=
  let v := o.(o_vm) in
  s ← Pmm.init v.(src) boot;
  s ← reserve_boot_memory v.(mem) o.(BOOT_PARAMS_PHYS) boot s;
  ks ← kernel_phys_start v.(mem) o.(BOOT_PARAMS_PHYS);
  ke ← kernel_phys_end v.(mem) o.(BOOT_PARAMS_PHYS);
  o ← say (reserve_records ks ke boot) o;
  '(usable, total) ← report_memory boot s;
  o ← say (memory_records usable total (Pmm.stats s)) o;
  '(info, v) ← Vmm.init debug k o.(BOOT_PARAMS_PHYS) (set_src v s);
  wx ← count_wx_violations debug v;
  o ← say (vmm_records info wx) o;
  v ← (if params.(Params.nx) then '(v, _) ← harden_boot_map debug v; Ret v else Ret v);
  o ← say (if params.(Params.nx) then [] else [nx_off_record]) o;
  '(bytes_, h) ← Heap.init Heap_new;
  o ← say [heap_record bytes_ h.(STATS)] (with_memory v h o);
  Ret (info, o).

(** Steps 12 to 15: the system-call registers, interrupts, keyboard, framebuffer. *)
Definition devices (boot : BootInfo) (o : O) : Res (Presence * O) :=
  o ← say (syscall_records o.(feats) (<[addr.EFER := o.(kern).(Interrupts.efer)]> msrs)) o;
  '(info, kr) ← Interrupts.init o.(feats).(Cpuid.nx) ist_base fills o.(kern);
  o ← say (interrupt_records info)
        (mkOrin o.(feats) o.(o_cr0) o.(o_cr3) o.(o_cr4) kr o.(o_vm) o.(o_heap) o.(o_hmem) o.(o_kbd)
           o.(writer_) o.(text) o.(o_cfg) o.(o_com1) o.(BOOT_PARAMS_PHYS) o.(SERIAL_OK_) o.(TEXT_MODE_LIVE) o.(ACTION_) o.(SUSPECT_));
  let kr := o.(kern) in
  '(kb, st, h) ← Keyboard.init o.(o_kbd) kr.(machine).(mhw);
  '(p, h) ← unmask irq_KEYBOARD kr.(machine).(pic) h;
  '(live, outside) ← report_framebuffer boot o.(TEXT_MODE_LIVE);
  let m := kr.(machine) in
  o ← say (framebuffer_records boot outside)
        (mkOrin o.(feats) o.(o_cr0) o.(o_cr3) o.(o_cr4)
           (mkKernel kr.(Interrupts.efer) kr.(Interrupts.nx_available) kr.(gdt) kr.(idt) (mkMachine m.(ctr) p m.(pit) m.(ring) h))
           o.(o_vm) o.(o_heap) o.(o_hmem) st
           o.(writer_) o.(text) o.(o_cfg) o.(o_com1) o.(BOOT_PARAMS_PHYS) o.(SERIAL_OK_) live o.(ACTION_) o.(SUSPECT_));
  Ret (kb, o).

(** The self-test's view of the kernel; of the registers it reads CR0, CR4 and
    EFER. *)
Definition env_of (o : O) : Env :=
  mkEnv k o.(BOOT_PARAMS_PHYS) debug o.(kern).(machine).(pic) o.(feats)
    (mkRegs 0 0 0 0 0 0 0 0 0 0 0 0 0 0 0 0 0 0 0 0 o.(o_cr0) 0 o.(o_cr3) o.(o_cr4) o.(kern).(Interrupts.efer))
    o.(TEXT_MODE_LIVE) o.(kern).(machine).(pit).(TICKS) ticks idt_ticks key_tick now detail (file_of (lit "orin_kernel::selftest")).
Definition world_of (o : O) : World D A := mkWorld o.(o_vm) o.(o_heap) o.(o_hmem) o.(o_kbd) (sink_of o).
Definition with_world (w : World D A) (o : O) : O :=
  with_sink w.(out)
    (mkOrin o.(feats) o.(o_cr0) o.(o_cr3) o.(o_cr4) o.(kern) w.(vm) w.(heap) w.(hmem) w.(kbd)
       o.(writer_) o.(text) o.(o_cfg) o.(o_com1) o.(BOOT_PARAMS_PHYS) o.(SERIAL_OK_) o.(TEXT_MODE_LIVE) o.(ACTION_) o.(SUSPECT_)).

(** Step 16 *)
Definition self_test (params : Params.BootParams) (o : O) : Res (Z * Z * Z * O) :=
  if params.(Params.selftest) then
    o ← say [coverage_record (Pmm.stats o.(o_vm).(src))] o;
    '(pass, fail, skip, w) ← run_all (env_of o) (world_of o);
    Ret (pass, fail, skip, with_world w o)
  else
    o ← say [skipped_record] o;
    Ret (0, 0, 0, o).

(** Step 17: what the banner reports, measured. *)
Definition measure (nxe : bool) (kb : Presence) (pass fail skip : Z) (o : O) : Res Final :=
  wx ← count_wx_violations debug o.(o_vm);
  Ret (mkFinal o.(feats) (Pmm.stats o.(o_vm).(src)) o.(o_cr0) o.(o_cr4) nxe wx kb o.(o_cfg).(level) pass fail skip).

(** Steps 16 and 17 and the gate after them. *)
Definition verify_boot (boot : BootInfo) (params : Params.BootParams) (info : VmmInfo) (nxe : bool) (kb : Presence) (o : O) :
    Res (Boot D A) :=
  '(pass, fail, skip, o) ← self_test params o;
  n ← measure nxe kb pass fail skip o;
  rs ← banner build_id boot params info n;
  o ← say rs o;
  if 0 <? fail then Panic (PanicMsg "boot self-test failed") else Ret (Idle params pass fail skip o).

(** Step 0, without a parameter block: the reason on the lock-free console, whose
    position is not initialised yet, and a halt. *)
Definition fatal_message : bytes :=
  [13; 10] ++ lit "ORIN-FATAL-BEGIN" ++ [13; 10] ++
  lit "fatal: entered without a boot parameter block (%rsi = 0)." ++ [13; 10] ++
  lit "Only arch/x86_64/boot/boot.asm supplies one, so this kernel was not" ++ [13; 10] ++
  lit "started by the Orin boot stub. Halting." ++ [13; 10] ++
  lit "ORIN-FATAL-END" ++ [13; 10].

Definition not_booted (o : O) : Res (Boot D A) :=
  r ← Raw.print [fatal_message] (mkRaw raw_pos.1 raw_pos.2 true o.(text) (ports o));
  Ret (NoParameterBlock r).

Definition kernel_main (mb bp : Z) (o : O) : Res (Boot D A) :=
  if bp =? 0 then not_booted o
  else
    o ← early bp o;
    '(nxe, o) ← check_cpu o;
    '(boot, params, o) ← read_boot mb o;
    '(info, o) ← memory boot params o;
    '(kb, o) ← devices boot o;
    verify_boot boot params info nxe kb o.

(** ** Facts about the steps *)

Definition long_mode (cr0 cr3 cr4 efer : Z) : Prop :=
  bit 31 cr0 = true ∧ bit 16 cr0 = true ∧ bit 0 cr0 = true ∧ bit 5 cr4 = true ∧ bit 8 efer = true ∧ bit 10 efer = true ∧
  cr3 ≠ 0 ∧ cr3 mod 4096 = 0.

Lemma bit_lor n m x : 0 ≤ n → 0 ≤ m → bit n (Z.lor x (Z.shiftl 1 m)) = bit n x || (m =? n).
Proof. intros Hn Hm. unfold bit. by rewrite !land_pow2_ltb, Z.lor_spec, testbit_shiftl_1. Qed.

Lemma verify_long_mode_spec f cr0 cr3 cr4 efer r :
  verify_long_mode f cr0 cr3 cr4 efer = Ret r ↔
    long_mode cr0 cr3 cr4 efer ∧
    r = (let c := if f.(smep) then Z.lor cr4 (Z.shiftl 1 20) else cr4 in if f.(smap) then Z.lor c (Z.shiftl 1 21) else c).
Proof.
  unfold verify_long_mode, long_mode.
  destruct (bit 31 cr0), (bit 16 cr0), (bit 0 cr0), (bit 5 cr4), (bit 8 efer), (bit 10 efer), (Z.eqb_spec cr3 0), (Z.eqb_spec (cr3 mod 4096) 0);
    cbn [negb orb]; (split; [intros [= <-]; split_and!; done|intros [Hl ->]; try done; exfalso; destruct_and! Hl; congruence]).
Qed.

(** The features end up enabled. *)
Lemma verify_long_mode_cr4 f cr0 cr3 cr4 efer r :
  verify_long_mode f cr0 cr3 cr4 efer = Ret r →
  (f.(smep) = true → bit 20 r = true) ∧ (f.(smap) = true → bit 21 r = true).
Proof.
  intros [_ ->]%verify_long_mode_spec. cbn zeta. destruct (smep f), (smap f); rewrite ?bit_lor by lia; cbn [Z.eqb Pos.eqb];
    rewrite ?orb_true_r; done.
Qed.

Definition nx_on (f : CpuFeatures) (e : Z) : Z := if f.(Cpuid.nx) then Z.lor e EFER_NXE else e.

Lemma enable_nx_efer b (kr : Kernel D) : (enable_nx b kr).2.(Interrupts.efer) = if b then Z.lor kr.(Interrupts.efer) EFER_NXE else kr.(Interrupts.efer).
Proof. unfold enable_nx. by destruct b. Qed.

Lemma init_efer b (kr kr' : Kernel D) info :
  Interrupts.init b ist_base fills kr = Ret (info, kr') → kr'.(Interrupts.efer) = (enable_nx b kr).2.(Interrupts.efer).
Proof.
  unfold Interrupts.init. destruct (enable_nx b kr) as [nxe k1]. cbn [snd]. intros ([sels g] & _ & H)%bind_Ret.
  apply bind_Ret in H as (t & _ & H). destruct (remap _ _) as [p1 h1], (Pit.init _ _) as [pt h2].
  apply bind_Ret in H as ([[u p2] h3] & _ & H). apply Ret_inj in H. by injection H as _ <-.
Qed.

(** What reaching the idle loop says of the CPU. *)
Definition cpu_ready (o : O) : Prop :=
  o.(feats).(sse2) = true ∧ o.(feats).(Cpuid.nx) = true ∧ o.(feats).(syscall) = true ∧
  filter (.≠ ""%string) (control_register_problems o.(feats)
    (mkRegs 0 0 0 0 0 0 0 0 0 0 0 0 0 0 0 0 0 0 0 0 o.(o_cr0) 0 o.(o_cr3) o.(o_cr4) o.(kern).(Interrupts.efer))) = [].

(** Writing to the log changes the log's part of the state only. *)
Lemma say_inv rs o o' : say rs o = Ret o' → ∃ s, o' = with_sink s o.
Proof. unfold say. intros (s & _ & H)%bind_Ret. apply Ret_inj in H. by exists s. Qed.

Lemma check_cpu_ready o nxe o' : check_cpu o = Ret (nxe, o') → cpu_ready o' ∧ nxe = true.
Proof.
  unfold check_cpu. intros (o1 & [s1 ->]%say_inv & H)%bind_Ret. apply bind_Ret in H as (w & Hw & H).
  apply bind_Ret in H as (o2 & [s2 ->]%say_inv & H).
  destruct (entropy_probe _ _ _) as [verdict suspect]. apply bind_Ret in H as (o3 & [s3 ->]%say_inv & H). unfold Cpuid.report in Hw.
  cbn [with_sink feats kern] in *.
  destruct (sse2 (feats o)) eqn:E1; [|done]. destruct (Cpuid.nx (feats o)) eqn:E2; [|done].
  destruct (syscall (feats o)) eqn:E3; [|done].
  match type of H with context [enable_nx true ?x] => pose proof (enable_nx_efer true x) as Ee; destruct (enable_nx_ok true x) as (kr & Ek & _) end.
  rewrite Ek in *. cbn [snd] in Ee.
  apply bind_Ret in H as (c4 & Hv & H). apply bind_Ret in H as (o4 & [s4 ->]%say_inv & H). apply Ret_inj in H. injection H as <- <-.
  split; [|done]. unfold cpu_ready. cbn [with_sink feats o_cr0 o_cr3 o_cr4 kern set_ports Interrupts.efer] in *.
  pose proof (verify_long_mode_cr4 _ _ _ _ _ _ Hv) as [Hs1 Hs2].
  apply verify_long_mode_spec in Hv as ((H31 & H16 & _ & _ & _ & H10 & _) & _).
  split; [done|]. split; [done|]. split; [done|]. apply problems_none. cbn [Regs.cr0 Regs.cr4 Regs.efer].
  split_and!; try done. rewrite Ee. unfold EFER_NXE. rewrite bit_lor by lia. apply orb_true_r.
Qed.

Lemma devices_keep boot o kb o' :
  devices boot o = Ret (kb, o') →
  o'.(feats) = o.(feats) ∧ o'.(o_cr0) = o.(o_cr0) ∧ o'.(o_cr3) = o.(o_cr3) ∧ o'.(o_cr4) = o.(o_cr4) ∧
  o'.(kern).(Interrupts.efer) = (enable_nx o.(feats).(Cpuid.nx) o.(kern)).2.(Interrupts.efer) ∧
  o'.(o_vm) = o.(o_vm) ∧ o'.(o_heap) = o.(o_heap).
Proof.
  unfold devices. intros (o1 & [s1 ->]%say_inv & H)%bind_Ret. apply bind_Ret in H as ([info kr] & Hi & H).
  apply bind_Ret in H as (o2 & [s2 ->]%say_inv & H). apply bind_Ret in H as ([[p st] h] & _ & H).
  apply bind_Ret in H as ([pc h2] & _ & H).
  apply bind_Ret in H as ([live far] & _ & H). apply bind_Ret in H as (o3 & [s3 ->]%say_inv & H).
  apply init_efer in Hi. rewrite enable_nx_efer in *. apply Ret_inj in H. injection H as _ <-. cbn in *. done.
Qed.

Lemma read_boot_ready mb o boot ps o' : cpu_ready o → read_boot mb o = Ret (boot, ps, o') → cpu_ready o'.
Proof.
  intros Hr H. unfold read_boot in H. apply bind_Ret in H as ([e|b] & _ & H); [done|].
  apply bind_Ret in H as (o1 & [s1 ->]%say_inv & H).
  destruct (apply_params _ _) as [c a]. apply bind_Ret in H as (o2 & [s2 ->]%say_inv & H). apply bind_Ret in H as (l & _ & H).
  apply bind_Ret in H as (o3 & [s3 ->]%say_inv & H). apply Ret_inj in H. injection H as <- <- <-. exact Hr.
Qed.
Lemma memory_ready boot ps o i o' : cpu_ready o → memory boot ps o = Ret (i, o') → cpu_ready o'.
Proof.
  intros Hr H. unfold memory in H. do 4 apply bind_Ret in H as (? & _ & H). apply bind_Ret in H as (o1 & [s1 ->]%say_inv & H).
  apply bind_Ret in H as ([u tt] & _ & H). apply bind_Ret in H as (o2 & [s2 ->]%say_inv & H). apply bind_Ret in H as ([i' v] & _ & H).
  apply bind_Ret in H as (wx & _ & H). apply bind_Ret in H as (o3 & [s3 ->]%say_inv & H). apply bind_Ret in H as (v' & _ & H).
  apply bind_Ret in H as (o4 & [s4 ->]%say_inv & H). apply bind_Ret in H as ([n h] & _ & H).
  apply bind_Ret in H as (o5 & [s5 ->]%say_inv & H).
  apply Ret_inj in H. injection H as _ <-. exact Hr.
Qed.
Lemma devices_ready boot o kb o' : cpu_ready o → devices boot o = Ret (kb, o') → cpu_ready o'.
Proof.
  intros (R1 & R2 & R3 & R4) (F & C0 & C3 & C4 & Ef & _)%devices_keep. rewrite R2, enable_nx_efer in Ef.
  unfold cpu_ready. rewrite F, C0, C3, C4, Ef. split; [done|]. split; [done|]. split; [done|].
  apply problems_none. apply problems_none in R4. cbn [Regs.cr0 Regs.cr4 Regs.efer] in *. destruct R4 as (B1 & B2 & B3 & B4 & B5 & B6).
  unfold EFER_NXE. rewrite !bit_lor by lia. rewrite B3, B4. done.
Qed.

Lemma sink_of_with s o : sink_of (with_sink s o) = s.
Proof. by destruct s as [? ? []]. Qed.

(** A boot that reached the idle loop, from the self-test on. *)
Lemma idle_inv mb bp o params p f s o' :
  kernel_main mb bp o = Ret (Idle params p f s o') →
  bp ≠ 0 ∧ f ≤ 0 ∧ ∃ boot info kb o5 o6 n rs s6, cpu_ready o5 ∧ self_test params o5 = Ret (p, f, s, o6) ∧
    measure true kb p f s o6 = Ret n ∧ banner build_id boot params info n = Ret rs ∧
    say_all now file_of rs (sink_of o6) = Ret s6 ∧ o' = with_sink s6 o6.
Proof.
  unfold kernel_main, not_booted. destruct (Z.eqb_spec bp 0).
  { intros (r & _ & H)%bind_Ret. done. }
  intros (o1 & H1 & H)%bind_Ret. apply bind_Ret in H as ([nxe o2] & H2 & H).
  apply bind_Ret in H as ([[boot ps] o3] & H3 & H). apply bind_Ret in H as ([info o4] & H4 & H).
  apply bind_Ret in H as ([kb o5] & H5 & H).
  apply check_cpu_ready in H2 as [Hr ->].
  pose proof (devices_ready _ _ _ _ (memory_ready _ _ _ _ _ (read_boot_ready _ _ _ _ _ Hr H3) H4) H5) as Hr5.
  unfold verify_boot in H. apply bind_Ret in H as ([[[pa fa] sk] o6] & H6 & H). apply bind_Ret in H as (fin & Hn & H).
  apply bind_Ret in H as (rs & Hrs & H). apply bind_Ret in H as (o7 & H7 & H). destruct (Z.ltb_spec 0 fa); [done|].
  apply Ret_inj in H. injection H as <- <- <- <- <-. unfold say in H7. apply bind_Ret in H7 as (s6 & H7 & E). apply Ret_inj in E.
  split; [done|]. split; [done|]. exists boot, info, kb, o5, o6, fin, rs, s6. done.
Qed.

(** What a self-test without failures leaves behind. *)
Lemma self_test_inv params o p f s o' :
  self_test params o = Ret (p, f, s, o') → f ≤ 0 → cpu_ready o →
  cpu_ready o' ∧ f = 0 ∧
  (params.(Params.selftest) = true →
     p + s = 26 ∧ 0 ≤ s ≤ 2 ∧ Forall (fun t => t = Ret Passed) (vmm_suite debug k o'.(o_heap) o'.(o_vm)) ∧
     count_wx_violations debug o'.(o_vm) = Ret 0 ∧ o'.(o_vm).(NX_AVAILABLE) = true).
Proof.
  intros H Hf Hr. unfold self_test in H. destruct (Params.selftest params).
  - apply bind_Ret in H as (o1 & [s1 ->]%say_inv & H). apply bind_Ret in H as ([[[pa fa] sk] w] & Hrun & H). apply Ret_inj in H.
    injection H as <- <- <- <-. split; [exact Hr|]. pose proof (all_counted _ _ _ _ _ _ Hrun) as (_ & _ & Hf0).
    assert (fa = 0) as -> by lia. split; [done|]. intros _. exact (green_means_verified _ _ _ _ _ Hrun).
  - apply bind_Ret in H as (o1 & [s1 ->]%say_inv & H). apply Ret_inj in H. injection H as <- <- <- <-. split; [exact Hr|]. done.
Qed.

(** C4: Nothing unverified reaches the idle loop.  If [kernel_main] gets there,
    it was given a parameter block, the CPU has SSE2, NX and SYSCALL, the
    control-register audit finds no problem (paging, write protection, long mode
    and NX on, SMEP and SMAP on where the CPU has them), no self-test failed, and,
    unless [orin.selftest=off] was given, all 26 tests are accounted for and every
    address-space test holds of the page tables the kernel then runs on, with no
    page writable and executable. *)
Theorem idle_is_verified mb bp o params p f s o' :
  kernel_main mb bp o = Ret (Idle params p f s o') →
  bp ≠ 0 ∧ cpu_ready o' ∧ f = 0 ∧
  (params.(Params.selftest) = true →
     p + s = 26 ∧ 0 ≤ s ≤ 2 ∧ Forall (fun t => t = Ret Passed) (vmm_suite debug k o'.(o_heap) o'.(o_vm)) ∧
     count_wx_violations debug o'.(o_vm) = Ret 0 ∧ o'.(o_vm).(NX_AVAILABLE) = true).
Proof.
  intros (Hbp & Hf & boot & info & kb & o5 & o6 & n & rs & s6 & Hr & H6 & _ & _ & _ & ->)%idle_inv.
  split; [done|]. exact (self_test_inv _ _ _ _ _ _ H6 Hf Hr).
Qed.

Lemma banner_inv boot ps info n rs :
  banner build_id boot ps info n = Ret rs → kmain_rec Info 792 (protection_line n) ∈ rs ∧ kmain_rec Info 801 (selftest_line ps n) ∈ rs.
Proof. unfold banner. intros H. res_inv. subst rs. split; [do 11 right; left|do 13 right; left]. Qed.

(** C7: The banner is true.  Unless [orin.selftest=off] was given, the records
    written last before the idle loop are a banner that says write protection and
    NX are on, that no page is writable and executable, and that no test failed;
    and so it is: the control registers and page tables the kernel then runs on
    have these properties, and SMEP and SMAP are reported as CR4 has them. *)
Theorem banner_truthful mb bp o params p f s o' :
  kernel_main mb bp o = Ret (Idle params p f s o') → params.(Params.selftest) = true →
  ∃ before rs, say_all now file_of rs before = Ret (sink_of o') ∧
    kmain_rec Info 792 (lit " protection    : WP=on  NXE=on  SMEP=" ++ yes (bit 20 o'.(o_cr4)) ++ lit " SMAP=" ++
      yes (bit 21 o'.(o_cr4)) ++ lit " W^X violations=0") ∈ rs ∧
    kmain_rec Info 801 (lit " self-test     : " ++ udec p ++ lit " passed, 0 failed, " ++ udec s ++ lit " skipped") ∈ rs ∧
    bit 16 o'.(o_cr0) = true ∧ bit 11 o'.(kern).(Interrupts.efer) = true ∧ count_wx_violations debug o'.(o_vm) = Ret 0.
Proof.
  intros (_ & Hf & boot & info & kb & o5 & o6 & n & rs & s6 & Hr & H6 & Hn & Hb & Hs & ->)%idle_inv Hst.
  destruct (self_test_inv _ _ _ _ _ _ H6 Hf Hr) as (Hr6 & -> & Hv). destruct (Hv Hst) as (_ & _ & _ & Hwx & _).
  unfold measure in Hn. rewrite Hwx in Hn. cbn [mbind Res_bind] in Hn. apply Ret_inj in Hn. subst n.
  destruct Hr6 as (_ & _ & _ & Hp). apply problems_none in Hp. cbn [Regs.cr0 Regs.cr4 Regs.efer] in Hp.
  destruct Hp as (B1 & B2 & B3 & B4 & _ & _).
  apply banner_inv in Hb as [Hb1 Hb2]. unfold protection_line in Hb1. unfold selftest_line in Hb2. rewrite Hst in Hb2.
  cbn [n_cr0 n_cr4 n_nxe n_wx n_pass n_fail n_skip] in *. exists (sink_of o6), rs. rewrite sink_of_with.
  split; [done|]. split; [|split; [|split_and!; try done]].
  - destruct (bit 16 (o_cr0 o6)) eqn:E; [|done]. exact Hb1.
  - rewrite app_nil_r in Hb2. exact Hb2.
Qed.

(** Started by anything but the boot stub, the kernel says so and stops: the whole
    message reaches the serial line. *)
Lemma no_block_reported mb o :
  (∀ d : D, Z.land (bus_in (COM1 + REG_LINE_STATUS) d).1 LSR_THRE ≠ 0) →
  length o.(text) = 2000%nat → 0 ≤ raw_pos.1 < 25 → 0 ≤ raw_pos.2 < 80 →
  ∃ r l, kernel_main mb 0 o = Ret (NoParameterBlock r) ∧ io r.(rhw) = io (ports o) ++ l ∧ wire COM1 l = crlf fatal_message.
Proof.
  intros Hu Hl H1 H2. unfold kernel_main, not_booted. cbn [Z.eqb]. rewrite print_shown.
  assert (shown (concat [fatal_message]) = fatal_message) as -> by (by vm_compute).
  destruct (print_str_prints Hu fatal_message (mkRaw raw_pos.1 raw_pos.2 true o.(text) (ports o))) as (r & -> & _ & _ & l & E & W); [done|].
  cbn [mbind Res_bind]. exists r, l. split; [done|]. split; [exact E|]. by apply W.
Qed.

(** ** The boot succeeds *)

Section Boots.
Context `{GL : !GlobalAllocLaws A} `{HR : !HeapRoom A}.

(** What the boot stub, the linker script, the loader, the CPU, the devices and
    the heap's allocator promise. *)
Record promises (mb bp : Z) (p : Arch.BootParams) (boot : BootInfo) (o : O) : Prop := {
  pr_release : debug = false;
  pr_bss : KERNEL_VMA ≤ k.(bss_start) < k.(bss_end) ∧ k.(bss_end) - k.(bss_start) < 64 * 1024 * 1024;
  pr_feats : o.(feats).(sse2) = true ∧ o.(feats).(Cpuid.nx) = true ∧ o.(feats).(syscall) = true;
  pr_long : long_mode o.(o_cr0) o.(o_cr3) o.(o_cr4) o.(kern).(Interrupts.efer);
  pr_info : 0 ≤ mb < U64 ∧ read_from o.(o_vm).(mem) mb = Ret (inr boot);
  pr_nx : (parse_params (cmdline_str boot)).(Params.nx) = true;
  pr_machine : machine_ok k bp p boot o.(o_vm);
  pr_covers : covers_2m o.(o_vm);
  pr_memory : enough_memory k p boot;
  pr_ist : ist_ok ist_base;
  pr_gdt : o.(kern).(gdt) = mkGdt false Tss_new Table_new;
  pr_fb fb : boot.(framebuffer) = Some fb → fb.(fb_address) + fb.(fb_size) < U64;
  pr_text : length o.(text) = 2000%nat;
  pr_uart : o.(o_com1).(Serial.base) = COM1;
  pr_log : 0 ≤ o.(o_cfg).(emitted) ∧ 0 ≤ o.(o_cfg).(filtered) ∧ o.(o_cfg).(emitted) + o.(o_cfg).(filtered) + 256 < U64;
  pr_timer : o.(kern).(machine).(pit).(TICKS) + 2 < U64 ∧ idt_ticks ≠ 0 ∧
    ∃ j, (j ≤ Z.to_nat SPIN_LIMIT)%nat ∧ o.(kern).(machine).(pit).(TICKS) + 2 ≤ ticks j;
  pr_keys : 0 ≤ o.(o_kbd).(events) ∧ o.(o_kbd).(events) + 256 < U64;
  pr_heap : has_room SELFTEST_ROOM o.(o_hmem);
}.

Context (mb bp : Z) (p : Arch.BootParams) (boot : BootInfo).

(** The state between two steps: the part the later steps depend on, and room
    for [n] more records in the log. *)
Record carried (n : Z) (o0 o : O) : Prop := {
  c_hmem : o.(o_hmem) = o0.(o_hmem);
  c_kbd : o.(o_kbd).(events) = o0.(o_kbd).(events);
  c_sink : sink_ok n (sink_of o);
  c_pit : o.(kern).(machine).(pit).(TICKS) = o0.(kern).(machine).(pit).(TICKS);
  c_bp : o.(BOOT_PARAMS_PHYS) = bp;
}.

(** Writing [rs] uses up its length of the room, or less. *)
Lemma say_ok n m rs o0 o :
  0 ≤ n → n + Z.of_nat (length rs) ≤ m → carried m o0 o → ∃ s, say rs o = Ret (with_sink s o) ∧ carried n o0 (with_sink s o).
Proof.
  intros Hn Hm [C1 C2 C3 C4 C5].
  destruct (say_all_ok now file_of rs n (sink_of o)) as (s & E & Hs & _); [done|by apply (sink_less m)|].
  exists s. unfold say. rewrite E. split; [done|]. by split; rewrite ?sink_of_with.
Qed.

Lemma early_ok o : promises mb bp p boot o → ∃ o', early bp o = Ret o' ∧ carried 249 o o' ∧ o'.(o_vm) = o.(o_vm) ∧
  o'.(kern).(gdt) = o.(kern).(gdt) ∧ o'.(feats) = o.(feats) ∧ o'.(o_cr0) = o.(o_cr0) ∧ o'.(o_cr3) = o.(o_cr3) ∧ o'.(o_cr4) = o.(o_cr4) ∧
  o'.(kern).(Interrupts.efer) = o.(kern).(Interrupts.efer).
Proof.
  intros H. pose proof (pr_bss _ _ _ _ _ H) as [[B1 B2] B3]. unfold early, zero_kernel_bss. rewrite sub64_ok by lia.
  cbn [mbind Res_bind].
  destruct (Z.leb_spec KERNEL_VMA (bss_start k)); [|lia]. destruct (Z.ltb_spec (bss_start k) (bss_end k)); [|lia].
  destruct (Z.ltb_spec (bss_end k - bss_start k) (64 * 1024 * 1024)); [|lia]. cbn [andb rassert mbind Res_bind].
  destruct (Serial.init (o_com1 o) (ports o)) as [u h] eqn:Es.
  assert (u.(Serial.base) = COM1) as Hu.
  { unfold Serial.init in Es. destruct (loopback _ _ _). injection Es as <- _. apply (pr_uart _ _ _ _ _ H). }
  destruct (vga_init_ok (mkConsole (writer_ o) (text o) h)) as (c & -> & Hc & _); [apply (pr_text _ _ _ _ _ H)|].
  cbn [mbind Res_bind]. edestruct (say_ok 249 256) as (s & -> & Hs); [| | |eexists; split; [reflexivity|]; split; [exact Hs|done]].
  - done.
  - pose proof (length_head build_id (Serial.present u) (bss_start k) (bss_end k - bss_start k)). lia.
  - split; try done. split; [by destruct c|]. split; [done|]. apply (pr_log _ _ _ _ _ H).
Qed.

Lemma check_cpu_ok o0 o :
  carried 249 o0 o → o.(feats).(sse2) = true ∧ o.(feats).(Cpuid.nx) = true ∧ o.(feats).(syscall) = true →
  long_mode o.(o_cr0) o.(o_cr3) o.(o_cr4) o.(kern).(Interrupts.efer) →
  ∃ o', check_cpu o = Ret (true, o') ∧ carried 233 o0 o' ∧ o'.(kern).(gdt) = o.(kern).(gdt) ∧
    o'.(o_vm) = mkVmm true o.(o_vm).(PT_POOL) o.(o_vm).(KERNEL_PML4) o.(o_vm).(CR3) o.(o_vm).(mem) o.(o_vm).(src).
Proof.
  intros Hc (F1 & F2 & F3) Hl. unfold check_cpu. destruct (say_ok 241 249 (cpu_records (feats o) (SUSPECT_ o)) o0 o) as (s1 & -> & C1);
    [done|pose proof (length_cpu (feats o) (SUSPECT_ o)); lia|done|]. cbn [mbind Res_bind].
  assert (∃ w, Cpuid.report (feats o) = Ret w) as [w Hw] by (unfold Cpuid.report; rewrite F1, F2, F3; by eexists).
  change (feats (with_sink s1 o)) with (feats o). rewrite Hw. cbn [mbind Res_bind].
  destruct (say_ok 238 241 (degraded_record <$> w) o0 (with_sink s1 o)) as (s2 & -> & C2);
    [done|rewrite length_fmap; apply length_degraded in Hw; lia|done|]. cbn [mbind Res_bind].
  destruct (entropy_probe _ _ _) as [verdict suspect].
  destruct (say_ok 237 238 (entropy_records verdict) o0 (with_sink s2 (with_sink s1 o))) as (s3 & -> & C3);
    [done|pose proof (length_entropy verdict); lia|done|]. cbn [mbind Res_bind].
  set (o3 := with_sink s3 _) in *. change (feats o3) with (feats o). rewrite F2.
  destruct (enable_nx_ok true o3.(kern)) as (kr & -> & Hn & Hg & Hm & He).
  assert (long_mode (o_cr0 o3) (o_cr3 o3) (o_cr4 o3) (Interrupts.efer kr)) as Hl'.
  { unfold long_mode, EFER_NXE in *. rewrite He, !bit_lor by lia. destruct Hl as (L1 & L2 & L3 & L4 & L5 & L6 & L7). cbn.
    by rewrite L5, L6. }
  rewrite (proj2 (verify_long_mode_spec _ _ _ _ _ _) (conj Hl' eq_refl)). cbn [mbind Res_bind]. rewrite Hn.
  edestruct (say_ok 233 237) as (s4 & -> & C4); [| | |cbn [mbind Res_bind]; eexists; split; [reflexivity|]; split; [exact C4|by cbn]].
  - done.
  - pose proof (length_long_mode (feats o) (o_cr0 o3) (o_cr3 o3) (o_cr4 o3) (Interrupts.efer kr)). lia.
  - destruct C3 as [K1 K2 K3 K4 K5]. split; try done. cbn. by rewrite Hm.
Qed.

Lemma read_boot_ok o0 o :
  carried 233 o0 o → 0 ≤ mb < U64 → read_from o.(o_vm).(mem) mb = Ret (inr boot) → block_ok o.(o_vm).(mem) bp p →
  ∃ o', read_boot mb o = Ret (boot, parse_params (cmdline_str boot), o') ∧ carried 161 o0 o' ∧ o'.(kern).(gdt) = o.(kern).(gdt) ∧ o'.(o_vm) = o.(o_vm).
Proof.
  intros C Hmb Hr [Hb _ _]. unfold read_boot. rewrite Hr. cbn [mbind Res_bind].
  destruct (read_from_total o.(o_vm).(mem) mb Hmb) as (r & Hr' & _ & Hi).
  rewrite Hr in Hr'. apply Ret_inj in Hr'. subst r. destruct (Hi boot eq_refl) as (_ & _ & [Hw _] & _).
  destruct (say_ok 164 233 (boot_info_records boot) o0 o) as (s1 & -> & C1); [done|pose proof (length_boot_info boot Hw); lia|done|].
  cbn [mbind Res_bind]. unfold apply_params. set (ps := parse_params _).
  edestruct (say_ok 162 164 (params_records ps)) as (s2 & -> & C2); [done|pose proof (length_params ps); lia| |].
  { destruct C1 as [K1 K2 K3 K4 K5]. split; [exact K1|exact K2| |exact K4|exact K5].
    unfold sink_of, sink_ok, configure in *. cbn in *. by destruct (Params.log ps), (Params.console ps). }
  cbn [mbind Res_bind]. unfold verify_load_address. rewrite (c_bp _ _ _ C2). cbn [with_sink o_vm]. unfold kernel_phys_start.
  rewrite Hb.
  cbn [fmap Res_fmap mbind Res_bind].
  edestruct (say_ok 161 162) as (s3 & -> & C3); [| |exact C2|cbn [mbind Res_bind]; eexists; split; [reflexivity|]; split; [exact C3|done]]; done.
Qed.

(** The memory steps are those of [bring_up], with their reports in between. *)
Lemma memory_ok o0 o ps :
  carried 161 o0 o → machine_ok k bp p boot o.(o_vm) →
  ∃ info o' v' h, memory boot ps o = Ret (info, o') ∧ carried 148 o0 o' ∧ o'.(kern).(gdt) = o.(kern).(gdt) ∧
    o'.(o_vm) = v' ∧ o'.(o_heap) = h ∧ booted debug k bp p boot o.(o_vm) ps.(Params.nx) v' h ∧ 0 ≤ info.(text_va) + info.(text_mapped) < U64.
Proof.
  intros C Hm. destruct (bring_up_ok debug k bp p boot ps.(Params.nx) o.(o_vm) Hm) as (info & v' & h & Hu & Hb). unfold bring_up in Hu.
  apply bind_Ret in Hu as (s & E1 & Hu). apply bind_Ret in Hu as (s' & E2 & Hu). apply bind_Ret in Hu as ([us to] & E3 & Hu).
  apply bind_Ret in Hu as ([i v1] & E4 & Hu). apply bind_Ret in Hu as (wx & E5 & Hu). apply bind_Ret in Hu as (v2 & E6 & Hu).
  apply bind_Ret in Hu as ([by_ h'] & E7 & Hu). apply Ret_inj in Hu. injection Hu as -> -> ->.
  unfold memory. rewrite E1. cbn [mbind Res_bind]. rewrite (c_bp _ _ _ C), E2. cbn [mbind Res_bind].
  destruct (mo_block _ _ _ _ _ Hm) as [Hbl _ _]. unfold kernel_phys_start, kernel_phys_end. rewrite Hbl.
  cbn [fmap Res_fmap mbind Res_bind].
  edestruct (say_ok 156 161) as (s1 & -> & C1); [done| |exact C|]; [pose proof (length_reserve (kernel_phys_start_ p) (kernel_phys_end_ p) boot); lia|].
  cbn [mbind Res_bind]. rewrite E3. cbn [mbind Res_bind].
  edestruct (say_ok 154 156) as (s2 & -> & C2); [done| |exact C1|]; [pose proof (length_memory us to (Pmm.stats s')); lia|].
  cbn [mbind Res_bind]. rewrite (c_bp _ _ _ C2), E4. cbn [mbind Res_bind]. rewrite E5. cbn [mbind Res_bind].
  edestruct (say_ok 150 154) as (s3 & -> & C3); [done| |exact C2|]; [cbn; lia|]. cbn [mbind Res_bind]. rewrite E6.
  cbn [mbind Res_bind].
  edestruct (say_ok 149 150) as (s4 & -> & C4); [done| |exact C3|]; [by destruct (Params.nx ps); cbn; lia|]. cbn [mbind Res_bind].
  rewrite E7.
  cbn [mbind Res_bind]. edestruct (say_ok 148 149) as (s5 & -> & C5);
    [done| | |cbn [mbind Res_bind]; eexists info, _, v', h; split; [reflexivity|]; split; [exact C5|]]; [done|by destruct C4|].
  apply init_text in E4 as (_ & _ & Ht); [|apply (mo_sections _ _ _ _ _ Hm)]. do 4 (split; [done|]). exact Ht.
Qed.

Lemma devices_ok o0 o :
  carried 148 o0 o → ist_ok ist_base → o.(kern).(gdt) = mkGdt false Tss_new Table_new →
  (∀ fb, boot.(framebuffer) = Some fb → fb.(fb_address) + fb.(fb_size) < U64) →
  ∃ kb o', devices boot o = Ret (kb, o') ∧ carried 138 o0 o' ∧ Z.testbit (masks o'.(kern).(machine).(pic)).1 1 = false.
Proof.
  intros C Hi Hg Hf. unfold devices. edestruct (say_ok 145 148) as (s1 & -> & C1); [done| |exact C|];
    [pose proof (length_syscall (feats o) (<[addr.EFER := o.(kern).(Interrupts.efer)]> msrs)); lia|]. cbn [mbind Res_bind].
  set (o1 := with_sink s1 o) in *.
  destruct (interrupts_init_ok o1.(feats).(Cpuid.nx) ist_base fills o1.(kern) (demo_8259 0x08 4) (demo_8259 0x70 2) Hi Hg)
    as (info & kr & l & -> & _ & Hm & _ & _ & Hp & _). cbn [mbind Res_bind].
  edestruct (say_ok 141 145 (interrupt_records info)) as (s2 & -> & C2); [done|cbn; lia| |].
  { destruct C1 as [K1 K2 K3 K4 K5]. split; try done. cbn. by rewrite Hp. }
  cbn [mbind Res_bind]. set (o2 := with_sink s2 _) in *.
  destruct (keyboard_init_ok o2.(o_kbd) o2.(kern).(machine).(mhw)) as (pr & st & h & -> & _ & _ & _ & _ & _ & He & _).
  cbn [mbind Res_bind].
  destruct (unmask_correct irq_KEYBOARD o2.(kern).(machine).(pic) h _ _ ltac:(done) Hm) as (p1 & h1 & l1 & -> & _ & _ & Hd & _).
  cbn [mbind Res_bind].
  assert (∃ lv, report_framebuffer boot (TEXT_MODE_LIVE o2) = Ret lv) as [[live far] ->].
  { unfold report_framebuffer. destruct (framebuffer boot) as [fb|]; [|by eexists]. rewrite add64_ok by by apply Hf. by eexists. }
  cbn [mbind Res_bind]. edestruct (say_ok 138 141 (framebuffer_records boot far)) as (s3 & -> & C3);
    [done|pose proof (length_framebuffer boot far); lia| |cbn [mbind Res_bind]; eexists _, _; split; [reflexivity|]; split; [exact C3|]].
  - destruct C2 as [K1 K2 K3 K4 K5]. split; try done. cbn. congruence.
  - unfold deliverable, line_masked in Hd. cbn in Hd. apply andb_true_iff in Hd as [Hd _]. by apply negb_true_iff in Hd.
Qed.

Lemma self_test_ok o0 o v ps :
  promises mb bp p boot o0 → carried 138 o0 o → cpu_ready o → machine_ok k bp p boot v → v.(NX_AVAILABLE) = true → covers_2m v →
  Z.testbit (masks o.(kern).(machine).(pic)).1 1 = false → booted debug k bp p boot v true o.(o_vm) o.(o_heap) →
  ∃ pa sk o', self_test ps o = Ret (pa, 0, sk, o') ∧ sink_ok 21 (sink_of o') ∧ fs_inv o'.(o_vm).(src) ∧
    (∃ c, count_wx_violations debug o'.(o_vm) = Ret c) ∧
    if ps.(Params.selftest) then 24 ≤ pa ∧ pa + sk = 26 else pa = 0 ∧ sk = 0.
Proof.
  intros Hpr Hc Hcpu Hm Hav Hcov Hirq Hb. unfold self_test. destruct (bt_wx _ _ _ _ _ _ _ _ _ Hb) as (c & Hwx & _).
  destruct (Params.selftest ps).
  - edestruct (say_ok 137 138) as (s1 & -> & C1); [done| |exact Hc|]; [done|]. cbn [mbind Res_bind]. set (o1 := with_sink s1 o) in *.
    destruct (pr_timer _ _ _ _ _ Hpr) as (T1 & T2 & T3). pose proof (pr_release _ _ _ _ _ Hpr) as Hd.
    destruct (pr_keys _ _ _ _ _ Hpr) as [K1 K2]. destruct C1 as [C1 C2 C3 C4 C5].
    assert (env_ok (env_of o1)) as Henv.
    { split; cbn [env_of e_debug e_feats e_regs e_start e_idt e_ticks e_pic]; [done| | | |by rewrite C4|done];
      destruct Hcpu as (_ & _ & _ & (Q1 & Q2 & Q3 & Q4 & Q5 & Q6)%problems_none); by split. }
    destruct (selftest_passes _ (pr_heap _ _ _ _ _ Hpr)) as (m' & Hheap & _).
    destruct (run_green (env_of o1) p boot v o1.(o_vm) o1.(o_heap) (world_of o1) m' 108) as (w' & Hrun & _ & _ & Hrd & Hs & _);
      cbn [env_of world_of e_syms e_bp vm heap hmem kbd out]; try done.
    + by rewrite C5.
    + apply (pr_memory _ _ _ _ _ Hpr).
    + by rewrite C5, <- Hd.
    + rewrite C1. exact Hheap.
    + by rewrite C2.
    + by rewrite C2.
    + rewrite Hrun. cbn [mbind Res_bind]. eexists _, _, _. split; [reflexivity|].
      split; [unfold with_world; rewrite sink_of_with; by apply (sink_less 108)|]. split; [exact Hrd|].
      split; [exists 0; apply (green_means_verified _ _ _ _ _ Hrun)|]. cbn [pass skip_]. unfold one_if.
      destruct (e_live _), (has_ps2 _); lia.
  - edestruct (say_ok 21 138) as (s1 & -> & C1); [done| |exact Hc|]; [done|]. cbn [mbind Res_bind].
    eexists 0, 0, _. split; [reflexivity|]. split; [apply C1|]. split; [apply (bt_src _ _ _ _ _ _ _ _ _ Hb)|].
    split; [by exists c|done].
Qed.

Lemma verify_boot_ok o0 o v ps info kb :
  promises mb bp p boot o0 → carried 138 o0 o → cpu_ready o → machine_ok k bp p boot v → v.(NX_AVAILABLE) = true → covers_2m v →
  Z.testbit (masks o.(kern).(machine).(pic)).1 1 = false → booted debug k bp p boot v true o.(o_vm) o.(o_heap) →
  0 ≤ info.(text_va) + info.(text_mapped) < U64 →
  ∃ pa sk o', verify_boot boot ps info true kb o = Ret (Idle ps pa 0 sk o') ∧
    if ps.(Params.selftest) then 24 ≤ pa ∧ pa + sk = 26 else pa = 0 ∧ sk = 0.
Proof.
  intros Hpr Hc Hcpu Hm Hav Hcov Hirq Hb Ht. unfold verify_boot.
  destruct (self_test_ok o0 o v ps Hpr Hc Hcpu Hm Hav Hcov Hirq Hb) as (pa & sk & o1 & -> & Hs & [Hi _] & [c Hwx] & Hcount).
  cbn [mbind Res_bind].
  unfold measure. rewrite Hwx. cbn [mbind Res_bind]. destruct (mo_mmap _ _ _ _ _ Hm) as [Hwf Hlen].
  pose proof (inv_count _ Hi) as Hn. pose proof (frames_size_bound _ Hi) as Hx. rewrite MAX_FRAMES_val in Hx.
  edestruct (banner_ok build_id boot ps info) as (rs & -> & Hl & _); [| | |exact Ht|].
  - cbn. lia.
  - cbn. rewrite U64_val. lia.
  - eexists. by apply sum_lengths_ok.
  - cbn [mbind Res_bind]. unfold say. destruct (say_all_ok now file_of rs 0 (sink_of o1)) as (s & -> & _); [done|by rewrite Hl|].
    cbn [mbind Res_bind Z.ltb Z.compare]. by exists pa, sk, (with_sink s o1).
Qed.

Lemma boots o :
  promises mb bp p boot o →
  ∃ pa sk o', kernel_main mb bp o = Ret (Idle (parse_params (cmdline_str boot)) pa 0 sk o') ∧
    if (parse_params (cmdline_str boot)).(Params.selftest) then 24 ≤ pa ∧ pa + sk = 26 else pa = 0 ∧ sk = 0.
Proof.
  intros Hpr. unfold kernel_main. pose proof (pr_machine _ _ _ _ _ Hpr) as Hm.
  destruct (Z.eqb_spec bp 0); [by destruct (mo_bp _ _ _ _ _ Hm)|]. destruct (pr_info _ _ _ _ _ Hpr) as [Hmb Hinfo].
  destruct (early_ok o Hpr) as (o1 & -> & C1 & V1 & G1 & F1 & R0 & R3 & R4 & Re). cbn [mbind Res_bind].
  destruct (check_cpu_ok o o1 C1) as (o2 & E2 & C2 & G2 & V2).
  { rewrite F1. apply (pr_feats _ _ _ _ _ Hpr). }
  { rewrite R0, R3, R4, Re. apply (pr_long _ _ _ _ _ Hpr). }
  rewrite E2. cbn [mbind Res_bind]. apply check_cpu_ready in E2 as [Hr2 _]. rewrite V1 in V2.
  assert (machine_ok k bp p boot o2.(o_vm)) as Hm2 by (rewrite V2; by destruct Hm; constructor).
  assert (covers_2m o2.(o_vm)) as Hc2 by (rewrite V2; apply (pr_covers _ _ _ _ _ Hpr)).
  destruct (read_boot_ok o o2 C2 Hmb) as (o3 & E3 & C3 & K3 & V3); [by rewrite V2|apply Hm2|].
  rewrite E3. cbn [mbind Res_bind]. rewrite <- V3 in Hm2, Hc2.
  destruct (memory_ok o o3 (parse_params (cmdline_str boot)) C3 Hm2) as (info & o4 & v' & h & E4 & C4 & K4 & V4 & H4 & Hb & Ht).
  rewrite E4. cbn [mbind Res_bind]. rewrite (pr_nx _ _ _ _ _ Hpr) in Hb.
  destruct (devices_ok o o4 C4) as (kb & o5 & E5 & C5 & Hirq);
    [apply (pr_ist _ _ _ _ _ Hpr)|by rewrite K4, K3, G2, G1; apply (pr_gdt _ _ _ _ _ Hpr)|apply (pr_fb _ _ _ _ _ Hpr)|].
  rewrite E5. cbn [mbind Res_bind].
  pose proof (devices_ready _ _ _ _ (memory_ready _ _ _ _ _ (read_boot_ready _ _ _ _ _ Hr2 E3) E4) E5) as Hr5.
  apply devices_keep in E5 as (_ & _ & _ & _ & _ & V5 & H5).
  apply (verify_boot_ok o o5 o3.(o_vm)); try done; [by rewrite V3, V2|]. by rewrite V5, H5, V4, H4.
Qed.


End Boots.

End Kmain.

(** ** Witnesses *)

#[local] Existing Instance x86_ref.
#[local] Existing Instance gdt_ref.

Definition demo_orin : Orin (list Z) Bump :=
  mkOrin demo_feats 0x80010001 0x201000 0x20 (mkKernel 0x500 false (@mkGdt gdt_ref false Tss_new 1) [] demo_machine)
    boot_machine Heap_new bump_heap State_initial VgaWriter_new (replicate 2000 (mkCell 0x20 7)) (CONFIG false) (Serial_new COM1) 0 false true 0 false.

Definition demo_ticks : nat → Z := fun i => Z.of_nat (i / 1000)%nat.

Abbreviation demo_main := (@kernel_main _ _ _ script_bus _ _ false demo_syms 0xFFFFFFFF81000000 (fun _ => true)
  demo_ticks 3 14 (fun _ => 2500) (fun _ => []) (fun m => m) (lit "orink 0.1") (fun _ => (true, 42)) ∅ (0, 0)).

Lemma demo_promises :
  @promises _ _ _ _ _ false demo_syms 0xFFFFFFFF81000000 demo_ticks 3 _ 0x90000 0x204000 boot_block boot_demo demo_orin.
Proof.
  split; cbn [demo_orin feats o_cr0 o_cr3 o_cr4 kern o_vm o_com1 o_cfg o_kbd o_hmem text]; last exact bump_has_room.
  - done.
  - by vm_compute.
  - done.
  - unfold long_mode. split_and!; by vm_compute.
  - split; [by vm_compute|exact boot_demo_read].
  - done.
  - exact boot_demo_ok.
  - exact boot_covers.
  - exact boot_enough.
  - split; by vm_compute.
  - done.
  - done.
  - apply length_replicate.
  - done.
  - split_and!; by vm_compute.
  - split; [by vm_compute|]. split; [done|]. exists 2000%nat. split; [unfold SPIN_LIMIT; lia|by vm_compute].
  - split_and!; by vm_compute.
Qed.


Lemma idle_is_verified_witness :
  ∃ pa sk o', demo_main 0x90000 0x204000 demo_orin = Ret (Idle (parse_params (cmdline_str boot_demo)) pa 0 sk o') ∧
    count_wx_violations false o'.(o_vm) = Ret 0 ∧ pa + sk = 26.
Proof.
  destruct (@boots _ _ _ script_bus _ _ false demo_syms 0xFFFFFFFF81000000 (fun _ => true)
    demo_ticks 3 14 (fun _ => 2500) (fun _ => []) (fun m => m) (lit "orink 0.1") (fun _ => (true, 42)) ∅ (0, 0) _ _ 0x90000 0x204000 boot_block boot_demo demo_orin
    demo_promises) as (pa & sk & o' & E & _).
  exists pa, sk, o'. split; [exact E|].
  destruct (@idle_is_verified _ _ _ script_bus _ _ false demo_syms 0xFFFFFFFF81000000 (fun _ => true)
    demo_ticks 3 14 (fun _ => 2500) (fun _ => []) (fun m => m) (lit "orink 0.1") (fun _ => (true, 42)) ∅ (0, 0) 0x90000 0x204000 demo_orin _ _ _ _ _ E)
    as (_ & _ & _ & H).
  destruct (H eq_refl) as (Hs & _ & _ & Hc & _). split; [exact Hc|exact Hs].
Defined.

Lemma banner_truthful_witness :
  ∃ pa sk o' before rs, demo_main 0x90000 0x204000 demo_orin = Ret (Idle (parse_params (cmdline_str boot_demo)) pa 0 sk o') ∧
    @say_all _ script_bus (fun _ => 2500) (fun m => m) rs before = Ret (sink_of o') ∧
    kmain_rec Info 801 (lit " self-test     : " ++ udec pa ++ lit " passed, 0 failed, " ++ udec sk ++ lit " skipped") ∈ rs.
Proof.
  destruct (@boots _ _ _ script_bus _ _ false demo_syms 0xFFFFFFFF81000000 (fun _ => true)
    demo_ticks 3 14 (fun _ => 2500) (fun _ => []) (fun m => m) (lit "orink 0.1") (fun _ => (true, 42)) ∅ (0, 0) _ _ 0x90000 0x204000 boot_block boot_demo demo_orin
    demo_promises) as (pa & sk & o' & E & _).
  destruct (@banner_truthful _ _ _ script_bus _ _ false demo_syms 0xFFFFFFFF81000000 (fun _ => true)
    demo_ticks 3 14 (fun _ => 2500) (fun _ => []) (fun m => m) (lit "orink 0.1") (fun _ => (true, 42)) ∅ (0, 0) 0x90000 0x204000 demo_orin _ _ _ _ _ E eq_refl)
    as (before & rs & H1 & _ & H2 & _).
  exists pa, sk, o', before, rs. split; [exact E|]. split; [exact H1|exact H2].
Defined.
