(* ===== verification/Idle.v ===== *)
(** * The echo loop (kernel/src/kmain.rs, [idle])

    What the kernel does once it has booted: drain the keyboard queue, echo each
    typed character to the serial port and the screen, halt when there is nothing
    to do.  The main theorem follows a scancode from the interrupt handler's ring
    to the bytes on the serial line. *)

From stdpp Require Import base list list_numbers strings.
From Stdlib Require Import ZArith Lia.
From S2P Require Import Prelude Ports BootInfo Params Pit Ring Keyboard KeyboardSpec Vga Serial Raw ConsoleLog Idt.
#[local] Open Scope Z_scope.

(** [char::encode_utf8] *)
Definition utf8_bytes (c : Z) : bytes :=
  if c <? 0x80 then [c]
  else if c <? 0x800 then [Z.lor 0xC0 (c / 64); Z.lor 0x80 (c mod 64)]
  else if c <? 0x10000 then [Z.lor 0xE0 (c / 4096); Z.lor 0x80 (c / 64 mod 64); Z.lor 0x80 (c mod 64)]
  else [Z.lor 0xF0 (c / 262144); Z.lor 0x80 (c / 4096 mod 64); Z.lor 0x80 (c / 64 mod 64); Z.lor 0x80 (c mod 64)].

(** The log and the consoles, the scancode queue, the decoder, the interrupt
    counters and the timer. *)
Record Shell (D : Type) : Type := mkShell {
  sink : Sink D; queue : Ring; decoder : State; irqs : Counters; timer : Pit }.
Arguments mkShell {D} _ _ _ _ _.
Arguments sink {D} _.
Arguments queue {D} _.
Arguments decoder {D} _.
Arguments irqs {D} _.
Arguments timer {D} _.

Section Echo.
Context {D : Type} `{B : Bus D}.
(** The clock at a message, the Debug name of a key, the file's name. *)
Context (now : bytes → Z) (code_name : KeyCode → bytes) (file : bytes).
Abbreviation S := (Shell D).

Definition set_sink (o : Sink D) (s : S) : S := mkShell o s.(queue) s.(decoder) s.(irqs) s.(timer).

(** [kinfo!] and the like. *)
Definition klog (l : Level) (line : Z) (msg : bytes) (s : S) : Res S :=
  o ← log (now msg) l (lit "orin_kernel::kmain") (file ++ lit ":" ++ dec line) msg s.(sink);
  Ret (set_sink o s).

(** [console::serial::print] *)
Definition serial_print (bs : bytes) (s : S) : S :=
  let '(u, h) := Serial.write_str bs s.(sink).(com1) s.(sink).(vga).(hw) in
  set_sink (mkSink s.(sink).(cfg) u (set_hw h s.(sink).(vga))) s.

(** [write!(WRITER.lock(), ..)] *)
Definition screen_write (bs : bytes) (s : S) : Res S :=
  v ← Vga.write_str bs s.(sink).(vga);
  Ret (set_sink (mkSink s.(sink).(cfg) s.(sink).(com1) v) s).

Definition screen_color (fg bg : Color) (s : S) : S :=
  set_sink (mkSink s.(sink).(cfg) s.(sink).(com1) (set_color fg bg s.(sink).(vga))) s.

Definition vga_print_prompt (s : S) : Res S :=
  let s := screen_color LightCyan Black s in
  s ← screen_write (lit "orin m1> ") s;
  Ret (screen_color LightGray Black s).

Definition report_counters (s : S) : Res S :=
  let c := s.(irqs) in
  s ← klog Info 905 (lit "counters: ticks=" ++ dec c.(timer_ticks) ++ lit " keys=" ++ dec c.(key_events) ++
        lit " spurious=" ++ dec c.(spurious) ++ lit " exceptions=" ++ dec c.(exceptions) ++
        lit " unassigned=" ++ dec c.(unassigned) ++ lit " syscalls=" ++ dec c.(syscalls)) s;
  n ← pending s.(queue);
  klog Info 909 (lit "keyboard: " ++ dec (event_count s.(decoder)) ++ lit " events, " ++ dec n ++
    lit " pending, " ++ dec (dropped_count s.(queue)) ++ lit " dropped (ring capacity 256)") s.

(** The character of a key press. *)
Definition echo_char (c : Z) (s : S) : Res S :=
  if c =? 0x0A then vga_print_prompt (serial_print [0x0D; 0x0A] s)
  else if c =? 0x08 then screen_write [0x08] (serial_print [0x08; 0x20; 0x08] s)
  else if c =? 0x1B then klog Info 942 (lit "key: Escape — no M1 binding (orinsh arrives in M10)") s
  else screen_write (utf8_bytes c) (serial_print (lit "ORIN|K|ECHO|" ++ utf8_bytes c ++ [0x0D; 0x0A]) s).

Definition handle_key (ev : KeyEvent) (s : S) : Res S :=
  if negb ev.(pressed) then Ret s
  else if ev.(ev_ctrl) && bool_decide (ev.(code) = KeyCode.C) then report_counters s
  else
    match ev.(ch) with
    | None => klog Debug 923 (lit "key: " ++ code_name ev.(code) ++ lit " (no character)") s
    | Some c =>
        s ← echo_char c s;
        if 0 <? dropped_count s.(queue) then
          klog Warn 956 (lit "keyboard: " ++ dec (dropped_count s.(queue)) ++
            lit " scancode(s) dropped — the echo loop is not keeping up with input") s
        else Ret s
    end.

(** Before the loop: the marker and the prompt. *)
Definition idle_start (s : S) : Res S :=
  s ← klog Info 836 (lit "idle: entering the M1 input echo loop") s;
  vga_print_prompt (serial_print (lit "ORIN|K|ECHO|ARMED" ++ [0x0D; 0x0A]) s).

(** One turn of the loop; the flag says whether it halts for an interrupt. *)
Definition idle_turn (tick : Z) (s : S) : Res (bool * S) :=
  '(evs, r, st) ← drain tick 16 s.(queue) s.(decoder);
  s ← for_list evs (mkShell s.(sink) r st s.(irqs) s.(timer)) handle_key;
  let t := ticks_since_boot s.(timer) in
  s ← (if (0 <? t) && (t mod 5000 =? 0) then
         n ← pending s.(queue);
         klog Trace 873 (lit "idle: uptime " ++ dec (seconds_since_boot s.(timer)) ++ lit "s, " ++
           dec (event_count s.(decoder)) ++ lit " key events, " ++ dec n ++ lit " scancodes pending, " ++
           dec (dropped_count s.(queue)) ++ lit " dropped") s
       else Ret s);
  Ret (bool_decide (evs = []), s).

(** ** What a key press puts on the serial line *)

Definition echo_text (c : Z) : bytes :=
  if c =? 0x0A then [0x0D; 0x0A]
  else if c =? 0x08 then [0x08; 0x20; 0x08]
  else lit "ORIN|K|ECHO|" ++ utf8_bytes c ++ [0x0D; 0x0A].

(** An event the loop answers without a log record. *)
Definition typed (ev : KeyEvent) : Prop :=
  ev.(pressed) = true →
  ev.(ev_ctrl) && bool_decide (ev.(code) = KeyCode.C) = false ∧ ∃ c, ev.(ch) = Some c ∧ c ≠ 0x1B.

Definition echoed (ev : KeyEvent) : bytes :=
  if ev.(pressed) then match ev.(ch) with Some c => echo_text c | None => [] end else [].

(** The shell can be used, and only the screen, the UART and the ports have
    changed since [s]; [bs] went out on the serial line if the UART still answers. *)
Definition usable (s : S) : Prop := vga_inv s.(sink).(vga) ∧ s.(sink).(com1).(base) = COM1.

Record sent (bs : bytes) (s s' : S) : Prop := {
  se_usable : usable s';
  se_rest : s'.(queue) = s.(queue) ∧ s'.(decoder) = s.(decoder) ∧ s'.(irqs) = s.(irqs) ∧ s'.(timer) = s.(timer) ∧
    s'.(sink).(cfg) = s.(sink).(cfg);
  se_wire : ∃ l, io s'.(sink).(vga).(hw) = io s.(sink).(vga).(hw) ++ l ∧
    (s'.(sink).(com1).(initialised) = true → s.(sink).(com1).(initialised) = true ∧ wire COM1 l = crlf bs);
}.

Lemma sent_nil s : usable s → sent [] s s.
Proof. intros Hu. split; [done|done|]. exists []. by rewrite app_nil_r. Qed.

Lemma sent_app a b s1 s2 s3 : sent a s1 s2 → sent b s2 s3 → sent (a ++ b) s1 s3.
Proof.
  intros [_ R1 (l1 & E1 & W1)] [U2 R2 (l2 & E2 & W2)]. split; [done|naive_solver congruence|].
  exists (l1 ++ l2). split; [by rewrite E2, E1, app_assoc|]. intros Hi. destruct (W2 Hi) as [Hi2 W2']. destruct (W1 Hi2) as [Hi1 W1'].
  split; [done|]. unfold wire in *. by rewrite writes_to_app, W1', W2', crlf_app.
Qed.

Lemma serial_print_sent bs s : usable s → sent bs s (serial_print bs s).
Proof.
  intros [Hv Hb]. unfold serial_print. pose proof (write_str_wire bs s.(sink).(com1) s.(sink).(vga).(hw)) as H.
  destruct (Serial.write_str bs _ _) as [u h]. destruct H as (l & k & E & Hu & Hm & _ & F & _). rewrite Hb in *.
  split; [by split|done|]. exists l. split; [exact E|]. intros Hi. split; [by apply Hm|by apply F].
Qed.

(** Nothing the screen does reaches the serial line. *)
Lemma screen_write_sent bs s : usable s → ∃ s', screen_write bs s = Ret s' ∧ sent [] s s'.
Proof.
  intros [Hv Hb]. unfold screen_write. destruct (write_str_ok bs s.(sink).(vga) Hv) as (v & E & Hv').
  rewrite E. cbn [mbind Res_bind]. eexists. split; [reflexivity|]. split; [by split|done|].
  apply write_str_adds in E as (l & El & Hl). exists l. split; [exact El|]. intros Hi. split; [done|]. by apply crtc_wire.
Qed.

Lemma prompt_sent s : usable s → ∃ s', vga_print_prompt s = Ret s' ∧ sent [] s s'.
Proof.
  intros Hu. unfold vga_print_prompt.
  destruct (screen_write_sent (lit "orin m1> ") (screen_color LightCyan Black s)) as (s1 & -> & [U1 R1 W1]); [exact Hu|].
  cbn [mbind Res_bind]. eexists. split; [reflexivity|]. split; [exact U1|exact R1|exact W1].
Qed.

Lemma echo_char_sent c s : usable s → c ≠ 0x1B → ∃ s', echo_char c s = Ret s' ∧ sent (echo_text c) s s'.
Proof.
  intros Hu Hc. unfold echo_char, echo_text.
  assert (∀ bs t, (∃ s', t (serial_print bs s) = Ret s' ∧ sent [] (serial_print bs s) s') → ∃ s', t (serial_print bs s) = Ret s' ∧ sent bs s s') as Hseq.
  { intros bs t (s' & E & Hs). exists s'. split; [done|]. rewrite <- (app_nil_r bs). eapply sent_app; [by apply serial_print_sent|done]. }
  destruct (c =? 0x0A); [apply Hseq, prompt_sent, serial_print_sent, Hu|].
  destruct (c =? 0x08); [apply Hseq, screen_write_sent, serial_print_sent, Hu|].
  destruct (Z.eqb_spec c 0x1B); [done|]. apply Hseq, screen_write_sent, serial_print_sent, Hu.
Qed.

Lemma handle_key_sent ev s :
  usable s → typed ev → dropped_count s.(queue) = 0 → ∃ s', handle_key ev s = Ret s' ∧ sent (echoed ev) s s'.
Proof.
  intros Hu Ht Hd. unfold handle_key, echoed. destruct (pressed ev) eqn:Ep; cbn [negb]; [|exists s; split; [done|by apply sent_nil]].
  destruct (Ht Ep) as (-> & c & -> & Hc). destruct (echo_char_sent c s Hu Hc) as (s' & -> & Hs). cbn [mbind Res_bind].
  assert (dropped_count s'.(queue) = 0) as -> by (destruct (se_rest _ _ _ Hs) as [-> _]; done). by exists s'.
Qed.

Lemma handle_keys_sent evs s :
  usable s → Forall typed evs → dropped_count s.(queue) = 0 →
  ∃ s', for_list evs s handle_key = Ret s' ∧ sent (concat (echoed <$> evs)) s s'.
Proof.
  intros Hu Ht Hd. revert s Hu Hd. induction Ht as [|ev evs Hev Ht IH]; intros s Hu Hd; cbn [for_list fmap list_fmap concat].
  - exists s. split; [done|by apply sent_nil].
  - destruct (handle_key_sent ev s Hu Hev Hd) as (s1 & -> & H1). cbn [mbind Res_bind].
    destruct (IH s1) as (s2 & -> & H2); [apply H1|by destruct (se_rest _ _ _ H1) as [-> _]|]. exists s2. split; [done|by eapply sent_app].
Qed.

Lemma poll_dropped tick r st o r' st' : poll tick r st = Ret (o, r', st') → dropped_count r' = dropped_count r.
Proof.
  unfold poll. intros ([b r1] & H & H1)%bind_Ret. assert (dropped_count r1 = dropped_count r) as <-.
  { unfold ring_pop in H. res_inv. repeat case_match; res_inv; simplify_eq; done. }
  destruct b; [|by simplify_eq]. apply bind_Ret in H1 as ([ev st1] & _ & H1). by simplify_eq.
Qed.

Lemma drain_dropped tick n r st evs r' st' : drain tick n r st = Ret (evs, r', st') → dropped_count r' = dropped_count r.
Proof.
  revert r st evs r' st'. induction n as [|n IH]; intros r st evs r' st'; cbn [drain]; [by intros [= _ <- _]|].
  intros ([[o r1] st1] & H1 & H2)%bind_Ret. apply poll_dropped in H1 as <-. destruct o as [ev|]; [|by simplify_eq].
  apply bind_Ret in H2 as ([[es r2] st2] & H2 & H3). apply IH in H2 as <-. by simplify_eq.
Qed.

(** C27: What is typed is echoed.  Take a turn of the idle loop in which the ring
    has dropped no scancode (a drop is logged), the tick count is not a positive
    multiple of 5000 (at which the loop logs a trace record) and the decoder's
    counters are not at their limit.  It takes a prefix of the scancode queue in
    order and decodes it; when every key pressed is a character (no Escape, no
    Ctrl+C, no key without one), the turn cannot fail, leaves the rest of the queue
    and the decoder exactly as draining does, and, if the UART is still in use when
    it ends, has put on the serial line the echo of those characters, in order, and
    nothing else. *)
Theorem typing_is_echoed tick s :
  usable s → ring_inv s.(queue) → dropped_count s.(queue) = 0 →
  s.(decoder).(events) + 16 < U64 → s.(decoder).(unknown_scancodes) + 16 < U64 →
  (0 <? ticks_since_boot s.(timer)) && (ticks_since_boot s.(timer) mod 5000 =? 0) = false →
  ∃ bs rest evs st', contents s.(queue) = bs ++ rest ∧ decode tick bs s.(decoder) = Ret (evs, st') ∧
    ((length evs < 16)%nat → rest = [] ∨ length bs = Datatypes.S (length evs)) ∧
    (Forall typed evs →
     ∃ s' l, idle_turn tick s = Ret (bool_decide (evs = []), s') ∧ usable s' ∧ contents s'.(queue) = rest ∧ s'.(decoder) = st' ∧
       io s'.(sink).(vga).(hw) = io s.(sink).(vga).(hw) ++ l ∧
       (s'.(sink).(com1).(initialised) = true → wire COM1 l = crlf (concat (echoed <$> evs)))).
Proof.
  intros Hu Hr Hd He Hk Ht. destruct (drain_ok tick 16 s.(queue) s.(decoder) Hr He Hk)
    as (evs & r' & st' & bs & rest & E & _ & Hc & Hc' & Hdec & _ & _ & Hstop).
  exists bs, rest, evs, st'. split; [done|]. split; [done|]. split; [done|]. intros Hty. unfold idle_turn. rewrite E. cbn [mbind Res_bind].
  destruct (handle_keys_sent evs (mkShell s.(sink) r' st' s.(irqs) s.(timer))) as (s' & -> & [U R (l & El & W)]);
    [done|done|cbn; by rewrite (drain_dropped _ _ _ _ _ _ _ E)|].
  cbn [mbind Res_bind]. destruct R as (R1 & R2 & _ & R4 & _). cbn [queue decoder timer] in *. rewrite R4, Ht. cbn [mbind Res_bind].
  exists s', l. split; [done|]. split; [done|]. rewrite R1, R2. split; [done|]. split; [done|]. split; [exact El|]. intros Hi. by apply W.
Qed.

End Echo.

(** ** Witnesses *)

(** The key H is in the queue and the UART is ready. *)
Definition demo_shell : Shell (list Z) :=
  mkShell (mkSink (CONFIG false) (mkSerial COM1 true) (mkConsole (mkVga 9 3 0x07) (replicate 2000 (mkCell 0x20 7)) (mkHw (replicate 40 0x60) [])))
    (mkRing (0x23 :: replicate 255 0) 1 0 0) State_initial Counters_initial (mkPit 12 true).

Lemma typing_is_echoed_witness :
  ∃ s' l, @idle_turn _ script_bus (fun _ => 0) (fun _ => []) [] 12 demo_shell = Ret (false, s') ∧
    io s'.(sink).(vga).(hw) = l ∧
    (s'.(sink).(com1).(initialised) = true → wire COM1 l = crlf (lit "ORIN|K|ECHO|h" ++ [0x0D; 0x0A])).
Proof.
  destruct (@typing_is_echoed _ script_bus (fun _ => 0) (fun _ => []) [] 12 demo_shell)
    as (bs & rest & evs & st' & Hc & Hd & Hs & H).
  - split; [split; [apply length_replicate|cbn; lia]|done].
  - apply (bool_decide_unpack _). by vm_compute.
  - done.
  - by vm_compute.
  - by vm_compute.
  - done.
  - change (contents (queue demo_shell)) with [0x23] in Hc. destruct bs as [|b [|b' bs]].
    + injection Hd as <- <-. destruct Hs as [->|Hs]; [cbn; lia|done|done].
    + injection Hc as <- <-. apply Ret_inj in Hd. injection Hd as <- <-.
      destruct H as (s' & l & E & _ & _ & _ & Hio & Hw).
      { apply Forall_singleton. intros _. split; [done|]. exists 0x68. split; [done|lia]. }
      exists s', l. split; [exact E|]. split; [exact Hio|exact Hw].
    + by destruct rest.
Defined.

Example echo_on_the_wire :
  match @idle_turn _ script_bus (fun _ => 0) (fun _ => []) [] 12 demo_shell with
  | Ret (_, s') => wire COM1 (io s'.(sink).(vga).(hw))
  | Panic _ => []
  end = lit "ORIN|K|ECHO|h" ++ [0x0D; 0x0D; 0x0A].
Proof. vm_compute. reflexivity. Qed.
